(* ===== verification/_CoqProject ===== *)
-Q . S2P
Prelude.v
Memory.v
Auxiliary.v
Protocol.v
Hardware.v
MessageBuilder.v
MessageBuilderSpec.v
Queries.v
Concrete.v
MessageBuilderTheorems.v
Double.v
MonotonicTimer.v
TPMWatcher.v
System.v
Responder.v
ResponderSpec.v
Server.v
Nhac.v
NhacNet.v
EndToEnd.v
NhacParser.v
ConfigurationParser.v
Numbers.v
NhacPrint.v
NhacMain.v
Main.v
Timer.v
