(* ===== verification/Prelude.v ===== *)
(** * Native Hardware Access: a verification development

    The program is a small server (src/src) that answers queries for a
    TPM-derived device ID and for time stamps of a monotonic clock over TCP,
    and a command line client for it (src/tools/src/nhac.cpp).

    ** The parts and how they interact

    [main] pins the process to one core, reads the configuration file, and
    constructs a [MonotonicTimer] (clock from the time stamp counter, whose
    frequency a thread checks periodically), a [TPMWatcher] (cache of the
    device ID, refreshed by another thread) and a [Responder] (socket list and
    main loop), which hands every received query to a [MessageBuilder]; that
    one reads timer and watcher and writes the reply.  When the frequency check
    fails, the responder closes all sockets and stays idle.  The client parses
    a description of queries, sends each, receives the response and decodes it.

    ** Files

    - [Prelude] (this file): tactics, hint databases, machine integers as [Z]
      with their wrap-around, little-endian bytes, lists.
    - [Memory]: results ([Val], an early [Ret], [Undef] for an access outside a
      buffer or another undefined behaviour, [NoFuel]), bounds-checked reads,
      and the state monad of code that writes into a caller's buffer.
    - [Auxiliary]: auxiliary.h, the overflow-checked addition.
    - [Protocol]: the messages as the interface document has them: TLV records,
      their encoding and parsing, the header, and which reply a list of records
      asks for.  Used by the specifications of the server and of the client.
    - [Hardware]: the interfaces (classes) between the message builder or the
      responder and timer and watcher: operations, laws, monotonicity.
    - [MessageBuilder]: messagebuilder.cpp, [createResponse] as written.
    - [MessageBuilderSpec]: the declarative specification [spec_reply] and the
      refinement proof; [Queries]: well-formed queries; [Concrete]: a small
      machine for examples; [MessageBuilderTheorems]: the theorems.
    - [Double]: IEEE binary64 arithmetic and the rounding error of a division;
      [MonotonicTimer]: monotonictimer.cpp; [TPMWatcher]: tpmwatcher.cpp.
    - [System]: the state the queries see, changed by the two threads between
      any two calls, with a mark for undefined behaviour of the watcher; it is an
      instance of the interfaces of [Hardware].
    - [Responder]: responder.cpp, the operations and the main loop as a step
      relation; [ResponderSpec]: its invariant, for any message builder that
      satisfies an interface; [Server]: the message builder satisfies it, and
      what a client sees of a connection.
    - [Nhac], [NhacNet], [NhacParser]: nhac.cpp, its messages, its connection
      and its query language; [EndToEnd]: client and server together.
    - [ConfigurationParser]: configurationparser.cpp; [Numbers]: the conversions
      std::stoi, stol, stoll and stod.
    - [NhacPrint], [NhacMain]: nhac.cpp, what it prints, its command line and its
      loop over the queries.
    - [Main]: main.cpp.
    - [Timer]: timer.cpp, the thread, its mutex and [stop] as interleaved steps.

    ** How the code is modelled

    Integers are [Z] with the conversions of the code written out ([u32], [i32],
    [u16] and so on).  Buffers are lists of bytes; every read and write checks
    the bounds and is [Undef] outside, so that a theorem which says that a call
    returns a [Val] also says that it stays within its buffers.  What is outside
    the program is an argument: the OpenSSL and picohash digests, the answers of
    the socket calls, of the TPM software stack, of CPUID, of the perf page, of
    the clocks, of the resolver for a host and a port.  Functions of the C and
    C++ libraries (the number conversions of [Numbers], operator>>, what recv(),
    connect() and freeaddrinfo() do to memory) are modelled as documented.  Facts
    relied on are named hypotheses ([digest_total], [recv_ok], [tss_sane],
    [HwLaws] and so on), and each claim with hypotheses has an instance, named
    after it with the suffix [_witness].  Resources (descriptors,
    mappings, TPM handles, address lists) are recorded in traces, and the
    theorems interpret the traces.  The constants of external headers are symbols.

    Loops that are not structural take fuel: the record loops the size of the
    message (a record has two bytes at least), the receive loop of the server
    the size of its buffer (a successful receive has one byte at least), the
    send loop the length of the data, the parser the length of the input, the
    receive loop of the client the size of its buffer, the loop of its main the
    length of the input.  The theorems show that this is enough: the results are
    values, never [NoFuel].  The loop over accept() has no bound of its own: it
    runs over the answers of the kernel, is [NoFuel] when they are used up, and
    the theorems on a round require ([round_ok]) that one of them ends the loop.

    ** What the theorems show

    - Message builder: [createResponse_correct] is the refinement of the whole
      function to [spec_reply]; the others state its consequences for queries:
      the reply served, its size, that only signed well-formed queries are
      answered, the two outcomes of a faulty record, the irrelevance of the
      order, the xored checksum, the order of the two time stamps.
    - Timer and watcher: the clock does not run backwards; exactly when the
      constructor yields a timer, and how far its multiplier and its readings
      are from what the perf page defines, through both double divisions; the
      latch of the valid flag; what [update] publishes and that it releases
      everything on all paths; the order of all readings under any interleaving,
      and what an update in the middle of a query does to its reply.
    - Responder: set-up with every resource accounted for, the bookkeeping
      invariant over all reachable states, progress of every given round, the final state after an invalid time source; a query is
      served however it is cut, as long as it has arrived completely, and
      pipelined or incomplete queries close the connection.
    - Client: round trips of messages and of query descriptions, totality of
      decoder and parser, a printed form that loses nothing, whole sessions; and
      four defects (an overrun in [serialize], one in [receiveResponse], reading
      behind the buffer for an oversized response, a use after free in
      [connectToNha]).
    - Configuration: what any file stores ([load_lines], with [file_forms]), and
      which settings or which failure [main] makes of it.
    - Together: [query_response] takes a query from the client through the
      server back to the client; [main_serves] connects start-up with the
      invariant of the main loop.
    - Timer thread: mutual exclusion, no callback after [stop], termination of
      [stop] without deadlock.

    ** What is not modelled

    Log output ([logTpmError] included), error messages and usage texts; the memory model below
    sequential consistency; a second [Timer::start] of a running timer; the
    tests, the packaging and the build files. *)

From stdpp Require Export base tactics numbers list option sets.
From Stdlib Require Export ZArith Lia.

(** ** Hint databases and tactics of the development *)

Create HintDb nha discriminated.
Create Rewrite HintDb nha_len.

(** Splits a conjunction of facts that [lia] or the [nha] database closes. *)
Ltac nha_auto :=
  repeat match goal with
    | |- _ /\ _ => split
    end; first [ done | lia | eauto with nha ].

(** Case analysis on a boolean test that blocks the goal, remembering it. *)
Ltac case_test :=
  match goal with
  | |- context [if ?b then _ else _] => destruct b eqn:?
  end.

(** Case analysis on a boolean test in a hypothesis. *)
Ltac case_test_in H :=
  match type of H with
  | context [if ?b then _ else _] => destruct b eqn:?
  end.

(** ** Machine integers

    A [w]-bit unsigned value is a [Z] in [0, 2^w); each conversion of the C++
    code is one of the functions below. *)

Local Open Scope Z_scope.

Definition u8 (z : Z) : Z := z mod 2 ^ 8.
Definition u16 (z : Z) : Z := z mod 2 ^ 16.
Definition u32 (z : Z) : Z := z mod 2 ^ 32.
Definition u64 (z : Z) : Z := z mod 2 ^ 64.
Definition u128 (z : Z) : Z := z mod 2 ^ 128.

(** Conversion to a two's complement 32-bit [int]. *)
Definition i32 (z : Z) : Z := (z + 2 ^ 31) mod 2 ^ 32 - 2 ^ 31.

Definition is_byte (z : Z) : Prop := 0 <= z < 256.
Definition is_u32 (z : Z) : Prop := 0 <= z < 2 ^ 32.
Definition is_u64 (z : Z) : Prop := 0 <= z < 2 ^ 64.
Definition is_i32 (z : Z) : Prop := - 2 ^ 31 <= z < 2 ^ 31.

Definition bytes (l : list Z) : Prop := Forall is_byte l.

#[export] Instance is_byte_dec z : Decision (is_byte z).
Proof. unfold is_byte. apply _. Defined.
#[export] Instance bytes_dec l : Decision (bytes l).
Proof. unfold bytes. apply _. Defined.

Ltac unfold_widths :=
  unfold u8, u16, u32, u64, u128, i32, is_byte, is_u32, is_u64, is_i32 in *.

(** Arithmetic at machine width: unfolds the widths and calls [lia]. *)
Ltac width_lia := unfold_widths; Z.div_mod_to_equations; lia.

Lemma u8_byte z : is_byte (u8 z).
Proof. apply Z.mod_pos_bound; lia. Qed.
Lemma u16_range z : 0 <= u16 z < 2 ^ 16.
Proof. apply Z.mod_pos_bound; lia. Qed.
Lemma u32_range z : is_u32 (u32 z).
Proof. apply Z.mod_pos_bound; lia. Qed.
Lemma u64_range z : is_u64 (u64 z).
Proof. apply Z.mod_pos_bound; lia. Qed.
Lemma u8_id z : is_byte z -> u8 z = z.
Proof. intros H. apply Z.mod_small. exact H. Qed.
Lemma u16_id z : 0 <= z < 2 ^ 16 -> u16 z = z.
Proof. apply Z.mod_small. Qed.
Lemma u32_id z : is_u32 z -> u32 z = z.
Proof. apply Z.mod_small. Qed.
Lemma u64_id z : is_u64 z -> u64 z = z.
Proof. apply Z.mod_small. Qed.
Lemma u128_id z : 0 <= z < 2 ^ 128 -> u128 z = z.
Proof. apply Z.mod_small. Qed.
Lemma i32_id z : is_i32 z -> i32 z = z.
Proof. unfold i32, is_i32. intros H. rewrite Z.mod_small; lia. Qed.
Lemma i32_u32 z : is_i32 z -> i32 (u32 z) = z.
Proof.
  intros Hz. unfold i32, u32. rewrite Z.add_mod_idemp_l by lia.
  fold (i32 z). by apply i32_id.
Qed.

#[export] Hint Resolve u8_byte u16_range u32_range u64_range : nha.

(** Testing with [Z.land _ 255] keeps the low byte. *)
Lemma land_255 z : Z.land z 255 = u8 z.
Proof. change 255 with (Z.ones 8). apply Z.land_ones. lia. Qed.

Lemma land_255_byte z : is_byte (Z.land z 255).
Proof. rewrite land_255. apply u8_byte. Qed.
#[export] Hint Resolve land_255_byte : nha.

(** Disjoint bit fields: [lor] of a low field and a shifted one is their sum. *)
Lemma lor_shiftl_add a b k :
  0 <= k -> 0 <= a < 2 ^ k -> Z.lor a (Z.shiftl b k) = a + b * 2 ^ k.
Proof.
  intros Hk Ha. rewrite <- Z.add_nocarry_lor; [by rewrite Z.shiftl_mul_pow2 |].
  apply Z.bits_inj'. intros n Hn. rewrite Z.land_spec, Z.bits_0.
  destruct (Z.lt_ge_cases n k) as [Hlt | Hge].
  - by rewrite Z.shiftl_spec_low, andb_false_r.
  - rewrite <- (Z.mod_small a (2 ^ k)), Z.mod_pow2_bits_high by lia. done.
Qed.

(** The xor of two bytes is a byte. *)
Lemma lxor_byte a b : is_byte a -> is_byte b -> is_byte (Z.lxor a b).
Proof.
  unfold is_byte. intros Ha Hb. split.
  - apply Z.lxor_nonneg. lia.
  - destruct (decide (Z.lxor a b = 0)) as [-> |]; [lia |].
    assert (0 <= Z.lxor a b) by (apply Z.lxor_nonneg; lia).
    apply (Z.log2_lt_pow2 _ 8); [lia |].
    pose proof (Z.log2_lxor a b ltac:(lia) ltac:(lia)).
    assert (forall x, 0 <= x < 256 -> Z.log2 x < 8) as Hlog.
    { intros x Hx. destruct (decide (x = 0)) as [-> |]; [done |].
      apply Z.log2_lt_pow2; lia. }
    pose proof (Hlog a Ha). pose proof (Hlog b Hb). lia.
Qed.
#[export] Hint Resolve lxor_byte : nha.

(** ** Lengths as integers *)

Definition zlen {A} (l : list A) : Z := Z.of_nat (length l).

Lemma zlen_nonneg {A} (l : list A) : 0 <= zlen l.
Proof. unfold zlen. lia. Qed.
Lemma zlen_app {A} (l k : list A) : zlen (l ++ k) = zlen l + zlen k.
Proof. unfold zlen. rewrite length_app. lia. Qed.
Lemma zlen_cons {A} (x : A) l : zlen (x :: l) = 1 + zlen l.
Proof. unfold zlen. simpl. lia. Qed.
Lemma zlen_nil {A} : zlen (@nil A) = 0.
Proof. done. Qed.

#[export] Hint Rewrite @zlen_app @zlen_cons @zlen_nil : nha_len.
#[export] Hint Rewrite @length_app @length_take @length_drop @length_cons
  @length_nil @length_replicate : nha_len.

(** Normalises lengths everywhere and calls [lia]. *)
Ltac len_lia :=
  autorewrite with nha_len in *; unfold zlen in *; simpl length in *;
  autorewrite with nha_len in *; lia.

(** ** Little-endian encodings *)

(** The [n] low bytes of [z], least significant first. *)
Fixpoint le_bytes (n : nat) (z : Z) : list Z :=
  match n with
  | O => []
  | S n => u8 z :: le_bytes n (z / 256)
  end.

Fixpoint le_value (l : list Z) : Z :=
  match l with
  | [] => 0
  | b :: l => b + 256 * le_value l
  end.

Lemma length_le_bytes n z : length (le_bytes n z) = n.
Proof. revert z. induction n; intros z; simpl; auto. Qed.
Lemma zlen_le_bytes n z : zlen (le_bytes n z) = Z.of_nat n.
Proof. unfold zlen. by rewrite length_le_bytes. Qed.
#[export] Hint Rewrite length_le_bytes zlen_le_bytes : nha_len.

Lemma le_bytes_bytes n z : bytes (le_bytes n z).
Proof.
  revert z. induction n as [| n IH]; intros z; simpl; constructor; [apply u8_byte | apply IH].
Qed.
#[export] Hint Resolve le_bytes_bytes : nha.

Lemma le_value_bytes n z : le_value (le_bytes n z) = z mod 256 ^ Z.of_nat n.
Proof.
  revert z. induction n as [| n IH]; intros z; [by rewrite Z.mod_1_r |].
  cbn [le_bytes le_value]. rewrite IH, Nat2Z.inj_succ, Z.pow_succ_r by lia.
  unfold u8. change (2 ^ 8) with 256. rewrite Z.rem_mul_r; lia.
Qed.

Lemma le_value_range l : bytes l -> 0 <= le_value l < 256 ^ zlen l.
Proof.
  induction 1 as [| b l Hb Hl IH]; [by simpl |].
  cbn [le_value]. rewrite zlen_cons, Z.pow_add_r by (try apply zlen_nonneg; lia).
  unfold is_byte in Hb. nia.
Qed.

Lemma le_bytes_value l : bytes l -> le_bytes (length l) (le_value l) = l.
Proof.
  induction 1 as [| b l Hb Hl IH]; [done |]. unfold is_byte in Hb.
  cbn [length le_bytes le_value]. f_equal.
  - unfold u8. change (2 ^ 8) with 256. by rewrite Z.mul_comm, Z_mod_plus_full, Z.mod_small.
  - by rewrite Z.mul_comm, Z.div_add, (Z.div_small b), Z.add_0_l, IH by lia.
Qed.

(** ** Byte-wise xor *)

Definition xor_bytes (a b : list Z) : list Z := zip_with Z.lxor a b.

Lemma length_xor_bytes a b :
  length a = length b -> length (xor_bytes a b) = length a.
Proof. intros H. unfold xor_bytes. rewrite length_zip_with. lia. Qed.

Lemma bytes_xor_bytes a b : bytes a -> bytes b -> bytes (xor_bytes a b).
Proof.
  intros Ha. revert b. induction Ha as [| x a Hx Ha IH]; intros [| y b] Hb; simpl;
    [constructor .. |].
  apply Forall_cons_1 in Hb as [Hy Hb]. constructor; [by apply lxor_byte | by apply IH].
Qed.

(** Xoring with the same key twice gives the original back. *)
Lemma xor_bytes_cancel a k :
  length a = length k -> xor_bytes (xor_bytes a k) a = k.
Proof.
  revert k. induction a as [| x a IH]; intros [| y k] Hl; simpl in *; try done.
  injection Hl as Hl. unfold xor_bytes in *. simpl. f_equal; [| by apply IH].
  by rewrite (Z.lxor_comm x y), Z.lxor_assoc, Z.lxor_nilpotent, Z.lxor_0_r.
Qed.

Lemma xor_bytes_self a : xor_bytes a a = replicate (length a) 0.
Proof.
  induction a as [| x a IH]; [done |]. unfold xor_bytes in *. simpl.
  by rewrite Z.lxor_nilpotent, IH.
Qed.

(** ** Overwriting a segment of a list *)

(** [splice buf off vs] is [buf] with the elements from [off] on overwritten
    by [vs]. *)
Definition splice {A} (buf : list A) (off : nat) (vs : list A) : list A :=
  take off buf ++ vs ++ drop (off + length vs) buf.

Lemma length_splice {A} (buf : list A) off vs :
  (off + length vs <= length buf)%nat -> length (splice buf off vs) = length buf.
Proof. intros H. unfold splice. autorewrite with nha_len. lia. Qed.

Lemma splice_nil {A} (buf : list A) off : splice buf off [] = buf.
Proof. unfold splice. simpl. rewrite Nat.add_0_r. apply take_drop. Qed.

Lemma splice_app {A} (buf : list A) off a b :
  (off + length a <= length buf)%nat ->
  splice (splice buf off a) (off + length a) b = splice buf off (a ++ b).
Proof.
  intros H. unfold splice. rewrite (app_assoc (take off buf) a).
  rewrite take_app_le by len_lia. rewrite take_ge by len_lia.
  rewrite drop_app_ge by len_lia. rewrite <- !app_assoc. do 3 f_equal.
  rewrite drop_drop. f_equal. len_lia.
Qed.

Lemma splice_insert {A} (buf : list A) off v :
  (off < length buf)%nat -> <[off := v]> buf = splice buf off [v].
Proof.
  intros H. unfold splice. rewrite insert_take_drop by done. simpl.
  by rewrite Nat.add_1_r.
Qed.

Lemma splice_0 {A} (buf vs : list A) : splice buf 0 vs = vs ++ drop (length vs) buf.
Proof. done. Qed.

Lemma bytes_splice buf off vs : bytes buf -> bytes vs -> bytes (splice buf off vs).
Proof.
  intros Hb Hv. unfold splice. repeat (apply Forall_app; split); [by apply Forall_take | done |].
  by apply Forall_drop.
Qed.

Lemma take_splice {A} (buf : list A) vs n :
  (length vs <= length buf)%nat -> n = length vs -> take n (splice buf 0 vs) = vs.
Proof. intros H ->. unfold splice. simpl. by rewrite take_app_length. Qed.

(** Taking a segment of a list prefix. *)
Lemma take_drop_take {A} (l : list A) off n m :
  (off + n <= m)%nat -> take n (drop off (take m l)) = take n (drop off l).
Proof. intros H. rewrite skipn_firstn_comm, take_take. f_equal. lia. Qed.

(** A filter that every element passes. *)
Lemma filter_all {A} (P : A -> Prop) `{!forall x, Decision (P x)} (l : list A) :
  Forall P l -> filter P l = l.
Proof.
  induction 1 as [| x l Hx Hl IH]; [done |]. by rewrite filter_cons_True, IH.
Qed.
