(* ===== verification/Memory.v ===== *)
(** * Buffers, early returns and undefined behaviour

    The control effects of the C++ functions as a monad: an [outcome] is a
    value, an early [return v], an access the language leaves undefined (an
    index outside its buffer) or an exhausted fuel bound.  [M S] threads a
    state (the mutable buffer, the outside world) through such computations.
    Buffers are lists of bytes; every access checks its index, so that a
    theorem "the outcome is never [Undef]" is memory safety. *)

From S2P Require Import Prelude.

Local Open Scope Z_scope.

Inductive outcome (A : Type) : Type :=
  | Val (a : A)
  | Ret (v : Z)
  | Undef
  | NoFuel.
Arguments Val {A} a.
Arguments Ret {A} v.
Arguments Undef {A}.
Arguments NoFuel {A}.

#[export] Instance outcome_eq_dec {A} `{EqDecision A} : EqDecision (outcome A).
Proof. solve_decision. Defined.

#[export] Instance outcome_ret : MRet outcome := fun A a => Val a.
#[export] Instance outcome_bind : MBind outcome := fun A B f o =>
  match o with
  | Val a => f a
  | Ret v => Ret v
  | Undef => Undef
  | NoFuel => NoFuel
  end.

(** [if (b) return -1;] *)
Definition fail_if (b : bool) : outcome unit := if b then Ret (-1) else Val tt.

(** The integer a whole function body returns: falling through with a value or
    leaving early with one is the same to the caller. *)
Definition returned (o : outcome Z) : outcome Z :=
  match o with
  | Ret v => Val v
  | o => o
  end.

(** ** Reading *)

(** [buf[i]] *)
Definition rd (buf : list Z) (i : Z) : outcome Z :=
  if i <? 0 then Undef
  else match buf !! Z.to_nat i with
       | Some b => Val b
       | None => Undef
       end.

(** The [n] bytes from [buf + i] on, as a loop or a [memcpy] reads them. *)
Definition rd_range (buf : list Z) (i n : Z) : outcome (list Z) :=
  if n <=? 0 then Val []
  else if (i <? 0) || (zlen buf <? i + n) then Undef
  else Val (take (Z.to_nat n) (drop (Z.to_nat i) buf)).

(** [if (buf[i] != v) return -1;] *)
Definition expect (buf : list Z) (i v : Z) : outcome unit :=
  b ← rd buf i; fail_if (negb (b =? v)).

(** [for (k = 0; k < n; ++k) if (buf[i + k] != vs[k]) return -1;] *)
Fixpoint expect_bytes (buf : list Z) (i : Z) (vs : list Z) : outcome unit :=
  match vs with
  | [] => Val tt
  | v :: vs => expect buf i v ;; expect_bytes buf (i + 1) vs
  end.

Lemma rd_lookup buf i b :
  0 <= i -> buf !! Z.to_nat i = Some b -> rd buf i = Val b.
Proof. intros Hi Hb. unfold rd. destruct (Z.ltb_spec i 0); [lia |]. by rewrite Hb. Qed.

(** A read inside the buffer yields its element. *)
Lemma rd_ok buf i :
  0 <= i < zlen buf -> exists b, rd buf i = Val b /\ buf !! Z.to_nat i = Some b.
Proof.
  intros Hi. destruct (lookup_lt_is_Some_2 buf (Z.to_nat i)) as [b Hb].
  { unfold zlen in Hi. lia. }
  exists b. split; [apply rd_lookup; [lia | done] | done].
Qed.

Lemma rd_range_ok buf i n :
  0 <= i -> i + n <= zlen buf ->
  rd_range buf i n = Val (take (Z.to_nat n) (drop (Z.to_nat i) buf)).
Proof.
  intros Hi Hn. unfold rd_range. destruct (Z.leb_spec n 0).
  - by replace (Z.to_nat n) with 0%nat by lia.
  - destruct (Z.ltb_spec i 0); [lia |]. by destruct (Z.ltb_spec (zlen buf) (i + n)); [lia |].
Qed.

(** Reading at a known place of a buffer. *)
Lemma rd_at pre b post i : i = zlen pre -> rd (pre ++ b :: post) i = Val b.
Proof.
  intros ->. apply rd_lookup; [apply zlen_nonneg |]. unfold zlen. rewrite Nat2Z.id.
  by apply list_lookup_middle.
Qed.

Lemma rd_range_at pre v post i n :
  i = zlen pre -> n = zlen v -> rd_range (pre ++ v ++ post) i n = Val v.
Proof.
  intros -> ->. rewrite rd_range_ok by (rewrite ?zlen_app; pose proof (zlen_nonneg pre);
    pose proof (zlen_nonneg post); lia).
  unfold zlen. by rewrite !Nat2Z.id, drop_app_length, take_app_length.
Qed.

Lemma expect_bytes_app buf i a b :
  expect_bytes buf i (a ++ b) =
    (expect_bytes buf i a ;; expect_bytes buf (i + zlen a) b).
Proof.
  revert i. induction a as [| x a IH]; intros i; simpl.
  - by rewrite zlen_nil, Z.add_0_r.
  - destruct (expect buf i x) as [[] | | |]; simpl; try done.
    rewrite IH, zlen_cons. by rewrite Z.add_assoc.
Qed.

(** Inside the buffer, a chain of byte tests compares a segment of it. *)
Lemma expect_bytes_spec buf i vs :
  0 <= i -> i + zlen vs <= zlen buf ->
  expect_bytes buf i vs =
    if decide (take (length vs) (drop (Z.to_nat i) buf) = vs) then Val tt else Ret (-1).
Proof.
  revert i. induction vs as [| v vs IH]; intros i Hi Hl; [done |].
  rewrite zlen_cons in Hl. pose proof (zlen_nonneg vs).
  destruct (rd_ok buf i) as (b & Hr & Hb); [lia |].
  cbn [expect_bytes length]. unfold expect. rewrite Hr. cbn.
  rewrite (drop_S buf b) by done. cbn [take].
  replace (S (Z.to_nat i)) with (Z.to_nat (i + 1)) by lia.
  destruct (Z.eqb_spec b v) as [-> | Hne]; cbn.
  - rewrite IH by lia. repeat case_decide; congruence.
  - case_decide; congruence.
Qed.

(** ** Fusing byte tests *)

Lemma expect_one buf i v : expect buf i v = expect_bytes buf i [v].
Proof. cbn [expect_bytes]. by destruct (expect buf i v) as [[] | | |]. Qed.

Lemma expect_seq {A} buf i j a b (k : outcome A) :
  j = i + zlen a ->
  (expect_bytes buf i a ;; expect_bytes buf j b ;; k) = (expect_bytes buf i (a ++ b) ;; k).
Proof. intros ->. rewrite expect_bytes_app. by destruct (expect_bytes buf i a). Qed.

(** A byte that must have one value can be replaced by it. *)
Lemma expect_bind {A} buf i v (k : Z -> outcome A) :
  (b ← rd buf i; fail_if (negb (b =? v)) ;; k b) = (expect_bytes buf i [v] ;; k v).
Proof.
  rewrite <- expect_one. unfold expect. destruct (rd buf i) as [b | | |]; [| done ..].
  cbn. destruct (Z.eqb_spec b v) as [-> |]; done.
Qed.

(** ** Writing, in a state monad over the outside state and the buffer *)

Definition M (S A : Type) : Type := S -> outcome A * S.

#[export] Instance M_ret {S} : MRet (M S) := fun A a s => (Val a, s).
#[export] Instance M_bind {S} : MBind (M S) := fun A B f c s =>
  match c s with
  | (Val a, s) => f a s
  | (Ret v, s) => (Ret v, s)
  | (Undef, s) => (Undef, s)
  | (NoFuel, s) => (NoFuel, s)
  end.

(** A computation without effect on the state. *)
Definition lift {S A} (o : outcome A) : M S A := fun s => (o, s).

(** The state of a function that fills a caller's buffer: what it calls ([W])
    and the buffer. *)
Record bufst (W : Type) : Type := BufSt { st_world : W; st_buf : list Z }.
Arguments BufSt {W} _ _.
Arguments st_world {W} _.
Arguments st_buf {W} _.

(** A call of an operation of the outside state. *)
Definition call {W A} (f : W -> A * W) : M (bufst W) A := fun s =>
  let '(a, w) := f (st_world s) in (Val a, BufSt w (st_buf s)).

(** [buf[i] = v] *)
Definition wr {W} (i v : Z) : M (bufst W) unit := fun s =>
  if (i <? 0) || (zlen (st_buf s) <=? i) then (Undef, s)
  else (Val tt, BufSt (st_world s) (<[Z.to_nat i := v]> (st_buf s))).

(** [for (k = 0; k < n; ++k) buf[i + k] = vs[k];] *)
Fixpoint wr_range {W} (i : Z) (vs : list Z) : M (bufst W) unit :=
  match vs with
  | [] => mret tt
  | v :: vs => wr i v ;; wr_range (i + 1) vs
  end.

(** The first [n] bytes of the buffer, as a callee given [buf, n] reads them. *)
Definition rd_prefix {W} (n : Z) : M (bufst W) (list Z) := fun s =>
  (rd_range (st_buf s) 0 n, s).

Lemma wr_range_app {W} i a b (s : bufst W) :
  wr_range i (a ++ b) s = (wr_range i a ;; wr_range (i + zlen a) b) s.
Proof.
  revert i s. induction a as [| x a IH]; intros i s.
  - cbn. by rewrite Z.add_0_r.
  - cbn. unfold mbind, M_bind. destruct (wr i x s) as [[[] | | |] s1]; cbn; try done.
    rewrite IH, zlen_cons. unfold mbind, M_bind. by rewrite Z.add_assoc.
Qed.

(** Inside the buffer, consecutive writes overwrite a segment of it. *)
Lemma wr_range_ok {W} i vs (w : W) buf :
  0 <= i -> i + zlen vs <= zlen buf ->
  wr_range i vs (BufSt w buf) = (Val tt, BufSt w (splice buf (Z.to_nat i) vs)).
Proof.
  revert i buf. induction vs as [| v vs IH]; intros i buf Hi Hl.
  - cbn. by rewrite splice_nil.
  - rewrite zlen_cons in Hl. pose proof (zlen_nonneg vs).
    cbn [wr_range]. unfold mbind, M_bind, wr. cbn [st_buf st_world].
    destruct (Z.ltb_spec i 0); [lia |]. destruct (Z.leb_spec (zlen buf) i); [lia |]. cbn.
    rewrite splice_insert by (unfold zlen in *; lia).
    assert (length (splice buf (Z.to_nat i) [v]) = length buf) as Hsl
      by (apply length_splice; unfold zlen in *; simpl; lia).
    rewrite IH by (unfold zlen in *; lia). do 2 f_equal.
    replace (Z.to_nat (i + 1)) with (Z.to_nat i + length [v])%nat by (simpl; lia).
    rewrite splice_app by (unfold zlen in *; simpl; lia). done.
Qed.

(** ** Running a sequence of writes *)

Lemma bind_val {S A B} (c : M S A) (f : A -> M S B) s a s' :
  c s = (Val a, s') -> (c ≫= f) s = f a s'.
Proof. intros E. unfold mbind, M_bind. by rewrite E. Qed.

Lemma bind_lift {S A B} (o : outcome A) (f : A -> M S B) s a :
  o = Val a -> (lift o ≫= f) s = f a s.
Proof. intros ->. done. Qed.

Lemma bind_lift_ret {S A B} (o : outcome A) (f : A -> M S B) s v :
  o = Ret v -> (lift o ≫= f) s = (Ret v, s).
Proof. intros ->. done. Qed.

(** Writing right after what has been written from the buffer's start. *)
Lemma wr_range_append {W} i vs vs' (w : W) buf :
  i = zlen vs -> zlen vs + zlen vs' <= zlen buf ->
  wr_range i vs' (BufSt w (splice buf 0 vs)) = (Val tt, BufSt w (splice buf 0 (vs ++ vs'))).
Proof.
  intros -> Hl. pose proof (zlen_nonneg vs'). rewrite wr_range_ok.
  - pose proof (splice_app buf 0 vs vs') as E. cbn [Nat.add] in E. unfold zlen in *.
    by rewrite Nat2Z.id, E by lia.
  - apply zlen_nonneg.
  - unfold zlen in *. rewrite length_splice by (simpl; lia). lia.
Qed.

Lemma wr_append {W} i vs v (w : W) buf :
  i = zlen vs -> zlen vs < zlen buf ->
  wr i v (BufSt w (splice buf 0 vs)) = (Val tt, BufSt w (splice buf 0 (vs ++ [v]))).
Proof.
  intros Hi Hl. pose proof (wr_range_append i vs [v] w buf Hi) as E. rewrite <- E by (rewrite zlen_cons, zlen_nil; lia).
  cbn [wr_range]. unfold mbind, M_bind. by destruct (wr i v _) as [[[] | | |] s].
Qed.

(** Reading back what has been written. *)
Lemma rd_prefix_ok {W} n vs (w : W) buf :
  n = zlen vs -> zlen vs <= zlen buf ->
  rd_prefix n (BufSt w (splice buf 0 vs)) = (Val vs, BufSt w (splice buf 0 vs)).
Proof.
  intros -> Hl. unfold rd_prefix. cbn [st_buf].
  rewrite (rd_range_at [] vs (drop (length vs) buf)) by done. done.
Qed.
