(* ===== verification/Auxiliary.v ===== *)
(** * src/src/auxiliary.h: the overflow-checked addition *)

From S2P Require Import Prelude.

Local Open Scope Z_scope.

(** [try_add_unsigned<T, U>(value, increment, max_value)] for a [w]-bit [T]: the
    result and the new [value].  Both operators of the code wrap at [w] bits. *)
Definition try_add_unsigned (w value increment max_value : Z) : bool * Z :=
  let addend := increment mod 2 ^ w in
  if addend >? max_value then (false, value)
  else if value >? (max_value - addend) mod 2 ^ w then (false, value)
  else (true, (value + addend) mod 2 ^ w).

(** What it promises: the exact sum when that fits the limit, else no change. *)
Definition bounded_add (value increment max_value : Z) : bool * Z :=
  if value + increment <=? max_value then (true, value + increment) else (false, value).

Section TryAdd.
Context (w : Z) (Hw : 0 < w).

Lemma try_add_unsigned_spec value increment max_value :
  0 <= value < 2 ^ w -> 0 <= increment < 2 ^ w -> 0 <= max_value < 2 ^ w ->
  try_add_unsigned w value increment max_value = bounded_add value increment max_value.
Proof.
  intros Hv Hi Hm. unfold try_add_unsigned, bounded_add.
  rewrite (Z.mod_small increment) by lia.
  destruct (Z.leb_spec (value + increment) max_value),
    (Z.gtb_spec increment max_value); try lia; try done;
    rewrite (Z.mod_small (max_value - increment)) by lia;
    destruct (Z.gtb_spec value (max_value - increment)); try lia; try done.
  by rewrite Z.mod_small by lia.
Qed.

(** The addition never wraps and never passes the limit, whatever the operands. *)
Lemma try_add_unsigned_le value increment max_value b value' :
  0 <= value < 2 ^ w -> 0 <= increment < 2 ^ w -> 0 <= max_value < 2 ^ w ->
  try_add_unsigned w value increment max_value = (b, value') ->
  (b = true -> value' = value + increment /\ value' <= max_value) /\
  (b = false -> value' = value /\ max_value < value + increment).
Proof.
  intros Hv Hi Hm. rewrite try_add_unsigned_spec by done. unfold bounded_add.
  destruct (Z.leb_spec (value + increment) max_value); intros [= <- <-]; split;
    intros; try done; lia.
Qed.
End TryAdd.
