(* ===== verification/Protocol.v ===== *)
(** * The NHA TLV protocol (src/doc/NHA_IF.md)

    The abstract side of the refinement: records and their encoding, the
    message layout of the interface document, which queries a server accepts,
    and which records its reply holds.  Nothing here follows the control flow
    of the implementation. *)

From S2P Require Import Prelude.

Local Open Scope Z_scope.

(** ** Records *)

Record tlv := Tlv { tlv_tag : Z; tlv_value : list Z }.

#[export] Instance tlv_eq_dec : EqDecision tlv.
Proof. solve_decision. Defined.

(** A record that one byte of tag and one byte of length can carry. *)
Definition wf_tlv (t : tlv) : Prop :=
  is_byte (tlv_tag t) /\ zlen (tlv_value t) < 256 /\ bytes (tlv_value t).

Definition encode_tlv (t : tlv) : list Z :=
  tlv_tag t :: zlen (tlv_value t) :: tlv_value t.

Definition encode_tlvs (ts : list tlv) : list Z := concat (map encode_tlv ts).

Lemma zlen_encode_tlv t : zlen (encode_tlv t) = 2 + zlen (tlv_value t).
Proof. unfold encode_tlv. rewrite !zlen_cons. lia. Qed.

Lemma encode_tlvs_cons t ts : encode_tlvs (t :: ts) = encode_tlv t ++ encode_tlvs ts.
Proof. done. Qed.
Lemma encode_tlvs_app a b : encode_tlvs (a ++ b) = encode_tlvs a ++ encode_tlvs b.
Proof. unfold encode_tlvs. by rewrite map_app, concat_app. Qed.
#[export] Hint Rewrite zlen_encode_tlv encode_tlvs_cons encode_tlvs_app : nha_len.

Lemma encode_tlvs_nil_inv ts : encode_tlvs ts = [] -> ts = [].
Proof. by destruct ts. Qed.

Lemma bytes_encode_tlv t : wf_tlv t -> bytes (encode_tlv t).
Proof.
  intros (Ht & Hl & Hv). pose proof (zlen_nonneg (tlv_value t)).
  unfold encode_tlv. repeat constructor; unfold is_byte in *; lia || done.
Qed.

Lemma bytes_encode_tlvs ts : Forall wf_tlv ts -> bytes (encode_tlvs ts).
Proof.
  induction 1; [constructor |]. rewrite encode_tlvs_cons.
  apply Forall_app. split; [by apply bytes_encode_tlv | done].
Qed.

(** Splitting a byte string into records; [None] when the last one is cut off.
    Each step consumes two bytes at least, so the length is fuel enough. *)
Fixpoint parse_tlvs_upto (fuel : nat) (l : list Z) : option (list tlv) :=
  match l, fuel with
  | [], _ => Some []
  | t :: len :: rest, S fuel =>
      if zlen rest <? len then None
      else (fun ts => Tlv t (take (Z.to_nat len) rest) :: ts) <$>
             parse_tlvs_upto fuel (drop (Z.to_nat len) rest)
  | _, _ => None
  end.

Definition parse_tlvs (l : list Z) : option (list tlv) := parse_tlvs_upto (length l) l.

Lemma parse_upto_S n t len rest :
  parse_tlvs_upto (S n) (t :: len :: rest) =
    if zlen rest <? len then None
    else (fun ts => Tlv t (take (Z.to_nat len) rest) :: ts) <$>
           parse_tlvs_upto n (drop (Z.to_nat len) rest).
Proof. done. Qed.

Lemma parse_encode_upto n ts :
  Forall wf_tlv ts -> (length (encode_tlvs ts) <= n)%nat ->
  parse_tlvs_upto n (encode_tlvs ts) = Some ts.
Proof.
  intros Hts. revert n. induction Hts as [| t ts Ht Hts IH]; intros n Hn; [by destruct n |].
  destruct Ht as (_ & Hl & _). destruct t as [t v]. cbn [tlv_value] in Hl.
  rewrite encode_tlvs_cons in *. unfold encode_tlv in *. cbn [tlv_tag tlv_value] in *.
  simpl in Hn. destruct n as [| n]; [lia |]. simpl.
  destruct (Z.ltb_spec (zlen (v ++ encode_tlvs ts)) (zlen v)).
  { pose proof (zlen_nonneg (encode_tlvs ts)). rewrite zlen_app in *. lia. }
  unfold zlen. rewrite Nat2Z.id, drop_app_length, take_app_length, IH; [done |].
  rewrite length_app in Hn. lia.
Qed.

Lemma parse_upto_sound n l ts :
  bytes l -> parse_tlvs_upto n l = Some ts -> Forall wf_tlv ts /\ encode_tlvs ts = l.
Proof.
  revert l ts. induction n as [| n IH]; intros [| t [| len rest]] ts Hl H; simplify_eq/=;
    try (split; [constructor | done]).
  apply Forall_cons_1 in Hl as [Ht Hl]. apply Forall_cons_1 in Hl as [Hlen Hl].
  unfold is_byte in Hlen. destruct (Z.ltb_spec (zlen rest) len); [done |].
  apply fmap_Some in H as (ts' & Hp & ->).
  destruct (IH _ _ (Forall_drop _ _ _ Hl) Hp) as [Hw He].
  assert (zlen (take (Z.to_nat len) rest) = len) as Hz by (unfold zlen in *; rewrite length_take; lia).
  split.
  - constructor; [| done]. repeat split; simpl; rewrite ?Hz; try apply Ht; try lia.
    by apply Forall_take.
  - rewrite encode_tlvs_cons. unfold encode_tlv. simpl. rewrite Hz. do 2 f_equal.
    by rewrite He, take_drop.
Qed.

(** The parser inverts the encoder, and accepts nothing else. *)
Lemma parse_tlvs_spec l ts :
  bytes l -> parse_tlvs l = Some ts <-> Forall wf_tlv ts /\ encode_tlvs ts = l.
Proof.
  intros Hl. unfold parse_tlvs. split.
  - by apply parse_upto_sound.
  - intros [Hw <-]. by apply parse_encode_upto.
Qed.

Lemma parse_encode ts : Forall wf_tlv ts -> parse_tlvs (encode_tlvs ts) = Some ts.
Proof. intros H. by apply parse_encode_upto. Qed.

(** Fuel beyond the length changes nothing. *)
Lemma parse_upto_enough n l :
  bytes l -> (length l <= n)%nat -> parse_tlvs_upto n l = parse_tlvs l.
Proof.
  intros Hl Hn. destruct (parse_tlvs l) as [ts |] eqn:Hp.
  - apply parse_tlvs_spec in Hp as [Hw <-]; [| done]. by apply parse_encode_upto.
  - destruct (parse_tlvs_upto n l) as [ts |] eqn:Hp'; [| done].
    apply parse_upto_sound in Hp' as [Hw <-]; [| done]. by rewrite parse_encode in Hp.
Qed.

Lemma parse_tlvs_cons t len rest :
  bytes (t :: len :: rest) ->
  parse_tlvs (t :: len :: rest) =
    if zlen rest <? len then None
    else (fun ts => Tlv t (take (Z.to_nat len) rest) :: ts) <$>
           parse_tlvs (drop (Z.to_nat len) rest).
Proof.
  intros Hl. apply Forall_cons_1 in Hl as [_ Hl]. apply Forall_cons_1 in Hl as [_ Hl].
  unfold parse_tlvs at 1. cbn [length]. rewrite parse_upto_S.
  destruct (zlen rest <? len); [done |].
  rewrite parse_upto_enough; [done | by apply Forall_drop | rewrite length_drop; lia].
Qed.

(** ** Messages *)

(** The common header: total size, magic string, version 1.0.0, message type
    and flags, each a record but the size. *)
Definition header (size flags : Z) : list Z :=
  le_bytes 4 size ++
  [0x00; 4; 0x4E; 0x48; 0x41; 0x31;
   0x01; 4; 0x00; 0x00; 0x00; 0x01;
   0x02; 1; 0x01;
   0x03; 1; flags].

Lemma length_header size flags : length (header size flags) = 22%nat.
Proof. unfold header. by rewrite length_app, length_le_bytes. Qed.
Lemma zlen_header size flags : zlen (header size flags) = 22.
Proof. unfold zlen. by rewrite length_header. Qed.
#[export] Hint Rewrite length_header zlen_header : nha_len.

(** A message without its checksum. *)
Definition unsigned_message (flags : Z) (ts : list tlv) : list Z :=
  let body := encode_tlvs ts in header (38 + zlen body) flags ++ body.

Lemma zlen_unsigned_message flags ts :
  zlen (unsigned_message flags ts) = 22 + zlen (encode_tlvs ts).
Proof. unfold unsigned_message. autorewrite with nha_len. done. Qed.
#[export] Hint Rewrite zlen_unsigned_message : nha_len.

(** ** Which queries a server answers *)

(** The record kinds a server must support. *)
Inductive kind := UserData | DeviceID | TimerRx | TimerTx | LastUpdated.

#[export] Instance kind_eq_dec : EqDecision kind.
Proof. solve_decision. Defined.

Definition kind_of (t : tlv) : option kind :=
  if tlv_tag t =? 0x04 then Some UserData
  else if tlv_tag t =? 0x91 then Some DeviceID
  else if tlv_tag t =? 0x92 then Some TimerRx
  else if tlv_tag t =? 0x93 then Some TimerTx
  else if tlv_tag t =? 0x94 then Some LastUpdated
  else None.

Definition kinds (ts : list tlv) : list kind := omap kind_of ts.

(** User data has a value; a query for anything else has none. *)
Definition length_ok (t : tlv) : Prop :=
  match kind_of t with
  | Some UserData => 1 <= zlen (tlv_value t)
  | Some _ => zlen (tlv_value t) = 0
  | None => True
  end.

#[export] Instance length_ok_dec t : Decision (length_ok t).
Proof. unfold length_ok. destruct (kind_of t) as [[] |]; apply _. Defined.

Definition wants (k : kind) (ts : list tlv) : bool := bool_decide (k ∈ kinds ts).

(** The value of the (first) user data record. *)
Fixpoint user_data (ts : list tlv) : list Z :=
  match ts with
  | [] => []
  | t :: ts => if decide (kind_of t = Some UserData) then tlv_value t else user_data ts
  end.

(** Bytes of body a reply to [ts] needs. *)
Definition reply_size (ts : list tlv) : Z :=
  (if wants UserData ts then 2 + zlen (user_data ts) else 0) +
  (if wants DeviceID ts then 18 else 0) +
  (if wants TimerRx ts then 10 else 0) +
  (if wants TimerTx ts then 10 else 0) +
  (if wants LastUpdated ts then 10 else 0).

(** No supported record twice, every supported record well formed, and room
    for the reply. *)
Definition acceptable (limit : Z) (ts : list tlv) : Prop :=
  NoDup (kinds ts) /\ Forall length_ok ts /\ 38 + reply_size ts <= limit.

#[export] Instance acceptable_dec limit ts : Decision (acceptable limit ts).
Proof. unfold acceptable. apply _. Defined.

(** The records of a reply; [dev], [rx], [tx] and [lu] are what the hardware
    gave. *)
Definition reply_tlvs (ts : list tlv) (dev : list Z) (rx tx lu : Z) : list tlv :=
  (if wants UserData ts then [Tlv 0x05 (user_data ts)] else []) ++
  (if wants DeviceID ts then [Tlv 0x11 dev] else []) ++
  (if wants TimerRx ts then [Tlv 0x12 (le_bytes 8 rx)] else []) ++
  (if wants TimerTx ts then [Tlv 0x13 (le_bytes 8 tx)] else []) ++
  (if wants LastUpdated ts then [Tlv 0x14 (le_bytes 8 lu)] else []).

(** ** Growing a query by one record *)

Lemma kinds_app a b : kinds (a ++ b) = kinds a ++ kinds b.
Proof. unfold kinds. apply omap_app. Qed.

Lemma kinds_snoc ts t :
  kinds (ts ++ [t]) = kinds ts ++ match kind_of t with Some k => [k] | None => [] end.
Proof. rewrite kinds_app. done. Qed.

Lemma wants_snoc k ts t :
  wants k (ts ++ [t]) = wants k ts || bool_decide (kind_of t = Some k).
Proof.
  unfold wants. rewrite kinds_snoc. destruct (kind_of t) as [k' |].
  - rewrite <- bool_decide_or. apply bool_decide_ext. set_solver.
  - rewrite app_nil_r, (bool_decide_eq_false_2 (None = Some k)) by done. by rewrite orb_false_r.
Qed.

Lemma user_data_snoc ts t :
  user_data (ts ++ [t]) =
    if wants UserData ts then user_data ts
    else if decide (kind_of t = Some UserData) then tlv_value t else [].
Proof.
  unfold wants. induction ts as [| x ts IH]; [done |]. simpl. rewrite IH. clear IH.
  unfold kinds. simpl. destruct (kind_of x) as [[] |] eqn:E; simpl; repeat case_decide;
    simplify_eq; repeat case_bool_decide; try done; set_solver.
Qed.

Lemma user_data_other ts t :
  kind_of t <> Some UserData -> user_data (ts ++ [t]) = user_data ts.
Proof.
  intros Ht. induction ts as [| x ts IH]; simpl; [by rewrite decide_False | by rewrite IH].
Qed.

(** What one more record of a kind not yet asked for adds to the reply. *)
Definition cost (k : kind) (t : tlv) : Z :=
  match k with
  | UserData => 2 + zlen (tlv_value t)
  | DeviceID => 18
  | TimerRx | TimerTx | LastUpdated => 10
  end.

Lemma reply_size_snoc k ts t :
  kind_of t = Some k -> wants k ts = false ->
  reply_size (ts ++ [t]) = reply_size ts + cost k t.
Proof.
  intros Hk Hw. unfold reply_size. rewrite !wants_snoc, user_data_snoc, Hk.
  destruct k; rewrite Hw; simpl; rewrite ?orb_false_r; repeat case_test; lia.
Qed.

Lemma reply_size_unknown ts t : kind_of t = None -> reply_size (ts ++ [t]) = reply_size ts.
Proof.
  intros Hk. unfold reply_size. rewrite !wants_snoc, user_data_snoc, Hk. simpl.
  rewrite !orb_false_r. repeat case_test; lia.
Qed.

Lemma acceptable_unknown limit ts t :
  kind_of t = None -> acceptable limit (ts ++ [t]) <-> acceptable limit ts.
Proof.
  intros Hk. unfold acceptable. rewrite reply_size_unknown, kinds_snoc, Hk, app_nil_r by done.
  rewrite Forall_app, Forall_singleton. unfold length_ok at 2. rewrite Hk. tauto.
Qed.

Lemma acceptable_snoc limit ts t k :
  kind_of t = Some k -> acceptable limit ts ->
  acceptable limit (ts ++ [t]) <->
    wants k ts = false /\ length_ok t /\ 38 + reply_size ts + cost k t <= limit.
Proof.
  intros Hk (Hn & Hf & Hs). unfold acceptable at 1. rewrite kinds_snoc, Hk.
  rewrite NoDup_app, Forall_app, Forall_singleton. unfold wants. split.
  - intros ((_ & Hd & _) & (_ & Ho) & Hl).
    assert (k ∉ kinds ts) as Hni by set_solver.
    rewrite (reply_size_snoc k) in Hl by (done || by apply bool_decide_eq_false_2).
    rewrite bool_decide_eq_false. repeat split; done || lia.
  - intros (Hw & Ho & Hl). rewrite (reply_size_snoc k) by done.
    apply bool_decide_eq_false in Hw. repeat split; try done; [set_solver | apply NoDup_singleton | lia].
Qed.

Lemma zlen_user_data ts : Forall wf_tlv ts -> 0 <= zlen (user_data ts) < 256.
Proof.
  induction 1 as [| t ts (_ & Ht & _) Hts IH]; [done |]. simpl.
  pose proof (zlen_nonneg (tlv_value t)). case_decide; [lia | apply IH].
Qed.

(** No reply body exceeds 305 bytes. *)
Lemma reply_size_bounds ts :
  Forall wf_tlv ts -> 0 <= reply_size ts <= 305.
Proof.
  intros H. pose proof (zlen_user_data ts H). unfold reply_size. repeat case_test; lia.
Qed.

Lemma reply_size_le_snoc ts t : reply_size ts <= reply_size (ts ++ [t]).
Proof.
  destruct (kind_of t) as [k |] eqn:Hk; [| rewrite reply_size_unknown; done].
  destruct (wants k ts) eqn:Hw.
  - unfold reply_size. rewrite !wants_snoc, user_data_snoc, Hk.
    destruct k; rewrite Hw; simpl; rewrite ?orb_false_r; repeat case_test; lia.
  - rewrite (reply_size_snoc k) by done. pose proof (zlen_nonneg (tlv_value t)).
    destruct k; simpl; lia.
Qed.

(** A prefix of an acceptable query is acceptable. *)
Lemma acceptable_prefix limit ts t : acceptable limit (ts ++ [t]) -> acceptable limit ts.
Proof.
  intros (Hn & Hf & Hs). pose proof (reply_size_le_snoc ts t).
  rewrite kinds_app in Hn. apply NoDup_app in Hn as (Hn & _ & _).
  apply Forall_app in Hf as [Hf _]. repeat split; done || lia.
Qed.

Lemma acceptable_app limit a b : acceptable limit (a ++ b) -> acceptable limit a.
Proof.
  induction b as [| t b IH] using rev_ind; [by rewrite app_nil_r |].
  rewrite app_assoc. intros H%acceptable_prefix. by apply IH.
Qed.

(** With every length in order, user data is asked for when there is some. *)
Lemma wants_user_data ts :
  Forall length_ok ts -> wants UserData ts = negb (zlen (user_data ts) =? 0).
Proof.
  induction 1 as [| t ts Ht Hts IH]; [done |]. unfold wants in *. simpl.
  unfold length_ok in Ht. unfold kinds in *. simpl.
  destruct (kind_of t) as [[] |] eqn:E; simpl; rewrite ?decide_False by done; try done;
    try (rewrite <- IH; apply bool_decide_ext; set_solver).
  by destruct (Z.eqb_spec (zlen (tlv_value t)) 0); [lia |].
Qed.

Lemma acceptable_limit limit ts : acceptable limit ts -> 38 <= limit.
Proof.
  intros (_ & _ & Hl). pose proof (zlen_nonneg (user_data ts)).
  revert Hl. unfold reply_size. repeat case_test; lia.
Qed.

Lemma acceptable_nil limit : 38 <= limit -> acceptable limit [].
Proof. intros H. repeat split; [constructor .. | done]. Qed.

(** ** The reply body, record by record *)

Definition emit (wanted : bool) (t : tlv) : list Z := if wanted then encode_tlv t else [].

Lemma zlen_emit wanted t :
  zlen (emit wanted t) = if wanted then 2 + zlen (tlv_value t) else 0.
Proof. destruct wanted; [apply zlen_encode_tlv | done]. Qed.
#[export] Hint Rewrite zlen_emit : nha_len.

Lemma zlen_emit_bounds wanted t : 0 <= zlen (emit wanted t) <= 2 + zlen (tlv_value t).
Proof. rewrite zlen_emit. pose proof (zlen_nonneg (tlv_value t)). destruct wanted; lia. Qed.

Lemma encode_reply ts dev rx tx lu :
  encode_tlvs (reply_tlvs ts dev rx tx lu) =
    emit (wants UserData ts) (Tlv 0x05 (user_data ts)) ++
    emit (wants DeviceID ts) (Tlv 0x11 dev) ++
    emit (wants TimerRx ts) (Tlv 0x12 (le_bytes 8 rx)) ++
    emit (wants TimerTx ts) (Tlv 0x13 (le_bytes 8 tx)) ++
    emit (wants LastUpdated ts) (Tlv 0x14 (le_bytes 8 lu)).
Proof.
  unfold reply_tlvs. rewrite !encode_tlvs_app. unfold emit.
  repeat f_equal; case_test; try done; unfold encode_tlvs; cbn; by rewrite app_nil_r.
Qed.

Lemma zlen_encode_reply ts dev rx tx lu :
  length dev = 16%nat -> zlen (encode_tlvs (reply_tlvs ts dev rx tx lu)) = reply_size ts.
Proof.
  intros Hd. rewrite encode_reply. autorewrite with nha_len. cbn [tlv_value].
  autorewrite with nha_len. unfold zlen at 2. rewrite Hd. unfold reply_size.
  repeat case_test; lia.
Qed.

(** ** Queries that differ only in order or in unsupported records *)

(** A record the receiver ignores. *)
Definition supported (t : tlv) : Prop := is_Some (kind_of t).

#[export] Instance supported_dec t : Decision (supported t).
Proof. unfold supported. apply _. Defined.

(** Two record lists with the same supported records, whatever their order. *)
Definition same_requests (ts ts' : list tlv) : Prop :=
  filter supported ts ≡ₚ filter supported ts'.

#[export] Instance same_requests_equiv : Equivalence same_requests.
Proof.
  unfold same_requests. split; [intros ts; done | intros ts ts' H; by symmetry |].
  intros a b c Hab Hbc. by rewrite Hab.
Qed.

Lemma kinds_supported ts : kinds (filter supported ts) = kinds ts.
Proof.
  induction ts as [| t ts IH]; [done |]. rewrite filter_cons. unfold kinds, supported in *.
  case_decide as Hk; cbn; rewrite IH; [done |]. by destruct (kind_of t); [destruct Hk |].
Qed.

Lemma user_data_supported ts : user_data (filter supported ts) = user_data ts.
Proof.
  induction ts as [| t ts IH]; [done |]. rewrite filter_cons. unfold supported in *.
  case_decide as Hk; cbn; rewrite IH; [done |]. case_decide as Hu; [| done].
  rewrite Hu in Hk. by destruct Hk.
Qed.

Lemma length_ok_supported ts :
  Forall length_ok (filter supported ts) <-> Forall length_ok ts.
Proof.
  induction ts as [| t ts IH]; [done |]. rewrite filter_cons, (Forall_cons _ t ts), <- IH.
  unfold supported. case_decide as Hk; [by rewrite Forall_cons |].
  unfold length_ok at 2. destruct (kind_of t); [by destruct Hk | tauto].
Qed.

#[export] Instance kinds_proper : Proper (same_requests ==> (≡ₚ)) kinds.
Proof.
  intros ts ts' H. rewrite <- (kinds_supported ts), <- (kinds_supported ts').
  unfold same_requests in H. unfold kinds. by rewrite H.
Qed.

#[export] Instance wants_proper k : Proper (same_requests ==> eq) (wants k).
Proof. intros ts ts' H. unfold wants. apply bool_decide_ext. by rewrite H. Qed.

(** Without a second user data record, its value does not depend on the order. *)
Lemma user_data_elem ts t :
  NoDup (kinds ts) -> t ∈ ts -> kind_of t = Some UserData -> user_data ts = tlv_value t.
Proof.
  intros Hn Ht Hk. induction ts as [| x ts IH]; [by apply not_elem_of_nil in Ht |]. cbn.
  case_decide as Hx.
  - apply elem_of_cons in Ht as [-> | Ht]; [done |]. exfalso. revert Hn. unfold kinds. cbn.
    rewrite Hx. intros [Hni _]%NoDup_cons. apply Hni, list_elem_of_omap. by exists t.
  - apply elem_of_cons in Ht as [-> | Ht]; [done |]. apply IH; [| done].
    revert Hn. unfold kinds. cbn. destruct (kind_of x); [intros [_ ?]%NoDup_cons |]; done.
Qed.

Lemma wants_elem k ts : wants k ts = true <-> exists t, t ∈ ts /\ kind_of t = Some k.
Proof. unfold wants. rewrite bool_decide_eq_true. apply list_elem_of_omap. Qed.

Lemma user_data_none ts : wants UserData ts = false -> user_data ts = [].
Proof.
  unfold wants, kinds. rewrite bool_decide_eq_false. induction ts as [| t ts IH]; [done |]. cbn.
  intros Hn. case_decide as Hk; [rewrite Hk in Hn; set_solver |]. apply IH.
  destruct (kind_of t); set_solver.
Qed.

Lemma user_data_perm ts ts' :
  NoDup (kinds ts) -> same_requests ts ts' -> user_data ts = user_data ts'.
Proof.
  intros Hn H. pose proof Hn as Hn'. rewrite H in Hn'. destruct (wants UserData ts) eqn:Hw.
  - apply wants_elem in Hw as (t & Ht & Hk). rewrite (user_data_elem ts t) by done.
    rewrite (user_data_elem ts' t); [done .. | | done].
    assert (t ∈ filter supported ts) as Hf
      by (apply list_elem_of_filter; split; [by exists UserData | done]).
    unfold same_requests in H. rewrite H in Hf. by apply list_elem_of_filter in Hf as [_ ?].
  - rewrite user_data_none by done. rewrite H in Hw. by rewrite user_data_none.
Qed.

Lemma reply_size_perm ts ts' :
  NoDup (kinds ts) -> same_requests ts ts' -> reply_size ts = reply_size ts'.
Proof.
  intros Hn H. unfold reply_size. rewrite (user_data_perm ts ts') by done. by rewrite !H.
Qed.

Lemma reply_tlvs_perm ts ts' dev rx tx lu :
  NoDup (kinds ts) -> same_requests ts ts' ->
  reply_tlvs ts dev rx tx lu = reply_tlvs ts' dev rx tx lu.
Proof.
  intros Hn H. unfold reply_tlvs. rewrite (user_data_perm ts ts') by done. by rewrite !H.
Qed.

Lemma acceptable_perm limit ts ts' :
  same_requests ts ts' -> acceptable limit ts -> acceptable limit ts'.
Proof.
  intros H (Hn & Hl & Hs). repeat split; [by rewrite <- H | | by rewrite <- (reply_size_perm ts)].
  apply length_ok_supported. apply length_ok_supported in Hl. unfold same_requests in H.
  by rewrite <- H.
Qed.

Lemma bytes_user_data ts : Forall wf_tlv ts -> bytes (user_data ts).
Proof.
  induction 1 as [| t ts (_ & _ & Ht) Hts IH]; [constructor |]. cbn. by case_decide.
Qed.

(** The records of a reply are well formed. *)
Lemma wf_reply_tlvs ts dev rx tx lu :
  Forall wf_tlv ts -> length dev = 16%nat -> bytes dev ->
  Forall wf_tlv (reply_tlvs ts dev rx tx lu).
Proof.
  intros Hts Hl Hd. pose proof (zlen_user_data ts Hts). pose proof (bytes_user_data ts Hts).
  assert (zlen dev = 16) by (unfold zlen; by rewrite Hl).
  unfold reply_tlvs, wf_tlv, is_byte.
  repeat (apply Forall_app; split); case_test; try apply Forall_nil_2; apply Forall_singleton;
    cbn [tlv_tag tlv_value]; rewrite ?zlen_le_bytes; repeat split; auto with nha; lia.
Qed.

(** Which values a reply can carry for the two timers. *)
Lemma reply_timers ts dev rx tx lu v :
  (Tlv 0x12 v ∈ reply_tlvs ts dev rx tx lu -> v = le_bytes 8 rx) /\
  (Tlv 0x13 v ∈ reply_tlvs ts dev rx tx lu -> v = le_bytes 8 tx /\ wants TimerTx ts = true).
Proof. unfold reply_tlvs. repeat case_test; set_solver. Qed.
