(* ===== verification/Hardware.v ===== *)
(** * What the message builder asks of the timer and of the TPM watcher

    [MessageBuilder] holds references to a [MonotonicTimer] and a [TPMWatcher]
    and calls three of their operations.  [HwAccess] is that interface: the
    state [W] is everything the calls may see change (the time stamp counter,
    the watcher's cache, updated by another thread between two calls).
    [HwLaws] is what the two components promise; [System.v] proves it for
    them. *)

From S2P Require Import Prelude.

Local Open Scope Z_scope.

Class HwAccess (W : Type) := {
  timer_get : W -> Z * W;               (* monotonicTimer.get() *)
  tpm_get : W -> list Z * W;            (* tpmWatcher.get(&devID[0]) *)
  tpm_getLastUpdated : W -> Z * W;      (* tpmWatcher.getLastUpdated() *)
}.

Class HwLaws (W : Type) `{HwAccess W} := {
  hw_ok : W -> Prop;
  timer_get_ok w : hw_ok w -> is_u64 (timer_get w).1 /\ hw_ok (timer_get w).2;
  tpm_get_ok w :
    hw_ok w ->
    length (tpm_get w).1 = 16%nat /\ bytes (tpm_get w).1 /\ hw_ok (tpm_get w).2;
  tpm_getLastUpdated_ok w :
    hw_ok w -> is_u64 (tpm_getLastUpdated w).1 /\ hw_ok (tpm_getLastUpdated w).2;
}.

(** Time does not run backwards: no later reading is below an earlier one. *)
Class HwMonotone (W : Type) `{HwLaws W} := {
  hw_now : W -> Z;
  timer_get_now w :
    hw_ok w -> hw_now w <= (timer_get w).1 <= hw_now (timer_get w).2;
  tpm_get_now w : hw_ok w -> hw_now w <= hw_now (tpm_get w).2;
  tpm_getLastUpdated_now w : hw_ok w -> hw_now w <= hw_now (tpm_getLastUpdated w).2;
}.

(** What the responder asks of the timer: [monotonicTimer.getValid()], a flag
    that another thread may clear and nobody sets again. *)
Class TimeSource (W : Type) := {
  timer_getValid : W -> bool * W;
}.

Class TimeSourceLaws (W : Type) `{HwLaws W} `{TimeSource W} := {
  timer_getValid_ok w : hw_ok w -> hw_ok (timer_getValid w).2;
  timer_getValid_latch w :
    hw_ok w -> (timer_getValid w).1 = false ->
    (timer_getValid (timer_getValid w).2).1 = false;
}.
