(* ===== verification/MessageBuilder.v ===== *)
(** * src/src/messagebuilder.cpp: class MessageBuilder

    [createResponse] as the code has it: a header check over the raw query
    buffer, the record loop with its pointer and remaining-size counters kept
    at their C++ widths, and the reply written into the caller's buffer index
    by index.  The OpenSSL digest is a parameter. *)

From S2P Require Import Prelude Memory Auxiliary Protocol Hardware.

Local Open Scope Z_scope.

(** ** Constants (lines 13-50) *)

Definition HEADER_SIZE : Z := 22.
Definition MIN_MSG_SIZE : Z := 38.
Definition MAX_MSG_SIZE : Z := 32768.
Definition CHECKSUM_SIZE : Z := 16.
Definition MIN_TLV_SIZE : Z := 2.
Definition deviceIDLength : Z := 16.

Definition MAGIC_TAG : Z := 0x00.
Definition VERSION_TAG : Z := 0x01.
Definition MESSAGE_TYPE_TAG : Z := 0x02.
Definition MESSAGE_FLAGS_TAG : Z := 0x03.

Definition USER_DATA_QTAG : Z := 0x04.
Definition DEVICEID_QTAG : Z := 0x91.
Definition TIMER_RX_QTAG : Z := 0x92.
Definition TIMER_TX_QTAG : Z := 0x93.
Definition DEVICEID_LAST_UPDATED_QTAG : Z := 0x94.

Definition USER_DATA_RTAG : Z := 0x05.
Definition DEVICEID_RTAG : Z := 0x11.
Definition TIMER_RX_RTAG : Z := 0x12.
Definition TIMER_TX_RTAG : Z := 0x13.
Definition DEVICEID_LAST_UPDATED_RTAG : Z := 0x14.

Definition MAGIC_LENGTH : Z := 0x04.
Definition VERSION_LENGTH : Z := 0x04.
Definition MESSAGE_TYPE_LENGTH : Z := 0x01.
Definition MESSAGE_FLAGS_LENGTH : Z := 0x01.

Definition MAGIC_BYTES : list Z := [0x4E; 0x48; 0x41; 0x31].
Definition VERSION_BYTES : list Z := [0x00; 0x00; 0x00; 0x01].
Definition MESSAGE_TYPE_STANDARD_MESSAGE : Z := 0x01.

(** enum MsgFlags *)
Definition FLAG_None : Z := 0x00.
Definition HAS_CHECKSUM_XOR_DEVICE_ID : Z := 0x01.
Definition REPLY_CHECKSUM_XOR_DEVICE_ID : Z := 0x02.

(** sizeof(uint64_t), the width of both timer values *)
Definition sizeof_uint64 : Z := 8.

(** ** Converters *)

Definition fromLE32 (b0 b1 b2 b3 : Z) : Z :=
  Z.lor (Z.lor (Z.lor (u32 b0) (u32 (Z.shiftl (u32 b1) 8))) (u32 (Z.shiftl (u32 b2) 16)))
        (u32 (Z.shiftl (u32 b3) 24)).

Definition toLE64 (num : Z) : list Z :=
  map (fun i => u8 (Z.land (Z.shiftr num (8 * i)) 0xff)) (seqZ 0 8).

(** The size field of the reply header. *)
Definition toLE32 (num : Z) : list Z :=
  map (fun i => u8 (Z.land (Z.shiftr num (i * 8)) 0xff)) (seqZ 0 4).

(** ** The query header *)

(** Lines 113-167: the value of the message type and flags fields, or an early
    [return -1].  [querySize] is an [int]; comparing it with a [uint32_t]
    converts it. *)
Definition checkHeader (query : list Z) (querySize : Z) : outcome (Z * Z) :=
  b0 ← rd query 0;
  b1 ← rd query 1;
  b2 ← rd query 2;
  b3 ← rd query 3;
  let totalSize := fromLE32 b0 b1 b2 b3 in
  fail_if (negb (totalSize =? u32 querySize) || (totalSize <? MIN_MSG_SIZE)
           || (totalSize >? MAX_MSG_SIZE)) ;;
  expect query 4 MAGIC_TAG ;;
  expect query 5 MAGIC_LENGTH ;;
  expect_bytes query 6 MAGIC_BYTES ;;
  expect query 10 VERSION_TAG ;;
  expect query 11 VERSION_LENGTH ;;
  expect_bytes query 12 VERSION_BYTES ;;
  expect query 16 MESSAGE_TYPE_TAG ;;
  expect query 17 MESSAGE_TYPE_LENGTH ;;
  msgTypeValue ← rd query 18;
  fail_if (negb (msgTypeValue =? MESSAGE_TYPE_STANDARD_MESSAGE)) ;;
  expect query 19 MESSAGE_FLAGS_TAG ;;
  expect query 20 MESSAGE_FLAGS_LENGTH ;;
  msgFlagsValue ← rd query 21;
  fail_if (negb (msgFlagsValue =? FLAG_None)
           && negb (msgFlagsValue =? REPLY_CHECKSUM_XOR_DEVICE_ID)) ;;
  mret (msgTypeValue, msgFlagsValue).

(** Lines 169-174. *)
Definition replyFlags (msgFlagsValue : Z) : Z :=
  if negb (Z.land msgFlagsValue REPLY_CHECKSUM_XOR_DEVICE_ID =? 0)
  then HAS_CHECKSUM_XOR_DEVICE_ID else FLAG_None.

(** ** The record loop (lines 203-301) *)

Record body_state := BodyState {
  userData : list Z;
  wantDeviceID : bool;
  wantTimeTx : bool;
  wantTimeRx : bool;
  wantLastUpdated : bool;
  createResponseWithoutBody : bool;
  sizeR : Z;
}.

Definition initial_body_state : body_state :=
  BodyState [] false false false false false (HEADER_SIZE + CHECKSUM_SIZE).

Definition without_body (st : body_state) : body_state :=
  BodyState (userData st) (wantDeviceID st) (wantTimeTx st) (wantTimeRx st)
    (wantLastUpdated st) true (sizeR st).

(** A [case] of the switch: [bad] is the part of its condition before the
    [try_add_unsigned], [inc] the bytes it adds to [sizeR], and [set] its
    [else] branch, given the new [sizeR]. *)
Definition take_record (bad : bool) (inc maxResponseSize : Z) (st : body_state)
    (set : Z -> body_state) : body_state :=
  if bad then without_body st
  else match try_add_unsigned 32 (sizeR st) (u32 inc) maxResponseSize with
       | (false, _) => without_body st
       | (true, sizeR') => set sizeR'
       end.

(** The switch over the tag; [value] is what [bodyQ + MIN_TLV_SIZE] points at,
    read for user data only. *)
Definition processRecord (maxResponseSize tag length : Z) (value : list Z)
    (st : body_state) : body_state :=
  let '(BodyState ud dev tx rx lu woBody _) := st in
  if tag =? USER_DATA_QTAG then
    take_record (negb (zlen ud =? 0) || (length <? 1)) (MIN_TLV_SIZE + length)
      maxResponseSize st (BodyState value dev tx rx lu woBody)
  else if tag =? DEVICEID_QTAG then
    take_record (dev || negb (length =? 0)) (MIN_TLV_SIZE + deviceIDLength)
      maxResponseSize st (BodyState ud true tx rx lu woBody)
  else if tag =? TIMER_RX_QTAG then
    take_record (rx || negb (length =? 0)) (MIN_TLV_SIZE + sizeof_uint64)
      maxResponseSize st (BodyState ud dev tx true lu woBody)
  else if tag =? TIMER_TX_QTAG then
    take_record (tx || negb (length =? 0)) (MIN_TLV_SIZE + sizeof_uint64)
      maxResponseSize st (BodyState ud dev true rx lu woBody)
  else if tag =? DEVICEID_LAST_UPDATED_QTAG then
    take_record (lu || negb (length =? 0)) (MIN_TLV_SIZE + sizeof_uint64)
      maxResponseSize st (BodyState ud dev tx rx true woBody)
  else st.

(** The [while] loop: [bodyQ] is an index into the query, [remaining] the
    [int32_t remainingTLVDataFromQuery].  One iteration consumes two bytes at
    least. *)
Fixpoint processBody (fuel : nat) (query : list Z) (maxResponseSize bodyQ remaining : Z)
    (st : body_state) : outcome (Z * body_state) :=
  if (u32 remaining >=? MIN_TLV_SIZE) && negb (createResponseWithoutBody st) then
    match fuel with
    | O => NoFuel
    | S fuel =>
        tag ← rd query bodyQ;
        length ← rd query (bodyQ + 1);
        if u32 remaining <? u32 (MIN_TLV_SIZE + length) then Val (remaining, st)
        else
          value ← (if tag =? USER_DATA_QTAG then rd_range query (bodyQ + MIN_TLV_SIZE) length
                   else Val []);
          processBody fuel query maxResponseSize (bodyQ + (MIN_TLV_SIZE + length))
            (i32 (u32 (u32 remaining - u32 (MIN_TLV_SIZE + length))))
            (processRecord maxResponseSize tag length value st)
    end
  else Val (remaining, st).

(** ** Building the reply *)

Section MessageBuilder.
Context {W : Type} `{HwAccess W}.

(** OpenSSL's EVP_Q_digest(NULL, MD5, NULL, data, length, ...): the digest
    bytes it stores, as many as it reports in [md_len], or a failure. *)
Context (EVP_Q_digest : list Z -> option (list Z)).

Definition computeMD5 (data : list Z) : option (list Z) :=
  match EVP_Q_digest data with
  | None => None
  | Some digest => if CHECKSUM_SIZE =? zlen digest then Some digest else None
  end.

(** [if (!computeMD5(data, ...)) return -1;] *)
Definition md5_or_fail (data : list Z) : outcome (list Z) :=
  match computeMD5 data with
  | Some digest => Val digest
  | None => Ret (-1)
  end.

(** Lines 176-191. *)
Definition verifyChecksum (query : list Z) (querySize : Z) : outcome unit :=
  data ← rd_range query 0 (u32 (querySize - CHECKSUM_SIZE));
  mdValue ← md5_or_fail data;
  expect_bytes query (querySize - CHECKSUM_SIZE) (take (Z.to_nat CHECKSUM_SIZE) mdValue).

(** Lines 320-350: the header of the reply; the size written so far. *)
Definition writeHeader (size msgTypeValue msgFlagsValueR : Z) : M (bufst W) Z :=
  wr_range 0 (toLE32 size) ;;
  wr 4 MAGIC_TAG ;;
  wr 5 MAGIC_LENGTH ;;
  wr_range 6 MAGIC_BYTES ;;
  wr 10 VERSION_TAG ;;
  wr 11 VERSION_LENGTH ;;
  wr_range 12 VERSION_BYTES ;;
  wr 16 MESSAGE_TYPE_TAG ;;
  wr 17 MESSAGE_TYPE_LENGTH ;;
  wr 18 msgTypeValue ;;
  wr 19 MESSAGE_FLAGS_TAG ;;
  wr 20 MESSAGE_FLAGS_LENGTH ;;
  wr 21 msgFlagsValueR ;;
  mret (u16 HEADER_SIZE).

(** One guarded record of the reply: tag and length bytes, then the [len]
    bytes [value] yields; the new [completeSizeR]. *)
Definition writeRecord (wanted : bool) (tag len : Z) (value : M (bufst W) (list Z))
    (completeSizeR : Z) : M (bufst W) Z :=
  if wanted && (completeSizeR + MIN_TLV_SIZE + len <? MAX_MSG_SIZE) then
    wr completeSizeR tag ;;
    wr (completeSizeR + 1) (u8 len) ;;
    v ← value;
    wr_range (completeSizeR + MIN_TLV_SIZE) v ;;
    mret (u16 (completeSizeR + (MIN_TLV_SIZE + len)))
  else mret completeSizeR.

(** Lines 353-397: the body of the reply. *)
Definition writeBody (st : body_state) (devID : list Z) (timerRx completeSizeR : Z) :
    M (bufst W) Z :=
  if createResponseWithoutBody st then mret completeSizeR
  else
    n ← writeRecord (negb (zlen (userData st) =? 0)) USER_DATA_RTAG (zlen (userData st))
          (mret (userData st)) completeSizeR;
    n ← writeRecord (wantDeviceID st) DEVICEID_RTAG deviceIDLength
          (mret (take (Z.to_nat deviceIDLength) devID)) n;
    n ← writeRecord (wantTimeRx st) TIMER_RX_RTAG sizeof_uint64
          (mret (toLE64 timerRx)) n;
    n ← writeRecord (wantTimeTx st) TIMER_TX_RTAG sizeof_uint64
          (timerTx ← call timer_get; mret (toLE64 timerTx)) n;
    writeRecord (wantLastUpdated st) DEVICEID_LAST_UPDATED_RTAG sizeof_uint64
      (lastUpdated ← call tpm_getLastUpdated; mret (toLE64 lastUpdated)) n.

(** Lines 399-428: the checksum of the reply and the returned size. *)
Definition writeChecksum (msgFlagsValueR : Z) (devID : list Z) (completeSizeR : Z) :
    M (bufst W) Z :=
  lift (fail_if (completeSizeR + CHECKSUM_SIZE >? MAX_MSG_SIZE)) ;;
  data ← rd_prefix completeSizeR;
  mdValueR ← lift (md5_or_fail data);
  wr_range completeSizeR
    (take (Z.to_nat CHECKSUM_SIZE)
       (if msgFlagsValueR =? HAS_CHECKSUM_XOR_DEVICE_ID then xor_bytes mdValueR devID
        else mdValueR)) ;;
  mret (u16 (completeSizeR + CHECKSUM_SIZE)).

(** Lines 193-428: the record loop, then the reply. *)
Definition answerRecords (query : list Z) (querySize maxResponseSize msgTypeValue msgFlagsValueR
    timerRx : Z) (devID : list Z) : M (bufst W) Z :=
  '(remaining, st) ←
    lift (processBody (Z.to_nat querySize) query maxResponseSize HEADER_SIZE
            (i32 (u32 (querySize - HEADER_SIZE - CHECKSUM_SIZE))) initial_body_state);
  lift (fail_if (remaining >? 0)) ;;
  let sizeR := if createResponseWithoutBody st then HEADER_SIZE + CHECKSUM_SIZE
               else sizeR st in
  n ← writeHeader sizeR msgTypeValue msgFlagsValueR;
  n ← writeBody st devID timerRx n;
  writeChecksum msgFlagsValueR devID n.

(** Lines 113-428: header and checksum of the query, then its records. *)
Definition answerQuery (query : list Z) (querySize maxResponseSize timerRx : Z)
    (devID : list Z) : M (bufst W) Z :=
  '(msgTypeValue, msgFlagsValue) ← lift (checkHeader query querySize);
  let msgFlagsValueR := replyFlags msgFlagsValue in
  lift (verifyChecksum query querySize) ;;
  lift (fail_if (HEADER_SIZE + CHECKSUM_SIZE >? maxResponseSize)) ;;
  answerRecords query querySize maxResponseSize msgTypeValue msgFlagsValueR timerRx devID.

(** The function from its start.  A null pointer is [None]. *)
Definition createResponse_body (query : option (list Z)) (querySize : Z)
    (responseBuffer : option (list Z)) (maxResponseSize : Z) : M (bufst W) Z :=
  timerRx ← call timer_get;
  devID ← call tpm_get;
  lift (fail_if (bool_decide (query = None) || bool_decide (responseBuffer = None)
                 || (u32 querySize <? HEADER_SIZE) || (maxResponseSize <? HEADER_SIZE))) ;;
  answerQuery (default [] query) querySize maxResponseSize timerRx devID.

(** The call itself: the returned [int], the outside state and the caller's
    buffer afterwards. *)
Definition createResponse (query : option (list Z)) (querySize : Z)
    (responseBuffer : option (list Z)) (maxResponseSize : Z) (w : W) :
    outcome Z * bufst W :=
  let '(o, s) := createResponse_body query querySize responseBuffer maxResponseSize
                   (BufSt w (default [] responseBuffer)) in
  (returned o, s).
End MessageBuilder.
