(* ===== verification/MessageBuilderSpec.v ===== *)
(** * What a reply is, and that [createResponse] computes it

    [spec_reply] answers a query in the terms of [Protocol.v]; the theorems
    show that [MessageBuilder.createResponse] refines it for every buffer,
    without undefined behaviour and within its fuel. *)

From S2P Require Import Prelude Memory Auxiliary Protocol Hardware MessageBuilder.

Local Open Scope Z_scope.

(** ** The specification *)

Section Spec.
Context (md5 : list Z -> option (list Z)).

(** The flags of a message whose header is exactly the protocol's. *)
Definition header_flags (m : list Z) : option Z :=
  if decide (38 <= zlen m <= 32768) then
    if decide (take 22 m = header (zlen m) 0) then Some 0
    else if decide (take 22 m = header (zlen m) 2) then Some 2
    else None
  else None.

Definition checksum_ok (m : list Z) : Prop :=
  md5 (take (length m - 16) m) = Some (drop (length m - 16) m).

#[export] Instance checksum_ok_dec m : Decision (checksum_ok m).
Proof. unfold checksum_ok. apply _. Defined.

Definition message_body (m : list Z) : list Z :=
  take (length m - 38) (drop 22 m).

(** A query: its flags and its records. *)
Definition decode_query (m : list Z) : option (Z * list tlv) :=
  flags ← header_flags m;
  if decide (checksum_ok m) then
    ts ← parse_tlvs (message_body m);
    Some (flags, ts)
  else None.

Definition reply_flags (flags : Z) : Z := if flags =? 2 then 1 else 0.

(** Appends the checksum, xored with the device ID when the flags say so. *)
Definition sign (flags : Z) (dev m : list Z) : option (list Z) :=
  d ← md5 m;
  Some (m ++ if flags =? 1 then xor_bytes d dev else d).

Context {W : Type} `{HwAccess W}.

(** The reply, [None] when the connection is to be closed.  A faulty record
    is answered by a message without body only when it is the last one. *)
Definition spec_reply (limit : Z) (m : list Z) (w : W) : option (list Z) * W :=
  let '(rx, w) := timer_get w in
  let '(dev, w) := tpm_get w in
  match decode_query m with
  | None => (None, w)
  | Some (flags, ts) =>
      let rflags := reply_flags flags in
      if decide (acceptable limit ts) then
        let '(tx, w) := if wants TimerTx ts then timer_get w else (0, w) in
        let '(lu, w) := if wants LastUpdated ts then tpm_getLastUpdated w else (0, w) in
        (sign rflags dev (unsigned_message rflags (reply_tlvs ts dev rx tx lu)), w)
      else if decide (acceptable limit (removelast ts)) then
        (sign rflags dev (unsigned_message rflags []), w)
      else (None, w)
  end.
End Spec.

(** ** Converters *)

Lemma fromLE32_value b0 b1 b2 b3 :
  bytes [b0; b1; b2; b3] -> fromLE32 b0 b1 b2 b3 = le_value [b0; b1; b2; b3].
Proof.
  intros Hb. repeat (apply Forall_cons_1 in Hb as [? Hb]). unfold is_byte in *.
  unfold fromLE32. rewrite !(u32_id b0), !(u32_id b1), !(u32_id b2), !(u32_id b3)
    by (unfold is_u32; lia).
  rewrite !u32_id by (unfold is_u32; rewrite Z.shiftl_mul_pow2 by lia; lia).
  rewrite (lor_shiftl_add b0 b1 8), (lor_shiftl_add _ b2 16), (lor_shiftl_add _ b3 24) by lia.
  simpl. lia.
Qed.

Lemma shift_byte n k : 0 <= k -> u8 (Z.land (Z.shiftr n k) 0xff) = u8 (n / 2 ^ k).
Proof.
  intros Hk. rewrite land_255, Z.shiftr_div_pow2 by done. apply u8_id, u8_byte.
Qed.

Lemma toLE64_bytes n : toLE64 n = le_bytes 8 n.
Proof.
  unfold toLE64. cbn [seqZ map le_bytes Z.to_nat Pos.to_nat Pos.iter_op].
  change (seqZ 0 8) with [0; 1; 2; 3; 4; 5; 6; 7]. cbn [map].
  rewrite !shift_byte, !Z.div_div by lia. by rewrite Z.div_1_r.
Qed.

Lemma toLE32_bytes n : toLE32 n = le_bytes 4 n.
Proof.
  unfold toLE32. change (seqZ 0 4) with [0; 1; 2; 3]. cbn [map le_bytes].
  rewrite !shift_byte, !Z.div_div by lia. by rewrite Z.div_1_r.
Qed.

Lemma le_value_size b0 b1 b2 b3 n :
  bytes [b0; b1; b2; b3] -> is_u32 n ->
  le_value [b0; b1; b2; b3] = n <-> [b0; b1; b2; b3] = le_bytes 4 n.
Proof.
  intros Hb Hn. split.
  - intros <-. symmetry. by apply (le_bytes_value [b0; b1; b2; b3]).
  - intros ->. rewrite le_value_bytes. apply Z.mod_small. exact Hn.
Qed.

(** ** The query header *)

Lemma header_flags_out m : ~ (38 <= zlen m <= 32768) -> header_flags m = None.
Proof. intros H. unfold header_flags. by case_decide. Qed.

Lemma zlen_take_le (l : list Z) n : 0 <= n <= zlen l -> zlen (take (Z.to_nat n) l) = n.
Proof. unfold zlen. rewrite length_take. lia. Qed.

(** The header between the size field and the flags value. *)
Definition header_middle : list Z :=
  [0x00; 4; 0x4E; 0x48; 0x41; 0x31; 0x01; 4; 0x00; 0x00; 0x00; 0x01; 0x02; 1; 0x01; 0x03; 1].

(** The byte tests of [checkHeader] compare one segment of the query. *)
Lemma checkHeader_fused query qs :
  checkHeader query qs =
    (b0 ← rd query 0; b1 ← rd query 1; b2 ← rd query 2; b3 ← rd query 3;
     fail_if (negb (fromLE32 b0 b1 b2 b3 =? u32 qs) || (fromLE32 b0 b1 b2 b3 <? MIN_MSG_SIZE)
              || (fromLE32 b0 b1 b2 b3 >? MAX_MSG_SIZE)) ;;
     expect_bytes query 4 header_middle ;;
     flags ← rd query 21;
     fail_if (negb (flags =? FLAG_None) && negb (flags =? REPLY_CHECKSUM_XOR_DEVICE_ID)) ;;
     mret (1, flags)).
Proof.
  unfold checkHeader. destruct (rd query 0) as [b0 | | |]; [| done ..].
  destruct (rd query 1) as [b1 | | |]; [| done ..]. destruct (rd query 2) as [b2 | | |]; [| done ..].
  destruct (rd query 3) as [b3 | | |]; [| done ..]. cbn [mbind outcome_bind].
  destruct (fail_if _) as [[] | | |]; [| done ..]. cbn [mbind outcome_bind].
  rewrite !expect_one. repeat (rewrite expect_seq by done).
  rewrite expect_bind. by repeat (rewrite expect_seq by done).
Qed.

Lemma take_22 (query : list Z) b :
  query !! 21%nat = Some b ->
  take 22 query = take 4 query ++ take 17 (drop 4 query) ++ [b].
Proof.
  intros Hb. rewrite app_assoc, take_take_drop. by apply take_S_r.
Qed.

Lemma header_split size flags : header size flags = le_bytes 4 size ++ header_middle ++ [flags].
Proof. done. Qed.

(** The header of a query agrees with the protocol's when the size field, the
    fixed bytes and the flags value do. *)
Lemma header_eq (query : list Z) b size flags :
  query !! 21%nat = Some b ->
  take 22 query = header size flags <->
    take 4 query = le_bytes 4 size /\ take 17 (drop 4 query) = header_middle /\ b = flags.
Proof.
  intros Hb. apply lookup_lt_Some in Hb as Hl. rewrite (take_22 query b), header_split by done.
  split.
  - intros E. apply app_inj_1 in E as [E1 E]; [| rewrite length_take, length_le_bytes; lia].
    apply app_inj_1 in E as [E2 E3]; [| rewrite length_take, length_drop; change (length header_middle) with 17%nat; lia].
    by injection E3.
  - by intros (-> & -> & ->).
Qed.

(** The header check decides whether the header is the protocol's. *)
Lemma checkHeader_spec query qs :
  bytes query -> 22 <= zlen query -> is_i32 qs -> qs <= zlen query ->
  checkHeader query qs =
    match header_flags (take (Z.to_nat qs) query) with
    | Some flags => Val (1, flags)
    | None => Ret (-1)
    end.
Proof.
  intros Hb Hl Hi Hqs. rewrite checkHeader_fused.
  destruct (rd_ok query 0) as (b0 & -> & H0); [lia |].
  destruct (rd_ok query 1) as (b1 & -> & H1); [lia |].
  destruct (rd_ok query 2) as (b2 & -> & H2); [lia |].
  destruct (rd_ok query 3) as (b3 & -> & H3); [lia |].
  destruct (rd_ok query 21) as (fl & -> & Hfl); [lia |].
  assert (take 4 query = [b0; b1; b2; b3]) as H4.
  { change (Z.to_nat 0) with 0%nat in H0. change (Z.to_nat 1) with 1%nat in H1.
    change (Z.to_nat 2) with 2%nat in H2. change (Z.to_nat 3) with 3%nat in H3.
    by rewrite (take_S_r _ _ _ H3), (take_S_r _ _ _ H2), (take_S_r _ _ _ H1), (take_S_r _ _ _ H0). }
  assert (bytes [b0; b1; b2; b3]) as Hb4 by (rewrite <- H4; by apply Forall_take).
  cbn [mbind outcome_bind]. rewrite fromLE32_value by done.
  assert (38 <= qs <= 32768 \/ ~ (38 <= qs <= 32768)) as [Hr | Hr] by lia.
  2: { rewrite header_flags_out.
    2: { unfold zlen in *. rewrite length_take. lia. }
    unfold MIN_MSG_SIZE, MAX_MSG_SIZE.
    destruct (Z.eqb_spec (le_value [b0; b1; b2; b3]) (u32 qs)) as [-> |]; [| done].
    destruct (Z.ltb_spec (u32 qs) 38); [done |]. destruct (Z.gtb_spec (u32 qs) 32768); [done |].
    unfold is_i32, u32 in *. Z.div_mod_to_equations. lia. }
  unfold header_flags. rewrite zlen_take_le by lia.
  rewrite decide_True by done. rewrite take_take, Nat.min_l by lia.
  change (Z.to_nat 21) with 21%nat in Hfl.
  pose proof (header_eq query fl qs 0 Hfl) as E0. pose proof (header_eq query fl qs 2 Hfl) as E2.
  rewrite H4 in E0, E2. rewrite <- le_value_size in E0, E2 by (done || unfold is_u32; lia).
  rewrite expect_bytes_spec by (change (zlen header_middle) with 17; lia).
  rewrite u32_id by (unfold is_u32; lia). unfold MIN_MSG_SIZE, MAX_MSG_SIZE, FLAG_None,
    REPLY_CHECKSUM_XOR_DEVICE_ID. change (length header_middle) with 17%nat.
  change (Z.to_nat 4) with 4%nat.
  destruct (Z.eqb_spec (le_value [b0; b1; b2; b3]) qs) as [E | E].
  2: { cbn. rewrite !decide_False by tauto. done. }
  rewrite E. destruct (Z.ltb_spec qs 38); [lia |]. destruct (Z.gtb_spec qs 32768); [lia |]. cbn.
  destruct (decide (take 17 (drop 4 query) = header_middle)); cbn.
  2: { rewrite !decide_False by tauto. done. }
  destruct (Z.eqb_spec fl 0) as [-> |]; cbn; [by rewrite decide_True by tauto |].
  rewrite decide_False by tauto.
  destruct (Z.eqb_spec fl 2) as [-> |]; cbn; [by rewrite decide_True by tauto |].
  by rewrite decide_False by tauto.
Qed.

(** ** The record loop *)

(** The loop's variables after the records [ts], all of them in order. *)
Record tracks (ts : list tlv) (st : body_state) : Prop := {
  tr_userData : userData st = user_data ts;
  tr_dev : wantDeviceID st = wants DeviceID ts;
  tr_tx : wantTimeTx st = wants TimerTx ts;
  tr_rx : wantTimeRx st = wants TimerRx ts;
  tr_lu : wantLastUpdated st = wants LastUpdated ts;
  tr_body : createResponseWithoutBody st = false;
  tr_size : sizeR st = 38 + reply_size ts;
}.

Lemma tracks_initial : tracks [] initial_body_state.
Proof. by constructor. Qed.

(** One [case] of the switch takes the record exactly when the query stays
    acceptable with it. *)
Lemma take_record_spec limit ts t k bad inc st set :
  is_u32 limit -> Forall wf_tlv ts -> wf_tlv t -> tracks ts st -> acceptable limit ts ->
  kind_of t = Some k -> inc = cost k t ->
  bad = wants k ts || negb (bool_decide (length_ok t)) ->
  (wants k ts = false -> tracks (ts ++ [t]) (set (38 + reply_size (ts ++ [t])))) ->
  let st' := take_record bad inc limit st set in
  if decide (acceptable limit (ts ++ [t])) then tracks (ts ++ [t]) st'
  else createResponseWithoutBody st' = true.
Proof.
  intros Hlim Hts Ht Htr Hacc Hk -> -> Hset st'. subst st'. unfold take_record.
  rewrite (decide_ext _ _ _ _ (acceptable_snoc limit ts t k Hk Hacc)).
  pose proof (reply_size_bounds ts Hts). destruct Ht as (_ & Hlen & _).
  pose proof (zlen_nonneg (tlv_value t)).
  assert (0 <= cost k t < 2 ^ 32) as Hc by (destruct k; simpl; lia).
  destruct (wants k ts) eqn:Hw; cbn [orb].
  { rewrite decide_False by (intros (? & _); done). done. }
  destruct (bool_decide (length_ok t)) eqn:Hlo; cbn [negb].
  2: { apply bool_decide_eq_false in Hlo. rewrite decide_False by tauto. done. }
  apply bool_decide_eq_true in Hlo. rewrite (tr_size _ _ Htr), u32_id by done.
  rewrite try_add_unsigned_spec by (unfold is_u32 in *; lia). unfold bounded_add.
  destruct (Z.leb_spec (38 + reply_size ts + cost k t) limit).
  - rewrite decide_True by done. rewrite <- Z.add_assoc, <- (reply_size_snoc k) by done. by apply Hset.
  - rewrite decide_False by (intros (_ & _ & ?); lia). done.
Qed.

(** The length test of each [case]. *)
Lemma length_test t k :
  kind_of t = Some k ->
  negb (bool_decide (length_ok t)) =
    match k with
    | UserData => zlen (tlv_value t) <? 1
    | _ => negb (zlen (tlv_value t) =? 0)
    end.
Proof.
  intros Hk. assert (length_ok t <-> match k with
    | UserData => 1 <= zlen (tlv_value t) | _ => zlen (tlv_value t) = 0 end) as E.
  { unfold length_ok. rewrite Hk. by destruct k. }
  case_bool_decide as Hl; rewrite E in Hl; destruct k; simpl;
    try destruct (Z.eqb_spec (zlen (tlv_value t)) 0); try destruct (Z.ltb_spec (zlen (tlv_value t)) 1);
    done || lia.
Qed.

(** Solves a branch of the switch, given the record's kind by [Hk]. *)
Ltac record_branch ts t k Hk :=
  apply (take_record_spec _ _ _ k); try done;
  [ rewrite (length_test _ _ Hk); congruence
  | intros Hnew; constructor; cbn; rewrite ?(user_data_other ts t) by congruence;
    rewrite ?user_data_snoc, ?wants_snoc, ?Hk; cbn; rewrite ?Hnew, ?orb_false_r, ?orb_true_r; done ].

(** The whole switch. *)
Lemma processRecord_spec limit ts t st :
  is_u32 limit -> Forall wf_tlv ts -> wf_tlv t -> tracks ts st -> acceptable limit ts ->
  let st' := processRecord limit (tlv_tag t) (zlen (tlv_value t))
               (if tlv_tag t =? USER_DATA_QTAG then tlv_value t else []) st in
  if decide (acceptable limit (ts ++ [t])) then tracks (ts ++ [t]) st'
  else createResponseWithoutBody st' = true.
Proof.
  intros Hlim Hts Ht Htr Hacc st'. subst st'.
  pose proof Htr as [Hud Hdev Htx Hrx Hlu Hwo Hsz]. destruct st as [ud dev tx rx lu wo sz].
  cbn in Hud, Hdev, Htx, Hrx, Hlu, Hwo, Hsz. subst.
  pose proof (wants_user_data ts ltac:(apply Hacc)) as Hwu.
  assert (kind_of t = kind_of t) as Hk by done. unfold kind_of at 2 in Hk.
  unfold processRecord, USER_DATA_QTAG, DEVICEID_QTAG, TIMER_RX_QTAG, TIMER_TX_QTAG,
    DEVICEID_LAST_UPDATED_QTAG, MIN_TLV_SIZE, deviceIDLength, sizeof_uint64 in *.
  destruct (tlv_tag t =? 4) eqn:?; [| destruct (tlv_tag t =? 0x91) eqn:?];
    [| | destruct (tlv_tag t =? 0x92) eqn:?]; [| | | destruct (tlv_tag t =? 0x93) eqn:?];
    [| | | | destruct (tlv_tag t =? 0x94) eqn:?].
  - record_branch ts t UserData Hk.
  - record_branch ts t DeviceID Hk.
  - record_branch ts t TimerRx Hk.
  - record_branch ts t TimerTx Hk.
  - record_branch ts t LastUpdated Hk.
  - rewrite (decide_ext _ _ _ _ (acceptable_unknown limit ts t Hk)), decide_True by done.
    constructor; cbn; rewrite ?(user_data_other ts t) by congruence;
      rewrite ?wants_snoc, ?reply_size_unknown, ?Hk by done; cbn;
      rewrite ?orb_false_r; done.
Qed.

(** What the loop leaves behind for a body: the bytes not consumed and the
    variables. *)
Definition loop_result (limit : Z) (ts : list tlv) (body : list Z) (rem : Z)
    (st : body_state) : Prop :=
  match parse_tlvs body with
  | None => 0 < rem
  | Some ts2 =>
      if decide (acceptable limit (ts ++ ts2)) then rem = 0 /\ tracks (ts ++ ts2) st
      else if decide (acceptable limit (ts ++ removelast ts2))
      then rem = 0 /\ createResponseWithoutBody st = true
      else 0 < rem
  end.

Lemma parse_nonempty body : parse_tlvs body = None -> 0 < zlen body.
Proof. destruct body; [done |]. rewrite zlen_cons. pose proof (zlen_nonneg body). lia. Qed.

(** A record that is not acceptable ends the loop. *)
Lemma loop_result_fault limit ts t body st :
  acceptable limit ts -> ~ acceptable limit (ts ++ [t]) -> bytes body ->
  createResponseWithoutBody st = true ->
  match parse_tlvs body with
  | None => 0 < zlen body
  | Some ts2 =>
      if decide (acceptable limit (ts ++ t :: ts2)) then zlen body = 0 /\ tracks (ts ++ t :: ts2) st
      else if decide (acceptable limit (ts ++ removelast (t :: ts2)))
      then zlen body = 0 /\ createResponseWithoutBody st = true
      else 0 < zlen body
  end.
Proof.
  intros Hacc Hna Hb Hst. destruct (parse_tlvs body) as [ts2 |] eqn:Hp; [| by apply parse_nonempty].
  apply parse_tlvs_spec in Hp as [Hw <-]; [| done].
  assert (forall l, ~ acceptable limit (ts ++ t :: l)) as Hno.
  { intros l Ha. apply Hna, (acceptable_app _ _ l). by rewrite <- app_assoc. }
  rewrite decide_False by apply Hno. destruct ts2 as [| t2 ts2]; cbn [removelast].
  - rewrite app_nil_r, decide_True by done. done.
  - rewrite decide_False by apply Hno. rewrite encode_tlvs_cons, zlen_app, zlen_encode_tlv.
    pose proof (zlen_nonneg (tlv_value t2)). pose proof (zlen_nonneg (encode_tlvs ts2)). lia.
Qed.

(** One iteration over a complete record. *)
Lemma processBody_iter fuel limit pre t v rest post st :
  createResponseWithoutBody st = false -> zlen v < 256 -> 2 + zlen v + zlen rest <= 32768 ->
  processBody (S fuel) (pre ++ (t :: zlen v :: v ++ rest) ++ post) limit (zlen pre)
    (2 + zlen v + zlen rest) st =
  processBody fuel ((pre ++ t :: zlen v :: v) ++ rest ++ post) limit
    (zlen (pre ++ t :: zlen v :: v)) (zlen rest)
    (processRecord limit t (zlen v) (if t =? USER_DATA_QTAG then v else []) st).
Proof.
  intros Hst Hv Hmax. pose proof (zlen_nonneg v). pose proof (zlen_nonneg rest).
  cbn [processBody]. rewrite Hst, andb_true_r. unfold MIN_TLV_SIZE.
  rewrite !u32_id by (unfold is_u32; rewrite ?u32_id by (unfold is_u32; lia); lia).
  destruct (Z.geb_spec (2 + zlen v + zlen rest) 2); [| lia].
  change ((t :: zlen v :: v ++ rest) ++ post) with (t :: (zlen v :: v ++ rest) ++ post).
  rewrite (rd_at pre t _ (zlen pre)) by done. cbn [mbind outcome_bind].
  replace (pre ++ t :: (zlen v :: v ++ rest) ++ post)
    with ((pre ++ [t]) ++ zlen v :: (v ++ rest) ++ post) by (by rewrite <- app_assoc).
  rewrite (rd_at (pre ++ [t])) by (by rewrite zlen_app). cbn [mbind outcome_bind].
  rewrite !u32_id by (unfold is_u32; rewrite ?u32_id by (unfold is_u32; lia); lia).
  destruct (Z.ltb_spec (2 + zlen v + zlen rest) (2 + zlen v)); [lia |].
  replace ((pre ++ [t]) ++ zlen v :: (v ++ rest) ++ post)
    with ((pre ++ [t; zlen v]) ++ v ++ (rest ++ post)) by (by rewrite <- !app_assoc).
  rewrite rd_range_at by (done || by rewrite zlen_app).
  replace (if t =? USER_DATA_QTAG then Val v else Val [])
    with (Val (if t =? USER_DATA_QTAG then v else [])) by (by destruct (t =? _)).
  cbn [mbind outcome_bind]. f_equal.
  - by rewrite <- !app_assoc.
  - rewrite zlen_app, !zlen_cons. lia.
  - rewrite i32_id by (unfold is_i32; lia). lia.
Qed.

(** Fewer than two bytes, or a record flagged faulty, end the loop. *)
Lemma processBody_stop fuel query limit off rem st :
  0 <= rem < 2 ^ 32 -> rem < 2 \/ createResponseWithoutBody st = true ->
  processBody fuel query limit off rem st = Val (rem, st).
Proof.
  intros Hr Hs. destruct fuel; cbn [processBody]; rewrite u32_id by done; unfold MIN_TLV_SIZE;
    destruct Hs as [Hs | ->]; rewrite ?andb_false_r; try done;
    by destruct (Z.geb_spec rem 2); [lia |].
Qed.

(** A record cut off by the end of the body ends the loop. *)
Lemma processBody_short fuel limit pre t len rest post st :
  createResponseWithoutBody st = false -> is_byte len -> zlen rest < len ->
  processBody (S fuel) (pre ++ (t :: len :: rest) ++ post) limit (zlen pre)
    (2 + zlen rest) st = Val (2 + zlen rest, st).
Proof.
  intros Hst Hlen Hshort. pose proof (zlen_nonneg rest). unfold is_byte in Hlen.
  cbn [processBody]. rewrite Hst, andb_true_r. unfold MIN_TLV_SIZE.
  rewrite !u32_id by (unfold is_u32; lia).
  destruct (Z.geb_spec (2 + zlen rest) 2); [| lia].
  change ((t :: len :: rest) ++ post) with (t :: (len :: rest) ++ post).
  rewrite (rd_at pre t _ (zlen pre)) by done. cbn [mbind outcome_bind].
  replace (pre ++ t :: (len :: rest) ++ post)
    with ((pre ++ [t]) ++ len :: rest ++ post) by (by rewrite <- app_assoc).
  rewrite (rd_at (pre ++ [t])) by (by rewrite zlen_app). cbn [mbind outcome_bind].
  rewrite !u32_id by (unfold is_u32; lia).
  by destruct (Z.ltb_spec (2 + zlen rest) (2 + len)); [| lia].
Qed.

(** The loop over the bytes [body] between [pre] and [post] of the query. *)
Lemma processBody_spec fuel limit ts pre body post st :
  is_u32 limit -> Forall wf_tlv ts -> bytes body -> zlen body <= 32768 ->
  (length body <= fuel)%nat -> tracks ts st -> acceptable limit ts ->
  exists rem st',
    processBody fuel (pre ++ body ++ post) limit (zlen pre) (zlen body) st = Val (rem, st') /\
    loop_result limit ts body rem st'.
Proof.
  intros Hlim. revert ts pre body st. induction fuel as [| fuel IH];
    intros ts pre [| t [| len rest]] st Hts Hb Hmax Hfuel Htr Hacc; simpl in Hfuel; try lia.
  1, 2, 3: eexists _, st; split; [by apply processBody_stop; [| left] |];
    unfold loop_result; cbn; rewrite ?app_nil_r, ?decide_True; done.
  pose proof Hb as Hb'. apply Forall_cons_1 in Hb' as [Ht Hb']. apply Forall_cons_1 in Hb' as [Hlen Hr].
  unfold loop_result. rewrite parse_tlvs_cons by done. rewrite !zlen_cons in *.
  destruct (Z.ltb_spec (zlen rest) len) as [Hshort | Hfull].
  { exists (2 + zlen rest), st. pose proof (zlen_nonneg rest). split; [| lia].
    replace (1 + (1 + zlen rest)) with (2 + zlen rest) by lia.
    apply processBody_short; [apply Htr | done | done]. }
  assert (rest = take (Z.to_nat len) rest ++ drop (Z.to_nat len) rest) as Er by (by rewrite take_drop).
  set (v := take (Z.to_nat len) rest) in *. set (rest' := drop (Z.to_nat len) rest) in *.
  unfold is_byte in Hlen.
  assert (zlen v = len) as Hv by (unfold v; apply zlen_take_le; lia). clearbody v rest'. subst rest len.
  apply Forall_app in Hr as [Hbv Hbr]. rewrite zlen_app in *.
  replace (1 + (1 + (zlen v + zlen rest'))) with (2 + zlen v + zlen rest') by lia.
  rewrite processBody_iter by (apply Htr || lia).
  assert (wf_tlv (Tlv t v)) as Hwf by (repeat split; simpl; done || lia || apply Ht).
  pose proof (processRecord_spec limit ts (Tlv t v) st Hlim Hts Hwf Htr Hacc) as Hrec.
  cbn [tlv_tag tlv_value] in Hrec. case_decide as Ha.
  - destruct (IH (ts ++ [Tlv t v]) (pre ++ t :: zlen v :: v) rest'
      (processRecord limit t (zlen v) (if t =? USER_DATA_QTAG then v else []) st))
      as (rem & st' & -> & Hres); try done; try lia.
    { apply Forall_app. split; [done | by apply Forall_singleton]. }
    { rewrite length_app in Hfuel. lia. }
    exists rem, st'. split; [done |]. unfold loop_result in Hres. destruct (parse_tlvs rest') as [ts2 |];
      [| done]. cbn. rewrite <- app_assoc in Hres. cbn in Hres. destruct ts2 as [| t2 ts2].
    + rewrite decide_True in Hres by done. by rewrite decide_True.
    + rewrite <- app_assoc in Hres. exact Hres.
  - pose proof (zlen_nonneg rest'). rewrite processBody_stop by (lia || by right).
    eexists _, _. split; [done |].
    pose proof (loop_result_fault limit ts (Tlv t v) rest' _ Hacc Ha Hbr Hrec) as Hf.
    by destruct (parse_tlvs rest').
Qed.

(** ** Writing the reply *)

(** Runs one write of a sequence that fills the buffer from its start. *)
Ltac write_step :=
  erewrite bind_val
    by (first [ apply wr_append | apply wr_range_append ]; autorewrite with nha_len; lia).

Section Writes.
Context {W : Type} `{HwAccess W}.
Implicit Types (w : W) (buf vs v : list Z).

Lemma writeHeader_ok size flags w buf :
  22 <= zlen buf ->
  writeHeader size 1 flags (BufSt w buf) =
    (Val 22, BufSt w (splice buf 0 (header size flags))).
Proof.
  intros Hl. unfold writeHeader, MAGIC_BYTES, VERSION_BYTES. rewrite toLE32_bytes.
  replace buf with (splice buf 0 []) at 1 by apply splice_nil.
  do 13 write_step. by rewrite <- !app_assoc.
Qed.

(** A guarded record is written when asked for. *)
Lemma writeRecord_ok wanted tag len value n w w' buf vs v :
  n = zlen vs -> zlen v = len -> len < 256 ->
  n + 2 + len < 32768 -> zlen (vs ++ emit wanted (Tlv tag v)) <= zlen buf ->
  (forall b, value (BufSt w b) = (Val v, BufSt w' b)) ->
  writeRecord wanted tag len value n (BufSt w (splice buf 0 vs)) =
    (Val (n + zlen (emit wanted (Tlv tag v))),
     BufSt (if wanted then w' else w) (splice buf 0 (vs ++ emit wanted (Tlv tag v)))).
Proof.
  intros -> <- Hv Hmax Hl Hval. pose proof (zlen_nonneg v). pose proof (zlen_nonneg vs).
  unfold writeRecord, MIN_TLV_SIZE, MAX_MSG_SIZE in *. destruct wanted; cbn [andb emit].
  2: { by rewrite app_nil_r, zlen_nil, Z.add_0_r. }
  cbn [emit] in Hl. rewrite zlen_app, zlen_encode_tlv in *. cbn [tlv_value] in *.
  destruct (Z.ltb_spec (zlen vs + 2 + zlen v) 32768); [| lia].
  do 2 write_step. rewrite (bind_val _ _ _ _ _ (Hval _)). write_step.
  rewrite u8_id, u16_id by (unfold is_byte; lia). cbn. unfold encode_tlv. cbn.
  by rewrite <- !app_assoc.
Qed.

(** What the outside is asked for while the body is written. *)
Definition body_readings (ts : list tlv) (w : W) : Z * Z * W :=
  let '(tx, w) := if wants TimerTx ts then timer_get w else (0, w) in
  let '(lu, w) := if wants LastUpdated ts then tpm_getLastUpdated w else (0, w) in
  (tx, lu, w).

Lemma call_value (f : W -> Z * W) w b :
  (x ← call f; mret (toLE64 x)) (BufSt w b) =
    (Val (le_bytes 8 (f w).1), BufSt (f w).2 b).
Proof.
  unfold mbind, M_bind, call. cbn. destruct (f w) as [x w']. cbn. by rewrite toLE64_bytes.
Qed.

(** A record whose value is at hand. *)
Lemma writeRecord_pure wanted tag len n w buf vs v :
  n = zlen vs -> zlen v = len -> len < 256 ->
  n + 2 + len < 32768 -> zlen (vs ++ emit wanted (Tlv tag v)) <= zlen buf ->
  writeRecord wanted tag len (mret v) n (BufSt w (splice buf 0 vs)) =
    (Val (n + zlen (emit wanted (Tlv tag v))),
     BufSt w (splice buf 0 (vs ++ emit wanted (Tlv tag v)))).
Proof.
  intros. rewrite (writeRecord_ok _ _ _ _ _ w w _ _ v) by done. by destruct wanted.
Qed.

(** A record whose 64-bit value is asked for while it is written. *)
Lemma writeRecord_call (wanted : bool) tag n (f : W -> Z * W) x w w' buf vs :
  (if wanted then f w else (0, w)) = (x, w') ->
  n = zlen vs -> n + 10 < 32768 ->
  zlen (vs ++ emit wanted (Tlv tag (le_bytes 8 x))) <= zlen buf ->
  writeRecord wanted tag 8 (x ← call f; mret (toLE64 x)) n (BufSt w (splice buf 0 vs)) =
    (Val (n + zlen (emit wanted (Tlv tag (le_bytes 8 x)))),
     BufSt w' (splice buf 0 (vs ++ emit wanted (Tlv tag (le_bytes 8 x))))).
Proof.
  intros Hf Hn Hmax Hl. destruct wanted.
  - pose proof (call_value f w) as Hc. rewrite Hf in Hc.
    rewrite (writeRecord_ok true _ _ _ _ w w' _ _ (le_bytes 8 x)); done || lia.
  - injection Hf as <- <-. unfold writeRecord. cbn. by rewrite app_nil_r, Z.add_0_r.
Qed.

Lemma writeBody_ok ts st dev rx hdr w buf :
  tracks ts st -> Forall length_ok ts -> Forall wf_tlv ts -> length dev = 16%nat ->
  zlen hdr = 22 -> 22 + reply_size ts <= zlen buf ->
  let '(tx, lu, w') := body_readings ts w in
  writeBody st dev rx 22 (BufSt w (splice buf 0 hdr)) =
    (Val (22 + reply_size ts),
     BufSt w' (splice buf 0 (hdr ++ encode_tlvs (reply_tlvs ts dev rx tx lu)))).
Proof.
  intros [Eud Edev Etx Erx Elu Ebody _] Hlo Hwf Hd Hh Hl.
  pose proof (reply_size_bounds ts Hwf) as Hb. pose proof (zlen_user_data ts Hwf) as Hu.
  assert (zlen dev = 16) as Hd' by (unfold zlen; by rewrite Hd).
  unfold body_readings.
  destruct (if wants TimerTx ts then timer_get w else (0, w)) as [tx w1] eqn:Htx.
  destruct (if wants LastUpdated ts then tpm_getLastUpdated w1 else (0, w1)) as [lu w2] eqn:Hlu.
  pose proof (zlen_encode_reply ts dev rx tx lu Hd) as Hsum. rewrite encode_reply in *.
  rewrite !zlen_app in Hsum.
  pose proof (zlen_emit_bounds (wants UserData ts) (Tlv 5 (user_data ts))).
  pose proof (zlen_emit_bounds (wants DeviceID ts) (Tlv 0x11 dev)).
  pose proof (zlen_emit_bounds (wants TimerRx ts) (Tlv 0x12 (le_bytes 8 rx))).
  pose proof (zlen_emit_bounds (wants TimerTx ts) (Tlv 0x13 (le_bytes 8 tx))).
  pose proof (zlen_emit_bounds (wants LastUpdated ts) (Tlv 0x14 (le_bytes 8 lu))).
  cbn [tlv_value] in *. rewrite !zlen_le_bytes in *.
  unfold writeBody. rewrite Eud, Edev, Etx, Erx, Elu, Ebody, <- wants_user_data by done.
  unfold USER_DATA_RTAG, DEVICEID_RTAG, TIMER_RX_RTAG, TIMER_TX_RTAG, DEVICEID_LAST_UPDATED_RTAG,
    deviceIDLength, sizeof_uint64. rewrite take_ge by (rewrite Hd; done). rewrite toLE64_bytes.
  set (e1 := emit (wants UserData ts) _) in *. set (e2 := emit (wants DeviceID ts) _) in *.
  set (e3 := emit (wants TimerRx ts) _) in *. set (e4 := emit (wants TimerTx ts) _) in *.
  set (e5 := emit (wants LastUpdated ts) _) in *.
  do 3 (erewrite bind_val
    by (apply writeRecord_pure; rewrite ?zlen_app, ?zlen_le_bytes; fold e1 e2 e3; lia)).
  erewrite bind_val
    by (apply (writeRecord_call _ _ _ timer_get tx w w1 buf); rewrite ?zlen_app;
        fold e1 e2 e3 e4; done || lia).
  erewrite (writeRecord_call _ _ _ tpm_getLastUpdated lu w1 w2 buf)
    by (rewrite ?zlen_app; fold e1 e2 e3 e4 e5; done || lia).
  fold e1 e2 e3 e4 e5. rewrite <- !app_assoc. do 2 f_equal. lia.
Qed.
End Writes.

(** ** The whole function *)

Section Refinement.
Context {W : Type} `{HwLaws W}.
Context (EVP_Q_digest : list Z -> option (list Z)).
Implicit Types (w : W) (buf query : list Z).

Notation md5 := (computeMD5 EVP_Q_digest).

Lemma computeMD5_length data d : md5 data = Some d -> length d = 16%nat.
Proof.
  unfold computeMD5. destruct (EVP_Q_digest data) as [d' |]; [| done].
  destruct (Z.eqb_spec CHECKSUM_SIZE (zlen d')) as [E |]; [| done].
  intros [= <-]. unfold CHECKSUM_SIZE, zlen in E. lia.
Qed.

Lemma checksum_ok_take query qs :
  16 <= qs <= zlen query ->
  checksum_ok md5 (take (Z.to_nat qs) query) <->
    md5 (take (Z.to_nat (qs - 16)) query) = Some (take 16 (drop (Z.to_nat (qs - 16)) query)).
Proof.
  intros Hl. unfold checksum_ok. assert (length (take (Z.to_nat qs) query) = Z.to_nat qs) as ->
    by (rewrite length_take; unfold zlen in *; lia).
  replace (Z.to_nat qs - 16)%nat with (Z.to_nat (qs - 16)) by lia.
  rewrite take_take, Nat.min_l, skipn_firstn_comm by lia.
  by replace (Z.to_nat qs - Z.to_nat (qs - 16))%nat with 16%nat by lia.
Qed.

Lemma verifyChecksum_spec query qs :
  38 <= qs -> qs <= 32768 -> qs <= zlen query ->
  verifyChecksum EVP_Q_digest query qs =
    if decide (checksum_ok md5 (take (Z.to_nat qs) query)) then Val tt else Ret (-1).
Proof.
  intros H38 Hmax Hl. unfold verifyChecksum, CHECKSUM_SIZE.
  rewrite (decide_ext _ _ _ _ (checksum_ok_take query qs ltac:(lia))).
  rewrite u32_id by (unfold is_u32; lia). rewrite rd_range_ok by lia.
  change (Z.to_nat 0) with 0%nat. rewrite drop_0. cbn [mbind outcome_bind]. unfold md5_or_fail.
  destruct (md5 (take (Z.to_nat (qs - 16)) query)) as [d |] eqn:Hd; [| by rewrite decide_False].
  apply computeMD5_length in Hd as Hd16. cbn [mbind outcome_bind].
  rewrite (take_ge d) by (rewrite Hd16; done).
  rewrite expect_bytes_spec by (unfold zlen in *; lia). rewrite Hd16.
  apply decide_ext. naive_solver.
Qed.

Lemma writeChecksum_ok flags dev n w buf vs :
  n = zlen vs -> zlen vs <= 32752 -> zlen vs + 16 <= zlen buf -> length dev = 16%nat ->
  writeChecksum EVP_Q_digest flags dev n (BufSt w (splice buf 0 vs)) =
    match sign md5 flags dev vs with
    | Some m => (Val (zlen m), BufSt w (splice buf 0 m))
    | None => (Ret (-1), BufSt w (splice buf 0 vs))
    end.
Proof.
  intros -> Hmax Hl Hd. pose proof (zlen_nonneg vs).
  unfold writeChecksum, CHECKSUM_SIZE, MAX_MSG_SIZE.
  destruct (Z.gtb_spec (zlen vs + 16) 32768); [lia |]. rewrite (bind_lift _ _ _ tt) by done.
  erewrite bind_val by (apply rd_prefix_ok; done || lia).
  unfold md5_or_fail, sign. destruct (md5 vs) as [d |] eqn:Hmd; [| done].
  apply computeMD5_length in Hmd as Hd16. cbn [mbind option_bind].
  rewrite (bind_lift _ _ _ d) by done.
  assert (length (if flags =? HAS_CHECKSUM_XOR_DEVICE_ID then xor_bytes d dev else d) = 16%nat) as Hx.
  { case_test; rewrite ?length_xor_bytes; congruence. }
  rewrite take_ge by (rewrite Hx; done).
  erewrite bind_val by (apply wr_range_append; unfold zlen in *; lia).
  unfold HAS_CHECKSUM_XOR_DEVICE_ID in *. cbn. rewrite zlen_app.
  rewrite u16_id by lia. repeat f_equal. unfold zlen. rewrite Hx. done.
Qed.

(** A finished run: the integer returned, the outside state, and the reply at
    the start of the caller's buffer, which keeps its size.  Without a reply the
    buffer is untouched, unless the digest of the finished reply failed. *)
Definition replies (r : option (list Z)) w buf (res : outcome Z * bufst W) : Prop :=
  returned res.1 = Val (match r with Some m => zlen m | None => -1 end) /\
  st_world res.2 = w /\ length (st_buf res.2) = length buf /\
  (forall m, r = Some m -> st_buf res.2 = splice buf 0 m) /\
  (r = None -> st_buf res.2 = buf \/ exists data, md5 data = None).

Lemma replies_closed w buf : replies None w buf (Ret (-1), BufSt w buf).
Proof. unfold replies. naive_solver. Qed.

Lemma sign_length flags dev vs m :
  length dev = 16%nat -> sign md5 flags dev vs = Some m -> zlen m = zlen vs + 16.
Proof.
  intros Hd. unfold sign. destruct (md5 vs) as [d |] eqn:Hm; [| done].
  apply computeMD5_length in Hm. intros [= <-]. rewrite zlen_app. f_equal.
  unfold zlen. case_test; [rewrite length_xor_bytes by congruence |]; by rewrite Hm.
Qed.

(** Header, body and checksum of a reply whose records are [rts]. *)
Lemma reply_writes flags dev rts size n w w' buf (body : Z -> M (bufst W) Z) :
  length dev = 16%nat -> size = 38 + zlen (encode_tlvs rts) ->
  zlen (encode_tlvs rts) <= 305 -> size <= zlen buf ->
  (forall b, zlen b = zlen buf ->
     body 22 (BufSt w (splice b 0 (header size flags))) =
       (Val n, BufSt w' (splice b 0 (header size flags ++ encode_tlvs rts)))) ->
  n = 22 + zlen (encode_tlvs rts) ->
  replies (sign md5 flags dev (unsigned_message flags rts)) w' buf
    ((n ← writeHeader size 1 flags; n ← body n; writeChecksum EVP_Q_digest flags dev n)
       (BufSt w buf)).
Proof.
  intros Hd -> Hmax Hl Hbody ->. pose proof (zlen_nonneg (encode_tlvs rts)).
  erewrite bind_val by (apply writeHeader_ok; lia).
  rewrite (bind_val _ _ _ _ _ (Hbody buf eq_refl)).
  rewrite writeChecksum_ok by (rewrite ?zlen_app, ?zlen_header; done || lia).
  fold (unsigned_message flags rts).
  destruct (sign md5 flags dev (unsigned_message flags rts)) as [m |] eqn:Hm; unfold replies; cbn.
  - apply sign_length in Hm; [| done]. rewrite zlen_unsigned_message in Hm.
    repeat split; [| by intros ? [= <-] | done]. apply length_splice. unfold zlen in *. simpl. lia.
  - repeat split; try done.
    + apply length_splice. pose proof (zlen_unsigned_message flags rts). unfold zlen in *. simpl. lia.
    + intros _. right. exists (unsigned_message flags rts). revert Hm. unfold sign.
      by destruct (md5 _).
Qed.

(** The body of a query between its header and its checksum. *)
Lemma query_segments query qs :
  38 <= qs <= zlen query ->
  exists post, query = take 22 query ++ message_body (take (Z.to_nat qs) query) ++ post /\
    zlen (message_body (take (Z.to_nat qs) query)) = qs - 38 /\ zlen (take 22 query) = 22.
Proof.
  intros Hl. unfold message_body, zlen in *.
  assert (length (take (Z.to_nat qs) query) = Z.to_nat qs) as -> by (rewrite length_take; lia).
  rewrite take_drop_take by lia. exists (drop (Z.to_nat qs - 38) (drop 22 query)).
  rewrite !take_drop, !length_take, length_drop. repeat split; lia.
Qed.

(** The loop as [createResponse] starts it. *)
Lemma loop_spec limit query qs :
  bytes query -> 38 <= qs <= 32768 -> qs <= zlen query -> is_u32 limit -> 38 <= limit ->
  exists rem st,
    processBody (Z.to_nat qs) query limit HEADER_SIZE
      (i32 (u32 (qs - HEADER_SIZE - CHECKSUM_SIZE))) initial_body_state = Val (rem, st) /\
    loop_result limit [] (message_body (take (Z.to_nat qs) query)) rem st.
Proof.
  intros Hb Hqs Hl Hlim Hlim38. destruct (query_segments query qs ltac:(lia)) as (post & Eq & Hbl & H22).
  rewrite u32_id, i32_id by (unfold is_u32, is_i32, HEADER_SIZE, CHECKSUM_SIZE; lia).
  replace (qs - HEADER_SIZE - CHECKSUM_SIZE) with (qs - 38) by (unfold HEADER_SIZE, CHECKSUM_SIZE; lia).
  rewrite <- Hbl. replace HEADER_SIZE with (zlen (take 22 query)) by done.
  remember (take 22 query) as pre. remember (message_body (take (Z.to_nat qs) query)) as body.
  rewrite Eq.
  apply processBody_spec; try done; try lia.
  - subst body. apply Forall_take, Forall_drop, Forall_take, Hb.
  - unfold zlen in Hbl. lia.
  - by apply acceptable_nil.
Qed.

(** From the decoded query on: the loop and the writes. *)
Lemma answer_spec limit query qs flags rx dev w buf :
  bytes query -> 38 <= qs <= 32768 -> qs <= zlen query -> is_u32 limit -> limit <= zlen buf ->
  length dev = 16%nat -> 38 <= limit ->
  let '(r, w') :=
    match parse_tlvs (message_body (take (Z.to_nat qs) query)) with
    | None => (None, w)
    | Some ts =>
        if decide (acceptable limit ts) then
          let '(tx, lu, w) := body_readings ts w in
          (sign md5 flags dev (unsigned_message flags (reply_tlvs ts dev rx tx lu)), w)
        else if decide (acceptable limit (removelast ts)) then
          (sign md5 flags dev (unsigned_message flags []), w)
        else (None, w)
    end in
  replies r w' buf
    (answerRecords EVP_Q_digest query qs limit 1 flags rx dev (BufSt w buf)).
Proof.
  intros Hb Hqs Hl Hlim Hbuf Hd Hlim38.
  destruct (loop_spec limit query qs) as (rem & st & Hloop & Hres); try done.
  unfold answerRecords. rewrite (bind_lift _ _ _ _ Hloop). unfold loop_result in Hres. cbn [app] in Hres.
  assert (bytes (message_body (take (Z.to_nat qs) query))) as Hbb
    by apply Forall_take, Forall_drop, Forall_take, Hb.
  destruct (parse_tlvs _) as [ts |] eqn:Hp.
  2: { destruct (Z.gtb_spec rem 0); [| lia]. apply replies_closed. }
  apply parse_tlvs_spec in Hp as [Hwf _]; [| done].
  pose proof (reply_size_bounds ts Hwf). case_decide as Ha; [| case_decide as Ha'].
  - destruct Hres as [-> Htr]. rewrite (bind_lift _ _ _ tt) by done.
    pose proof Ha as (_ & Hlo & Hsz). rewrite (tr_body _ _ Htr), (tr_size _ _ Htr). cbn zeta.
    pose proof (writeBody_ok ts st dev rx) as Hw.
    destruct (body_readings ts w) as [[tx lu] w'] eqn:Hr.
    apply (reply_writes flags dev (reply_tlvs ts dev rx tx lu) _ (22 + reply_size ts) w w'
             buf (writeBody st dev rx));
      rewrite ?zlen_encode_reply by done; try done; try lia.
    intros b Hbl. specialize (Hw (header (38 + reply_size ts) flags) w b). rewrite Hr in Hw.
    apply Hw; try done; rewrite ?zlen_header; lia.
  - destruct Hres as [-> Hst]. rewrite (bind_lift _ _ _ tt) by done. rewrite Hst. cbn zeta.
    apply (reply_writes flags dev [] _ 22 w w buf (writeBody st dev rx)); try done; try lia.
    + unfold HEADER_SIZE, CHECKSUM_SIZE. lia.
    + intros b _. unfold writeBody. rewrite Hst, app_nil_r. done.
  - destruct (Z.gtb_spec rem 0); [| lia]. apply replies_closed.
Qed.

(** The caller's obligations: a readable query buffer of at least header size,
    a size that is an [int] and within it, and a reply buffer as long as the
    limit passed. *)
Record call_ok query qs buf limit : Prop := {
  co_bytes : bytes query;
  co_header : 22 <= zlen query;
  co_int : is_i32 qs;
  co_size : qs <= zlen query;
  co_limit : is_u32 limit;
  co_buf : limit <= zlen buf;
}.

Lemma header_flags_values m flags :
  header_flags m = Some flags -> 38 <= zlen m <= 32768 /\ replyFlags flags = reply_flags flags.
Proof.
  unfold header_flags. case_decide; [| done]. repeat case_decide; intros [= <-]; done.
Qed.

(** What [spec_reply] answers once the two first readings are taken. *)
Definition spec_answer (limit : Z) (m : list Z) (rx : Z) (dev : list Z) w : option (list Z) * W :=
  match decode_query md5 m with
  | None => (None, w)
  | Some (flags, ts) =>
      let flags := reply_flags flags in
      if decide (acceptable limit ts) then
        let '(tx, lu, w) := body_readings ts w in
        (sign md5 flags dev (unsigned_message flags (reply_tlvs ts dev rx tx lu)), w)
      else if decide (acceptable limit (removelast ts)) then
        (sign md5 flags dev (unsigned_message flags []), w)
      else (None, w)
  end.

Lemma spec_reply_answer limit m w rx w1 dev w2 :
  timer_get w = (rx, w1) -> tpm_get w1 = (dev, w2) ->
  spec_reply md5 limit m w = spec_answer limit m rx dev w2.
Proof.
  intros E1 E2. unfold spec_reply, spec_answer, body_readings. rewrite E1, E2.
  destruct (decode_query md5 m) as [[flags ts] |]; [| done]. case_decide; [| done].
  destruct (if wants TimerTx ts then _ else _) as [tx w3].
  by destruct (if wants LastUpdated ts then _ else _).
Qed.

Lemma spec_answer_limit limit m rx dev w :
  limit < 38 -> spec_answer limit m rx dev w = (None, w).
Proof.
  intros Hl. unfold spec_answer. destruct (decode_query md5 m) as [[flags ts] |]; [| done].
  by rewrite !decide_False by (intros Ha%acceptable_limit; lia).
Qed.

(** From the header check on. *)
Lemma answerQuery_spec query qs buf limit rx dev w :
  call_ok query qs buf limit -> length dev = 16%nat ->
  replies (spec_answer limit (take (Z.to_nat qs) query) rx dev w).1
    (spec_answer limit (take (Z.to_nat qs) query) rx dev w).2 buf
    (answerQuery EVP_Q_digest query qs limit rx dev (BufSt w buf)).
Proof.
  intros [Hb H22 Hi Hqs Hlim Hbuf] Hd. unfold answerQuery.
  pose proof (checkHeader_spec query qs Hb H22 Hi Hqs) as Hch. set (m := take (Z.to_nat qs) query) in *.
  assert (header_flags m = None \/ ~ checksum_ok md5 m \/ limit < 38 ->
    spec_answer limit m rx dev w = (None, w)) as Hnone.
  { intros [Hn | [Hn | Hn]]; [| | by apply spec_answer_limit]; unfold spec_answer, decode_query;
      [by rewrite Hn | destruct (header_flags m); [cbn; by rewrite decide_False | done]]. }
  destruct (header_flags m) as [flags |] eqn:Hf.
  2: { rewrite (bind_lift_ret _ _ _ _ Hch), Hnone by auto. apply replies_closed. }
  rewrite (bind_lift _ _ _ _ Hch). apply header_flags_values in Hf as Hv. destruct Hv as [Hm ->].
  assert (38 <= qs <= 32768) as Hr by (subst m; unfold zlen in *; rewrite length_take in Hm; lia).
  pose proof (verifyChecksum_spec query qs ltac:(lia) ltac:(lia) Hqs) as Hcs. fold m in Hcs.
  case_decide as Hc.
  2: { rewrite (bind_lift_ret _ _ _ _ Hcs), Hnone by auto. apply replies_closed. }
  rewrite (bind_lift _ _ _ _ Hcs).
  destruct (Z.gtb_spec (HEADER_SIZE + CHECKSUM_SIZE) limit) as [Hs | Hs];
    unfold HEADER_SIZE, CHECKSUM_SIZE in Hs.
  { rewrite Hnone by auto. apply replies_closed. }
  rewrite (bind_lift _ _ _ tt) by done. unfold spec_answer, decode_query. rewrite Hf.
  cbn [mbind option_bind]. rewrite decide_True by done.
  pose proof (answer_spec limit query qs (reply_flags flags) rx dev w buf Hb Hr Hqs Hlim Hbuf Hd
    ltac:(lia)) as Ha. fold m in Ha.
  destruct (parse_tlvs (message_body m)) as [ts |]; [| exact Ha]. cbn [mbind option_bind].
  case_decide; [| by case_decide]. by destruct (body_readings ts w) as [[tx lu] w'].
Qed.

Lemma createResponse_body_spec query qs buf limit w :
  call_ok query qs buf limit -> hw_ok w ->
  replies (spec_reply md5 limit (take (Z.to_nat qs) query) w).1
    (spec_reply md5 limit (take (Z.to_nat qs) query) w).2 buf
    (createResponse_body EVP_Q_digest (Some query) qs (Some buf) limit (BufSt w buf)).
Proof.
  intros Hcall Hw. pose proof Hcall as [Hb H22 Hi Hqs Hlim Hbuf].
  destruct (timer_get_ok w Hw) as [_ Hw1]. destruct (tpm_get_ok _ Hw1) as (Hd & _ & _).
  destruct (timer_get w) as [rx w1] eqn:Erx. cbn [fst snd] in *.
  destruct (tpm_get w1) as [dev w2] eqn:Edev. cbn [fst snd] in Hd.
  rewrite (spec_reply_answer _ _ _ _ _ _ _ Erx Edev). unfold createResponse_body.
  rewrite (bind_val _ _ _ rx (BufSt w1 buf)) by (unfold call; cbn; by rewrite Erx).
  rewrite (bind_val _ _ _ dev (BufSt w2 buf)) by (unfold call; cbn; by rewrite Edev).
  rewrite !bool_decide_eq_false_2 by done. cbn [orb].
  destruct (Z.ltb_spec (u32 qs) HEADER_SIZE) as [Hsmall | Hbig]; unfold HEADER_SIZE in *.
  { replace (spec_answer limit (take (Z.to_nat qs) query) rx dev w2) with (@None (list Z), w2);
      [apply replies_closed |].
    unfold spec_answer, decode_query. rewrite header_flags_out; [done |].
    unfold zlen, u32, is_i32 in *. rewrite length_take. Z.div_mod_to_equations. lia. }
  destruct (Z.ltb_spec limit 22).
  { rewrite spec_answer_limit by lia. apply replies_closed. }
  rewrite (bind_lift _ _ _ tt) by done. by apply answerQuery_spec.
Qed.

(** [createResponse] refines [spec_reply]. *)
Lemma createResponse_refines query qs buf limit w :
  call_ok query qs buf limit -> hw_ok w ->
  exists buf',
    let '(r, w') := spec_reply md5 limit (take (Z.to_nat qs) query) w in
    createResponse EVP_Q_digest (Some query) qs (Some buf) limit w =
      (Val (match r with Some m => zlen m | None => -1 end), BufSt w' buf') /\
    length buf' = length buf /\ (forall m, r = Some m -> buf' = splice buf 0 m) /\
    (r = None -> buf' = buf \/ exists data, md5 data = None).
Proof.
  intros Hc Hw. pose proof (createResponse_body_spec query qs buf limit w Hc Hw) as Hs.
  unfold createResponse. cbn [default from_option id].
  destruct (createResponse_body _ _ _ _ _ _) as [o [w2 buf']]. exists buf'.
  destruct (spec_reply md5 limit (take (Z.to_nat qs) query) w) as [r w'].
  destruct Hs as (Ho & Hw' & Hl & Hm & Hn). cbn in *. subst. by rewrite Ho.
Qed.
End Refinement.
