(* ===== verification/Queries.v ===== *)
(** * Well-formed queries and what the specification answers them

    The messages a client sends ([query_of]) and the facts about [spec_reply]
    that the theorems on the server, on the client and on the connection loop
    share. *)

From S2P Require Import Prelude Memory Protocol Hardware MessageBuilder MessageBuilderSpec.

Local Open Scope Z_scope.

(** What the code relies on of OpenSSL: MD5 is available and has 16 bytes. *)
Definition digest_total (EVP_Q_digest : list Z -> option (list Z)) : Prop :=
  forall data, exists d, EVP_Q_digest data = Some d /\ length d = 16%nat /\ bytes d.

Section Queries.
Context (EVP_Q_digest : list Z -> option (list Z)).
Notation md5 := (computeMD5 EVP_Q_digest).

(** The query of the flags and records given. *)
Definition query_of (flags : Z) (ts : list tlv) : option (list Z) :=
  sign md5 0 [] (unsigned_message flags ts).

(** What a client may put into a query. *)
Record query_ok (flags : Z) (ts : list tlv) : Prop := {
  qo_flags : flags = 0 \/ flags = 2;
  qo_wf : Forall wf_tlv ts;
  qo_size : 38 + zlen (encode_tlvs ts) <= 32768;
}.

Lemma computeMD5_total data : digest_total EVP_Q_digest -> exists d, md5 data = Some d.
Proof.
  intros Ht. destruct (Ht data) as (d & Hd & Hl & _). exists d. unfold computeMD5. rewrite Hd.
  unfold zlen, CHECKSUM_SIZE. by rewrite Hl.
Qed.

Lemma computeMD5_bytes data d : digest_total EVP_Q_digest -> md5 data = Some d -> bytes d.
Proof.
  intros Ht. unfold computeMD5. destruct (Ht data) as (d' & -> & _ & Hb). case_test; [| done].
  by intros [= <-].
Qed.

Lemma sign_total flags dev vs :
  digest_total EVP_Q_digest -> exists m, sign md5 flags dev vs = Some m.
Proof.
  intros Ht. unfold sign. destruct (computeMD5_total vs Ht) as [d ->]. by eexists.
Qed.

(** The three segments of a signed message. *)
Lemma signed_message flags dev fl ts m :
  length dev = 16%nat \/ flags <> 1 ->
  sign md5 flags dev (unsigned_message fl ts) = Some m ->
  exists d, md5 (unsigned_message fl ts) = Some d /\
    zlen m = 38 + zlen (encode_tlvs ts) /\
    take (length m - 16) m = unsigned_message fl ts /\
    drop (length m - 16) m = (if flags =? 1 then xor_bytes d dev else d) /\
    message_body m = encode_tlvs ts /\ take 22 m = header (zlen m) fl.
Proof.
  intros Hdev. unfold sign. destruct (md5 _) as [d |] eqn:Hd; [| done]. intros <-%(inj Some).
  exists d. split; [done |]. apply computeMD5_length in Hd as Hl.
  set (sum := if flags =? 1 then xor_bytes d dev else d).
  assert (length sum = 16%nat) as Hs.
  { subst sum. destruct (Z.eqb_spec flags 1); [| done]. rewrite length_xor_bytes; [done |].
    destruct Hdev; congruence. }
  pose proof (zlen_unsigned_message fl ts) as Hu.
  assert (zlen (unsigned_message fl ts ++ sum) = 38 + zlen (encode_tlvs ts)) as Hz
    by (rewrite zlen_app; unfold zlen in *; lia).
  assert (length (unsigned_message fl ts ++ sum) - 16 = length (unsigned_message fl ts))%nat as Hp
    by (rewrite length_app; lia).
  assert (length (unsigned_message fl ts ++ sum) - 38 = length (encode_tlvs ts))%nat as Hb
    by (unfold zlen in *; lia).
  repeat split; [done | by rewrite Hp, take_app_length | by rewrite Hp, drop_app_length | |].
  - unfold message_body. rewrite Hb. unfold unsigned_message. rewrite <- app_assoc.
    rewrite drop_app_length' by (by rewrite length_header). apply take_app_length.
  - rewrite Hz. unfold unsigned_message. rewrite <- app_assoc.
    by rewrite take_app_length' by (by rewrite length_header).
Qed.

Lemma signed_query flags ts m :
  query_of flags ts = Some m ->
  exists d, md5 (unsigned_message flags ts) = Some d /\
    zlen m = 38 + zlen (encode_tlvs ts) /\
    take (length m - 16) m = unsigned_message flags ts /\ drop (length m - 16) m = d /\
    message_body m = encode_tlvs ts /\ take 22 m = header (zlen m) flags.
Proof. apply signed_message. by right. Qed.

(** The server decodes every query a client may send. *)
Lemma decode_query_of flags ts m :
  query_ok flags ts -> query_of flags ts = Some m -> decode_query md5 m = Some (flags, ts).
Proof.
  intros [Hf Hw Hs] Hq. apply signed_query in Hq as (d & Hd & Hz & Hp & Hsum & Hb & Hh).
  pose proof (zlen_nonneg (encode_tlvs ts)).
  assert (header_flags m = Some flags) as Hhf.
  { unfold header_flags. rewrite decide_True by lia. rewrite Hh.
    destruct Hf as [-> | ->]; [by rewrite decide_True |].
    rewrite decide_False, decide_True; [done .. |]. unfold header. by intros [= ?]%app_inv_head. }
  unfold decode_query. rewrite Hhf. cbn. rewrite decide_True by (unfold checksum_ok; congruence).
  rewrite Hb, parse_encode by done. done.
Qed.

(** What the server decodes is such a query. *)
Lemma decode_query_sound m flags ts :
  bytes m -> decode_query md5 m = Some (flags, ts) ->
  query_ok flags ts /\ query_of flags ts = Some m.
Proof.
  intros Hb. unfold decode_query. destruct (header_flags m) as [fl |] eqn:Hf; [| done]. cbn.
  case_decide as Hc; [| done]. destruct (parse_tlvs _) as [ts' |] eqn:Hp; [| done].
  intros [= -> ->]. apply parse_tlvs_spec in Hp as [Hw He]; [| apply Forall_take, Forall_drop, Hb].
  unfold header_flags in Hf. case_decide as Hr; [| done].
  assert (take 22 m = header (zlen m) flags /\ (flags = 0 \/ flags = 2)) as [Hh Hfl]
    by (repeat case_decide; by simplify_eq; auto).
  unfold message_body in He. assert (zlen (encode_tlvs ts) = zlen m - 38) as Hl
    by (rewrite He; unfold zlen in *; rewrite length_take, length_drop; lia).
  assert (take (length m - 16) m = unsigned_message flags ts) as Hu.
  { unfold unsigned_message. rewrite Hl, He. replace (38 + (zlen m - 38)) with (zlen m) by lia.
    rewrite <- Hh. rewrite <- (take_drop 22 (take (length m - 16) m)).
    rewrite take_take, skipn_firstn_comm. unfold zlen in *. f_equal; f_equal; lia. }
  split; [constructor; done || lia |]. unfold query_of, sign. rewrite <- Hu. unfold checksum_ok in Hc.
  rewrite Hc. cbn. f_equal. apply take_drop.
Qed.

Lemma bytes_header size flags : is_byte flags -> bytes (header size flags).
Proof.
  intros Hf. apply Forall_app. split; [apply le_bytes_bytes |].
  repeat (constructor; [unfold is_byte in *; lia |]). constructor.
Qed.

Lemma bytes_query_of flags ts m :
  digest_total EVP_Q_digest -> query_ok flags ts -> query_of flags ts = Some m -> bytes m.
Proof.
  intros Ht [Hf Hw Hs] Hq. apply signed_query in Hq as (d & Hd & Hz & Hp & Hsum & Hb & Hh).
  rewrite <- (take_drop (length m - 16) m), Hp, Hsum. apply Forall_app.
  split; [| by apply (computeMD5_bytes _ _ Ht Hd)]. apply Forall_app.
  split; [apply bytes_header; unfold is_byte; lia | by apply bytes_encode_tlvs].
Qed.
End Queries.
