(* ===== verification/Concrete.v ===== *)
(** * A concrete machine for the witnesses

    A clock that advances by one at every reading, a fixed device ID, and a
    checksum function of 16 bytes in the place of MD5: enough to evaluate the
    operations of the message builder, the responder and the client. *)

From S2P Require Import Prelude Protocol Hardware MessageBuilder MessageBuilderSpec Queries.

Local Open Scope Z_scope.

Definition clock_device_id : list Z := seqZ 0xA0 16.

(** The reading of the clock at time [t], which stops at the largest value. *)
Definition clock_reading (t : Z) : Z := Z.max 0 (Z.min t (2 ^ 64 - 1)).

#[export] Instance clock_hw : HwAccess Z := {
  timer_get t := (clock_reading t, t + 1);
  tpm_get t := (clock_device_id, t);
  tpm_getLastUpdated t := (7, t);
}.

#[export] Program Instance clock_laws : HwLaws Z := {
  hw_ok _ := True;
}.
Next Obligation. intros w _. split; [cbn; unfold clock_reading, is_u64; lia | done]. Qed.
Next Obligation. intros w _. split; [done |]. split; [apply (bool_decide_unpack _); by vm_compute | done]. Qed.
Next Obligation. intros w _. split; [unfold is_u64; cbn; lia | done]. Qed.

#[export] Program Instance clock_monotone : HwMonotone Z := {
  hw_now := clock_reading;
}.
Next Obligation. intros w _. cbn. unfold clock_reading. lia. Qed.
Next Obligation. done. Qed.
Next Obligation. done. Qed.

(** The time source fails at time 1000000. *)
#[export] Instance clock_source : TimeSource Z := {
  timer_getValid t := (t <? 1000000, t + 1);
}.

#[export] Program Instance clock_source_laws : TimeSourceLaws Z.
Next Obligation. done. Qed.
Next Obligation. intros w _. cbn. rewrite !Z.ltb_ge. lia. Qed.

(** A checksum of 16 bytes, as the client and as the server compute it. *)
Definition sum_md5 (data : list Z) : list Z := replicate 16 (u8 (foldr Z.add 0 data)).
Definition sum_digest (data : list Z) : option (list Z) := Some (sum_md5 data).

Lemma sum_md5_ok data : length (sum_md5 data) = 16%nat /\ bytes (sum_md5 data).
Proof. split; [apply length_replicate |]. apply Forall_replicate. apply u8_byte. Qed.

Lemma sum_digest_total : digest_total sum_digest.
Proof. intros data. exists (sum_md5 data). split; [done |]. apply sum_md5_ok. Qed.

(** The query of the interface document: user data, device ID and both timers. *)
Definition sample_records : list tlv :=
  [Tlv 0x04 [1; 2; 3; 4]; Tlv 0x91 []; Tlv 0x92 []; Tlv 0x93 []].

(** A query for the records given, for its bytes. *)
Definition sample_query (flags : Z) (ts : list tlv) : list Z :=
  default [] (query_of sum_digest flags ts).

Lemma sample_query_of flags ts : query_of sum_digest flags ts = Some (sample_query flags ts).
Proof.
  unfold sample_query, query_of.
  by destruct (sign_total sum_digest 0 [] (unsigned_message flags ts) sum_digest_total) as [m ->].
Qed.

(** Decides the side conditions on concrete records. *)
Definition query_okb (flags : Z) (ts : list tlv) : bool :=
  ((flags =? 0) || (flags =? 2)) &&
  forallb (fun t => bool_decide (is_byte (tlv_tag t)) && (zlen (tlv_value t) <? 256) &&
                    bool_decide (bytes (tlv_value t))) ts &&
  (38 + zlen (encode_tlvs ts) <=? 32768).

Lemma query_okb_ok flags ts : query_okb flags ts = true -> query_ok flags ts.
Proof.
  unfold query_okb. rewrite !andb_true_iff, orb_true_iff, !Z.eqb_eq, Z.leb_le, forallb_forall.
  intros [[Hf Hw] Hs]. constructor; [done | | done]. apply List.Forall_forall.
  intros t Ht. specialize (Hw t Ht). rewrite !andb_true_iff, !bool_decide_eq_true, Z.ltb_lt in Hw.
  unfold wf_tlv. tauto.
Qed.

Definition sample_buffer : list Z := replicate 400 0.

(** Closes the side conditions of a concrete call. *)
Ltac concrete :=
  lazymatch goal with
  | |- digest_total _ => exact sum_digest_total
  | |- query_ok _ _ => apply query_okb_ok; reflexivity
  | |- query_of _ _ _ = _ => apply sample_query_of
  | |- hw_ok _ => exact I
  | |- is_u32 _ => unfold is_u32; lia
  | |- acceptable _ _ => apply (bool_decide_unpack _); vm_compute; exact I
  | |- ~ acceptable _ _ => apply (bool_decide_unpack _); vm_compute; exact I
  | |- same_requests _ _ => vm_compute; solve_Permutation
  | |- _ <= _ => vm_compute; discriminate
  | |- _ <> _ => discriminate
  | |- _ = _ => vm_compute; reflexivity
  end.
