(* ===== verification/MessageBuilderTheorems.v ===== *)
(** * The theorems on the message builder

    [createResponse] against its specification and against the rules of the
    interface document, each with an evaluated instance. *)

From S2P Require Import Prelude Memory Auxiliary Protocol Hardware MessageBuilder.
From S2P Require Import MessageBuilderSpec Queries Concrete.

Local Open Scope Z_scope.

Section Run.
Context {W : Type} `{HwLaws W}.
Context (EVP_Q_digest : list Z -> option (list Z)).
Implicit Types (w : W) (buf query : list Z).

Notation md5 := (computeMD5 EVP_Q_digest).
Notation spec_reply := (spec_reply md5).

(** The buffer a run leaves behind: the reply over its start, or no change. *)
Definition reply_buffer buf (r : option (list Z)) : list Z :=
  match r with Some m => splice buf 0 m | None => buf end.

Definition reply_result (r : option (list Z)) : Z :=
  match r with Some m => zlen m | None => -1 end.

(** With a digest that does not fail, the run is determined by [spec_reply]. *)
Lemma run_spec query qs buf limit w :
  digest_total EVP_Q_digest -> call_ok query qs buf limit -> hw_ok w ->
  let '(r, w') := spec_reply limit (take (Z.to_nat qs) query) w in
  createResponse EVP_Q_digest (Some query) qs (Some buf) limit w =
    (Val (reply_result r), BufSt w' (reply_buffer buf r)).
Proof.
  intros Ht Hc Hw. destruct (createResponse_refines EVP_Q_digest query qs buf limit w Hc Hw) as [buf' Hr].
  destruct (spec_reply limit (take (Z.to_nat qs) query) w) as [[m |] w'];
    destruct Hr as (-> & _ & Hm & Hn); unfold reply_buffer, reply_result; repeat f_equal.
  - by apply Hm.
  - destruct Hn as [| [data Hd]]; [done .. |]. destruct (computeMD5_total EVP_Q_digest data Ht). congruence.
Qed.

(** The reply to a query a client may send. *)
Lemma spec_reply_query flags ts m limit w rx w1 dev w2 :
  query_ok flags ts -> query_of EVP_Q_digest flags ts = Some m ->
  timer_get w = (rx, w1) -> tpm_get w1 = (dev, w2) ->
  spec_reply limit m w =
    if decide (acceptable limit ts) then
      let '(tx, lu, w') := body_readings ts w2 in
      (sign md5 (reply_flags flags) dev
         (unsigned_message (reply_flags flags) (reply_tlvs ts dev rx tx lu)), w')
    else if decide (acceptable limit (removelast ts)) then
      (sign md5 (reply_flags flags) dev (unsigned_message (reply_flags flags) []), w2)
    else (None, w2).
Proof.
  intros Hq Hm E1 E2. rewrite (spec_reply_answer _ _ _ _ _ _ _ _ E1 E2). unfold spec_answer.
  by rewrite (decode_query_of EVP_Q_digest flags ts m Hq Hm).
Qed.

Lemma query_call_ok flags ts m buf limit :
  digest_total EVP_Q_digest -> query_ok flags ts -> query_of EVP_Q_digest flags ts = Some m ->
  is_u32 limit -> limit <= zlen buf -> call_ok m (zlen m) buf limit.
Proof.
  intros Ht Hq Hm Hl Hb. pose proof Hq as [_ _ Hs].
  pose proof (bytes_query_of EVP_Q_digest flags ts m Ht Hq Hm).
  apply signed_query in Hm as (_ & _ & Hz & _). pose proof (zlen_nonneg (encode_tlvs ts)).
  constructor; try done; unfold is_i32; lia.
Qed.

Lemma take_all (m : list Z) : take (Z.to_nat (zlen m)) m = m.
Proof. unfold zlen. rewrite Nat2Z.id. by apply take_ge. Qed.

Lemma run_query flags ts m buf limit w :
  digest_total EVP_Q_digest -> query_ok flags ts -> query_of EVP_Q_digest flags ts = Some m ->
  is_u32 limit -> limit <= zlen buf -> hw_ok w ->
  let '(r, w') := spec_reply limit m w in
  createResponse EVP_Q_digest (Some m) (zlen m) (Some buf) limit w =
    (Val (reply_result r), BufSt w' (reply_buffer buf r)).
Proof.
  intros Ht Hq Hm Hl Hb Hw.
  pose proof (run_spec m (zlen m) buf limit w Ht (query_call_ok flags ts m buf limit Ht Hq Hm Hl Hb) Hw) as Hr.
  by rewrite take_all in Hr.
Qed.

(** A reply is a signed message for a decoded query, within the limit. *)
Lemma spec_reply_signed limit m w r w' :
  bytes m -> hw_ok w -> spec_reply limit m w = (Some r, w') ->
  exists flags ts rts dev,
    decode_query md5 m = Some (flags, ts) /\ length dev = 16%nat /\
    sign md5 (reply_flags flags) dev (unsigned_message (reply_flags flags) rts) = Some r /\
    0 <= zlen (encode_tlvs rts) <= 305 /\ 38 + zlen (encode_tlvs rts) <= limit.
Proof.
  intros Hb Hw. destruct (timer_get w) as [rx w1] eqn:E1. destruct (tpm_get w1) as [dev w2] eqn:E2.
  assert (length dev = 16%nat) as Hd.
  { destruct (timer_get_ok w Hw) as [_ Hw1]. rewrite E1 in Hw1. destruct (tpm_get_ok _ Hw1) as (Hd & _).
    cbn [snd] in Hd. by rewrite E2 in Hd. }
  rewrite (spec_reply_answer _ _ _ _ _ _ _ _ E1 E2). unfold spec_answer.
  destruct (decode_query md5 m) as [[flags ts] |] eqn:Hq; [| done].
  apply decode_query_sound in Hq as Hq'; [| done]. destruct Hq' as [[_ Hwf _] _].
  pose proof (reply_size_bounds ts Hwf). case_decide as Ha; [| case_decide as Ha'; [| done]].
  - destruct (body_readings ts w2) as [[tx lu] w3]. intros [= Hs <-].
    exists flags, ts, (reply_tlvs ts dev rx tx lu), dev. rewrite zlen_encode_reply by done.
    destruct Ha as (_ & _ & Hl). repeat split; done || lia.
  - intros [= Hs <-]. exists flags, ts, [], dev. apply acceptable_limit in Ha'.
    change (zlen (encode_tlvs [])) with 0. repeat split; done || lia.
Qed.

Lemma header_size_field size flags m :
  take 22 m = header size flags -> is_u32 size -> le_value (take 4 m) = size.
Proof.
  intros Hh Hs. replace (take 4 m) with (take 4 (take 22 m)) by (rewrite take_take; done).
  rewrite Hh. unfold header. rewrite take_app_length' by done. rewrite le_value_bytes.
  by apply Z.mod_small.
Qed.

(** C1.  Total correctness of [createResponse]: for every readable query buffer
    of at least header size, every claimed size within it (negative ones too)
    and every reply buffer as long as the limit, the call comes back without
    touching memory outside its buffers, returns the length of the message
    [spec_reply] prescribes or -1, leaves the outside state [spec_reply]
    leaves, and changes no byte of the buffer behind the reply. *)
Theorem createResponse_correct query qs buf limit w :
  call_ok query qs buf limit -> hw_ok w ->
  exists buf',
    let '(r, w') := spec_reply limit (take (Z.to_nat qs) query) w in
    createResponse EVP_Q_digest (Some query) qs (Some buf) limit w =
      (Val (match r with Some m => zlen m | None => -1 end), BufSt w' buf') /\
    length buf' = length buf /\
    (forall m, r = Some m ->
       take (length m) buf' = m /\ drop (length m) buf' = drop (length m) buf) /\
    (r = None -> buf' = buf \/ exists data, md5 data = None).
Proof.
  intros Hc Hw. destruct (createResponse_refines EVP_Q_digest query qs buf limit w Hc Hw) as [buf' Hr].
  exists buf'. destruct (spec_reply _ _ w) as [r w'] eqn:Es. destruct Hr as (Hr & Hl & Hm & Hn).
  split; [done |]. split; [done |]. split; [| done]. intros m ->. rewrite (Hm m eq_refl).
  unfold splice. rewrite take_0. cbn [app Nat.add]. split; [apply take_app_length | apply drop_app_length].
Qed.

(** C8.  Size of a reply: what [createResponse] returns is -1, or between 38
    and 343 and within the caller's limit, and then it is the value of the
    size field the reply starts with. *)
Theorem createResponse_size query qs buf limit w n s :
  call_ok query qs buf limit -> hw_ok w ->
  createResponse EVP_Q_digest (Some query) qs (Some buf) limit w = (Val n, s) ->
  n = -1 \/ 38 <= n <= 343 /\ n <= limit /\ le_value (take 4 (st_buf s)) = n.
Proof.
  intros Hc Hw Hn. destruct (createResponse_refines EVP_Q_digest query qs buf limit w Hc Hw) as [buf' Hr].
  destruct (spec_reply _ _ w) as [[m |] w'] eqn:Es; destruct Hr as (E & Hl & Hm & _);
    rewrite Hn in E; injection E as -> ->; [right | by left].
  destruct Hc as [Hb _ _ _ _ Hlb].
  apply spec_reply_signed in Es as (fl & ts & rts & dev & _ & Hd & Hs & Hsz & Hlim);
    [| by apply Forall_take | done].
  apply signed_message in Hs as (d & _ & Hz & _ & _ & _ & Hh); [| by left].
  rewrite (Hm m eq_refl). cbn [st_buf]. repeat split; try lia.
  unfold splice. rewrite take_0. cbn [app]. rewrite take_app_le by (unfold zlen in *; lia).
  apply (header_size_field _ _ _ Hh). unfold is_u32. lia.
Qed.

(** C7.  Only queries are answered: whatever bytes arrive, a reply is made only
    if they are exactly the header of the protocol with flags 0 or 2, a
    sequence of complete records, and the MD5 of both. *)
Theorem createResponse_answers_queries_only query qs buf limit w n s :
  call_ok query qs buf limit -> hw_ok w ->
  createResponse EVP_Q_digest (Some query) qs (Some buf) limit w = (Val n, s) -> n <> -1 ->
  exists flags ts, query_ok flags ts /\
    query_of EVP_Q_digest flags ts = Some (take (Z.to_nat qs) query).
Proof.
  intros Hc Hw Hn Hne. destruct (createResponse_refines EVP_Q_digest query qs buf limit w Hc Hw) as [buf' Hr].
  destruct (spec_reply _ _ w) as [[m |] w'] eqn:Es; destruct Hr as (E & _);
    rewrite Hn in E; injection E as -> ->; [| done].
  destruct Hc as [Hb _ _ _ _ _].
  apply spec_reply_signed in Es as (fl & ts & rts & dev & Hq & _); [| by apply Forall_take | done].
  exists fl, ts. apply decode_query_sound; [by apply Forall_take | done].
Qed.

(** The readings [createResponse] starts with. *)
Lemma first_readings w rx w1 dev w2 :
  hw_ok w -> timer_get w = (rx, w1) -> tpm_get w1 = (dev, w2) ->
  is_u64 rx /\ length dev = 16%nat /\ bytes dev /\ hw_ok w2.
Proof.
  intros Hw E1 E2. destruct (timer_get_ok w Hw) as [Hrx Hw1]. rewrite E1 in *.
  destruct (tpm_get_ok _ Hw1) as (Hd & Hb & Hw2). cbn [fst snd] in *. by rewrite E2 in *.
Qed.

(** The reply at the start of the buffer a run leaves. *)
Lemma take_reply buf m : zlen m <= zlen buf -> take (length m) (reply_buffer buf (Some m)) = m.
Proof. intros Hl. apply take_splice; [| done]. unfold zlen in *. lia. Qed.

(** What a run that does not return -1 leaves in the buffer. *)
Lemma run_reply flags ts m buf limit w rx w1 dev w2 n s :
  digest_total EVP_Q_digest -> query_ok flags ts -> query_of EVP_Q_digest flags ts = Some m ->
  is_u32 limit -> limit <= zlen buf -> hw_ok w ->
  timer_get w = (rx, w1) -> tpm_get w1 = (dev, w2) ->
  createResponse EVP_Q_digest (Some m) (zlen m) (Some buf) limit w = (Val n, s) -> n <> -1 ->
  exists rts reply,
    sign md5 (reply_flags flags) dev (unsigned_message (reply_flags flags) rts) = Some reply /\
    n = zlen reply /\ n <= limit /\ st_buf s = splice buf 0 reply /\
    (rts = [] \/ exists tx lu w', body_readings ts w2 = (tx, lu, w') /\
       rts = reply_tlvs ts dev rx tx lu).
Proof.
  intros Ht Hq Hm Hl Hb Hw E1 E2 Hn Hne. destruct (first_readings _ _ _ _ _ Hw E1 E2) as (_ & Hd & _ & _).
  pose proof (run_query flags _ m buf limit w Ht Hq Hm Hl Hb Hw) as Hr.
  rewrite (spec_reply_query flags _ m limit w _ _ _ _ Hq Hm E1 E2), Hn in Hr.
  assert (forall rts, exists reply,
    sign md5 (reply_flags flags) dev (unsigned_message (reply_flags flags) rts) = Some reply /\
    zlen reply = 38 + zlen (encode_tlvs rts)) as Hsign.
  { intros rts. destruct (sign_total EVP_Q_digest (reply_flags flags) dev
      (unsigned_message (reply_flags flags) rts) Ht) as [reply Hs].
    exists reply. rewrite (sign_length _ _ _ _ _ Hd Hs), zlen_unsigned_message. split; [done | lia]. }
  case_decide as Ha; [| case_decide as Ha'; [| by injection Hr as ->]].
  - destruct (body_readings ts w2) as [[tx lu] w3] eqn:Er.
    destruct (Hsign (reply_tlvs ts dev rx tx lu)) as (reply & Hs & Hz).
    rewrite Hs in Hr. injection Hr as -> ->. rewrite zlen_encode_reply in Hz by done.
    destruct Ha as (_ & _ & ?). eexists _, reply. cbn [reply_result].
    split; [done |]. repeat split; [lia |]. right. by eexists _, _, _.
  - destruct (Hsign []) as (reply & Hs & Hz). rewrite Hs in Hr. injection Hr as -> ->.
    apply acceptable_limit in Ha'. change (zlen (encode_tlvs [])) with 0 in Hz.
    eexists _, reply. cbn [reply_result]. split; [done |]. repeat split; [lia |]. by left.
Qed.

(** C2.  A well-formed query is served: when no supported record occurs twice
    or has a wrong length and the reply fits, the reply holds exactly one
    record for every one asked for, the user data mirrored, the device ID of
    the cache, the clock reading taken before and the one taken after the
    query was processed; it carries the header of the protocol and its own
    checksum. *)
Theorem createResponse_serves flags ts m buf limit w rx w1 dev w2 tx lu w' :
  digest_total EVP_Q_digest -> query_ok flags ts -> query_of EVP_Q_digest flags ts = Some m ->
  acceptable limit ts -> is_u32 limit -> limit <= zlen buf -> hw_ok w ->
  timer_get w = (rx, w1) -> tpm_get w1 = (dev, w2) -> body_readings ts w2 = (tx, lu, w') ->
  exists reply buf' d,
    createResponse EVP_Q_digest (Some m) (zlen m) (Some buf) limit w =
      (Val (zlen reply), BufSt w' buf') /\
    take (length reply) buf' = reply /\
    take 22 reply = header (38 + reply_size ts) (reply_flags flags) /\
    parse_tlvs (message_body reply) = Some (reply_tlvs ts dev rx tx lu) /\
    md5 (take (length reply - 16) reply) = Some d /\
    drop (length reply - 16) reply = (if flags =? 2 then xor_bytes d dev else d).
Proof.
  intros Ht Hq Hm Ha Hl Hb Hw E1 E2 E3. destruct (first_readings _ _ _ _ _ Hw E1 E2) as (_ & Hd & Hdb & _).
  pose proof (run_query flags ts m buf limit w Ht Hq Hm Hl Hb Hw) as Hr.
  rewrite (spec_reply_query flags ts m limit w _ _ _ _ Hq Hm E1 E2), decide_True, E3 in Hr by done.
  destruct (sign_total EVP_Q_digest (reply_flags flags) dev
    (unsigned_message (reply_flags flags) (reply_tlvs ts dev rx tx lu)) Ht) as [reply Hs].
  rewrite Hs in Hr. apply signed_message in Hs as (d & Hmd & Hz & Hp & Hsum & Hbd & Hh); [| by left].
  rewrite zlen_encode_reply in Hz by done. destruct Ha as (_ & _ & Hsz).
  exists reply, (reply_buffer buf (Some reply)), d. split; [done |].
  split; [apply take_reply; lia |]. rewrite Hh, Hz, Hbd, parse_encode, Hp, Hsum.
  - repeat split; try done. destruct Hq as [[-> | ->] _ _]; done.
  - apply wf_reply_tlvs; try done. by destruct Hq.
Qed.

(** C12.  A query whose last record is the first faulty one (asked for twice,
    with a wrong length, or too much for the limit) is answered by 38 bytes:
    the header for that size, and the 16 bytes of its MD5, xored with the
    device ID if the query asked for that. *)
Theorem createResponse_faulty_last flags front t m buf limit w rx w1 dev w2 :
  digest_total EVP_Q_digest -> query_ok flags (front ++ [t]) ->
  query_of EVP_Q_digest flags (front ++ [t]) = Some m ->
  acceptable limit front -> ~ acceptable limit (front ++ [t]) ->
  is_u32 limit -> limit <= zlen buf -> hw_ok w ->
  timer_get w = (rx, w1) -> tpm_get w1 = (dev, w2) ->
  exists d,
    md5 (header 38 (reply_flags flags)) = Some d /\ length d = 16%nat /\
    createResponse EVP_Q_digest (Some m) (zlen m) (Some buf) limit w =
      (Val 38, BufSt w2 (splice buf 0 (header 38 (reply_flags flags) ++
        if reply_flags flags =? 1 then xor_bytes d dev else d))).
Proof.
  intros Ht Hq Hm Ha Hna Hl Hb Hw E1 E2.
  destruct (first_readings _ _ _ _ _ Hw E1 E2) as (_ & Hd & _ & _).
  pose proof (run_query flags _ m buf limit w Ht Hq Hm Hl Hb Hw) as Hr.
  rewrite (spec_reply_query flags _ m limit w _ _ _ _ Hq Hm E1 E2), decide_False in Hr by done.
  rewrite decide_True in Hr by (by rewrite removelast_last).
  destruct (sign_total EVP_Q_digest (reply_flags flags) dev
    (unsigned_message (reply_flags flags) []) Ht) as [reply Hs].
  rewrite Hs in Hr. pose proof (sign_length _ _ _ _ _ Hd Hs) as Hz.
  rewrite zlen_unsigned_message in Hz. rewrite Hr. cbn [reply_result reply_buffer].
  assert (unsigned_message (reply_flags flags) [] = header 38 (reply_flags flags)) as Hu
    by (unfold unsigned_message; cbn [zlen encode_tlvs map concat]; by rewrite app_nil_r).
  revert Hs. unfold sign. rewrite Hu. destruct (md5 _) as [d |] eqn:Hmd; [| done]. intros <-%(inj Some).
  exists d. split; [done |]. split; [by apply computeMD5_length in Hmd |]. by rewrite Hz.
Qed.

(** C13.  A faulty record that another record follows gets no reply at all:
    [createResponse] returns -1 and the connection is closed, although the
    body could be answered by a message without body. *)
Theorem createResponse_faulty_inner flags front t t' rest m buf limit w :
  digest_total EVP_Q_digest -> query_ok flags (front ++ t :: t' :: rest) ->
  query_of EVP_Q_digest flags (front ++ t :: t' :: rest) = Some m ->
  ~ acceptable limit (front ++ [t]) -> is_u32 limit -> limit <= zlen buf -> hw_ok w ->
  exists w', createResponse EVP_Q_digest (Some m) (zlen m) (Some buf) limit w =
    (Val (-1), BufSt w' buf).
Proof.
  intros Ht Hq Hm Hna Hl Hb Hw.
  destruct (timer_get w) as [rx w1] eqn:E1. destruct (tpm_get w1) as [dev w2] eqn:E2.
  pose proof (run_query flags _ m buf limit w Ht Hq Hm Hl Hb Hw) as Hr.
  rewrite (spec_reply_query flags _ m limit w _ _ _ _ Hq Hm E1 E2) in Hr.
  assert (forall rest, ~ acceptable limit (front ++ t :: rest)) as Hn.
  { intros rest' Ha. apply Hna. apply (acceptable_app _ _ rest'). by rewrite <- app_assoc. }
  rewrite !decide_False in Hr; [by exists w2 | | by apply Hn].
  rewrite removelast_app by done. apply Hn.
Qed.

(** C14.  Of an acceptable query (no supported record twice or with a wrong
    length, the reply within the limit) neither the order of the records nor
    records with an unsupported tag matter: another query with the same
    supported records gets the same bytes in reply and leaves the same state. *)
Theorem createResponse_order_irrelevant flags ts ts' m m' buf limit w :
  digest_total EVP_Q_digest -> query_ok flags ts -> query_ok flags ts' ->
  query_of EVP_Q_digest flags ts = Some m -> query_of EVP_Q_digest flags ts' = Some m' ->
  same_requests ts ts' -> acceptable limit ts -> is_u32 limit -> limit <= zlen buf -> hw_ok w ->
  createResponse EVP_Q_digest (Some m) (zlen m) (Some buf) limit w =
  createResponse EVP_Q_digest (Some m') (zlen m') (Some buf) limit w.
Proof.
  intros Ht Hq Hq' Hm Hm' Hs Ha Hl Hb Hw. pose proof Ha as (Hnd & _).
  pose proof (acceptable_perm limit ts ts' Hs Ha) as Ha'.
  destruct (timer_get w) as [rx w1] eqn:E1. destruct (tpm_get w1) as [dev w2] eqn:E2.
  pose proof (run_query flags _ m buf limit w Ht Hq Hm Hl Hb Hw) as Hr.
  pose proof (run_query flags _ m' buf limit w Ht Hq' Hm' Hl Hb Hw) as Hr'.
  rewrite (spec_reply_query flags _ m limit w _ _ _ _ Hq Hm E1 E2), decide_True in Hr by done.
  rewrite (spec_reply_query flags _ m' limit w _ _ _ _ Hq' Hm' E1 E2), decide_True in Hr' by done.
  assert (body_readings ts w2 = body_readings ts' w2) as Eb by (unfold body_readings; by rewrite !(wants_proper _ _ _ Hs)).
  rewrite <- Eb in Hr'. destruct (body_readings ts w2) as [[tx lu] w3].
  rewrite <- (reply_tlvs_perm ts ts') in Hr' by done. by rewrite Hr, Hr'.
Qed.

(** The checksum can prove the device: whenever a query with the flag
    REPLY_CHECKSUM_XOR_DEVICE_ID gets a reply, with a body or without one, the
    reply has the flag HAS_CHECKSUM_XOR_DEVICE_ID and the xor of its last 16
    bytes with the MD5 of what precedes them is the device ID. *)
Theorem createResponse_xor_device_id ts m buf limit w rx w1 dev w2 n s :
  digest_total EVP_Q_digest -> query_ok 2 ts -> query_of EVP_Q_digest 2 ts = Some m ->
  is_u32 limit -> limit <= zlen buf -> hw_ok w ->
  timer_get w = (rx, w1) -> tpm_get w1 = (dev, w2) ->
  createResponse EVP_Q_digest (Some m) (zlen m) (Some buf) limit w = (Val n, s) -> n <> -1 ->
  exists d, md5 (take (Z.to_nat (n - 16)) (st_buf s)) = Some d /\
    xor_bytes (take 16 (drop (Z.to_nat (n - 16)) (st_buf s))) d = dev /\
    st_buf s !! 21%nat = Some 1.
Proof.
  intros Ht Hq Hm Hl Hb Hw E1 E2 Hn Hne. destruct (first_readings _ _ _ _ _ Hw E1 E2) as (_ & Hd & _ & _).
  destruct (run_reply 2 ts m buf limit w rx w1 dev w2 n s) as (rts & reply & Hs & -> & _ & -> & _);
    try done. change (reply_flags 2) with 1 in Hs.
  apply signed_message in Hs as (d & Hmd & Hz & Hp & Hsum & _ & Hh); [| by left].
  pose proof (zlen_nonneg (encode_tlvs rts)).
  replace (Z.to_nat (zlen reply - 16)) with (length reply - 16)%nat by (unfold zlen in *; lia).
  exists d. unfold splice. rewrite take_0. cbn [app].
  rewrite take_app_le by lia. rewrite Hp, Hmd. split; [done |].
  rewrite drop_app_le, Hsum by lia. change (1 =? 1) with true. cbv iota. apply computeMD5_length in Hmd as Hd16.
  rewrite take_app_length' by (rewrite length_xor_bytes by congruence; done). split.
  - apply xor_bytes_cancel. congruence.
  - rewrite lookup_app_l by (unfold zlen in *; lia).
    rewrite <- (lookup_take_lt reply 22) by lia. by rewrite Hh.
Qed.

End Run.

Section Clock.
Context {W : Type} `{HwMonotone W}.
Context (EVP_Q_digest : list Z -> option (list Z)).
Implicit Types (w : W).

(** C11.  Within one reply, time does not run backwards: the reception time
    never exceeds the transmission time. *)
Theorem createResponse_rx_before_tx flags ts m buf limit w n s rs vrx vtx :
  digest_total EVP_Q_digest -> query_ok flags ts -> query_of EVP_Q_digest flags ts = Some m ->
  is_u32 limit -> limit <= zlen buf -> hw_ok w ->
  createResponse EVP_Q_digest (Some m) (zlen m) (Some buf) limit w = (Val n, s) -> n <> -1 ->
  parse_tlvs (message_body (take (Z.to_nat n) (st_buf s))) = Some rs ->
  Tlv 0x12 vrx ∈ rs -> Tlv 0x13 vtx ∈ rs -> le_value vrx <= le_value vtx.
Proof.
  intros Ht Hq Hm Hl Hb Hw Hn Hne Hrs Hrx Htx.
  destruct (timer_get w) as [rx w1] eqn:E1. destruct (tpm_get w1) as [dev w2] eqn:E2.
  destruct (first_readings _ _ _ _ _ Hw E1 E2) as (Hrx64 & Hd & Hdb & Hw2).
  assert (rx <= hw_now w2) as Hnow.
  { destruct (timer_get_ok w Hw) as [_ Hw1]. pose proof (timer_get_now w Hw). rewrite E1 in *.
    pose proof (tpm_get_now _ Hw1) as Hn1. cbn [fst snd] in *. rewrite E2 in Hn1. cbn in Hn1. lia. }
  destruct (run_reply EVP_Q_digest flags ts m buf limit w rx w1 dev w2 n s)
    as (rts & reply & Hs & -> & Hlim & Hbuf & Hrts); try done.
  apply signed_message in Hs as (d & _ & _ & _ & _ & Hbd & _); [| by left].
  rewrite Hbuf, take_splice, Hbd in Hrs by (unfold zlen in *; lia).
  destruct Hrts as [-> | (tx & lu & w' & Er & ->)].
  { injection Hrs as <-. by apply not_elem_of_nil in Hrx. }
  rewrite parse_encode in Hrs by (apply wf_reply_tlvs; [by destruct Hq | done | done]).
  apply (inj Some) in Hrs. subst rs. apply reply_timers in Hrx as ->. apply reply_timers in Htx as [-> Hwtx].
  unfold body_readings in Er. rewrite Hwtx in Er. pose proof (timer_get_now w2 Hw2) as Hle.
  destruct (timer_get_ok w2 Hw2) as [Htx64 _]. destruct (timer_get w2) as [tx' w4].
  case_test_in Er; [destruct (tpm_getLastUpdated w4) |]; injection Er as -> _ _;
    rewrite !le_value_bytes, !Z.mod_small by done; cbn in Hle; lia.
Qed.
End Clock.

(** ** Instances: the sample query of the interface document and faulty ones *)

Lemma sample_call_ok flags ts :
  query_okb flags ts = true ->
  call_ok (sample_query flags ts) (zlen (sample_query flags ts)) sample_buffer 400.
Proof.
  intros Hq%query_okb_ok. apply (query_call_ok sum_digest flags ts); try concrete. done.
Qed.

Lemma createResponse_correct_witness :
  exists buf',
    let '(r, w') := spec_reply (computeMD5 sum_digest) 400
      (take (Z.to_nat 50) (sample_query 0 sample_records)) 5 in
    createResponse sum_digest (Some (sample_query 0 sample_records)) 50 (Some sample_buffer) 400 5 =
      (Val (match r with Some m => zlen m | None => -1 end), BufSt w' buf') /\
    length buf' = length sample_buffer /\
    (forall m, r = Some m ->
       take (length m) buf' = m /\ drop (length m) buf' = drop (length m) sample_buffer) /\
    (r = None -> buf' = sample_buffer \/ exists data, computeMD5 sum_digest data = None).
Proof.
  apply (createResponse_correct sum_digest (sample_query 0 sample_records) 50 sample_buffer 400 5).
  - exact (sample_call_ok 0 sample_records eq_refl).
  - concrete.
Defined.

Lemma createResponse_size_witness :
  82 = -1 \/ 38 <= 82 <= 343 /\ 82 <= 400 /\
    le_value (take 4 (st_buf (createResponse sum_digest (Some (sample_query 0 sample_records)) 50
      (Some sample_buffer) 400 5).2)) = 82.
Proof.
  apply (createResponse_size sum_digest (sample_query 0 sample_records) 50 sample_buffer 400 5).
  - exact (sample_call_ok 0 sample_records eq_refl).
  - concrete.
  - concrete.
Defined.

Lemma createResponse_answers_queries_only_witness :
  exists flags ts, query_ok flags ts /\
    query_of sum_digest flags ts = Some (take (Z.to_nat 50) (sample_query 0 sample_records)).
Proof.
  apply (createResponse_answers_queries_only sum_digest (sample_query 0 sample_records) 50
    sample_buffer 400 5 82 (createResponse sum_digest (Some (sample_query 0 sample_records)) 50
      (Some sample_buffer) 400 5).2).
  - exact (sample_call_ok 0 sample_records eq_refl).
  - concrete.
  - concrete.
  - concrete.
Defined.

Lemma createResponse_serves_witness :
  exists reply buf' d,
    createResponse sum_digest (Some (sample_query 2 sample_records))
      (zlen (sample_query 2 sample_records)) (Some sample_buffer) 400 5 =
      (Val (zlen reply), BufSt 7 buf') /\
    take (length reply) buf' = reply /\ take 22 reply = header (38 + reply_size sample_records) 1 /\
    parse_tlvs (message_body reply) = Some (reply_tlvs sample_records clock_device_id 5 6 0) /\
    computeMD5 sum_digest (take (length reply - 16) reply) = Some d /\
    drop (length reply - 16) reply = xor_bytes d clock_device_id.
Proof.
  apply (createResponse_serves sum_digest 2 sample_records (sample_query 2 sample_records)
    sample_buffer 400 5 5 6 clock_device_id 6 6 0 7); concrete.
Defined.

Lemma createResponse_faulty_last_witness :
  exists d, computeMD5 sum_digest (header 38 1) = Some d /\ length d = 16%nat /\
    createResponse sum_digest
      (Some (sample_query 2 [Tlv 0x91 []; Tlv 0x91 []]))
      (zlen (sample_query 2 [Tlv 0x91 []; Tlv 0x91 []])) (Some sample_buffer) 400 5 =
    (Val 38, BufSt 6 (splice sample_buffer 0 (header 38 1 ++ xor_bytes d clock_device_id))).
Proof.
  apply (createResponse_faulty_last sum_digest 2 [Tlv 0x91 []] (Tlv 0x91 [])
    (sample_query 2 [Tlv 0x91 []; Tlv 0x91 []]) sample_buffer 400 5 5 6 clock_device_id 6); concrete.
Defined.

Lemma createResponse_faulty_inner_witness :
  exists w', createResponse sum_digest
      (Some (sample_query 0 [Tlv 0x91 []; Tlv 0x91 []; Tlv 0x92 []]))
      (zlen (sample_query 0 [Tlv 0x91 []; Tlv 0x91 []; Tlv 0x92 []])) (Some sample_buffer) 400 5 =
    (Val (-1), BufSt w' sample_buffer).
Proof.
  apply (createResponse_faulty_inner sum_digest 0 [Tlv 0x91 []] (Tlv 0x91 []) (Tlv 0x92 []) []
    (sample_query 0 [Tlv 0x91 []; Tlv 0x91 []; Tlv 0x92 []]) sample_buffer 400 5); concrete.
Defined.

(** The sample records in another order, with the unsupported Capabilities query. *)
Definition shuffled_records : list tlv :=
  [Tlv 0x93 []; Tlv 0x90 []; Tlv 0x91 []; Tlv 0x04 [1; 2; 3; 4]; Tlv 0x92 []].

Lemma shuffled_same : same_requests sample_records shuffled_records.
Proof. unfold same_requests. vm_compute. solve_Permutation. Qed.

Lemma createResponse_order_irrelevant_witness :
  createResponse sum_digest (Some (sample_query 0 sample_records))
    (zlen (sample_query 0 sample_records)) (Some sample_buffer) 400 5 =
  createResponse sum_digest (Some (sample_query 0 shuffled_records))
    (zlen (sample_query 0 shuffled_records)) (Some sample_buffer) 400 5.
Proof.
  apply (createResponse_order_irrelevant sum_digest 0 sample_records shuffled_records);
    first [exact shuffled_same | concrete].
Defined.

Lemma createResponse_xor_device_id_witness :
  exists d,
    let s := (createResponse sum_digest (Some (sample_query 2 sample_records))
      (zlen (sample_query 2 sample_records)) (Some sample_buffer) 400 5).2 in
    computeMD5 sum_digest (take (Z.to_nat (82 - 16)) (st_buf s)) = Some d /\
    xor_bytes (take 16 (drop (Z.to_nat (82 - 16)) (st_buf s))) d = clock_device_id /\
    st_buf s !! 21%nat = Some 1.
Proof.
  apply (createResponse_xor_device_id sum_digest sample_records (sample_query 2 sample_records)
    sample_buffer 400 5 5 6 clock_device_id 6 82); concrete.
Defined.

Lemma createResponse_rx_before_tx_witness :
  le_value (le_bytes 8 5) <= le_value (le_bytes 8 6).
Proof.
  apply (createResponse_rx_before_tx sum_digest 0 sample_records (sample_query 0 sample_records)
    sample_buffer 400 5 82 (createResponse sum_digest (Some (sample_query 0 sample_records))
      (zlen (sample_query 0 sample_records)) (Some sample_buffer) 400 5).2
    (reply_tlvs sample_records clock_device_id 5 6 0)); try concrete.
  - apply (bool_decide_unpack _). vm_compute. exact I.
  - apply (bool_decide_unpack _). vm_compute. exact I.
Defined.
