(* ===== verification/Double.v ===== *)
(** * C++ [double] arithmetic

    IEEE binary64 by the executable definitions of [SpecFloat] (precision 53,
    maximal exponent 1024, round to nearest even), which needs no axiom, the
    two conversions the timer uses, and the rounding error of a division. *)

From S2P Require Import Prelude Memory.
From Corelib Require Export SpecFloat.

Local Open Scope Z_scope.

Definition double : Type := spec_float.

#[export] Instance double_eq_dec : EqDecision double.
Proof. unfold double. solve_decision. Defined.

Definition dmul : double -> double -> double := SFmul 53 1024.
Definition ddiv : double -> double -> double := SFdiv 53 1024.
Definition dsub : double -> double -> double := SFsub 53 1024.
Definition dabs : double -> double := SFabs.

(** [x > y] and [x >= y]; both are false when an operand is not a number. *)
Definition dgt (x y : double) : bool := SFltb y x.
Definition dge (x y : double) : bool := SFleb y x.

(** Conversion of an unsigned integer, rounded to nearest. *)
Definition double_of (z : Z) : double := binary_normalize 53 1024 z 0 false.

Definition dzero : double := S754_zero false.

(** [static_cast<uint64_t>(d)]: truncation; undefined outside the range. *)
Definition u64_of_double (d : double) : outcome Z :=
  match d with
  | S754_zero _ => Val 0
  | S754_finite s m e =>
      let a := if 0 <=? e then Zpos m * 2 ^ e else Zpos m / 2 ^ (- e) in
      if s then (if a =? 0 then Val 0 else Undef)
      else if a <? 2 ^ 64 then Val a else Undef
  | _ => Undef
  end.

Lemma u64_of_double_range d z : u64_of_double d = Val z -> is_u64 z.
Proof.
  unfold is_u64. destruct d as [| | | s m e]; cbn [u64_of_double]; try done.
  - intros [= <-]. lia.
  - set (a := if 0 <=? e then _ else _).
    assert (0 <= a) by (subst a; case_test;
      [apply Z.leb_le in Heqb; pose proof (Z.pow_nonneg 2 e); nia | apply Z.div_pos; lia]).
    destruct s; repeat case_test; intros [= <-]; lia.
Qed.

(** The difference of a finite number with itself is zero. *)
Lemma dsub_self s m e : dsub (S754_finite s m e) (S754_finite s m e) = dzero.
Proof. unfold dsub, SFsub. by rewrite Z.sub_diag. Qed.

Definition positive_finite (d : double) : Prop := exists m e, d = S754_finite false m e.

Lemma ddiv_zero d : positive_finite d -> ddiv dzero d = dzero.
Proof. by intros (m & e & ->). Qed.

Lemma dge_zero d : positive_finite d -> dge dzero d = false.
Proof. by intros (m & e & ->). Qed.

Lemma dge_nan x : dge x S754_nan = false.
Proof. by destruct x as [[] | [] | | []]. Qed.

(** ** Rounding errors

    For the operations the timer is built with: on operands with full
    mantissas a quotient is off by less than a unit of its last place. *)

Lemma digits2_pos_bounds p :
  2 ^ (Zpos (digits2_pos p) - 1) <= Zpos p < 2 ^ Zpos (digits2_pos p).
Proof.
  induction p as [p IH | p IH |]; cbn [digits2_pos]; [| | done];
    rewrite Pos2Z.inj_succ, Z.pow_succ_r by lia;
    replace (Z.succ (Zpos (digits2_pos p)) - 1) with (Z.succ (Zpos (digits2_pos p) - 1)) by lia;
    rewrite Z.pow_succ_r by lia; lia.
Qed.

Lemma Zdigits2_unique m k : 0 < k -> 2 ^ (k - 1) <= m < 2 ^ k -> Zdigits2 m = k.
Proof.
  intros Hk Hm. pose proof (Z.pow_pos_nonneg 2 (k - 1) ltac:(lia) ltac:(lia)).
  destruct m as [| p | p]; [lia | | lia]. cbn [Zdigits2]. pose proof (digits2_pos_bounds p) as Hd.
  set (d := Zpos (digits2_pos p)) in *. assert (0 < d) by lia.
  destruct (Z.lt_trichotomy d k) as [Hlt | [-> | Hlt]]; [| done |].
  - pose proof (Z.pow_le_mono_r 2 d (k - 1) ltac:(lia) ltac:(lia)). lia.
  - pose proof (Z.pow_le_mono_r 2 k (d - 1) ltac:(lia) ltac:(lia)). lia.
Qed.

(** A mantissa of 53 bits is kept, one of 54 bits loses a bit. *)
Lemma shr_fexp_53 m e l :
  2 ^ 52 <= m < 2 ^ 53 -> -1074 <= e -> shr_fexp 53 1024 m e l = (shr_record_of_loc m l, e).
Proof.
  intros Hm He. unfold shr_fexp. rewrite (Zdigits2_unique m 53) by lia. unfold fexp, emin.
  by replace (Z.max (53 + e - 53) (3 - 1024 - 53) - e) with 0 by lia.
Qed.

Lemma shr_fexp_54 m e l :
  2 ^ 53 <= m < 2 ^ 54 -> -1074 <= e ->
  shr_fexp 53 1024 m e l = (shr_1 (shr_record_of_loc m l), e + 1).
Proof.
  intros Hm He. unfold shr_fexp. rewrite (Zdigits2_unique m 54) by lia. unfold fexp, emin.
  by replace (Z.max (54 + e - 53) (3 - 1024 - 53) - e) with 1 by lia.
Qed.

Lemma shr_1_half m l : 0 < m -> shr_m (shr_1 (shr_record_of_loc m l)) = m / 2.
Proof.
  intros Hm. rewrite <- Z.div2_div. by destruct m as [| [p | p |] | p], l as [| []].
Qed.

Lemma round_nearest_even_bounds m l : m <= round_nearest_even m l <= m + 1.
Proof. destruct l as [| []]; cbn [round_nearest_even]; try case_test; lia. Qed.

(** The second half of [binary_round_aux]: a mantissa that became 2^53 by
    rounding is halved. *)
Lemma renormalize m e :
  2 ^ 52 <= m <= 2 ^ 53 -> -1074 <= e <= 970 ->
  exists p j, (let '(r, e') := shr_fexp 53 1024 m e loc_Exact in
      match shr_m r with
      | Z0 => S754_zero false
      | Zpos q => if e' <=? 1024 - 53 then S754_finite false q e' else S754_infinity false
      | Zneg _ => S754_nan
      end) = S754_finite false p (e + j) /\
    (j = 0 \/ j = 1) /\ 2 ^ 52 <= Zpos p < 2 ^ 53 /\ Zpos p * 2 ^ j = m.
Proof.
  intros Hm He. destruct (decide (m = 2 ^ 53)) as [-> | Hne].
  - rewrite shr_fexp_54 by lia.
    change (shr_m (shr_1 (shr_record_of_loc (2 ^ 53) loc_Exact))) with (Zpos (2 ^ 52)).
    destruct (Z.leb_spec (e + 1) (1024 - 53)); [| lia]. exists (2 ^ 52)%positive, 1.
    split; [done |]. split; [by right | done].
  - rewrite shr_fexp_53 by lia. destruct m as [| p | p]; [lia | | lia]. cbn [shr_m shr_record_of_loc].
    destruct (Z.leb_spec e (1024 - 53)); [| lia]. exists p, 0. rewrite Z.add_0_r, Z.mul_1_r.
    split; [done |]. split; [by left | lia].
Qed.

(** Rounding: the result is one of the two numbers next to what the mantissa
    [m] and the location behind it stand for. *)
Lemma round_faithful m e l :
  2 ^ 52 <= m < 2 ^ 54 -> -1074 <= e <= 960 ->
  exists p j, binary_round_aux 53 1024 false m e l = S754_finite false p (e + j) /\
    0 <= j <= 2 /\ 2 ^ 52 <= Zpos p < 2 ^ 53 /\ m + 1 - 2 ^ j <= Zpos p * 2 ^ j <= m + 2 ^ j.
Proof.
  intros Hm He. unfold binary_round_aux. destruct (decide (m < 2 ^ 53)).
  - rewrite shr_fexp_53 by lia. set (x := round_nearest_even _ _).
    assert (m <= x <= m + 1) as Hx.
    { pose proof (round_nearest_even_bounds m (loc_of_shr_record (shr_record_of_loc m l))).
      subst x. by destruct l as [| []]. }
    destruct (renormalize x e) as (p & j & -> & Hj & Hp & E); [lia | lia |].
    exists p, j. split; [done |]. rewrite E. destruct Hj as [-> | ->]; lia.
  - rewrite shr_fexp_54 by lia. set (r := shr_1 _). set (x := round_nearest_even _ _).
    assert (m / 2 <= x <= m / 2 + 1) as Hx.
    { rewrite <- (shr_1_half m l) by lia. apply round_nearest_even_bounds. }
    pose proof (Z.div_mod m 2 ltac:(lia)). pose proof (Z.mod_pos_bound m 2 ltac:(lia)).
    destruct (renormalize x (e + 1)) as (p & j & -> & Hj & Hp & E); [lia | lia |].
    exists p, (1 + j). rewrite Z.add_assoc, Z.pow_add_r by lia.
    replace (Zpos p * (2 ^ 1 * 2 ^ j)) with (2 * x) by lia. split; [done |].
    destruct Hj as [-> | ->]; lia.
Qed.

(** A number with at most 53 bits is converted exactly. *)
Lemma round_exact p e :
  2 ^ 52 <= Zpos p < 2 ^ 53 -> -1074 <= e <= 971 ->
  binary_round_aux 53 1024 false (Zpos p) e loc_Exact = S754_finite false p e.
Proof.
  intros Hp He. unfold binary_round_aux. rewrite shr_fexp_53 by lia.
  cbn [shr_record_of_loc shr_m loc_of_shr_record round_nearest_even]. rewrite shr_fexp_53 by lia.
  cbn [shr_record_of_loc shr_m]. by destruct (Z.leb_spec e (1024 - 53)); [| lia].
Qed.

Lemma iter_xO p n : Zpos (Pos.iter xO p n) = Zpos p * 2 ^ Zpos n.
Proof.
  induction n as [| n IH] using Pos.peano_ind; [cbn; lia |].
  rewrite Pos.iter_succ, Pos2Z.inj_succ, Z.pow_succ_r by lia. rewrite Pos2Z.inj_xO, IH. lia.
Qed.

Lemma double_of_exact z :
  0 < z < 2 ^ 53 ->
  exists p a, double_of z = S754_finite false p (- a) /\ 0 <= a < 53 /\
    Zpos p = z * 2 ^ a /\ 2 ^ 52 <= Zpos p < 2 ^ 53.
Proof.
  intros Hz. destruct z as [| p | p]; [lia | | lia]. unfold double_of, binary_normalize, binary_round.
  pose proof (digits2_pos_bounds p) as Hd. set (d := Zpos (digits2_pos p)) in *.
  assert (0 < d <= 53) as Hdr.
  { split; [lia |]. destruct (decide (d <= 53)); [done |].
    pose proof (Z.pow_le_mono_r 2 53 (d - 1) ltac:(lia) ltac:(lia)). lia. }
  assert (2 ^ 52 <= Zpos p * 2 ^ (53 - d) < 2 ^ 53) as Hm.
  { replace (2 ^ 52) with (2 ^ (d - 1) * 2 ^ (53 - d)) by (rewrite <- Z.pow_add_r by lia; f_equal; lia).
    replace (2 ^ 53) with (2 ^ d * 2 ^ (53 - d)) by (rewrite <- Z.pow_add_r by lia; f_equal; lia).
    pose proof (Z.pow_pos_nonneg 2 (53 - d) ltac:(lia) ltac:(lia)). nia. }
  unfold shl_align, fexp, emin. replace (Z.max (d + 0 - 53) (3 - 1024 - 53) - 0) with (- (53 - d)) by lia.
  replace (Z.max (d + 0 - 53) (3 - 1024 - 53)) with (- (53 - d)) by lia.
  destruct (53 - d) as [| a | a] eqn:Ea; [| | lia].
  - change (- 0) with 0. cbv iota beta. rewrite Z.mul_1_r in Hm. rewrite round_exact by lia. exists p, 0. repeat split; try done; lia.
  - change (- Zpos a) with (Zneg a). cbv iota beta. pose proof (iter_xO p a) as Hi. rewrite round_exact by lia.
    exists (Pos.iter xO p a), (Zpos a). repeat split; try done; lia.
Qed.

(** Division of numbers with full mantissas. *)
Lemma ddiv_faithful m1 e1 m2 e2 :
  2 ^ 52 <= Zpos m1 < 2 ^ 53 -> 2 ^ 52 <= Zpos m2 < 2 ^ 53 -> -1000 <= e1 - e2 <= 1000 ->
  exists q j, ddiv (S754_finite false m1 e1) (S754_finite false m2 e2) =
      S754_finite false q (e1 - e2 - 53 + j) /\
    0 <= j <= 2 /\ 2 ^ 52 <= Zpos q < 2 ^ 53 /\
    Z.abs (Zpos q * 2 ^ j * Zpos m2 - Zpos m1 * 2 ^ 53) <= 2 ^ j * Zpos m2.
Proof.
  intros H1 H2 He. unfold ddiv, SFdiv, SFdiv_core_binary.
  rewrite (Zdigits2_unique (Zpos m1) 53), (Zdigits2_unique (Zpos m2) 53) by lia. unfold fexp, emin.
  replace (Z.min (Z.max (53 + e1 - (53 + e2) - 53) (3 - 1024 - 53)) (e1 - e2)) with (e1 - e2 - 53) by lia.
  replace (e1 - e2 - (e1 - e2 - 53)) with 53 by lia. rewrite Z.shiftl_mul_pow2 by lia.
  pose proof (Z_div_mod (Zpos m1 * 2 ^ 53) (Zpos m2) ltac:(lia)) as Hd.
  destruct (Z.div_eucl (Zpos m1 * 2 ^ 53) (Zpos m2)) as [q r]. destruct Hd as [Hd Hr].
  destruct (round_faithful q (e1 - e2 - 53) (new_location (Zpos m2) r)) as (p & j & E & Hj & Hp & Hb);
    [nia | lia |].
  exists p, j. split; [exact E |]. split; [done |]. split; [done |].
  set (x := Zpos p * 2 ^ j) in *. set (t := 2 ^ j) in *. clearbody x t. nia.
Qed.
