(* ===== verification/MonotonicTimer.v ===== *)
(** * src/src/monotonictimer.cpp: class MonotonicTimer

    The object's fields, its constructor, the fixed-point clock reading, the
    CPU check, the frequency read from the perf event page, and the periodic
    check of the frequency.  What the CPU and the kernel answer (CPUID, TSC,
    clock, perf events) is an argument of the operation that asks. *)

From S2P Require Import Prelude Memory Double.

Local Open Scope Z_scope.

Definition shift : Z := 32.

Record MonotonicTimer := mkMonotonicTimer {
  valid : bool;
  deviationThreshold : double;
  frequency : double;            (* MHz *)
  nsPerTickMultiplier : Z;       (* uint64_t *)
  interval : Z;
  startTime : Z;                 (* uint64_t *)
  startTsc : Z;                  (* uint64_t *)
}.

Definition set_valid (b : bool) (t : MonotonicTimer) : MonotonicTimer :=
  mkMonotonicTimer b (deviationThreshold t) (frequency t) (nsPerTickMultiplier t)
    (interval t) (startTime t) (startTsc t).

(** ** Readings *)

(** The clock, from the [timespec] the kernel fills. *)
Definition getTime (tv_sec tv_nsec : Z) : Z :=
  u64 (u64 (u64 tv_sec * 1000000000) + u64 tv_nsec).

(** [get()], when RDTSCP gives [tsc]. *)
Definition get (t : MonotonicTimer) (tsc : Z) : Z :=
  u64 (Z.shiftr (u128 (u64 (tsc - startTsc t) * nsPerTickMultiplier t)) shift).

Definition getFrequency (t : MonotonicTimer) : double := frequency t.
Definition getValid (t : MonotonicTimer) : bool := valid t.

(** ** Is the TSC usable? *)

(** The CPUID instruction: the highest extended leaf, and the four registers of
    a leaf (with subleaf), if the CPU has it. *)
Record Cpuid := {
  get_cpuid_max : Z -> Z;
  get_cpuid : Z -> option (Z * Z * Z * Z);
  get_cpuid_count : Z -> Z -> option (Z * Z * Z * Z);
}.

Definition PROCESSOR_POWER_MANAGEMENT_INFORMATION : Z := 0x80000007.
Definition EXTENDED_PROCESSOR_INFORMATION : Z := 0x80000001.
Definition RDTSCP : Z := 27.
Definition TSC_INVARIANT : Z := 8.

(** [cpuid(...) && (edx & (1ULL << bit))] *)
Definition has_bit (regs : option (Z * Z * Z * Z)) (bit : Z) : bool :=
  match regs with
  | Some (_, _, _, edx) => negb (Z.land edx (Z.shiftl 1 bit) =? 0)
  | None => false
  end.

Definition checkTsc (cpu : Cpuid) : bool :=
  if get_cpuid_max cpu 0x80000000 <? PROCESSOR_POWER_MANAGEMENT_INFORMATION then false
  else if negb (has_bit (get_cpuid cpu EXTENDED_PROCESSOR_INFORMATION) RDTSCP) then false
  else if negb (has_bit (get_cpuid_count cpu PROCESSOR_POWER_MANAGEMENT_INFORMATION 0)
                  TSC_INVARIANT) then false
  else true.

(** ** The nominal frequency *)

(** What the kernel answers: the descriptor of perf_event_open (-1 on error),
    the page size (-1 on error), and the page mapped, of which the code reads
    [time_shift] and [time_mult]. *)
Record Perf := {
  perf_event_open : Z;
  sysconf_pagesize : Z;
  mmap_page : option (Z * Z);
}.

Inductive perf_event :=
  | Opened (fd : Z) | Closed (fd : Z) | Mapped | Unmapped.

(** The system calls made, and the frequency in MHz (0 when it cannot be read). *)
Definition readFrequency (p : Perf) : list perf_event * outcome double :=
  let fd := perf_event_open p in
  if fd =? -1 then ([], Val dzero)
  else if sysconf_pagesize p =? -1 then ([Opened fd; Closed fd], Val dzero)
  else match mmap_page p with
       | None => ([Opened fd; Closed fd], Val dzero)
       | Some (time_shift, time_mult) =>
           ([Opened fd; Mapped; Unmapped; Closed fd],
            let multiplier := double_of time_mult in
            if dgt multiplier dzero then
              (* 1ULL << shift is undefined from 64 on *)
              if time_shift <? 64 then
                Val (ddiv (dmul (double_of 1000) (double_of (Z.shiftl 1 time_shift))) multiplier)
              else Undef
            else Val dzero)
       end.

(** ** Construction *)

(** The constructor: [None] when it throws.  [time] and [tsc] are the readings
    of the clock and of the counter. *)
Definition construct (cpu : Cpuid) (p : Perf) (intervalMs : Z) (threshold : double)
    (time tsc : Z) : outcome (option MonotonicTimer) :=
  if negb (checkTsc cpu) then Val None
  else
    f ← (readFrequency p).2;
    if dgt f dzero then
      m ← u64_of_double (ddiv (double_of (u64 (Z.shiftl 1000 shift))) f);
      Val (Some (mkMonotonicTimer true threshold f m intervalMs time tsc))
    else Val None.

(** ** The periodic check *)

Definition measuredFrequency (t : MonotonicTimer) (time tsc : Z) : double :=
  ddiv (dmul (double_of 1000) (double_of (u64 (tsc - startTsc t))))
       (double_of (u64 (time - startTime t))).

Definition deviation (t : MonotonicTimer) (time tsc : Z) : double :=
  ddiv (dabs (dsub (frequency t) (measuredFrequency t time tsc))) (frequency t).

Definition callback (t : MonotonicTimer) (time tsc : Z) : MonotonicTimer :=
  if time =? startTime t then set_valid false t
  else if dge (deviation t time tsc) (deviationThreshold t) then set_valid false t
  else t.

(** ** The clock reading *)

(** The fields are 64-bit values. *)
Record wf_timer (t : MonotonicTimer) : Prop := {
  wt_mult : is_u64 (nsPerTickMultiplier t);
  wt_tsc : is_u64 (startTsc t);
}.

(** [tsc] is a counter value after construction whose reading in nanoseconds
    still fits 64 bits. *)
Definition in_horizon (t : MonotonicTimer) (tsc : Z) : Prop :=
  startTsc t <= tsc < 2 ^ 64 /\ (tsc - startTsc t) * nsPerTickMultiplier t < 2 ^ 96.

Lemma get_floor t tsc :
  wf_timer t -> in_horizon t tsc ->
  get t tsc = (tsc - startTsc t) * nsPerTickMultiplier t / 2 ^ 32.
Proof.
  intros [Hm Hs] [Ht Hh]. unfold is_u64 in *. unfold get, shift.
  rewrite (u64_id (tsc - _)) by (unfold is_u64; lia).
  rewrite u128_id by nia. rewrite Z.shiftr_div_pow2 by lia. apply u64_id. unfold is_u64.
  split; [apply Z.div_pos; nia | apply Z.div_lt_upper_bound; lia].
Qed.

Lemma in_horizon_le t a b :
  wf_timer t -> startTsc t <= a <= b -> in_horizon t b -> in_horizon t a.
Proof. intros [Hm _] Hab [Hb Hh]. unfold is_u64 in Hm. split; [lia | nia]. Qed.

Lemma get_range t tsc : is_u64 (get t tsc).
Proof. apply u64_range. Qed.

Lemma get_le t a b :
  wf_timer t -> startTsc t <= a <= b -> in_horizon t b -> get t a <= get t b.
Proof.
  intros Hw Hab Hb. pose proof (in_horizon_le t a b Hw Hab Hb) as Ha. destruct Hw as [Hm Hs].
  rewrite !get_floor by (done || by constructor). unfold is_u64 in Hm.
  apply Z.div_le_mono; [lia | nia].
Qed.

(** C17.  The clock never runs backwards: as long as the nanosecond count fits 64
    bits, a later counter value gives a reading at least as large, and a
    strictly larger one when a tick is a nanosecond or more. *)
Theorem get_monotone t a b :
  wf_timer t -> startTsc t <= a -> a < b -> in_horizon t b ->
  get t a <= get t b /\ (2 ^ 32 <= nsPerTickMultiplier t -> get t a < get t b).
Proof.
  intros Hw Ha Hab Hb. split; [apply get_le; done || lia |]. intros Hm.
  assert (in_horizon t a) by (apply (in_horizon_le t a b); done || lia).
  rewrite !get_floor by done.
  pose proof (Z.div_le_mono ((a - startTsc t) * nsPerTickMultiplier t + 1 * 2 ^ 32)
    ((b - startTsc t) * nsPerTickMultiplier t) (2 ^ 32) ltac:(lia) ltac:(nia)) as Hd.
  rewrite Z.div_add in Hd by lia. lia.
Qed.

(** The clock is not strictly increasing on a CPU faster than 1 GHz: two
    consecutive counter values give the same reading. *)
Theorem get_not_strict t :
  wf_timer t -> nsPerTickMultiplier t < 2 ^ 32 -> startTsc t + 1 < 2 ^ 64 ->
  get t (startTsc t) = get t (startTsc t + 1).
Proof.
  intros Hw Hm Hs. pose proof Hw as [Hm' Hs']. unfold is_u64 in *.
  rewrite !get_floor by (done || (split; lia)).
  rewrite Z.sub_diag, Z.add_simpl_l, !Z.div_small by lia. done.
Qed.

(** ** Construction *)

(** Which CPUs are accepted, bit by bit. *)
Lemma has_bit_spec regs bit :
  0 <= bit -> has_bit regs bit = true <->
  exists a b c d, regs = Some (a, b, c, d) /\ Z.testbit d bit = true.
Proof.
  intros Hb. unfold has_bit. destruct regs as [[[[a b] c] d] |].
  2: { split; [done |]. by intros (? & ? & ? & ? & ? & _). }
  rewrite negb_true_iff, Z.eqb_neq, Z.shiftl_1_l. split.
  - intros Hn. exists a, b, c, d. split; [done |]. destruct (Z.testbit d bit) eqn:E; [done |].
    exfalso. apply Hn. apply Z.bits_inj'. intros n Hn'. rewrite Z.land_spec, Z.bits_0.
    destruct (decide (n = bit)) as [-> |]; [by rewrite E |].
    by rewrite Z.pow2_bits_false, andb_false_r.
  - intros (? & ? & ? & ? & [= -> -> -> ->] & Ht) E.
    apply (f_equal (fun z => Z.testbit z bit)) in E.
    by rewrite Z.land_spec, Ht, Z.pow2_bits_true, Z.bits_0 in E.
Qed.

(** What the CPU must report: extended leaf 0x80000007, RDTSCP (bit 27 of EDX of
    leaf 0x80000001) and an invariant TSC (bit 8 of EDX of leaf 0x80000007). *)
Definition tsc_usable (cpu : Cpuid) : Prop :=
  0x80000007 <= get_cpuid_max cpu 0x80000000 /\
  (exists a b c d, get_cpuid cpu 0x80000001 = Some (a, b, c, d) /\ Z.testbit d 27 = true) /\
  (exists a b c d, get_cpuid_count cpu 0x80000007 0 = Some (a, b, c, d) /\ Z.testbit d 8 = true).

(** [checkTsc] accepts exactly such a CPU. *)
Lemma checkTsc_spec cpu : checkTsc cpu = true <-> tsc_usable cpu.
Proof.
  unfold tsc_usable.
  rewrite <- !has_bit_spec by lia. unfold checkTsc, PROCESSOR_POWER_MANAGEMENT_INFORMATION,
    EXTENDED_PROCESSOR_INFORMATION, RDTSCP, TSC_INVARIANT.
  destruct (Z.ltb_spec (get_cpuid_max cpu 0x80000000) 0x80000007).
  - split; [done | lia].
  - destruct (has_bit _ 27), (has_bit _ 8); cbn; naive_solver.
Qed.

(** The multiplier of the perf page as a positive double. *)
Lemma double_of_nonneg z :
  0 <= z < 2 ^ 53 -> dgt (double_of z) dzero = (0 <? z).
Proof.
  intros Hz. destruct (Z.ltb_spec 0 z).
  - by destruct (double_of_exact z) as (p & a & -> & _); [lia |].
  - by replace z with 0 by lia.
Qed.

(** 1000 * 2^s, and 1000 * 2^32, are exact. *)
Lemma dividend_exact s :
  0 <= s < 64 ->
  dmul (double_of 1000) (double_of (Z.shiftl 1 s)) = S754_finite false 8796093022208000 (s - 43).
Proof.
  intros Hs. assert (forallb (fun s => bool_decide (dmul (double_of 1000) (double_of (Z.shiftl 1 s)) =
    S754_finite false 8796093022208000 (s - 43))) (seqZ 0 64) = true) as Hall by (vm_compute; reflexivity).
  rewrite forallb_forall in Hall. apply (bool_decide_eq_true_1 _), Hall, list_elem_of_In, elem_of_seqZ. lia.
Qed.

Lemma numerator_exact : double_of (u64 (Z.shiftl 1000 shift)) = S754_finite false 8796093022208000 (-11).
Proof. vm_compute. reflexivity. Qed.

(** What is relied on of the perf page: a shift below the width, a 32-bit
    multiplier, and a counter of at least 15259 Hz (a tick of at most 2^16
    nanoseconds). *)
Definition perf_page_ok (s mult : Z) : Prop :=
  0 <= s < 64 /\ 0 <= mult < 2 ^ 32 /\ mult <= 2 ^ 16 * 2 ^ s.

(** [f] is 1000 * 2^s / mult (MHz, from a page with these fields) up to a unit in
    the last place. *)
Definition nominal (f : double) (s mult : Z) : Prop :=
  exists m e, f = S754_finite false m e /\ 2 ^ 52 <= Zpos m < 2 ^ 53 /\ -96 <= e /\
    Z.abs (Zpos m * 2 ^ (e + 96) * mult - 1000 * 2 ^ s * 2 ^ 96) <= 2 ^ (e + 96) * mult.

(** Two roundings and a truncation: [x] is the exact multiplier and [y] the
    rounded one, both scaled by [t]. *)
Lemma two_roundings f i j x y A :
  2 ^ 52 <= f -> 0 <= i <= 2 -> 0 <= j <= 2 -> 0 <= x < 2 ^ 53 * 2 ^ j ->
  Z.abs (f * x - A) <= x -> Z.abs (y * f - A) <= 2 ^ i * f -> Z.abs (x - y) < 12.
Proof.
  intros Hf Hi Hj Hx H1 H2.
  assert (2 ^ i <= 4) by (change 4 with (2 ^ 2); apply Z.pow_le_mono_r; lia).
  assert (2 ^ j <= 4) by (change 4 with (2 ^ 2); apply Z.pow_le_mono_r; lia).
  assert (f * Z.abs (x - y) <= x + 4 * f) by nia. assert (x < 8 * f) by nia. nia.
Qed.

(** The quotient of the first rounding is the frequency. *)
Lemma nominal_quotient s mult f a j :
  0 <= s -> 0 <= a -> 0 <= j -> 2 ^ 52 <= Zpos f < 2 ^ 53 ->
  Z.abs (Zpos f * 2 ^ j * (mult * 2 ^ a) - 8796093022208000 * 2 ^ 53) <= 2 ^ j * (mult * 2 ^ a) ->
  nominal (S754_finite false f (s + (j + a) - 96)) s mult.
Proof.
  intros Hs Ha Hj Hf HF. exists f, (s + (j + a) - 96). split; [done |]. split; [done |]. split; [lia |].
  replace (s + (j + a) - 96 + 96) with (s + (j + a)) by lia. rewrite !Z.pow_add_r by lia.
  pose proof (Z.pow_pos_nonneg 2 s ltac:(lia) ltac:(lia)) as Hs2.
  set (u := 2 ^ s) in *. set (v := 2 ^ j) in *. set (w := 2 ^ a) in *. clearbody u v w.
  replace (Zpos f * (u * (v * w)) * mult - 1000 * u * 2 ^ 96)
    with (u * (Zpos f * v * (mult * w) - 8796093022208000 * 2 ^ 53)) by ring.
  rewrite Z.abs_mul, (Z.abs_eq u) by lia.
  replace (u * (v * w) * mult) with (u * (v * (mult * w))) by ring. apply Z.mul_le_mono_nonneg_l; lia.
Qed.

(** The truncation of the second one, with the scale taken off: [k] is the
    exponent of the scale beyond 2^32. *)
Lemma truncated_quotient s c k i q mult :
  0 <= s -> 0 <= c -> s + c = 32 + k -> 4 <= k -> 0 <= i <= 2 ->
  Z.abs (2 ^ c * mult - q * 2 ^ i) < 12 ->
  Z.abs (q / 2 ^ (k - i) * 2 ^ s - mult * 2 ^ 32) < 2 * 2 ^ s.
Proof.
  intros Hs Hc Hsc Hk Hi Hxy. set (t := 2 ^ k). set (m := q / 2 ^ (k - i)).
  assert (16 <= t) as H16 by (change 16 with (2 ^ 4); apply Z.pow_le_mono_r; lia).
  assert (m * t <= q * 2 ^ i < m * t + t) as Hmt.
  { assert (t = 2 ^ i * 2 ^ (k - i)) as -> by (unfold t; rewrite <- Z.pow_add_r by lia; f_equal; lia).
    pose proof (Z.pow_pos_nonneg 2 i ltac:(lia) ltac:(lia)) as Hv.
    pose proof (Z.pow_pos_nonneg 2 (k - i) ltac:(lia) ltac:(lia)) as Hw.
    pose proof (Z.div_mod q (2 ^ (k - i)) ltac:(lia)) as Hdm.
    pose proof (Z.mod_pos_bound q (2 ^ (k - i)) ltac:(lia)) as Hmb. fold m in Hdm.
    set (v := 2 ^ i) in *. set (w := 2 ^ (k - i)) in *.
    replace (m * (v * w)) with (v * (w * m)) by ring. clear - Hdm Hmb Hv. nia. }
  assert (Z.abs (m * t - 2 ^ c * mult) < 2 * t) as Habs by (clear - Hmt Hxy H16; lia).
  assert (2 ^ c * 2 ^ s = 2 ^ 32 * t) as Hct
    by (unfold t; rewrite <- !Z.pow_add_r by lia; f_equal; lia).
  apply (Z.mul_lt_mono_pos_l (2 ^ c)); [apply Z.pow_pos_nonneg; lia |].
  rewrite <- (Z.abs_eq (2 ^ c)) at 1 by (apply Z.pow_nonneg; lia). rewrite <- Z.abs_mul.
  replace (2 ^ c * (m * 2 ^ s - mult * 2 ^ 32)) with (m * (2 ^ c * 2 ^ s) - 2 ^ 32 * (2 ^ c * mult)) by ring.
  replace (2 ^ c * (2 * 2 ^ s)) with (2 * (2 ^ c * 2 ^ s)) by ring. rewrite Hct.
  replace (m * (2 ^ 32 * t) - 2 ^ 32 * (2 ^ c * mult)) with (2 ^ 32 * (m * t - 2 ^ c * mult)) by ring.
  rewrite Z.abs_mul, (Z.abs_eq (2 ^ 32)) by lia. lia.
Qed.

(** The two divisions of [readFrequency] and of the constructor. *)
Lemma multiplier_accurate s mult :
  perf_page_ok s mult -> 0 < mult ->
  exists f m, ddiv (dmul (double_of 1000) (double_of (Z.shiftl 1 s))) (double_of mult) = f /\
    nominal f s mult /\ dgt f dzero = true /\
    u64_of_double (ddiv (double_of (u64 (Z.shiftl 1000 shift))) f) = Val m /\
    Z.abs (m * 2 ^ s - mult * 2 ^ 32) < 2 * 2 ^ s.
Proof.
  intros (Hs & Hm & Hr) H0. rewrite dividend_exact, numerator_exact by done.
  destruct (double_of_exact mult) as (b & a & -> & Ha & Eb & Hb); [lia |].
  destruct (ddiv_faithful 8796093022208000 (s - 43) b (- a)) as (f & j & -> & Hj & Hf & HF); [lia .. |].
  replace (s - 43 - - a - 53 + j) with (s + (j + a) - 96) by lia.
  exists (S754_finite false f (s + (j + a) - 96)).
  destruct (ddiv_faithful 8796093022208000 (-11) f (s + (j + a) - 96)) as (q & i & -> & Hi & Hq & HQ);
    [lia .. |].
  assert (36 <= s + a) as Hsa.
  { destruct (decide (36 <= s + a)); [done |]. exfalso.
    assert (2 ^ a * (2 ^ 16 * 2 ^ s) <= 2 ^ 51); [| nia].
    rewrite <- !Z.pow_add_r by lia. apply Z.pow_le_mono_r; lia. }
  assert (Z.abs (2 ^ (j + a) * mult - Zpos q * 2 ^ i) < 12) as Hxy.
  { pose proof (Z.pow_pos_nonneg 2 j ltac:(lia) ltac:(lia)).
    replace (2 ^ (j + a) * mult) with (2 ^ j * Zpos b) by (rewrite Z.pow_add_r, Eb by lia; ring).
    apply (two_roundings (Zpos f) i j _ _ (8796093022208000 * 2 ^ 53)); done || lia || nia. }
  rewrite Eb in HF. set (k := s + (j + a) - 32). exists (Zpos q / 2 ^ (k - i)).
  split; [done |]. split; [apply nominal_quotient; done || lia |]. split; [done |].
  split; [| apply (truncated_quotient s (j + a) k i); done || lia].
  cbn [u64_of_double]. replace (-11 - (s + (j + a) - 96) - 53 + i) with (- (k - i)) by lia.
  destruct (Z.leb_spec 0 (- (k - i))); [lia |]. rewrite Z.opp_involutive.
  destruct (Z.ltb_spec (Zpos q / 2 ^ (k - i)) (2 ^ 64)) as [| Hbig]; [done | exfalso].
  pose proof (Z.pow_pos_nonneg 2 (k - i) ltac:(lia) ltac:(lia)).
  assert (Zpos q / 2 ^ (k - i) <= Zpos q) by (apply Z.div_le_upper_bound; [| nia]; lia). lia.
Qed.

(** The fields of a perf page that could be read. *)
Definition perf_page (p : Perf) : option (Z * Z) :=
  if decide (perf_event_open p <> -1 /\ sysconf_pagesize p <> -1) then mmap_page p else None.

Lemma readFrequency_page p :
  (readFrequency p).2 =
    match perf_page p with
    | Some (s, mult) =>
        if dgt (double_of mult) dzero then
          if s <? 64 then Val (ddiv (dmul (double_of 1000) (double_of (Z.shiftl 1 s))) (double_of mult))
          else Undef
        else Val dzero
    | None => Val dzero
    end.
Proof.
  unfold readFrequency, perf_page.
  destruct (Z.eqb_spec (perf_event_open p) (-1)); [by rewrite decide_False by naive_solver |].
  destruct (Z.eqb_spec (sysconf_pagesize p) (-1)); [by rewrite decide_False by naive_solver |].
  rewrite decide_True by done. by destruct (mmap_page p) as [[] |].
Qed.

(** A timer as it leaves the constructor. *)
Record constructed (p : Perf) (i : Z) (threshold : double) (time tsc : Z) (t : MonotonicTimer) : Prop := {
  cs_wf : wf_timer t;
  cs_valid : valid t = true;
  cs_interval : interval t = i;
  cs_threshold : deviationThreshold t = threshold;
  cs_time : startTime t = time;
  cs_tsc : startTsc t = tsc;
  cs_accurate : exists s mult, perf_page p = Some (s, mult) /\ 0 < mult /\
    nominal (frequency t) s mult /\
    Z.abs (nsPerTickMultiplier t * 2 ^ s - mult * 2 ^ 32) < 2 * 2 ^ s;
}.

Lemma construct_cases cpu p i threshold time tsc :
  (forall s mult, mmap_page p = Some (s, mult) -> perf_page_ok s mult) -> is_u64 tsc ->
  (checkTsc cpu = true /\ (exists s mult, perf_page p = Some (s, mult) /\ 0 < mult) /\
   exists t, construct cpu p i threshold time tsc = Val (Some t) /\ constructed p i threshold time tsc t) \/
  (~ (checkTsc cpu = true /\ exists s mult, perf_page p = Some (s, mult) /\ 0 < mult) /\
   construct cpu p i threshold time tsc = Val None).
Proof.
  intros Hp Htsc. unfold construct. destruct (checkTsc cpu); cbn [negb]; [| right; naive_solver].
  rewrite readFrequency_page. destruct (perf_page p) as [[s mult] |] eqn:Epage.
  2: { right. split; [naive_solver | done]. }
  assert (perf_page_ok s mult) as Hok.
  { apply Hp. unfold perf_page in Epage. by case_decide. }
  pose proof Hok as (Hs & Hm & _). rewrite double_of_nonneg by lia. destruct (Z.ltb_spec 0 mult).
  2: { right. split; [intros (_ & s' & mult' & [= <- <-] & ?); lia | done]. }
  left. split; [done |]. split; [naive_solver |]. destruct (Z.ltb_spec s 64); [| lia].
  destruct (multiplier_accurate s mult Hok) as (f & m & -> & Hn & Hf & Hu & Hacc); [done |].
  cbn [mbind outcome_bind]. rewrite Hf, Hu. cbn [mbind outcome_bind]. eexists. split; [done |].
  pose proof (u64_of_double_range _ _ Hu). constructor; try done. by exists s, mult.
Qed.

(** C20.  What the constructor does: if the perf page, when there is one, has a
    shift below 64 and a multiplier for a counter of at least 15259 Hz, it
    returns, with a timer exactly if the CPU reports RDTSCP and an invariant
    TSC in their CPUID bits and a page with a positive multiplier could be
    read; otherwise it throws.  The timer is valid, has the arguments as its
    threshold, interval and starting points, the frequency of the page up to a
    unit in the last place, and a multiplier less than two units off the
    page's mult * 2^32 / 2^shift. *)
Theorem construct_correct cpu p i threshold time tsc :
  (forall s mult, mmap_page p = Some (s, mult) -> perf_page_ok s mult) -> is_u64 tsc ->
  exists o, construct cpu p i threshold time tsc = Val o /\
    (is_Some o <-> tsc_usable cpu /\ exists s mult, perf_page p = Some (s, mult) /\ 0 < mult) /\
    forall t, o = Some t -> constructed p i threshold time tsc t.
Proof.
  intros Hp Htsc. destruct (construct_cases cpu p i threshold time tsc Hp Htsc)
    as [(Hc & Hpage & t & -> & Ht) | [Hn ->]]; eexists; (split; [done |]).
  - rewrite <- checkTsc_spec. split; [done |]. by intros ? [= <-].
  - rewrite <- checkTsc_spec. split; [| done]. split; [by intros [] | done].
Qed.

(** C18.  Accuracy: a constructed timer counts the nanoseconds the kernel's page
    defines, (tsc - start) * mult / 2^shift, and is off by at most one
    nanosecond and two more per 2^32 ticks, for as long as that is less than
    2^63 nanoseconds (292 years). *)
Theorem get_accurate cpu p i threshold time tsc0 t s mult tsc :
  construct cpu p i threshold time tsc0 = Val (Some t) -> is_u64 tsc0 ->
  mmap_page p = Some (s, mult) -> perf_page_ok s mult ->
  tsc0 <= tsc < 2 ^ 64 -> (tsc - tsc0) * mult <= 2 ^ 63 * 2 ^ s ->
  2 ^ 32 * Z.abs (2 ^ s * get t tsc - (tsc - tsc0) * mult) <= 2 ^ s * (2 ^ 32 + 2 * (tsc - tsc0)).
Proof.
  intros Hc H0 Hpage Hok Htsc Hh.
  destruct (construct_cases cpu p i threshold time tsc0) as [(_ & _ & t' & E & Ht) | [_ E]];
    [intros s' mult'; rewrite Hpage; by intros [= <- <-] | done | | congruence].
  rewrite Hc in E. injection E as <-. destruct Ht as [Hwf _ _ _ _ Hst (s' & mult' & Hpg & _ & _ & Hm)].
  unfold perf_page in Hpg. case_decide; [| done]. rewrite Hpage in Hpg. injection Hpg as <- <-.
  assert (0 < 2 ^ s) as Hs by (destruct Hok; apply Z.pow_pos_nonneg; lia).
  set (m := nsPerTickMultiplier t) in *. set (n := tsc - tsc0) in *.
  assert (0 <= n < 2 ^ 64) as Hn by (destruct H0; lia).
  rewrite get_floor; [fold m | done |].
  2: { split; [lia |]. fold m. rewrite Hst. fold n.
    apply (Z.mul_lt_mono_pos_l (2 ^ s)); [done |].
    assert (n * (m * 2 ^ s) <= n * (mult * 2 ^ 32 + 2 * 2 ^ s)) by (apply Z.mul_le_mono_nonneg_l; lia).
    assert (n * 2 ^ s <= 2 ^ 64 * 2 ^ s) by (apply Z.mul_le_mono_nonneg_r; lia). lia. }
  rewrite Hst. fold n. set (u := 2 ^ s) in *. clearbody m n u.
  pose proof (Z.div_mod (n * m) (2 ^ 32) ltac:(lia)) as Hd.
  pose proof (Z.mod_pos_bound (n * m) (2 ^ 32) ltac:(lia)) as Hb.
  set (g := n * m / 2 ^ 32) in *. set (r := (n * m) mod 2 ^ 32) in *. clearbody g r.
  assert (2 ^ 32 * (u * g - n * mult) = n * (m * u - mult * 2 ^ 32) - u * r) as E.
  { replace (2 ^ 32 * (u * g - n * mult)) with (u * (2 ^ 32 * g) - n * mult * 2 ^ 32) by ring.
    replace (2 ^ 32 * g) with (n * m - r) by lia. ring. }
  rewrite <- (Z.abs_eq (2 ^ 32)) at 1 by lia. rewrite <- Z.abs_mul, E.
  assert (Z.abs (n * (m * u - mult * 2 ^ 32)) <= n * (2 * u))
    by (rewrite Z.abs_mul, (Z.abs_eq n) by lia; apply Z.mul_le_mono_nonneg_l; lia).
  assert (0 <= u * r <= u * 2 ^ 32) by nia. lia.
Qed.

(** Descriptors and mappings held after a trace, [None] for a double release or
    an unmap without a map. *)
Fixpoint perf_held (fds : list Z) (maps : nat) (tr : list perf_event) : option (list Z * nat) :=
  match tr with
  | [] => Some (fds, maps)
  | Opened fd :: tr => perf_held (fd :: fds) maps tr
  | Closed fd :: tr =>
      if decide (fd ∈ fds) then perf_held (filter (fun x => x <> fd) fds) maps tr else None
  | Mapped :: tr => perf_held fds (S maps) tr
  | Unmapped :: tr => match maps with O => None | S m => perf_held fds m tr end
  end.

(** [readFrequency] leaks nothing: whatever the kernel answers, every
    descriptor it opens is closed once and every page mapped is unmapped. *)
Theorem readFrequency_releases p : perf_held [] 0 (readFrequency p).1 = Some ([], 0%nat).
Proof.
  assert (forall fd, perf_held [fd] 0 [Closed fd] = Some ([], 0%nat)) as Hc.
  { intros fd. unfold perf_held. rewrite decide_True by set_solver.
    rewrite filter_cons_False by naive_solver. done. }
  unfold readFrequency. repeat case_test; [done | exact (Hc _) |].
  destruct (mmap_page p) as [[] |]; exact (Hc _).
Qed.

(** ** The periodic check *)

(** A pair of readings that raises no doubt. *)
Definition sample_ok (t : MonotonicTimer) (s : Z * Z) : Prop :=
  s.1 <> startTime t /\ dge (deviation t s.1 s.2) (deviationThreshold t) = false.

(** The callback over a sequence of (time, tsc) readings. *)
Definition run_callbacks (t : MonotonicTimer) (ss : list (Z * Z)) : MonotonicTimer :=
  foldl (fun t s => callback t s.1 s.2) t ss.

Lemma callback_cases t s :
  callback t s.1 s.2 = t /\ sample_ok t s \/
  callback t s.1 s.2 = set_valid false t /\ ~ sample_ok t s.
Proof.
  unfold callback, sample_ok. destruct (Z.eqb_spec s.1 (startTime t)); [right; naive_solver |].
  destruct (dge _ _) eqn:E; [right | left]; naive_solver.
Qed.

Lemma sample_ok_set_valid b t s : sample_ok (set_valid b t) s <-> sample_ok t s.
Proof. done. Qed.

(** C19.  The flag is a latch: after any sequence of checks it is set exactly if
    it was set before and every single check was within the threshold, and no
    check changes what the clock reads. *)
Theorem run_callbacks_valid t ss :
  (valid (run_callbacks t ss) = true <-> valid t = true /\ Forall (sample_ok t) ss) /\
  (forall tsc, get (run_callbacks t ss) tsc = get t tsc).
Proof.
  revert t. induction ss as [| s ss IH]; intros t; cbn.
  - split; [| done]. split; [intros H; by split; [| constructor] | tauto].
  - rewrite Forall_cons. destruct (IH (callback t s.1 s.2)) as [Hv Hg].
    destruct (callback_cases t s) as [[E Hs] | [E Hs]]; rewrite E in *.
    + split; [| done]. rewrite Hv. tauto.
    + split; [| done]. rewrite Hv. cbn. naive_solver.
Qed.

(** No false alarm: when the measured frequency equals the nominal one, a
    check with a positive threshold leaves the timer as it is. *)
Theorem callback_exact_frequency t time tsc :
  time <> startTime t -> positive_finite (deviationThreshold t) -> positive_finite (frequency t) ->
  measuredFrequency t time tsc = frequency t -> callback t time tsc = t.
Proof.
  intros Ht Hth Hf Hm. unfold callback. destruct (Z.eqb_spec time (startTime t)); [done |].
  unfold deviation. rewrite Hm. pose proof Hf as (m & e & Ef). rewrite Ef at 1 2. rewrite dsub_self.
  change (dabs dzero) with dzero. by rewrite ddiv_zero, dge_zero.
Qed.

Lemma run_callbacks_nan t ss :
  deviationThreshold t = S754_nan -> Forall (fun s => s.1 <> startTime t) ss ->
  run_callbacks t ss = t.
Proof.
  intros Hn Hs. induction Hs as [| s ss Hs Hss IH]; [done |]. cbn. unfold callback at 2.
  destruct (Z.eqb_spec s.1 (startTime t)); [done |]. rewrite Hn, dge_nan. exact IH.
Qed.

(** ** Instances: a CPU of about 2400 MHz, as its perf page describes it *)

Definition sample_cpu : Cpuid := {|
  get_cpuid_max _ := 0x80000008;
  get_cpuid _ := Some (0, 0, 0, 0x2c100800);
  get_cpuid_count _ _ := Some (0, 0, 0, 0x100);
|}.

Definition sample_perf : Perf := {|
  perf_event_open := 3;
  sysconf_pagesize := 4096;
  mmap_page := Some (31, 894784853);
|}.

Definition sample_timer : MonotonicTimer :=
  Eval vm_compute in
  match construct sample_cpu sample_perf 1000 (S754_finite false 5764607523034235 (-59)) 7 1000 with
  | Val (Some t) => t
  | _ => mkMonotonicTimer false dzero dzero 0 0 0 0
  end.

Lemma sample_timer_wf : wf_timer sample_timer.
Proof. split; unfold is_u64; cbn; lia. Qed.

Lemma sample_page_ok s mult : mmap_page sample_perf = Some (s, mult) -> perf_page_ok s mult.
Proof. intros [= <- <-]. split; lia. Qed.

Lemma construct_correct_witness :
  exists o, construct sample_cpu sample_perf 1000 (S754_finite false 5764607523034235 (-59)) 7 1000 = Val o /\
    (is_Some o <-> tsc_usable sample_cpu /\
       exists s mult, perf_page sample_perf = Some (s, mult) /\ 0 < mult) /\
    forall t, o = Some t ->
      constructed sample_perf 1000 (S754_finite false 5764607523034235 (-59)) 7 1000 t.
Proof.
  apply (construct_correct sample_cpu sample_perf 1000 (S754_finite false 5764607523034235 (-59)) 7 1000).
  - exact sample_page_ok.
  - unfold is_u64. lia.
Defined.

Lemma get_monotone_witness :
  get sample_timer 2400001000 <= get sample_timer 4800001000 /\
  (2 ^ 32 <= nsPerTickMultiplier sample_timer ->
   get sample_timer 2400001000 < get sample_timer 4800001000).
Proof.
  apply (get_monotone sample_timer 2400001000 4800001000).
  - exact sample_timer_wf.
  - vm_compute. discriminate.
  - vm_compute. reflexivity.
  - split; cbn; lia.
Defined.

Lemma get_not_strict_witness : get sample_timer 1000 = get sample_timer 1001.
Proof.
  apply (get_not_strict sample_timer).
  - exact sample_timer_wf.
  - vm_compute. reflexivity.
  - vm_compute. reflexivity.
Defined.

Lemma get_accurate_witness :
  2 ^ 32 * Z.abs (2 ^ 31 * get sample_timer 2400001000 - (2400001000 - 1000) * 894784853) <=
    2 ^ 31 * (2 ^ 32 + 2 * (2400001000 - 1000)).
Proof.
  apply (get_accurate sample_cpu sample_perf 1000 (S754_finite false 5764607523034235 (-59)) 7 1000
    sample_timer 31 894784853 2400001000).
  - vm_compute. reflexivity.
  - unfold is_u64. lia.
  - reflexivity.
  - by apply sample_page_ok.
  - lia.
  - lia.
Defined.

(** A counter that ticks exactly 1024 times per microsecond. *)
Definition exact_timer : MonotonicTimer :=
  mkMonotonicTimer true (double_of 1) (double_of 1024) 4194304000 1000 0 0.

Lemma callback_exact_frequency_witness :
  callback exact_timer 1000000000 1024000000 = exact_timer.
Proof.
  apply (callback_exact_frequency exact_timer 1000000000 1024000000).
  - cbn. lia.
  - eexists _, _. vm_compute. reflexivity.
  - eexists _, _. vm_compute. reflexivity.
  - vm_compute. reflexivity.
Defined.

(** A frequency ten times the nominal one is noticed. *)
Example callback_detects :
  valid (callback sample_timer (7 + 1000000000) (1000 + 24000000000)) = false.
Proof. vm_compute. reflexivity. Qed.
