(* ===== verification/TPMWatcher.v ===== *)
(** * src/src/tpmwatcher.cpp: class TPMWatcher

    The cached device ID and its time, and [update], the run through the TPM
    software stack that refreshes them, with every resource it acquires and
    releases recorded in a trace.  The answers of the stack are an argument;
    the constants of its headers are symbols. *)

From S2P Require Import Prelude Memory.
From stdpp Require Import strings.

Local Open Scope string_scope.
Local Open Scope list_scope.
Local Open Scope Z_scope.

(** The cache; [lock_guard] makes each of the accesses below one step. *)
Record TPMWatcher := mkTPMWatcher {
  deviceID : list Z;      (* uint8_t[16] *)
  lastUpdated : Z;        (* uint64_t *)
}.

Definition construct : TPMWatcher := mkTPMWatcher (replicate 16 0) 0.

Definition get (w : TPMWatcher) : list Z := deviceID w.
Definition getLastUpdated (w : TPMWatcher) : Z := lastUpdated w.

(** ** The key template handed to the TPM *)

Inductive Tpm2Alg :=
  | TPM2_ALG_RSA | TPM2_ALG_SHA256 | TPM2_ALG_AES | TPM2_ALG_CFB | TPM2_ALG_NULL.

Inductive TpmaObject :=
  | FIXEDTPM | FIXEDPARENT | SENSITIVEDATAORIGIN | ADMINWITHPOLICY | RESTRICTED | DECRYPT.

Record TPM2B_PUBLIC := {
  size : Z;
  pub_type : Tpm2Alg;
  nameAlg : Tpm2Alg;
  objectAttributes : list TpmaObject;
  authPolicy : list Z;
  symmetric_algorithm : Tpm2Alg;
  symmetric_keyBits : Z;
  symmetric_mode : Tpm2Alg;
  scheme : Tpm2Alg;
  rsa_keyBits : Z;
  exponent : Z;
  unique_rsa : list Z;
}.

Definition authPolicyBuffer : list Z :=
  [0x83; 0x71; 0x97; 0x67; 0x44; 0x84; 0xb3; 0xf8;
   0x1a; 0x90; 0xcc; 0x8d; 0x46; 0xa5; 0xd7; 0x24;
   0xfd; 0x52; 0xd7; 0x6e; 0x06; 0x52; 0x0b; 0x64;
   0xf2; 0xa1; 0xda; 0x1b; 0x33; 0x14; 0x69; 0xaa].

Definition inPublic : TPM2B_PUBLIC := {|
  size := 0;
  pub_type := TPM2_ALG_RSA;
  nameAlg := TPM2_ALG_SHA256;
  objectAttributes :=
    [FIXEDTPM; FIXEDPARENT; SENSITIVEDATAORIGIN; ADMINWITHPOLICY; RESTRICTED; DECRYPT];
  authPolicy := authPolicyBuffer;
  symmetric_algorithm := TPM2_ALG_AES;
  symmetric_keyBits := 128;
  symmetric_mode := TPM2_ALG_CFB;
  scheme := TPM2_ALG_NULL;
  rsa_keyBits := 2048;
  exponent := 0;
  unique_rsa := replicate 256 0;
|}.

(** ** The software stack *)

(** What [update] holds of it. *)
Inductive resource :=
  | TctiContext | EsysContext | EkHandle
  | OutPublic | CreationData | CreationHash | CreationTicket
  | EkName | EkQualifiedName.

#[export] Instance resource_eq_dec : EqDecision resource.
Proof. solve_decision. Defined.

(** The code of an error message: an answer, or the constant of the headers. *)
Inductive log_code := Rc (rc : Z) | TSS2_ESYS_RC_GENERAL_FAILURE.

Inductive tss_event :=
  | Acquire (r : resource)
  | Release (r : resource)
  | LogError (rc : log_code) (location : string).

(** The answers during one run.  A return code of 0 is TSS2_RC_SUCCESS.  A
    successful Esys_CreatePrimary loads the key and says which of its four
    outputs are not null; Esys_ReadPublic says so in every case, and gives the
    name's bytes. *)
Record Tss := {
  Tss2_TctiLdr_Initialize : string -> Z;
  Esys_Initialize : Z;
  Esys_CreatePrimary : TPM2B_PUBLIC -> Z * (bool * bool * bool * bool);
  Esys_ReadPublic : Z * (option (list Z) * bool);
}.

Definition TSS2_RC_SUCCESS : Z := 0.

(** FREE_TPM_RESOURCE *)
Definition free (r : resource) (non_null : bool) : list tss_event :=
  if non_null then [Release r] else [].

(** The output pointers of the two calls, by whether they are null. *)
Record outputs := {
  out_outPublic : bool;
  out_creationData : bool;
  out_creationHash : bool;
  out_creationTicket : bool;
  out_ekName : bool;
  out_ekQualifiedName : bool;
}.

Definition acquired (r : resource) (non_null : bool) : list tss_event :=
  if non_null then [Acquire r] else [].

(** The clean-up before each of the last three returns (lines 162-170, 192-200
    and 222-230, the same in all three). *)
Definition cleanup (o : outputs) : list tss_event :=
  free EkName (out_ekName o) ++
  free EkQualifiedName (out_ekQualifiedName o) ++
  [Release EkHandle] ++
  free OutPublic (out_outPublic o) ++
  free CreationData (out_creationData o) ++
  free CreationHash (out_creationHash o) ++
  free CreationTicket (out_creationTicket o) ++
  [Release EsysContext; Release TctiContext].

(** Lines 175-184: where the digest starts in the name of the key. *)
Definition nameOffset (name : list Z) : outcome Z :=
  if zlen name >=? 2 then
    b0 ← rd name 0;
    b1 ← rd name 1;
    Val (if (b0 =? 0x00) && (b1 =? 0x0B) then 2 else 0)
  else Val 0.

(** Lines 213-216: [deviceID[i] = sourceData[i] ^ sourceData[i + 16]] for the
    [n] indices from [i] on. *)
Fixpoint xorLoop (name : list Z) (dataOffset i : Z) (n : nat) : outcome (list Z) :=
  match n with
  | O => Val []
  | S n =>
      a ← rd name (dataOffset + i);
      b ← rd name (dataOffset + (i + 16));
      rest ← xorLoop name dataOffset (i + 1) n;
      Val (Z.lxor a b :: rest)
  end.

(** Lines 175-219 on the name read: the new device ID, or [None] when the name
    is too short. *)
Definition processName (name : list Z) : outcome (option (list Z)) :=
  dataOffset ← nameOffset name;
  if u64 (zlen name - dataOffset) <? 32 then Val None
  else
    id ← xorLoop name dataOffset 0 16;
    Val (Some id).

(** ** update() *)

(** The run: the trace, and the returned flag with the cache afterwards.
    [now] is what [monotonicTimer.get()] gives. *)
Definition update (tss : Tss) (now : Z) (w : TPMWatcher) :
    list tss_event * outcome (bool * TPMWatcher) :=
  let rc := Tss2_TctiLdr_Initialize tss "device:/dev/tpmrm0" in
  if negb (rc =? TSS2_RC_SUCCESS) then
    ([LogError (Rc rc) "Tss2_TctiLdr_Initialize(device:/dev/tpmrm0)"], Val (false, w))
  else
    let rc := Esys_Initialize tss in
    if negb (rc =? TSS2_RC_SUCCESS) then
      ([Acquire TctiContext; LogError (Rc rc) "Esys_Initialize"; Release TctiContext],
       Val (false, w))
    else
      let tr := [Acquire TctiContext; Acquire EsysContext] in
      let '(rc, (pub, data, hash, ticket)) := Esys_CreatePrimary tss inPublic in
      if negb (rc =? TSS2_RC_SUCCESS) then
        (tr ++ [LogError (Rc rc) "Esys_CreatePrimary"; Release EsysContext; Release TctiContext],
         Val (false, w))
      else
        let tr := tr ++ [Acquire EkHandle] ++ acquired OutPublic pub ++
          acquired CreationData data ++ acquired CreationHash hash ++
          acquired CreationTicket ticket in
        let '(rc, (ekName, qualified)) := Esys_ReadPublic tss in
        let o := {| out_outPublic := pub; out_creationData := data; out_creationHash := hash;
                    out_creationTicket := ticket; out_ekName := bool_decide (ekName <> None);
                    out_ekQualifiedName := qualified |} in
        let tr := tr ++ acquired EkName (out_ekName o) ++ acquired EkQualifiedName qualified in
        if negb (rc =? TSS2_RC_SUCCESS) then
          (tr ++ [LogError (Rc rc) "Esys_ReadPublic"] ++ cleanup o, Val (false, w))
        else
          match ekName with
          | None => (tr, Undef)
          | Some name =>
              match processName name with
              | Val None =>
                  (tr ++ [LogError TSS2_ESYS_RC_GENERAL_FAILURE
                            "Insufficient data in TPM2B_NAME for UUID generation"] ++ cleanup o,
                   Val (false, w))
              | Val (Some id) => (tr ++ cleanup o, Val (true, mkTPMWatcher id now))
              | _ => (tr, Undef)
              end
          end.

(** [start()]: the first update, and whether the timer is started after it. *)
Definition start (tss : Tss) (now : Z) (w : TPMWatcher) : outcome (bool * TPMWatcher) :=
  '(updated, w) ← (update tss now w).2;
  Val (if negb updated then false else true, w).

(** ** What a name is turned into *)

(** The 32 bytes behind an optional 0x00 0x0B, folded by xor. *)
Definition device_id_of (name : list Z) : option (list Z) :=
  let digest := if decide (take 2 name = [0x00; 0x0B]) then drop 2 name else name in
  if decide (length digest < 32)%nat then None
  else Some (xor_bytes (take 16 digest) (take 16 (drop 16 digest))).

Lemma xorLoop_spec name off i n :
  0 <= off -> 0 <= i -> off + i + 16 + Z.of_nat n <= zlen name ->
  xorLoop name off i n =
    Val (xor_bytes (take n (drop (Z.to_nat (off + i)) name))
                   (take n (drop (Z.to_nat (off + i + 16)) name))).
Proof.
  revert i. induction n as [| n IH]; intros i Ho Hi Hl; [done |].
  destruct (rd_ok name (off + i)) as (a & Ha & Ea); [lia |].
  destruct (rd_ok name (off + (i + 16))) as (b & Hb & Eb); [lia |].
  cbn [xorLoop]. rewrite Ha, Hb. cbn. rewrite IH by lia. cbn. do 2 f_equal.
  replace (off + i + 16) with (off + (i + 16)) by lia.
  rewrite (drop_S name a (Z.to_nat (off + i))), (drop_S name b (Z.to_nat (off + (i + 16)))) by done.
  cbn. unfold xor_bytes. do 4 f_equal; lia.
Qed.

Lemma nameOffset_spec name :
  nameOffset name = Val (if decide (take 2 name = [0x00; 0x0B]) then 2 else 0).
Proof.
  destruct name as [| b0 [| b1 name]]; [done | by rewrite decide_False |]. unfold nameOffset.
  destruct (Z.geb_spec (zlen (b0 :: b1 :: name)) 2); [| unfold zlen in *; cbn in *; lia].
  change (rd (b0 :: b1 :: name) 0) with (Val b0). change (rd (b0 :: b1 :: name) 1) with (Val b1).
  cbn. rewrite take_0. f_equal.
  destruct (Z.eqb_spec b0 0), (Z.eqb_spec b1 11); cbn; case_decide; congruence.
Qed.

Lemma processName_spec name :
  zlen name < 2 ^ 16 -> processName name = Val (device_id_of name).
Proof.
  intros Hn. unfold processName, device_id_of. rewrite nameOffset_spec. cbn [mbind outcome_bind].
  pose proof (zlen_nonneg name). set (off := if decide _ then 2 else 0).
  assert ((if decide (take 2 name = [0; 11]) then drop 2 name else name) = drop (Z.to_nat off) name)
    as -> by (subst off; by case_decide).
  assert (0 <= off <= zlen name) as Ho.
  { subst off. case_decide as E; [| lia]. apply (f_equal length) in E. revert E. unfold zlen.
    rewrite length_take. change (length [0; 11]) with 2%nat. lia. }
  clearbody off. rewrite u64_id by (unfold is_u64; lia). rewrite length_drop. unfold zlen in *.
  destruct (Z.ltb_spec (Z.of_nat (length name) - off) 32).
  - by rewrite decide_True by lia.
  - rewrite decide_False by lia. rewrite xorLoop_spec by (unfold zlen; lia). cbn.
    rewrite drop_drop. repeat f_equal; lia.
Qed.

Lemma device_id_wf name id :
  bytes name -> device_id_of name = Some id -> length id = 16%nat /\ bytes id.
Proof.
  intros Hb. unfold device_id_of. set (d := if decide (take 2 name = _) then _ else _).
  assert (bytes d) as Hd by (subst d; case_decide; [by apply Forall_drop | done]).
  case_decide as Hl; [done |]. intros [= <-]. split.
  - rewrite length_xor_bytes; rewrite !length_take, ?length_drop; lia.
  - apply bytes_xor_bytes; [by apply Forall_take | by apply Forall_take, Forall_drop].
Qed.

(** ** The contract of update() *)

(** What the code relies on of the stack: a successful Esys_ReadPublic gives a
    name, of at most the 68 bytes a TPM2B_NAME has room for. *)
Definition tss_sane (tss : Tss) : Prop :=
  (Esys_ReadPublic tss).1 = 0 ->
  exists name, (Esys_ReadPublic tss).2.1 = Some name /\ zlen name <= 68 /\ bytes name.

(** The device ID a run obtains, if every call succeeds and the name is long
    enough. *)
Definition obtained_id (tss : Tss) : option (list Z) :=
  if decide (Tss2_TctiLdr_Initialize tss "device:/dev/tpmrm0" = 0 /\ Esys_Initialize tss = 0 /\
             (Esys_CreatePrimary tss inPublic).1 = 0 /\ (Esys_ReadPublic tss).1 = 0)
  then (Esys_ReadPublic tss).2.1 ≫= device_id_of
  else None.

(** Which resource another one is built on. *)
Definition needs (r : resource) : option resource :=
  match r with
  | EsysContext => Some TctiContext
  | EkHandle => Some EsysContext
  | _ => None
  end.

(** The resources held after an event; [None] for a second acquisition, the
    release of something not held, or the release of something another held
    resource is built on. *)
Definition tss_step (held : list resource) (e : tss_event) : option (list resource) :=
  match e with
  | Acquire r =>
      if bool_decide (r ∈ held) then None
      else match needs r with
           | Some r' => if bool_decide (r' ∈ held) then Some (r :: held) else None
           | None => Some (r :: held)
           end
  | Release r =>
      if bool_decide (r ∈ held) && forallb (fun r' => bool_decide (needs r' <> Some r)) held
      then Some (filter (fun r' => r' <> r) held) else None
  | LogError _ _ => Some held
  end.

Definition tss_run (held : list resource) (tr : list tss_event) : option (list resource) :=
  foldl (fun h e => h ≫= fun h => tss_step h e) (Some held) tr.

Lemma obtained_id_wf tss id :
  tss_sane tss -> obtained_id tss = Some id -> length id = 16%nat /\ bytes id.
Proof.
  intros Hs. unfold obtained_id. case_decide as Hc; [| done].
  destruct Hs as (name & -> & _ & Hb); [tauto |]. cbn. by apply device_id_wf.
Qed.

Lemma update_result tss now w :
  tss_sane tss ->
  (update tss now w).2 =
    Val (match obtained_id tss with
         | Some id => (true, mkTPMWatcher id now)
         | None => (false, w)
         end).
Proof.
  unfold tss_sane, obtained_id, update, TSS2_RC_SUCCESS. intros Hs.
  destruct (Z.eqb_spec (Tss2_TctiLdr_Initialize tss "device:/dev/tpmrm0") 0);
    [| by rewrite decide_False by tauto].
  destruct (Z.eqb_spec (Esys_Initialize tss) 0); [| by rewrite decide_False by tauto]. cbn [negb].
  destruct (Esys_CreatePrimary tss inPublic) as [rc [[[pub data] hash] ticket]].
  destruct (Esys_ReadPublic tss) as [rc' [ekName qualified]]. cbn [fst snd] in *.
  destruct (Z.eqb_spec rc 0); [| by rewrite decide_False by tauto].
  destruct (Z.eqb_spec rc' 0); [| by rewrite decide_False by tauto].
  rewrite decide_True by done. destruct Hs as (name & -> & Hl & _); [done |]. cbn [mbind option_bind].
  rewrite processName_spec by lia. by destruct (device_id_of name).
Qed.

(** C15.  What [update] does: it returns true exactly when every call of the TPM
    stack succeeds and the key's name holds 32 bytes of digest; then the cache
    is their xor fold with the current time, and in every other case the cache
    is left as it was. *)
Theorem update_correct tss now w :
  tss_sane tss ->
  exists ok w', (update tss now w).2 = Val (ok, w') /\
    (ok = true <-> is_Some (obtained_id tss)) /\
    (ok = false -> w' = w) /\
    (forall id, obtained_id tss = Some id ->
       get w' = id /\ getLastUpdated w' = now /\ length id = 16%nat /\ bytes id).
Proof.
  intros Hs. rewrite update_result by done. destruct (obtained_id tss) as [id |] eqn:Hid.
  - exists true, (mkTPMWatcher id now). split; [done |]. split; [naive_solver |]. split; [done |].
    intros ? [= <-]. destruct (obtained_id_wf tss id Hs Hid). done.
  - exists false, w. split; [done |]. split; [by split; [| intros []] | done].
Qed.

(** C16.  [update] leaks nothing of the TPM stack: on every path each context,
    key handle and output buffer it acquired is released exactly once, the key
    before the ESYS context and that before the TCTI context. *)
Theorem update_releases tss now w :
  tss_sane tss -> tss_run [] (update tss now w).1 = Some [].
Proof.
  unfold tss_sane, update, TSS2_RC_SUCCESS. intros Hs.
  destruct (_ =? 0); [| done]. destruct (_ =? 0); [| done]. cbn [negb].
  destruct (Esys_CreatePrimary tss inPublic) as [rc [[[pub data] hash] ticket]].
  destruct (Esys_ReadPublic tss) as [rc' [ekName qualified]]. cbn [fst snd] in *.
  destruct (rc =? 0); [| done]. cbn [negb].
  assert (forall e b, tss_run [] ([Acquire TctiContext; Acquire EsysContext] ++ [Acquire EkHandle] ++
      acquired OutPublic pub ++ acquired CreationData data ++ acquired CreationHash hash ++
      acquired CreationTicket ticket ++ acquired EkName b ++ acquired EkQualifiedName qualified ++
      match e with Some (c, l) => [LogError c l] | None => [] end ++
      cleanup {| out_outPublic := pub; out_creationData := data; out_creationHash := hash;
        out_creationTicket := ticket; out_ekName := b; out_ekQualifiedName := qualified |}) = Some [])
    as Hall.
  { clear. intros [[c l] |] []; destruct pub, data, hash, ticket, qualified; reflexivity. }
  destruct (Z.eqb_spec rc' 0) as [-> |]; cbn [negb].
  - destruct Hs as (name & -> & Hl & _); [done |]. rewrite processName_spec by lia.
    destruct (device_id_of name); cbn [fst out_ekName]; rewrite <- !app_assoc;
      [exact (Hall None _) | exact (Hall (Some (_, _)) _)].
  - cbn [fst out_ekName]. rewrite <- !app_assoc. exact (Hall (Some (_, _)) _).
Qed.

(** After a successful [start] the device ID and its time are those of the
    TPM, the ID has 16 bytes; after a failed one the cache still holds the
    zeros of the constructor. *)
Theorem start_correct tss now :
  tss_sane tss ->
  exists w, start tss now construct =
      Val (bool_decide (is_Some (obtained_id tss)), w) /\
    length (get w) = 16%nat /\ bytes (get w) /\
    match obtained_id tss with
    | Some id => get w = id /\ getLastUpdated w = now
    | None => get w = replicate 16 0 /\ getLastUpdated w = 0
    end.
Proof.
  intros Hs. unfold start. rewrite update_result by done.
  destruct (obtained_id tss) as [id |] eqn:Hid; eexists; (split; [done |]); cbn.
  - split; [| split; [| done]]; by apply (obtained_id_wf tss id Hs).
  - split; [done |]. split; [| done]. by repeat constructor.
Qed.

(** ** Instances *)

(** A stack that answers with a name of algorithm 0x000B and a digest. *)
Definition sample_name : list Z := [0x00; 0x0B] ++ seqZ 1 32.

Definition sample_tss : Tss := {|
  Tss2_TctiLdr_Initialize _ := 0;
  Esys_Initialize := 0;
  Esys_CreatePrimary _ := (0, (true, true, true, true));
  Esys_ReadPublic := (0, (Some sample_name, true));
|}.

Lemma sample_tss_sane : tss_sane sample_tss.
Proof.
  intros _. exists sample_name. split; [done |]. split; [vm_compute; discriminate |].
  apply (bool_decide_unpack _). vm_compute. exact I.
Qed.

Lemma update_correct_witness :
  exists ok w', (update sample_tss 42 construct).2 = Val (ok, w') /\
    (ok = true <-> is_Some (obtained_id sample_tss)) /\
    (ok = false -> w' = construct) /\
    (forall id, obtained_id sample_tss = Some id ->
       get w' = id /\ getLastUpdated w' = 42 /\ length id = 16%nat /\ bytes id).
Proof. apply (update_correct sample_tss 42 construct). exact sample_tss_sane. Defined.

Lemma update_releases_witness : tss_run [] (update sample_tss 42 construct).1 = Some [].
Proof. apply (update_releases sample_tss 42 construct). exact sample_tss_sane. Defined.

Lemma start_correct_witness :
  exists w, start sample_tss 42 construct =
      Val (bool_decide (is_Some (obtained_id sample_tss)), w) /\
    length (get w) = 16%nat /\ bytes (get w) /\
    match obtained_id sample_tss with
    | Some id => get w = id /\ getLastUpdated w = 42
    | None => get w = replicate 16 0 /\ getLastUpdated w = 0
    end.
Proof. apply (start_correct sample_tss 42). exact sample_tss_sane. Defined.

(** The ID obtained there: each byte of the digest's first half xored with the
    byte 16 positions behind it. *)
Example sample_id :
  obtained_id sample_tss = Some ([16; 16; 16; 16; 16; 16; 16; 16; 16; 16; 16; 16; 16; 16; 16; 48]).
Proof. vm_compute. reflexivity. Qed.
