(* ===== verification/System.v ===== *)
(** * The hardware side put together

    [World] is what a query sees: the timer object, the watcher's cache and the
    time stamp counter, with a schedule of what happens between two calls of
    the message builder: the counter advances, the watcher's thread may publish
    an update of the cache (a run of [TPMWatcher.update], whose writes are one
    step under its mutex), and the timer's thread may check the frequency (a
    run of [MonotonicTimer.callback]).  The instances prove for it the
    interfaces the message builder and the responder rely on. *)

From S2P Require Import Prelude Memory Protocol Hardware MonotonicTimer TPMWatcher.
From Stdlib Require Import Sorted.

Local Open Scope Z_scope.

Record env_step := EnvStep {
  ticks : Z;                   (* advance of the TSC *)
  watcher_run : option Tss;    (* an update by the watcher's thread *)
  check_run : option (Z * Z);  (* a check by the timer's thread: its readings *)
}.

Record World := mkWorld {
  w_timer : MonotonicTimer;
  w_cache : TPMWatcher;
  w_tsc : Z;
  w_schedule : list env_step;
  w_undefined : bool;          (* the watcher's thread met undefined behaviour *)
}.

Definition now (w : World) : Z := MonotonicTimer.get (w_timer w) (w_tsc w).

(** The watcher's thread updates the cache, if it runs. *)
Definition run_watcher (tss : option Tss) (time : Z) (c : TPMWatcher) : outcome TPMWatcher :=
  match tss with
  | Some tss => '(_, c) ← (update tss time c).2; Val c
  | None => Val c
  end.

(** The timer's thread checks the frequency, if it runs. *)
Definition run_check (readings : option (Z * Z)) (t : MonotonicTimer) : MonotonicTimer :=
  match readings with
  | Some (time, tsc) => callback t time tsc
  | None => t
  end.

Definition advance (w : World) : World :=
  match w_schedule w with
  | [] => w
  | s :: rest =>
      let tsc := w_tsc w + ticks s in
      let t := run_check (check_run s) (w_timer w) in
      match run_watcher (watcher_run s) (MonotonicTimer.get (w_timer w) tsc) (w_cache w) with
      | Val c => mkWorld t c tsc rest (w_undefined w)
      | _ => mkWorld t (w_cache w) tsc rest true
      end
  end.

#[export] Instance world_hw : HwAccess World := {
  timer_get w := let w := advance w in (now w, w);
  tpm_get w := let w := advance w in (TPMWatcher.get (w_cache w), w);
  tpm_getLastUpdated w := let w := advance w in (getLastUpdated (w_cache w), w);
}.

#[export] Instance world_source : TimeSource World := {
  timer_getValid w := let w := advance w in (getValid (w_timer w), w);
}.

(** ** The invariant *)

Definition step_ok (s : env_step) : Prop :=
  0 <= ticks s /\ match watcher_run s with Some tss => tss_sane tss | None => True end.

Definition total_ticks (ss : list env_step) : Z := foldr (fun s n => ticks s + n) 0 ss.

Record world_ok (w : World) : Prop := {
  wo_timer : wf_timer (w_timer w);
  wo_id : length (deviceID (w_cache w)) = 16%nat;
  wo_bytes : bytes (deviceID (w_cache w));
  wo_started : startTsc (w_timer w) <= w_tsc w;
  wo_horizon : in_horizon (w_timer w) (w_tsc w + total_ticks (w_schedule w));
  wo_steps : Forall step_ok (w_schedule w);
  wo_updated : 0 <= lastUpdated (w_cache w) <= now w;
  wo_defined : w_undefined w = false;
}.

Lemma total_ticks_nonneg ss : Forall step_ok ss -> 0 <= total_ticks ss.
Proof. unfold total_ticks. induction 1 as [| s ss [Hs _] Hss IH]; cbn; lia. Qed.

(** The cache after an update holds an ID, and a time not after [time]. *)
Lemma run_watcher_ok tss time c :
  match tss with Some tss => tss_sane tss | None => True end ->
  length (deviceID c) = 16%nat -> bytes (deviceID c) -> 0 <= lastUpdated c <= time ->
  exists c', run_watcher tss time c = Val c' /\
  length (deviceID c') = 16%nat /\ bytes (deviceID c') /\ 0 <= lastUpdated c' <= time.
Proof.
  intros Hs Hl Hb Ht. destruct tss as [tss |]; [| by exists c]. cbn. rewrite update_result by done.
  destruct (obtained_id tss) as [id |] eqn:Hid; [| by exists c]. cbn. eexists. split; [done |].
  apply obtained_id_wf in Hid as [Hl' Hb']; [| done]. cbn. repeat split; try done; lia.
Qed.

(** A check changes the flag only. *)
Lemma run_check_cases r t :
  run_check r t = t \/ run_check r t = set_valid false t.
Proof.
  destruct r as [[time tsc] |]; [| by left]. cbn. unfold callback. repeat case_test; auto.
Qed.

Lemma advance_ok w : world_ok w -> world_ok (advance w) /\ now w <= now (advance w).
Proof.
  intros Hw. unfold advance. destruct (w_schedule w) as [| s rest] eqn:Es; [split; [done | lia] |].
  destruct Hw as [Ht Hid Hb Hst Hh Hsteps Hu Hdef]. rewrite Es in *. cbn [total_ticks foldr] in Hh.
  apply Forall_cons in Hsteps as [[Hs Hsane] Hrest]. pose proof (total_ticks_nonneg rest Hrest).
  fold (total_ticks rest) in Hh. rewrite Z.add_assoc in Hh.
  assert (now w <= MonotonicTimer.get (w_timer w) (w_tsc w + ticks s)) as Hle.
  { unfold now. apply get_le; [exact Ht | lia |]. apply (in_horizon_le _ _ (w_tsc w + ticks s + total_ticks rest)); [exact Ht | lia | exact Hh]. }
  assert (0 <= lastUpdated (w_cache w) <= MonotonicTimer.get (w_timer w) (w_tsc w + ticks s)) as Hu' by lia.
  destruct (run_watcher_ok _ _ _ Hsane Hid Hb Hu') as (c & -> & H1 & H2 & H3).
  unfold now. cbn [w_timer w_tsc].
  destruct (run_check_cases (check_run s) (w_timer w)) as [-> | ->]; (split; [| exact Hle]);
    (constructor; [destruct Ht; by constructor | exact H1 | exact H2 | cbn [w_timer w_tsc]; cbn; lia
                  | exact Hh | exact Hrest | exact H3 | exact Hdef]).
Qed.

(** A step in which the watcher does not run leaves the cache. *)
Lemma advance_quiet w :
  match w_schedule w with s :: _ => watcher_run s = None | [] => True end ->
  w_cache (advance w) = w_cache w /\ w_schedule (advance w) = tail (w_schedule w).
Proof. unfold advance. destruct (w_schedule w) as [| s rest] eqn:E; [by rewrite E |]. by intros ->. Qed.

(** A step in which it obtains an ID publishes the ID with the time. *)
Lemma advance_update w s rest tss id :
  world_ok w -> w_schedule w = s :: rest -> watcher_run s = Some tss -> obtained_id tss = Some id ->
  w_cache (advance w) = mkTPMWatcher id (now (advance w)) /\ w_schedule (advance w) = rest.
Proof.
  intros Hw Es Hs Hid. pose proof (wo_steps w Hw) as Hok. rewrite Es in Hok.
  apply Forall_cons in Hok as [[_ Hsane] _]. rewrite Hs in Hsane.
  unfold advance. rewrite Es, Hs. cbn [run_watcher]. rewrite update_result, Hid by done. cbn. split; [| done]. f_equal. unfold now. cbn [w_timer w_tsc].
  by destruct (run_check_cases (check_run s) (w_timer w)) as [-> | ->].
Qed.

(** ** The instances *)

#[export] Program Instance world_laws : HwLaws World := {
  hw_ok := world_ok;
}.
Next Obligation.
  intros w Hw. destruct (advance_ok w Hw) as [Hw' _]. cbn [timer_get world_hw fst snd].
  split; [unfold now; apply get_range | exact Hw'].
Qed.
Next Obligation.
  intros w Hw. destruct (advance_ok w Hw) as [Hw' _]. cbn [tpm_get world_hw fst snd].
  split; [exact (wo_id _ Hw') | split; [exact (wo_bytes _ Hw') | exact Hw']].
Qed.
Next Obligation.
  intros w Hw. destruct (advance_ok w Hw) as [Hw' _]. cbn [tpm_getLastUpdated world_hw fst snd].
  split; [| exact Hw'].
  pose proof (wo_updated _ Hw') as Hu.
  pose proof (get_range (w_timer (advance w)) (w_tsc (advance w))) as Hr. fold (now (advance w)) in Hr.
  unfold is_u64, getLastUpdated in *. lia.
Qed.

#[export] Program Instance world_monotone : HwMonotone World := {
  hw_now := now;
}.
Next Obligation.
  intros w Hw. destruct (advance_ok w Hw) as [_ Hn]. cbn [timer_get world_hw fst snd]. lia.
Qed.
Next Obligation. intros w Hw. destruct (advance_ok w Hw) as [_ Hn]. exact Hn. Qed.
Next Obligation. intros w Hw. destruct (advance_ok w Hw) as [_ Hn]. exact Hn. Qed.

Lemma advance_invalid w : valid (w_timer w) = false -> valid (w_timer (advance w)) = false.
Proof.
  intros Hv. unfold advance. destruct (w_schedule w) as [| s rest]; [done |].
  destruct (run_check_cases (check_run s) (w_timer w)) as [-> | ->];
    by destruct (run_watcher _ _ _).
Qed.

#[export] Program Instance world_source_laws : TimeSourceLaws World.
Next Obligation. intros w Hw. destruct (advance_ok w Hw) as [Hok _]. exact Hok. Qed.
Next Obligation.
  intros w _. cbn [timer_getValid world_source fst snd]. unfold getValid. apply advance_invalid.
Qed.

(** ** Sequences of calls *)

Inductive hw_call := CallTimer | CallId | CallLastUpdated.

(** The clock readings a sequence of calls yields, and the state after it. *)
Fixpoint run_calls (cs : list hw_call) (w : World) : list Z * World :=
  match cs with
  | [] => ([], w)
  | CallTimer :: cs =>
      let '(t, w) := timer_get w in
      let '(ts, w) := run_calls cs w in (t :: ts, w)
  | CallId :: cs => run_calls cs (tpm_get w).2
  | CallLastUpdated :: cs => run_calls cs (tpm_getLastUpdated w).2
  end.

Lemma run_calls_ok cs w :
  world_ok w ->
  let '(ts, w') := run_calls cs w in
  world_ok w' /\ now w <= now w' /\ Forall (fun t => now w <= t <= now w') ts /\
  StronglySorted Z.le ts.
Proof.
  revert w. induction cs as [| c cs IH]; intros w Hw.
  { cbn [run_calls]. split; [exact Hw |]. split; [lia |]. split; constructor. }
  destruct (advance_ok w Hw) as [Hw' Hn]. specialize (IH _ Hw').
  destruct c; cbn [run_calls timer_get tpm_get tpm_getLastUpdated world_hw fst snd];
    destruct (run_calls cs (advance w)) as [ts w']; destruct IH as (H1 & H2 & H3 & H4);
    (split; [exact H1 |]; split; [lia |]).
  - split; constructor; [lia | | exact H4 |]; (eapply Forall_impl; [exact H3 | cbn beta; lia]).
  - split; [| exact H4]. eapply Forall_impl; [exact H3 | cbn beta; lia].
  - split; [| exact H4]. eapply Forall_impl; [exact H3 | cbn beta; lia].
Qed.

(** C10.  Timestamps over the life of the server: however the calls of all queries
    interleave with the watcher's updates and the passing of time, the clock
    readings handed out are in ascending order, the cached device ID always
    has 16 bytes, its last-update time is never in the future, and the watcher's
    thread meets no undefined behaviour. *)
Theorem readings_ordered cs w ts w' :
  world_ok w -> run_calls cs w = (ts, w') ->
  StronglySorted Z.le ts /\ length (deviceID (w_cache w')) = 16%nat /\
  0 <= lastUpdated (w_cache w') <= now w' /\ w_undefined w' = false.
Proof.
  intros Hw E. pose proof (run_calls_ok cs w Hw) as H. rewrite E in H.
  destruct H as (Hok & _ & _ & Hs).
  split; [exact Hs |]. split; [exact (wo_id _ Hok) |].
  split; [exact (wo_updated _ Hok) | exact (wo_defined _ Hok)].
Qed.

(** A world with the timer and the TPM of the samples, in which one update
    happens after the second call. *)
Definition sample_world : World :=
  mkWorld sample_timer construct 5000
    [EnvStep 2400 None None; EnvStep 2400 None None; EnvStep 2400 (Some sample_tss) None;
     EnvStep 2400 None (Some (8, 1004)); EnvStep 2400 None None] false.

Lemma sample_world_ok : world_ok sample_world.
Proof.
  constructor.
  - exact sample_timer_wf.
  - reflexivity.
  - by repeat constructor.
  - vm_compute. discriminate.
  - split; [vm_compute; by split |]. vm_compute. reflexivity.
  - repeat constructor; try (vm_compute; discriminate). exact sample_tss_sane.
  - vm_compute. split; discriminate.
  - reflexivity.
Qed.

Lemma readings_ordered_witness :
  StronglySorted Z.le
    (run_calls [CallTimer; CallId; CallTimer; CallLastUpdated; CallTimer] sample_world).1 /\
  length (deviceID (w_cache
    (run_calls [CallTimer; CallId; CallTimer; CallLastUpdated; CallTimer] sample_world).2)) = 16%nat /\
  0 <= lastUpdated (w_cache
    (run_calls [CallTimer; CallId; CallTimer; CallLastUpdated; CallTimer] sample_world).2) <=
    now (run_calls [CallTimer; CallId; CallTimer; CallLastUpdated; CallTimer] sample_world).2 /\
  w_undefined (run_calls [CallTimer; CallId; CallTimer; CallLastUpdated; CallTimer] sample_world).2 = false.
Proof.
  apply (readings_ordered [CallTimer; CallId; CallTimer; CallLastUpdated; CallTimer] sample_world).
  - exact sample_world_ok.
  - vm_compute. reflexivity.
Defined.
