(* ===== verification/Responder.v ===== *)
(** * src/src/responder.cpp: class Responder

    The server's socket list and its three operations per round: accepting
    clients, serving the connections, waiting.  What the socket calls answer is
    an argument of the operation that makes them; every descriptor opened or
    closed and every message sent is recorded in a trace.  The message builder
    is the interface [ReplyService].  A process exit is [Ret]. *)

From S2P Require Import Prelude Memory Hardware.

Local Open Scope Z_scope.

Definition maxSizeOfMessage : Z := 61440.
Definition EXIT_FAILURE : Z := 1.

(** ** The message builder as the responder sees it *)

Class ReplyService (W : Type) := {
  (* createResponse(query, querySize, responseBuffer, maxResponseSize) *)
  serve : list Z -> Z -> list Z -> Z -> W -> outcome Z * bufst W;
}.

(** What it promises: it returns, with -1 or a positive size within the limit,
    and writes nothing beyond the buffer it is given. *)
Class ReplyServiceLaws (W : Type) `{HwLaws W} `{ReplyService W} := {
  serve_ok query qs buf limit w :
    hw_ok w -> bytes query -> 22 <= zlen query -> 0 <= qs <= zlen query -> qs < 2 ^ 31 ->
    0 <= limit < 2 ^ 32 -> limit <= zlen buf ->
    exists n buf' w', serve query qs buf limit w = (Val n, BufSt w' buf') /\
      hw_ok w' /\ length buf' = length buf /\ (n = -1 \/ 0 < n <= limit);
}.

(** ** What the operating system answers *)

(** accept() on the server socket, and fcntl() on the new connection. *)
Inductive accept_answer :=
  | WouldBlockAccept                       (* EAGAIN, EWOULDBLOCK *)
  | ConnectionAborted                      (* ECONNABORTED *)
  | AcceptFailed                           (* any other error *)
  | AcceptedConnection (fd : Z) (fcntl_ok : bool).

(** recv(): the bytes stored (none: the peer closed), or an error. *)
Inductive recv_answer :=
  | Received (data : list Z)
  | WouldBlock                             (* -1 with EAGAIN, EWOULDBLOCK *)
  | ReceiveFailed.                         (* -1 with another errno *)

Definition recvResult (a : recv_answer) : Z :=
  match a with Received data => zlen data | _ => -1 end.

(** A connection during one round: the answer of the k-th recv() of [n] bytes,
    and what send() returns for a message. *)
Record connection := Connection {
  recv : nat -> Z -> recv_answer;
  send : list Z -> Z;
}.

(** ** The object *)

Inductive net_event :=
  | Opened (fd : Z)
  | Closed (fd : Z)
  | Sent (fd : Z) (message : list Z)
  | AllocatedAddrinfo                      (* the list getaddrinfo() returns *)
  | FreedAddrinfo
  | Bound (fd : Z) (address : list Z).

Record Responder (W : Type) := mkResponder {
  ip : list Z;
  port : list Z;
  maxConnections : Z;           (* int *)
  sockets : list Z;             (* the fd of each pollfd; all wait for POLLIN *)
  recvBuffer : list Z;
  sendBuffer : list Z;
  trace : list net_event;
  world : W;
}.
Arguments mkResponder {W} _ _ _ _ _ _ _ _.
Arguments ip {W} _.
Arguments port {W} _.
Arguments maxConnections {W} _.
Arguments sockets {W} _.
Arguments recvBuffer {W} _.
Arguments sendBuffer {W} _.
Arguments trace {W} _.
Arguments world {W} _.

Section Responder.
Context {W : Type} `{HwAccess W} `{TimeSource W} `{ReplyService W}.
Implicit Types (r : Responder W).

Definition set_sockets (s : list Z) r : Responder W :=
  mkResponder (ip r) (port r) (maxConnections r) s (recvBuffer r) (sendBuffer r) (trace r) (world r).
Definition set_world (w : W) r : Responder W :=
  mkResponder (ip r) (port r) (maxConnections r) (sockets r) (recvBuffer r) (sendBuffer r) (trace r) w.
Definition log (es : list net_event) r : Responder W :=
  mkResponder (ip r) (port r) (maxConnections r) (sockets r) (recvBuffer r) (sendBuffer r) (trace r ++ es) (world r).

(** ** setupServer() *)

(** What a library function sees of a string passed with c_str(). *)
Fixpoint c_str (s : list Z) : list Z :=
  match s with
  | [] => []
  | c :: s => if c =? 0 then [] else c :: c_str s
  end.

(** The answers: getaddrinfo() for a node and a service ([None] on error, or
    the addresses of the list it allocates, none being the null pointer),
    socket() (-1 on error), and whether fcntl(), setsockopt(), bind() to an
    address and listen() succeed. *)
Record setup_answers := {
  getaddrinfo : list Z -> list Z -> option (list (list Z));
  socket_fd : Z;
  fcntl_ok : bool;
  setsockopt_ok : bool;
  bind_ok : list Z -> bool;
  listen_ok : bool;
}.

Definition setupServer (a : setup_answers) r : bool * Responder W :=
  match getaddrinfo a (c_str (ip r)) (c_str (port r)) with
  | None => (false, r)
  | Some [] => (false, r)
  | Some (ai_addr :: ai_next) =>              (* ai_next is only logged *)
      let r := log [AllocatedAddrinfo] r in
      let serverSocket := socket_fd a in
      if serverSocket =? -1 then (false, log [FreedAddrinfo] r)
      else
        let r := log [Opened serverSocket] r in
        if negb (fcntl_ok a) then (false, log [Closed serverSocket; FreedAddrinfo] r)
        else (* setsockopt_ok is only logged *)
        if negb (bind_ok a ai_addr) then (false, log [Closed serverSocket; FreedAddrinfo] r)
        else
          let r := log [Bound serverSocket ai_addr] r in
          if negb (listen_ok a) then (false, log [Closed serverSocket; FreedAddrinfo] r)
          else
            let r := log [FreedAddrinfo] r in
            (true, set_sockets (sockets r ++ [serverSocket]) r)
  end.

(** ** acceptNewClients() *)

(** [sockets.size() > maxConnections] compares as [size_t]. *)
Definition limitReached r : bool := zlen (sockets r) >? u64 (maxConnections r).

(** The loop over the answers of accept().  It leaves the loop by EAGAIN or by
    an error only: with the answers used up it would call accept() again, which
    is [NoFuel]. *)
Fixpoint acceptLoop (answers : list accept_answer) r : outcome (Responder W) :=
  match answers with
  | [] => NoFuel
  | WouldBlockAccept :: _ => Val r
  | ConnectionAborted :: answers => acceptLoop answers r
  | AcceptFailed :: _ => Ret EXIT_FAILURE
  | AcceptedConnection fd fcntl_ok :: answers =>
      if limitReached r then acceptLoop answers (log [Opened fd; Closed fd] r)
      else if negb fcntl_ok then acceptLoop answers (log [Opened fd; Closed fd] r)
      else acceptLoop answers (set_sockets (sockets r ++ [fd]) (log [Opened fd] r))
  end.

Definition acceptNewClients (answers : list accept_answer) r : outcome (Responder W) :=
  match sockets r with
  | [] => Ret EXIT_FAILURE
  | _ :: _ => acceptLoop answers r
  end.

(** ** handleQueriesAndCleanUpConnections() *)

(** What recv() stores at [recvBuffer + recvSize]. *)
Definition store (a : recv_answer) (recvSize : Z) (buf : list Z) : outcome (list Z) :=
  match a with
  | Received data =>
      if zlen buf <? recvSize + zlen data then Undef
      else Val (splice buf (Z.to_nat recvSize) data)
  | _ => Val buf
  end.

(** Lines 205-209; [k] counts the calls, [a] is the answer of the last one. *)
Fixpoint recvLoop (fuel : nat) (c : connection) (k : nat) (a : recv_answer) (recvSize : Z)
    (buf : list Z) : outcome (recv_answer * Z * list Z) :=
  if (recvResult a >? 0) && (recvSize <? maxSizeOfMessage) then
    match fuel with
    | O => NoFuel
    | S fuel =>
        let recvSize := recvSize + recvResult a in
        let a := recv c (S k) (maxSizeOfMessage - recvSize) in
        buf ← store a recvSize buf;
        recvLoop fuel c (S k) a recvSize buf
    end
  else Val (a, recvSize, buf).

(** Lines 199-209: what has arrived on a connection. *)
Definition receive (c : connection) (buf : list Z) : outcome (recv_answer * Z * list Z) :=
  let a := recv c 0 maxSizeOfMessage in
  buf ← store a 0 buf;
  recvLoop (Z.to_nat maxSizeOfMessage) c 0 a 0 buf.

(** Lines 235-278: the reply to [recvSize] received bytes; whether the
    connection is kept. *)
Definition respond (c : connection) (fd recvSize : Z) r : outcome (bool * Responder W) :=
  match serve (recvBuffer r) recvSize (sendBuffer r) maxSizeOfMessage (world r) with
  | (Val sendSize, BufSt w buf) =>
      let r := mkResponder (ip r) (port r) (maxConnections r) (sockets r) (recvBuffer r) buf (trace r) w in
      if sendSize =? -1 then Val (false, log [Closed fd] r)
      else
        message ← rd_range buf 0 sendSize;
        if send c message =? sendSize then Val (true, log [Sent fd message] r)
        else Val (false, log [Sent fd message; Closed fd] r)
  | (Ret v, _) => Ret v
  | (Undef, _) => Undef
  | (NoFuel, _) => NoFuel
  end.

(** Lines 197-278: one connection. *)
Definition handleConnection (c : connection) (fd : Z) r : outcome (bool * Responder W) :=
  '(a, recvSize, buf) ← receive c (recvBuffer r);
  let r := mkResponder (ip r) (port r) (maxConnections r) (sockets r) buf (sendBuffer r) (trace r) (world r) in
  match a with
  | Received [] => Val (false, log [Closed fd] r)
  | ReceiveFailed => Val (false, log [Closed fd] r)
  | _ => if recvSize =? 0 then Val (true, r) else respond c fd recvSize r
  end.

(** The loop over the sockets behind the iterator; [kept] are those before it. *)
Fixpoint handleLoop (net : Z -> connection) (kept rest : list Z) r : outcome (Responder W) :=
  let '(v, w) := timer_getValid (world r) in
  let r := set_world w r in
  match rest with
  | [] => Val (set_sockets kept r)
  | fd :: rest' =>
      if negb v then Val (set_sockets (kept ++ rest) r)
      else
        '(keep, r) ← handleConnection (net fd) fd r;
        handleLoop net (if (keep : bool) then kept ++ [fd] else kept) rest' r
  end.

Definition handleQueriesAndCleanUpConnections (net : Z -> connection) r : outcome (Responder W) :=
  match sockets r with
  | [] => Ret EXIT_FAILURE
  | serverSocket :: clients => handleLoop net [serverSocket] clients r
  end.

(** ** waitForSocketActivity() *)

Definition waitForSocketActivity (poll_ok : bool) r : outcome (Responder W) :=
  if negb poll_ok then Ret EXIT_FAILURE else Val r.

(** ** start() *)

(** What happens during one round of the main loop. *)
Record round := Round {
  accepts : list accept_answer;
  net : Z -> connection;
  poll_ok : bool;
}.

(** The body of the main loop (lines 30-34). *)
Definition serveRound (rd : round) r : outcome (Responder W) :=
  r ← acceptNewClients (accepts rd) r;
  r ← handleQueriesAndCleanUpConnections (net rd) r;
  waitForSocketActivity (poll_ok rd) r.

(** Lines 37-44. *)
Definition shutDown r : Responder W :=
  set_sockets [] (log (map Closed (sockets r)) r).

(** Where [start] is: in its first loop, in its endless sleep, or exited. *)
Inductive server :=
  | Serving r
  | Sleeping r
  | Exited (code : Z).

(** One step of it, in an environment that allows the rounds [env]. *)
Inductive step (env : round -> Prop) : server -> server -> Prop :=
  | step_round r w rd r' :
      env rd -> timer_getValid (world r) = (true, w) ->
      serveRound rd (set_world w r) = Val r' ->
      step env (Serving r) (Serving r')
  | step_exit r w rd code :
      env rd -> timer_getValid (world r) = (true, w) ->
      serveRound rd (set_world w r) = Ret code ->
      step env (Serving r) (Exited code)
  | step_invalid r w :
      timer_getValid (world r) = (false, w) ->
      step env (Serving r) (Sleeping (shutDown (set_world w r)))
  | step_sleep r : step env (Sleeping r) (Sleeping r).
End Responder.
Arguments server : clear implicits.
