(* ===== verification/ResponderSpec.v ===== *)
(** * The responder's invariant and what a round does

    Proved against the interfaces [ReplyService] and [TimeSource] only. *)

From S2P Require Import Prelude Memory Hardware Responder.
From stdpp Require Import relations.

Local Open Scope Z_scope.

(** ** Receiving *)

(** recv() stores at most what it is asked for. *)
Definition recv_ok (c : connection) : Prop :=
  forall k n, 0 <= n ->
    match recv c k n with Received data => zlen data <= n /\ bytes data | _ => True end.

(** The data of the first calls is [chunks], if the buffer has room for them;
    then nothing more has arrived. *)
Definition delivers (chunks : list (list Z)) (c : connection) : Prop :=
  forall k n, recv c k n =
    match chunks !! k with
    | Some d => Received (take (Z.to_nat n) d)
    | None => WouldBlock
    end.

Lemma store_ok a recvSize buf :
  0 <= recvSize -> recvSize + Z.max 0 (recvResult a) <= zlen buf ->
  store a recvSize buf =
    Val (match a with Received data => splice buf (Z.to_nat recvSize) data | _ => buf end).
Proof.
  intros H0 Hl. unfold store. destruct a as [data | |]; try done. cbn [recvResult] in Hl.
  by destruct (Z.ltb_spec (zlen buf) (recvSize + zlen data)); [lia |].
Qed.

(** A buffer of bytes of the responder's size. *)
Definition buffer_ok (buf : list Z) : Prop := bytes buf /\ zlen buf = maxSizeOfMessage.

Lemma store_buffer_ok a recvSize buf :
  buffer_ok buf -> 0 <= recvSize -> recvSize + Z.max 0 (recvResult a) <= maxSizeOfMessage ->
  match a with Received data => bytes data | _ => True end ->
  buffer_ok (match a with Received data => splice buf (Z.to_nat recvSize) data | _ => buf end).
Proof.
  intros [Hb Hl] H0 Hle Ha. destruct a as [data | |]; try done. cbn [recvResult] in Hle.
  pose proof (zlen_nonneg data). split.
  - unfold splice. repeat (apply Forall_app; split); try done; [by apply Forall_take | by apply Forall_drop].
  - unfold zlen in *. rewrite length_splice; [done |]. lia.
Qed.

(** The answer of the last recv() is an error or an end of data. *)
Definition last_answer (a : recv_answer) : Prop :=
  match a with Received data => data = [] | _ => True end.

Lemma recvLoop_ok fuel c k a recvSize buf :
  recv_ok c -> buffer_ok buf -> 0 <= recvSize ->
  recvSize + Z.max 0 (recvResult a) <= maxSizeOfMessage ->
  maxSizeOfMessage - recvSize <= Z.of_nat fuel ->
  (recvSize = maxSizeOfMessage -> recvResult a <= 0) ->
  exists a' n buf', recvLoop fuel c k a recvSize buf = Val (a', n, buf') /\
    last_answer a' /\ 0 <= n <= maxSizeOfMessage /\ buffer_ok buf'.
Proof.
  intros Hc. revert k a recvSize buf. induction fuel as [| fuel IH];
    intros k a recvSize buf Hb H0 Hle Hf Hz; cbn [recvLoop];
    destruct (Z.gtb_spec (recvResult a) 0) as [Hp | Hp], (Z.ltb_spec recvSize maxSizeOfMessage) as [Hs | Hs];
    cbn [andb]; try lia.
  1, 3, 4: eexists _, _, _; (split; [reflexivity |]); (split; [| split; [lia | done]]);
    destruct a as [[| x data] | |]; try done; cbn in Hp; unfold zlen in Hp; cbn in Hp; lia.
  - set (n := recvSize + recvResult a) in *.
    assert (recv_ok c) as Hc' by done. specialize (Hc' (S k) (maxSizeOfMessage - n) ltac:(lia)).
    set (a' := recv c (S k) (maxSizeOfMessage - n)) in *.
    assert (n + Z.max 0 (recvResult a') <= maxSizeOfMessage) as Hle'
      by (destruct a'; cbn [recvResult]; lia).
    pose proof Hb as [_ Hbl]. rewrite store_ok by lia. cbn [mbind outcome_bind].
    apply IH; try lia. apply store_buffer_ok; try done; try lia. destruct a'; [apply Hc' | done ..].
Qed.

Lemma receive_ok c buf :
  recv_ok c -> buffer_ok buf ->
  exists a n buf', receive c buf = Val (a, n, buf') /\
    last_answer a /\ 0 <= n <= maxSizeOfMessage /\ buffer_ok buf'.
Proof.
  intros Hc Hb. unfold receive. pose proof (Hc 0%nat maxSizeOfMessage ltac:(done)) as Ha.
  set (a := recv c 0 maxSizeOfMessage) in *.
  assert (0 + Z.max 0 (recvResult a) <= maxSizeOfMessage) as Hle
    by (destruct a; cbn [recvResult]; unfold maxSizeOfMessage in *; lia).
  pose proof Hb as [_ Hbl]. rewrite store_ok by lia. cbn [mbind outcome_bind].
  apply recvLoop_ok; try done; try lia.
  apply (store_buffer_ok a 0); try done. destruct a; [apply Ha | done ..].
Qed.

Lemma recvLoop_step fuel c k d recvSize buf :
  d <> [] -> recvSize < maxSizeOfMessage ->
  recvLoop (S fuel) c k (Received d) recvSize buf =
    (let n := recvSize + zlen d in
     let a := recv c (S k) (maxSizeOfMessage - n) in
     buf ← store a n buf;
     recvLoop fuel c (S k) a n buf).
Proof.
  intros Hd Hs. cbn [recvLoop recvResult].
  destruct (Z.gtb_spec (zlen d) 0); [| destruct d; [done | unfold zlen in *; cbn in *; lia]].
  by destruct (Z.ltb_spec recvSize maxSizeOfMessage); [| lia].
Qed.

(** Data that arrives in pieces ends up in the buffer as one. *)
Lemma recvLoop_delivers fuel c pre d rest buf :
  delivers (pre ++ d :: rest) c -> Forall (fun x => x <> []) (d :: rest) ->
  zlen (concat (pre ++ d :: rest)) < maxSizeOfMessage -> zlen buf = maxSizeOfMessage ->
  (length rest < fuel)%nat ->
  recvLoop fuel c (length pre) (Received d) (zlen (concat pre)) (splice buf 0 (concat (pre ++ [d]))) =
    Val (WouldBlock, zlen (concat (pre ++ d :: rest)), splice buf 0 (concat (pre ++ d :: rest))).
Proof.
  revert pre d fuel. induction rest as [| d' rest IH]; intros pre d fuel Hc Hne Hl Hb Hf;
    (destruct fuel as [| fuel]; [lia |]); apply Forall_cons in Hne as [Hd Hne];
    rewrite !concat_app in *; cbn [concat] in *; rewrite !zlen_app in Hl;
    pose proof (zlen_nonneg (concat pre)); pose proof (zlen_nonneg d).
  - rewrite zlen_nil in Hl. rewrite recvLoop_step by (done || lia). cbn zeta. rewrite (Hc (S (length pre))).
    rewrite lookup_app_r, Nat.sub_succ_l, Nat.sub_diag by lia. cbn [lookup list_lookup store mbind outcome_bind].
    replace (recvLoop fuel c (S (length pre)) WouldBlock) with
      (fun n b => Val (A := recv_answer * Z * list Z) (WouldBlock, n, b)) by (by destruct fuel).
    by rewrite !app_nil_r, zlen_app.
  - pose proof (zlen_nonneg (concat rest)). pose proof (zlen_nonneg d').
    rewrite recvLoop_step by (done || lia). cbn zeta. rewrite (Hc (S (length pre))).
    rewrite app_nil_r.
    rewrite lookup_app_r, Nat.sub_succ_l, Nat.sub_diag by lia. cbn [lookup list_lookup].
    rewrite take_ge by (unfold zlen in *; lia).
    assert (zlen (splice buf 0 (concat pre ++ d)) = maxSizeOfMessage) as Hsl.
    { unfold zlen in *. rewrite length_splice; [lia |]. rewrite length_app. lia. }
    rewrite store_ok by (cbn [recvResult]; lia). cbn [mbind outcome_bind].
    replace (splice (splice buf 0 (concat pre ++ d)) (Z.to_nat (zlen (concat pre) + zlen d)) d')
      with (splice buf 0 (concat ((pre ++ [d]) ++ [d']))).
    2: { rewrite !concat_app. cbn [concat]. rewrite !app_nil_r.
      replace (Z.to_nat (zlen (concat pre) + zlen d)) with (0 + length (concat pre ++ d))%nat
        by (rewrite length_app; unfold zlen; lia).
      rewrite splice_app; [done |]. rewrite length_app. unfold zlen in *. lia. }
    specialize (IH (pre ++ [d]) d' fuel). rewrite length_app, Nat.add_1_r in IH.
    replace (zlen (concat (pre ++ [d]))) with (zlen (concat pre) + zlen d) in IH
      by (rewrite concat_app, zlen_app; cbn [concat]; by rewrite app_nil_r).
    rewrite <- (app_assoc pre [d] (d' :: rest)) in IH. cbn [app] in IH. rewrite IH; try done.
    + rewrite concat_app. done.
    + rewrite concat_app, !zlen_app. cbn [concat]. rewrite !zlen_app. lia.
    + cbn in Hf. lia.
Qed.

Lemma receive_delivers c chunks buf :
  delivers chunks c -> Forall (fun x => x <> []) chunks ->
  zlen (concat chunks) < maxSizeOfMessage -> zlen buf = maxSizeOfMessage ->
  receive c buf = Val (WouldBlock, zlen (concat chunks), splice buf 0 (concat chunks)).
Proof.
  intros Hc Hne Hl Hb. unfold receive. rewrite (Hc 0%nat). destruct chunks as [| d rest].
  { cbn [lookup list_lookup store mbind outcome_bind concat]. rewrite splice_nil.
    by destruct (Z.to_nat maxSizeOfMessage). }
  cbn [lookup list_lookup]. cbn [concat] in *. rewrite zlen_app in Hl.
  pose proof (zlen_nonneg (concat rest)).
  rewrite take_ge by (unfold zlen in *; lia).
  rewrite store_ok by (cbn [recvResult]; pose proof (zlen_nonneg d); lia). cbn [mbind outcome_bind].
  pose proof (recvLoop_delivers (Z.to_nat maxSizeOfMessage) c [] d rest buf Hc Hne) as E.
  cbn [app concat length] in E. rewrite app_nil_r in E. apply E; [by rewrite zlen_app | done |].
  apply Forall_cons in Hne as [_ Hne].
  assert (Z.of_nat (length rest) <= zlen (concat rest)).
  { clear -Hne. induction Hne as [| x l Hx Hl IH]; [done |]. cbn [length concat]. rewrite zlen_app.
    assert (1 <= zlen x) by (destruct x; [done | unfold zlen; cbn; lia]). lia. }
  pose proof (zlen_nonneg d). lia.
Qed.

(** ** Descriptors *)

(** The descriptors open after a trace.  [Reused]: the kernel handed out one
    that was open; [Misused]: the server closed or used one that was not. *)
Inductive fd_state := Fds (open : list Z) | Reused | Misused.

Fixpoint run_fds (open : list Z) (tr : list net_event) : fd_state :=
  match tr with
  | [] => Fds open
  | Opened fd :: tr => if decide (fd ∈ open) then Reused else run_fds (fd :: open) tr
  | Closed fd :: tr =>
      if decide (fd ∈ open) then run_fds (filter (fun x => x <> fd) open) tr else Misused
  | Sent fd _ :: tr => if decide (fd ∈ open) then run_fds open tr else Misused
  | Bound fd _ :: tr => if decide (fd ∈ open) then run_fds open tr else Misused
  | AllocatedAddrinfo :: tr => run_fds open tr
  | FreedAddrinfo :: tr => run_fds open tr
  end.

(** The address lists allocated after a trace; [None] when one is freed or
    read (by bind()) that was not there. *)
Fixpoint run_addrinfo (lists : nat) (tr : list net_event) : option nat :=
  match tr with
  | [] => Some lists
  | AllocatedAddrinfo :: tr => run_addrinfo (S lists) tr
  | FreedAddrinfo :: tr => match lists with O => None | S n => run_addrinfo n tr end
  | Bound _ _ :: tr => match lists with O => None | S _ => run_addrinfo lists tr end
  | _ :: tr => run_addrinfo lists tr
  end.

Lemma run_fds_app open a b :
  run_fds open (a ++ b) = match run_fds open a with Fds l => run_fds l b | s => s end.
Proof.
  revert open. induction a as [| [] a IH]; intros open; cbn; try done;
    try case_decide; try done; apply IH.
Qed.

(** The open descriptors are those of the socket list, each once. *)
Definition fds_ok (tr : list net_event) (socks : list Z) : Prop :=
  run_fds [] tr = Reused \/
  exists l, run_fds [] tr = Fds l /\ l ≡ₚ socks /\ NoDup l.

Lemma fds_ok_step tr socks es socks' :
  fds_ok tr socks ->
  (forall l, l ≡ₚ socks -> NoDup l ->
     run_fds l es = Reused \/ exists l', run_fds l es = Fds l' /\ l' ≡ₚ socks' /\ NoDup l') ->
  fds_ok (tr ++ es) socks'.
Proof.
  unfold fds_ok. rewrite run_fds_app. intros [-> | (l & -> & Hp & Hn)] Hs; [by left | by apply Hs].
Qed.

Lemma fds_ok_open tr socks fd : fds_ok tr socks -> fds_ok (tr ++ [Opened fd]) (socks ++ [fd]).
Proof.
  intros H. apply (fds_ok_step _ _ _ _ H). intros l Hp Hn. cbn. case_decide; [by left | right].
  eexists. split; [done |]. split; [by rewrite Hp, Permutation_app_comm | by constructor].
Qed.

Lemma filter_neq_perm (fd : Z) l a b :
  NoDup l -> l ≡ₚ a ++ fd :: b -> filter (fun x => x <> fd) l ≡ₚ a ++ b.
Proof.
  intros Hn Hp. rewrite Hp in Hn |- *. rewrite <- Permutation_middle in *.
  apply NoDup_cons in Hn as [Hni _]. rewrite filter_cons_False by naive_solver.
  rewrite filter_all; [done |]. apply Forall_forall. intros x Hx ->. done.
Qed.

Lemma run_fds_close (fd : Z) l a b :
  l ≡ₚ a ++ fd :: b -> NoDup l ->
  exists l', run_fds l [Closed fd] = Fds l' /\ l' ≡ₚ a ++ b /\ NoDup l'.
Proof.
  intros Hp Hn. cbn. rewrite decide_True by (rewrite Hp; set_solver).
  eexists. split; [done |]. split; [by apply filter_neq_perm | by apply NoDup_filter].
Qed.

Lemma fds_ok_close tr a fd b :
  fds_ok tr (a ++ fd :: b) -> fds_ok (tr ++ [Closed fd]) (a ++ b).
Proof. intros H. apply (fds_ok_step _ _ _ _ H). intros l Hp Hn. right. by apply run_fds_close. Qed.

Lemma fds_ok_sent tr a fd b m :
  fds_ok tr (a ++ fd :: b) -> fds_ok (tr ++ [Sent fd m]) (a ++ fd :: b).
Proof.
  intros H. apply (fds_ok_step _ _ _ _ H). intros l Hp Hn. right. cbn.
  rewrite decide_True by (rewrite Hp; set_solver). by eexists.
Qed.

(** A descriptor opened and closed at once. *)
Lemma fds_ok_refused tr socks fd : fds_ok tr socks -> fds_ok (tr ++ [Opened fd; Closed fd]) socks.
Proof.
  intros H. apply (fds_ok_open _ _ fd), (fds_ok_close _ socks fd []) in H.
  by rewrite app_nil_r, <- app_assoc in H.
Qed.

Lemma fds_ok_all tr socks : fds_ok tr socks -> fds_ok (tr ++ map Closed socks) [].
Proof.
  revert tr. induction socks as [| fd socks IH]; intros tr H; [by rewrite app_nil_r |].
  cbn [map]. apply (fds_ok_close tr [] fd socks) in H. apply IH in H.
  by rewrite <- app_assoc in H.
Qed.

(** ** The invariant *)

Section Invariant.
Context {W : Type} `{TimeSourceLaws W} `{!ReplyService W} `{!ReplyServiceLaws W}.
Implicit Types (r : Responder W).

(** What holds of the object but for its socket list: buffers of the fixed size
    and the state of the hardware. *)
Record core_ok r : Prop := {
  co_recv : buffer_ok (recvBuffer r);
  co_send : zlen (sendBuffer r) = maxSizeOfMessage;
  co_world : hw_ok (world r);
}.

(** Between two operations of the main loop: the list starts with the server
    socket, holds exactly the open descriptors, and at most the configured
    number of connections besides the server socket. *)
Record inv (serverSocket : Z) r : Prop := {
  inv_core : core_ok r;
  inv_server : head (sockets r) = Some serverSocket;
  inv_fds : fds_ok (trace r) (sockets r);
  inv_limit : 0 <= maxConnections r < 2 ^ 31 -> zlen (sockets r) <= maxConnections r + 1;
}.

(** An answer on which the loop over accept() ends. *)
Definition ends_accept (a : accept_answer) : Prop :=
  match a with WouldBlockAccept | AcceptFailed => True | _ => False end.

Lemma acceptLoop_ok s answers r :
  inv s r -> Exists ends_accept answers ->
  match acceptLoop answers r with
  | Val r' => inv s r' /\ maxConnections r' = maxConnections r /\ world r' = world r
  | Ret code => code = EXIT_FAILURE /\ AcceptFailed ∈ answers
  | _ => False
  end.
Proof.
  assert (forall (o : outcome (Responder W)) x l r r',
    maxConnections r' = maxConnections r -> world r' = world r ->
    match o with
    | Val r'' => inv s r'' /\ maxConnections r'' = maxConnections r' /\ world r'' = world r'
    | Ret code => code = EXIT_FAILURE /\ AcceptFailed ∈ l
    | _ => False
    end ->
    match o with
    | Val r'' => inv s r'' /\ maxConnections r'' = maxConnections r /\ world r'' = world r
    | Ret code => code = EXIT_FAILURE /\ AcceptFailed ∈ (x :: l)
    | _ => False
    end) as Hw.
  { intros [] x l r1 r2 Em Ew Ho; try done; rewrite ?Em, ?Ew in Ho; [done |].
    split; [apply Ho | right; apply Ho]. }
  revert r. induction answers as [| x answers IH]; intros r Hi Hex; [by apply Exists_nil in Hex |].
  apply Exists_cons in Hex. destruct x as [| | | fd ok]; cbn [acceptLoop ends_accept] in *; try done.
  - destruct Hex as [[] | Hex]. eapply Hw; [done | done | by apply IH].
  - split; [done | left].
  - destruct Hex as [[] | Hex]. pose proof Hi as [Hc Hs Hf Hl].
    assert (inv s (log [Opened fd; Closed fd] r)) as Hrefused.
    { constructor; [destruct Hc; by constructor | done | by apply fds_ok_refused | done]. }
    destruct (limitReached r) eqn:Hlim; [eapply Hw, IH, Hex; [done | done | exact Hrefused] |].
    destruct ok; cbn [negb]; [| eapply Hw, IH, Hex; [done | done | exact Hrefused]].
    eapply Hw, IH, Hex; [done .. |]. constructor; cbn; [destruct Hc; by constructor | | by apply fds_ok_open |].
    + by destruct (sockets r).
    + intros Hm. unfold limitReached in Hlim. rewrite u64_id in Hlim by (unfold is_u64; lia).
      rewrite zlen_app. change (zlen [fd]) with 1. lia.
Qed.

(** What serving one connection leaves in the trace. *)
Definition served (fd : Z) (keep : bool) (es : list net_event) : Prop :=
  es = (if keep then [] else [Closed fd]) \/
  exists m, es = Sent fd m :: (if keep then [] else [Closed fd]).

(** An operation on one connection: it comes back, with [P] of its result. *)
Definition connection_result (fd : Z) r (o : outcome (bool * Responder W)) : Prop :=
  exists keep r' es, o = Val (keep, r') /\ core_ok r' /\
    maxConnections r' = maxConnections r /\ sockets r' = sockets r /\
    trace r' = trace r ++ es /\ served fd keep es.

Lemma respond_ok c fd n r :
  core_ok r -> 0 <= n <= maxSizeOfMessage -> connection_result fd r (respond c fd n r).
Proof.
  intros [[Hb Hbl] Hs Hw] Hn. unfold respond, connection_result.
  destruct (serve_ok (recvBuffer r) n (sendBuffer r) maxSizeOfMessage (world r))
    as (m & buf & w & -> & Hw' & Hl & Hm); try done; rewrite ?Hbl, ?Hs; try lia;
    try (unfold maxSizeOfMessage in *; lia).
  assert (zlen buf = maxSizeOfMessage) as Hbuf by (unfold zlen in *; by rewrite Hl).
  destruct (Z.eqb_spec m (-1)) as [-> | Hne].
  { exists false. do 2 eexists. split; [done |]. repeat split; try done. by left. }
  rewrite rd_range_ok by lia. cbn [mbind outcome_bind].
  case_test; [exists true | exists false]; do 2 eexists; (split; [done |]);
    repeat split; try done; right; by eexists.
Qed.

Lemma handleConnection_ok c fd r :
  recv_ok c -> core_ok r -> connection_result fd r (handleConnection c fd r).
Proof.
  intros Hc Hr. unfold handleConnection.
  destruct (receive_ok c (recvBuffer r) Hc (co_recv r Hr)) as (a & n & buf & -> & Ha & Hn & Hb).
  cbn [mbind outcome_bind]. set (r1 := mkResponder _ _ _ _ buf _ _ _).
  assert (core_ok r1) as Hr1 by (destruct Hr; by constructor).
  assert (connection_result fd r1 (Val (false, log [Closed fd] r1))) as Hdrop.
  { exists false. do 2 eexists. split; [done |]. split; [destruct Hr1; by constructor |].
    repeat split; try done. by left. }
  assert (connection_result fd r1 (if n =? 0 then Val (true, r1) else respond c fd n r1)) as Hgo.
  { case_test; [| by apply respond_ok]. exists true, r1, []. rewrite app_nil_r.
    repeat split; try apply Hr1. by left. }
  destruct a as [[| x data] | |]; [exact Hdrop | exact Hgo | exact Hgo | exact Hdrop].
Qed.

Lemma fds_ok_served tr a fd b keep es :
  served fd keep es -> fds_ok tr (a ++ fd :: b) ->
  fds_ok (tr ++ es) ((if keep then a ++ [fd] else a) ++ b).
Proof.
  intros Hs Hf. replace ((if keep then a ++ [fd] else a) ++ b)
    with (if keep then a ++ fd :: b else a ++ b) by (destruct keep; [by rewrite <- app_assoc | done]).
  destruct Hs as [-> | [m ->]]; destruct keep.
  - by rewrite app_nil_r.
  - by apply fds_ok_close.
  - by apply fds_ok_sent.
  - apply (fds_ok_sent _ _ _ _ m), fds_ok_close in Hf. by rewrite <- app_assoc in Hf.
Qed.

(** The loop keeps a prefix of the list it has passed, in order. *)
Lemma handleLoop_ok (net : Z -> connection) kept rest r :
  (forall fd, recv_ok (net fd)) -> core_ok r -> fds_ok (trace r) (kept ++ rest) ->
  exists r' rest', handleLoop net kept rest r = Val r' /\ core_ok r' /\
    maxConnections r' = maxConnections r /\ sockets r' = kept ++ rest' /\ rest' `sublist_of` rest /\
    fds_ok (trace r') (sockets r').
Proof.
  intros Hn. revert kept r. induction rest as [| fd rest IH]; intros kept r Hr Hf; cbn [handleLoop];
    pose proof (timer_getValid_ok (world r) (co_world r Hr)) as Hw;
    destruct (timer_getValid (world r)) as [v w]; cbn [snd] in Hw;
    assert (core_ok (set_world w r)) as Hr1 by (destruct Hr; by constructor).
  { eexists _, []. rewrite app_nil_r in *. split; [done |]. split; [destruct Hr1; by constructor |].
    repeat split; done || constructor. }
  destruct v; cbn [negb].
  2: { eexists _, (fd :: rest). split; [done |]. split; [destruct Hr1; by constructor |].
    repeat split; done. }
  destruct (handleConnection_ok (net fd) fd (set_world w r) (Hn fd) Hr1)
    as (keep & r2 & es & -> & Hr2 & Hm & Hs & Ht & Hsv). cbn [mbind outcome_bind].
  destruct (IH (if keep then kept ++ [fd] else kept) r2 Hr2) as (r' & rest' & E & Hr' & Hm' & Hs' & Hsub & Hf').
  { rewrite Ht. apply (fds_ok_served _ kept fd rest); done. }
  exists r', (if keep then fd :: rest' else rest'). rewrite E. split; [done |]. split; [done |].
  split; [by rewrite Hm', Hm |]. split; [| split; [| done]].
  - rewrite Hs'. destruct keep; [by rewrite <- app_assoc | done].
  - destruct keep; [by apply sublist_skip | by apply sublist_cons].
Qed.

(** A round of system calls: accept() comes to an end (the connections that are
    waiting run out) and recv() keeps to the space it is given. *)
Record round_ok (rd : round) : Prop := {
  ro_accepts : Exists ends_accept (accepts rd);
  ro_net fd : recv_ok (net rd fd);
}.

(** A round of the main loop returns, and keeps the invariant, unless accept()
    or poll() failed for good. *)
Lemma serveRound_ok s rd r :
  round_ok rd -> inv s r ->
  match serveRound rd r with
  | Val r' => inv s r' /\ maxConnections r' = maxConnections r
  | Ret code => code = EXIT_FAILURE /\ (AcceptFailed ∈ accepts rd \/ poll_ok rd = false)
  | _ => False
  end.
Proof.
  intros Hrd Hi. unfold serveRound, acceptNewClients.
  assert (exists clients, sockets r = s :: clients) as [cl Hcl].
  { pose proof (inv_server s r Hi) as Hs. destruct (sockets r) as [| s' cl]; [done |].
    injection Hs as ->. by exists cl. }
  rewrite Hcl. pose proof (acceptLoop_ok s (accepts rd) r Hi (ro_accepts rd Hrd)) as Ha.
  destruct (acceptLoop (accepts rd) r) as [r1 | code | |]; cbn [mbind outcome_bind]; try done;
    [| destruct Ha; auto].
  destruct Ha as (Hi1 & Hm1 & _). destruct Hi1 as [Hc1 Hs1 Hf1 Hl1].
  unfold handleQueriesAndCleanUpConnections. destruct (sockets r1) as [| s1 cl1] eqn:Es; [done |].
  injection Hs1 as ->.
  destruct (handleLoop_ok (net rd) [s] cl1 r1 (ro_net rd Hrd) Hc1 Hf1)
    as (r2 & rest & -> & Hc2 & Hm2 & Hs2 & Hsub & Hf2). cbn [mbind outcome_bind].
  unfold waitForSocketActivity. destruct (poll_ok rd); cbn [negb]; [| by auto].
  split; [| congruence]. constructor; try done; [by rewrite Hs2 |].
  rewrite Hm2, Hs2. intros Hm. specialize (Hl1 Hm). apply sublist_length in Hsub.
  unfold zlen in *. cbn in *. lia.
Qed.

Lemma inv_set_world s r w : inv s r -> hw_ok w -> inv s (set_world w r).
Proof. intros [[Hr Hs Hw] Hh Hf Hl] Hw'. constructor; [by constructor | done ..]. Qed.

(** What holds of [start] wherever it is. *)
Definition server_ok (s : Z) (st : server W) : Prop :=
  match st with
  | Serving r => inv s r
  | Sleeping r => sockets r = [] /\ fds_ok (trace r) []
  | Exited code => code = EXIT_FAILURE
  end.

Lemma step_ok_server s st st' : server_ok s st -> step round_ok st st' -> server_ok s st'.
Proof.
  intros Hst Hs. destruct Hs as [r w rd r' Hrd Hv Hsv | r w rd code Hrd Hv Hsv | r w Hv | r]; cbn in *;
    try done;
    pose proof (timer_getValid_ok (world r) (co_world r (inv_core s r Hst))) as Hw; rewrite Hv in Hw.
  1, 2: pose proof (serveRound_ok s rd _ Hrd (inv_set_world s r w Hst Hw)) as Hr; rewrite Hsv in Hr;
    by destruct Hr.
  split; [done |]. apply fds_ok_all. by destruct Hst.
Qed.

Lemma rtc_ok_server s st st' : rtc (step round_ok) st st' -> server_ok s st -> server_ok s st'.
Proof. induction 1 as [| x y z Hxy _ IH]; [done |]. intros Hx. by apply IH, (step_ok_server s x). Qed.

(** C4.  The server's bookkeeping: in every state the main loop can reach, under
    whatever the sockets answer, the socket list starts with the server socket
    and is exactly the set of open descriptors, at most max_connections
    clients are connected, nothing is closed twice or used after it was
    closed; and when the time source has become invalid, every descriptor has
    been closed. *)
Theorem server_bookkeeping s r st :
  inv s r -> rtc (step round_ok) (Serving r) st ->
  match st with
  | Serving r' =>
      head (sockets r') = Some s /\ fds_ok (trace r') (sockets r') /\
      (0 <= maxConnections r' < 2 ^ 31 -> zlen (sockets r') <= maxConnections r' + 1)
  | Sleeping r' => sockets r' = [] /\ fds_ok (trace r') []
  | Exited code => code = EXIT_FAILURE
  end.
Proof.
  intros Hi Hs. assert (server_ok s st) as Hok by (by apply (rtc_ok_server s (Serving r))).
  destruct st; cbn in Hok; [| done ..]. by destruct Hok.
Qed.

(** C5.  The server never gets stuck: a round of socket calls in which the
    waiting connections run out is processed to its end, whatever the calls
    answer (every receive loop terminates within its buffer, every reply fits),
    and leaves the server serving with its invariant; or the process exits
    because accept() or poll() failed in this round; or no round is begun since
    the time source is invalid. *)
Theorem server_progress s r rd :
  inv s r -> round_ok rd ->
  match timer_getValid (world r) with
  | (true, w) =>
      (exists r', serveRound rd (set_world w r) = Val r' /\ inv s r' /\
         maxConnections r' = maxConnections r /\ step (eq rd) (Serving r) (Serving r')) \/
      serveRound rd (set_world w r) = Ret EXIT_FAILURE /\
      (AcceptFailed ∈ accepts rd \/ poll_ok rd = false) /\
      step (eq rd) (Serving r) (Exited EXIT_FAILURE)
  | (false, w) => step (eq rd) (Serving r) (Sleeping (shutDown (set_world w r)))
  end.
Proof.
  intros Hi Hrd. destruct (timer_getValid (world r)) as [v w] eqn:Hv.
  pose proof (timer_getValid_ok (world r) (co_world r (inv_core s r Hi))) as Hw. rewrite Hv in Hw.
  destruct v; [| by apply step_invalid].
  pose proof (serveRound_ok s rd _ Hrd (inv_set_world s r w Hi Hw)) as Hr.
  destruct (serveRound rd (set_world w r)) as [r' | code | |] eqn:E; try done.
  - left. exists r'. destruct Hr as [Hi' Hm]. repeat split; try done; try apply Hi'.
    by eapply step_round.
  - right. destruct Hr as [-> Hc]. split; [done |]. split; [done |]. by eapply step_exit.
Qed.

(** C21.  An invalid time source stops the service for good: the next check closes
    every socket, and from then on no state but the sleeping one follows, in
    which nothing is sent any more. *)
Theorem server_stops env r w st :
  timer_getValid (world r) = (false, w) -> step env (Serving r) st ->
  exists r', st = Sleeping r' /\ sockets r' = [] /\
    trace r' = trace r ++ map Closed (sockets r) /\
    forall st', rtc (step env) st st' -> st' = st.
Proof.
  intros Hv Hs. inversion Hs; subst; try congruence. eexists. repeat split.
  intros st' Hrtc. remember (Sleeping (shutDown (set_world w0 r))) as st eqn:E.
  induction Hrtc as [| x y z Hxy _ IH]; [done |]. subst x. inversion Hxy; subst. by apply IH.
Qed.

(** What [setupServer] promises: the address list is freed on every path, after
    its last use; on failure no descriptor stays open; on success the invariant
    of the main loop holds with the new socket, bound to the first address
    found for the configured host and port. *)
Definition setup_promise (a : setup_answers) r (result : bool * Responder W) : Prop :=
  let '(ok, r') := result in
  run_addrinfo 0 (trace r') = Some 0%nat /\
  if (ok : bool) then
    inv (socket_fd a) r' /\ maxConnections r' = maxConnections r /\ world r' = world r /\
    exists address rest,
      getaddrinfo a (c_str (ip r)) (c_str (port r)) = Some (address :: rest) /\
      Bound (socket_fd a) address ∈ trace r'
  else sockets r' = [] /\ fds_ok (trace r') [].

Lemma setupServer_ok a r :
  core_ok r -> sockets r = [] -> trace r = [] -> setup_promise a r (setupServer a r).
Proof using Type.
  intros Hc Hs Ht. clear -Hc Hs Ht. destruct r as [host service mx socks rb sb tr w]. cbn in Hs, Ht. subst socks tr.
  unfold setupServer, setup_promise. cbn [ip port].
  assert (fds_ok [] []) as Hnil by (right; exists []; repeat split; constructor).
  destruct (getaddrinfo a (c_str host) (c_str service)) as [[| address rest] |]; try (by repeat split).
  set (fd := socket_fd a).
  assert (forall es, es = [] \/ es = [Bound fd address] ->
    fds_ok (AllocatedAddrinfo :: Opened fd :: es ++ [Closed fd; FreedAddrinfo]) [] /\
    fds_ok (AllocatedAddrinfo :: Opened fd :: es ++ [FreedAddrinfo]) [fd]) as Hfds.
  { intros es Hes. split; right; [exists [] | exists [fd]];
      (split; [destruct Hes as [-> | ->]; cbn [run_fds app] | split; [done |]]);
      rewrite ?decide_False by set_solver; cbn [run_fds]; rewrite ?decide_True by left; cbn [run_fds];
      rewrite ?decide_True by left; cbn [run_fds];
      rewrite ?filter_cons_False by naive_solver; done || (repeat constructor; set_solver). }
  destruct (Hfds [] (or_introl eq_refl)) as [F1 _].
  destruct (Hfds _ (or_intror eq_refl)) as [F2 F3]. cbn [app] in F1, F2, F3.
  destruct (Z.eqb_spec fd (-1)); [by repeat split |].
  destruct (fcntl_ok a); cbn [negb]; [| by repeat split].
  destruct (bind_ok a address); cbn [negb]; [| by repeat split].
  destruct (listen_ok a); cbn [negb]; [| by repeat split].
  split; [done |]. split; [constructor |]; cbn; try done.
  - destruct Hc. by constructor.
  - unfold zlen. cbn. lia.
  - repeat split. exists address, rest. split; [done | set_solver].
Qed.

(** A negative max_connections removes the limit: compared as an unsigned
    64-bit number it is larger than any list of sockets. *)
Theorem negative_limit_disables r :
  - 2 ^ 31 <= maxConnections r < 0 -> zlen (sockets r) < 2 ^ 63 -> limitReached r = false.
Proof.
  intros Hm Hl. unfold limitReached, u64.
  replace (maxConnections r mod 2 ^ 64) with (maxConnections r + 2 ^ 64);
    [| rewrite <- (Z_mod_plus_full _ 1), Z.mod_small; lia].
  destruct (Z.gtb_spec (zlen (sockets r)) (maxConnections r + 2 ^ 64)); [lia | done].
Qed.

End Invariant.
