(* ===== verification/Server.v ===== *)
(** * The server: the responder with the message builder

    [MessageBuilder.createResponse] discharges the interface the responder is
    proved against, and the theorems on what a client sees of a connection. *)

From S2P Require Import Prelude Memory Protocol Hardware MessageBuilder MessageBuilderSpec.
From S2P Require Import Queries Concrete MessageBuilderTheorems Responder ResponderSpec.
From stdpp Require Import relations.

Local Open Scope Z_scope.

Section Server.
Context {W : Type} `{TimeSourceLaws W}.
Context (EVP_Q_digest : list Z -> option (list Z)).
Notation md5 := (computeMD5 EVP_Q_digest).

#[local] Instance builder_service : ReplyService W := {
  serve query qs buf limit w :=
    createResponse EVP_Q_digest (Some query) qs (Some buf) limit w;
}.

(** Making a reply keeps the hardware side in order. *)
Lemma body_readings_ok ts w : hw_ok w -> hw_ok (body_readings ts w).2.
Proof.
  intros Hw. unfold body_readings. destruct (timer_get_ok w Hw) as [_ Hw1].
  destruct (wants TimerTx ts); [destruct (timer_get w) as [tx w1]; cbn [snd] in Hw1; clear Hw; rename Hw1 into Hw |];
    [destruct (tpm_getLastUpdated_ok w1 Hw) as [_ Hw2] | destruct (tpm_getLastUpdated_ok w Hw) as [_ Hw2]];
    destruct (wants LastUpdated ts); try done; by destruct (tpm_getLastUpdated _).
Qed.

Lemma spec_reply_ok limit m w : hw_ok w -> hw_ok (spec_reply md5 limit m w).2.
Proof.
  intros Hw. destruct (timer_get w) as [rx w1] eqn:E1. destruct (tpm_get w1) as [dev w2] eqn:E2.
  destruct (first_readings _ _ _ _ _ Hw E1 E2) as (_ & _ & _ & Hw2).
  rewrite (spec_reply_answer _ _ _ _ _ _ _ _ E1 E2). unfold spec_answer.
  destruct (decode_query md5 m) as [[flags ts] |]; [| done].
  case_decide; [| by case_decide]. pose proof (body_readings_ok ts w2 Hw2).
  by destruct (body_readings ts w2) as [[tx lu] w3].
Qed.

Lemma builder_serves query qs buf limit w :
  hw_ok w -> bytes query -> 22 <= zlen query -> 0 <= qs <= zlen query -> qs < 2 ^ 31 ->
  0 <= limit < 2 ^ 32 -> limit <= zlen buf ->
  exists n buf' w', serve query qs buf limit w = (Val n, BufSt w' buf') /\
    hw_ok w' /\ length buf' = length buf /\ (n = -1 \/ 0 < n <= limit).
Proof.
  intros Hw Hb H22 Hqs Hint Hlim Hbuf.
  assert (call_ok query qs buf limit) as Hc
    by (constructor; try done; unfold is_i32, is_u32; lia).
  destruct (createResponse_refines EVP_Q_digest query qs buf limit w Hc Hw) as [buf' Hr].
  pose proof (spec_reply_ok limit (take (Z.to_nat qs) query) w Hw) as Hw'.
  destruct (spec_reply md5 limit (take (Z.to_nat qs) query) w) as [[m |] w'] eqn:Es;
    destruct Hr as (E & Hl & _).
  - exists (zlen m), buf', w'. do 3 (split; [done |]). right.
    apply spec_reply_signed in Es as (fl & ts & rts & dev & _ & Hd & Hs & Hsz & Hle);
      [| by apply Forall_take | done].
    apply signed_message in Hs as (d & _ & Hz & _); [| by left]. lia.
  - exists (-1), buf', w'. do 3 (split; [done |]). by left.
Qed.

#[local] Instance builder_service_laws : ReplyServiceLaws W.
Proof. constructor. exact builder_serves. Qed.

(** ** One connection *)

(** A message whose header names another size is no query. *)
Lemma decode_query_wrong_size flags ts m m' :
  query_ok flags ts -> query_of EVP_Q_digest flags ts = Some m ->
  take 22 m' = take 22 m -> zlen m' <> zlen m -> decode_query md5 m' = None.
Proof.
  intros [_ _ Hsz] Hm Ht Hl. unfold decode_query. destruct (header_flags m') as [fl |] eqn:Hf; [| done].
  exfalso. apply Hl. apply signed_query in Hm as (_ & _ & Hz & _ & _ & _ & Hh).
  pose proof (zlen_nonneg (encode_tlvs ts)). unfold header_flags in Hf. case_decide as Hr; [| done].
  assert (exists f, take 22 m' = header (zlen m') f) as [f Hh']
    by (repeat case_decide; by eauto).
  rewrite <- (header_size_field _ _ _ Hh' ltac:(unfold is_u32; lia)).
  rewrite <- (header_size_field _ _ _ Hh ltac:(unfold is_u32; lia)).
  replace (take 4 m') with (take 4 (take 22 m')) by (rewrite take_take; done).
  rewrite Ht, take_take. done.
Qed.

(** The state of the responder and of a connection on which [chunks] arrived. *)
Record arrived (r : Responder W) (c : connection) (chunks : list (list Z)) : Prop := {
  ar_core : core_ok r;
  ar_chunks : delivers chunks c;
  ar_nonempty : Forall (fun x => x <> []) chunks;
  ar_size : 0 < zlen (concat chunks) < maxSizeOfMessage;
  ar_bytes : bytes (concat chunks);
}.

(** Serving a connection is [createResponse] on what arrived. *)
Lemma handle_arrived r c fd chunks :
  arrived r c chunks ->
  let data := concat chunks in
  let buf := splice (recvBuffer r) 0 data in
  handleConnection c fd r =
    respond c fd (zlen data)
      (mkResponder (ip r) (port r) (maxConnections r) (sockets r) buf (sendBuffer r) (trace r) (world r)) /\
  call_ok buf (zlen data) (sendBuffer r) maxSizeOfMessage /\ take (Z.to_nat (zlen data)) buf = data.
Proof.
  intros [[[Hb Hbl] Hs Hw] Hd Hne Hsz Hbd] data buf. unfold handleConnection.
  rewrite (receive_delivers c chunks) by (done || lia). cbn [mbind outcome_bind].
  destruct (Z.eqb_spec (zlen (concat chunks)) 0); [lia |]. split; [done |].
  assert (zlen buf = maxSizeOfMessage) as Hl.
  { subst buf data. unfold zlen in *. rewrite length_splice; [done |]. lia. }
  split.
  - constructor; rewrite ?Hl, ?Hs; subst data; try (unfold is_i32, is_u32, maxSizeOfMessage in *; lia).
    unfold buf, splice. repeat (apply Forall_app; split); try done. by apply Forall_drop.
  - subst buf data. unfold zlen in *. rewrite Nat2Z.id. apply take_splice; [lia | done].
Qed.

Lemma respond_rejected c fd r buf n :
  call_ok (recvBuffer r) n (sendBuffer r) maxSizeOfMessage -> hw_ok (world r) ->
  take (Z.to_nat n) (recvBuffer r) = buf -> decode_query md5 buf = None ->
  exists r', respond c fd n r = Val (false, r') /\ trace r' = trace r ++ [Closed fd].
Proof.
  intros Hc Hw Ht Hq. unfold respond, serve, builder_service.
  destruct (createResponse_refines EVP_Q_digest (recvBuffer r) n (sendBuffer r) maxSizeOfMessage
    (world r) Hc Hw) as [b Hr].
  rewrite Ht in Hr. unfold spec_reply in Hr. rewrite Hq in Hr.
  destruct (timer_get (world r)) as [rx w1]. destruct (tpm_get w1) as [dev w2].
  destruct Hr as (-> & _). by eexists.
Qed.

Lemma arrived_rejected r c fd chunks :
  arrived r c chunks -> decode_query md5 (concat chunks) = None ->
  exists r', handleConnection c fd r = Val (false, r') /\ trace r' = trace r ++ [Closed fd].
Proof.
  intros Har Hq. pose proof Har as [[_ _ Hw] _ _ _ _].
  destruct (handle_arrived r c fd chunks Har) as (-> & Hc & Htake). set (r1 := mkResponder _ _ _ _ _ _ _ _).
  exact (respond_rejected c fd r1 (concat chunks) (zlen (concat chunks)) Hc Hw Htake Hq).
Qed.

(** C9.  A query is served however TCP cuts it into pieces: if a complete query
    has arrived on a connection, in any number of segments, the client is sent
    exactly one message, with the records it asked for and the checksum, and
    the connection stays open if the message could be sent. *)
Theorem connection_served r c fd chunks flags ts :
  digest_total EVP_Q_digest -> arrived r c chunks ->
  query_ok flags ts -> query_of EVP_Q_digest flags ts = Some (concat chunks) ->
  acceptable maxSizeOfMessage ts ->
  exists reply rx tx lu dev r',
    handleConnection c fd r = Val (send c reply =? zlen reply, r') /\
    trace r' = trace r ++ [Sent fd reply] ++
      (if send c reply =? zlen reply then [] else [Closed fd]) /\
    take 22 reply = header (zlen reply) (reply_flags flags) /\
    parse_tlvs (message_body reply) = Some (reply_tlvs ts dev rx tx lu).
Proof.
  intros Ht Har Hq Hm Ha. pose proof Har as [[_ Hs Hw] _ _ _ _].
  destruct (handle_arrived r c fd chunks Har) as (-> & Hc & Htake).
  set (data := concat chunks) in *. set (buf := splice (recvBuffer r) 0 data) in *.
  pose proof (run_spec EVP_Q_digest buf (zlen data) (sendBuffer r) maxSizeOfMessage (world r) Ht Hc Hw) as Hr.
  rewrite Htake in Hr. unfold respond, serve, builder_service. cbn [recvBuffer sendBuffer world].
  destruct (timer_get (world r)) as [rx w1] eqn:E1. destruct (tpm_get w1) as [dev w2] eqn:E2.
  destruct (first_readings _ _ _ _ _ Hw E1 E2) as (_ & Hd & Hdb & _).
  rewrite (spec_reply_query _ flags ts data _ _ _ _ _ _ Hq Hm E1 E2), decide_True in Hr by done.
  destruct (body_readings ts w2) as [[tx lu] w3].
  destruct (sign_total EVP_Q_digest (reply_flags flags) dev
    (unsigned_message (reply_flags flags) (reply_tlvs ts dev rx tx lu)) Ht) as [reply Hsg].
  rewrite Hsg in Hr. rewrite Hr. cbn [reply_result reply_buffer].
  apply signed_message in Hsg as (d & _ & Hz & _ & _ & Hbd & Hh); [| by left].
  rewrite zlen_encode_reply in Hz by done. destruct Hq as [_ Hwf _].
  pose proof (reply_size_bounds ts Hwf).
  destruct (Z.eqb_spec (zlen reply) (-1)); [lia |].
  replace (rd_range (splice (sendBuffer r) 0 reply) 0 (zlen reply)) with (Val reply)
    by (symmetry; apply (rd_range_at [] reply); done).
  cbn [mbind outcome_bind]. exists reply, rx, tx, lu, dev.
  rewrite Hbd, parse_encode by (by apply wf_reply_tlvs).
  destruct (send c reply =? zlen reply); eexists; (split; [done |]); done.
Qed.

(** C36.  Queries sent back to back are not answered: when two complete queries
    have arrived before the connection is looked at, neither gets a reply and
    the connection is closed. *)
Theorem pipelined_queries_closed r c fd chunks flags1 ts1 m1 flags2 ts2 m2 :
  arrived r c chunks -> concat chunks = m1 ++ m2 ->
  query_ok flags1 ts1 -> query_of EVP_Q_digest flags1 ts1 = Some m1 ->
  query_ok flags2 ts2 -> query_of EVP_Q_digest flags2 ts2 = Some m2 ->
  exists r', handleConnection c fd r = Val (false, r') /\ trace r' = trace r ++ [Closed fd].
Proof.
  intros Har E Hq1 Hm1 Hq2 Hm2. apply (arrived_rejected r c fd chunks Har). rewrite E. apply (decode_query_wrong_size flags1 ts1 m1); try done.
  - apply signed_query in Hm1 as (_ & _ & Hz & _). pose proof (zlen_nonneg (encode_tlvs ts1)).
    apply take_app_le. unfold zlen in *. lia.
  - apply signed_query in Hm2 as (_ & _ & Hz & _). pose proof (zlen_nonneg (encode_tlvs ts2)).
    rewrite zlen_app. lia.
Qed.

(** A query must arrive at once: when only a part of a query (its header
    at least) has arrived by the time the connection is looked at, it is
    closed instead of being read on. *)
Theorem partial_query_closed r c fd chunks flags ts m rest :
  arrived r c chunks -> query_ok flags ts -> query_of EVP_Q_digest flags ts = Some m ->
  m = concat chunks ++ rest -> rest <> [] -> 22 <= zlen (concat chunks) ->
  exists r', handleConnection c fd r = Val (false, r') /\ trace r' = trace r ++ [Closed fd].
Proof.
  intros Har Hq Hm E Hr H22. apply (arrived_rejected r c fd chunks Har).
  apply (decode_query_wrong_size flags ts m); try done; rewrite E.
  - rewrite take_app_le by (unfold zlen in *; lia). done.
  - rewrite zlen_app. destruct rest; [done |]. rewrite zlen_cons. pose proof (zlen_nonneg rest). lia.
Qed.

End Server.

(** ** Instances *)

#[local] Instance sample_service : ReplyService Z := builder_service sum_digest.
#[local] Instance sample_service_laws : ReplyServiceLaws Z := builder_service_laws sum_digest.

Definition sample_buffers : list Z := replicate (Z.to_nat maxSizeOfMessage) 0.

(** A server that listens on descriptor 3 with one client on descriptor 5. *)
Definition sample_responder (clients : list Z) : Responder Z :=
  mkResponder [] [] 1 (3 :: clients) sample_buffers sample_buffers (map Opened (3 :: clients)) 5.

Lemma sample_core clients : core_ok (sample_responder clients).
Proof.
  assert (zlen sample_buffers = maxSizeOfMessage) as Hl.
  { unfold zlen, sample_buffers. rewrite length_replicate. apply Z2Nat.id. done. }
  constructor; [split; [| exact Hl] | exact Hl | exact I]. unfold sample_responder. cbn [recvBuffer].
  unfold sample_buffers. apply Forall_replicate. unfold is_byte. lia.
Qed.

Lemma sample_inv : inv 3 (sample_responder [5]).
Proof.
  constructor; [apply sample_core | done | | cbn; unfold zlen; cbn; lia].
  right. exists [5; 3]. split; [reflexivity |]. split; [apply Permutation_swap |].
  apply (bool_decide_unpack _). vm_compute. exact I.
Qed.

(** A connection on which the chunks have arrived and that sends everything. *)
Definition sample_connection (chunks : list (list Z)) : connection :=
  Connection
    (fun k n => match chunks !! k with
                | Some d => Received (take (Z.to_nat n) d)
                | None => WouldBlock
                end)
    zlen.

Lemma sample_recv_ok chunks : Forall bytes chunks -> recv_ok (sample_connection chunks).
Proof.
  intros Hb k n Hn. cbn. destruct (chunks !! k) as [d |] eqn:E; [| done]. split.
  - unfold zlen. rewrite length_take. lia.
  - apply Forall_take. by apply (Forall_lookup_1 _ _ _ _ Hb E).
Qed.

Lemma sample_arrived chunks :
  forallb (fun x => bool_decide (x <> [])) chunks && (0 <? zlen (concat chunks)) &&
    (zlen (concat chunks) <? maxSizeOfMessage) && bool_decide (bytes (concat chunks)) = true ->
  arrived (sample_responder [5]) (sample_connection chunks) chunks.
Proof.
  rewrite !andb_true_iff, !Z.ltb_lt, bool_decide_eq_true, forallb_forall. intros [[[Hne H1] H2] Hb].
  constructor; [apply sample_core | done | | done | done].
  apply List.Forall_forall. intros x Hx.
  exact (proj1 (bool_decide_eq_true _) (Hne x Hx)).
Qed.

(** The sample query in two pieces, twice in a row, and cut off. *)
Definition sample_bytes : list Z := sample_query 0 sample_records.
Definition two_pieces : list (list Z) := [take 30 sample_bytes; drop 30 sample_bytes].
Definition two_queries : list (list Z) := [sample_bytes ++ sample_bytes].
Definition first_piece : list (list Z) := [take 30 sample_bytes].

Lemma connection_served_witness :
  exists reply rx tx lu dev r',
    handleConnection (sample_connection two_pieces) 5 (sample_responder [5]) =
      Val (zlen reply =? zlen reply, r') /\
    trace r' = trace (sample_responder [5]) ++ [Sent 5 reply] ++
      (if zlen reply =? zlen reply then [] else [Closed 5]) /\
    take 22 reply = header (zlen reply) (reply_flags 0) /\
    parse_tlvs (message_body reply) = Some (reply_tlvs sample_records dev rx tx lu).
Proof.
  apply (connection_served sum_digest (sample_responder [5]) (sample_connection two_pieces) 5 two_pieces
    0 sample_records).
  - exact sum_digest_total.
  - apply sample_arrived. vm_compute. reflexivity.
  - concrete.
  - vm_compute. reflexivity.
  - concrete.
Defined.

Lemma pipelined_queries_closed_witness :
  exists r', handleConnection (sample_connection two_queries) 5 (sample_responder [5]) = Val (false, r') /\
    trace r' = trace (sample_responder [5]) ++ [Closed 5].
Proof.
  apply (pipelined_queries_closed sum_digest (sample_responder [5]) (sample_connection two_queries) 5
    two_queries 0 sample_records sample_bytes 0 sample_records sample_bytes).
  - apply sample_arrived. vm_compute. reflexivity.
  - vm_compute. reflexivity.
  - concrete.
  - concrete.
  - concrete.
  - concrete.
Defined.

Lemma partial_query_closed_witness :
  exists r', handleConnection (sample_connection first_piece) 5 (sample_responder [5]) = Val (false, r') /\
    trace r' = trace (sample_responder [5]) ++ [Closed 5].
Proof.
  apply (partial_query_closed sum_digest (sample_responder [5]) (sample_connection first_piece) 5
    first_piece 0 sample_records sample_bytes (drop 30 sample_bytes)).
  - apply sample_arrived. vm_compute. reflexivity.
  - concrete.
  - concrete.
  - vm_compute. reflexivity.
  - vm_compute. discriminate.
  - vm_compute. discriminate.
Defined.

(** A round in which one more client connects and the first one has sent a query. *)
Definition sample_round : round :=
  Round [AcceptedConnection 6 true; WouldBlockAccept]
    (fun fd => if fd =? 5 then sample_connection two_pieces else sample_connection []) true.

Lemma sample_round_ok : round_ok sample_round.
Proof.
  constructor; [right; by left |]. intros fd. cbn. case_test; apply sample_recv_ok; [| constructor].
  apply (bool_decide_unpack _). vm_compute. exact I.
Qed.

Lemma server_progress_witness :
  (exists r', serveRound sample_round (set_world 6 (sample_responder [5])) = Val r' /\ inv 3 r' /\
     maxConnections r' = 1 /\
     step (eq sample_round) (Serving (sample_responder [5])) (Serving r')) \/
  serveRound sample_round (set_world 6 (sample_responder [5])) = Ret EXIT_FAILURE /\
  (AcceptFailed ∈ accepts sample_round \/ poll_ok sample_round = false) /\
  step (eq sample_round) (Serving (sample_responder [5])) (Exited EXIT_FAILURE).
Proof. exact (server_progress 3 (sample_responder [5]) sample_round sample_inv sample_round_ok). Defined.

(** The state after that round. *)
Definition sample_served : Responder Z :=
  match serveRound sample_round (set_world 6 (sample_responder [5])) with
  | Val r => r
  | _ => sample_responder []
  end.

Lemma sample_served_eq :
  serveRound sample_round (set_world 6 (sample_responder [5])) = Val sample_served.
Proof.
  assert (match serveRound sample_round (set_world 6 (sample_responder [5])) with
          | Val _ => true | _ => false end = true) as Hv by (vm_compute; reflexivity).
  unfold sample_served. destruct (serveRound _ _); [reflexivity | discriminate ..].
Qed.

Lemma server_bookkeeping_witness :
  head (sockets sample_served) = Some 3 /\ fds_ok (trace sample_served) (sockets sample_served) /\
  (0 <= maxConnections sample_served < 2 ^ 31 ->
   zlen (sockets sample_served) <= maxConnections sample_served + 1).
Proof.
  apply (server_bookkeeping 3 (sample_responder [5]) (Serving sample_served)).
  - exact sample_inv.
  - apply rtc_once. apply (step_round _ _ 6 sample_round).
    + exact sample_round_ok.
    + reflexivity.
    + exact sample_served_eq.
Defined.

Lemma server_stops_witness :
  let r := set_world 2000000 (sample_responder [5]) in
  exists r', Sleeping (shutDown (set_world 2000001 r)) = Sleeping r' /\ sockets r' = [] /\
    trace r' = trace r ++ map Closed (sockets r) /\
    forall st', rtc (step round_ok) (Sleeping (shutDown (set_world 2000001 r))) st' ->
      st' = Sleeping (shutDown (set_world 2000001 r)).
Proof.
  apply (server_stops round_ok (set_world 2000000 (sample_responder [5])) 2000001).
  - reflexivity.
  - apply step_invalid. reflexivity.
Defined.

(** A resolver that finds two addresses for the host "1" and the port "2". *)
Definition sample_setup : setup_answers :=
  Build_setup_answers
    (fun host service => if bool_decide (host = [49] /\ service = [50]) then Some [[7]; [8]] else None)
    3 true true (fun _ => true) true.

Definition fresh_responder : Responder Z :=
  mkResponder [49] [50] 1 [] sample_buffers sample_buffers [] 5.

(** It listens at the first of them. *)
Lemma setupServer_sample :
  setup_promise sample_setup fresh_responder (setupServer sample_setup fresh_responder) /\
  trace (setupServer sample_setup fresh_responder).2 =
    [AllocatedAddrinfo; Opened 3; Bound 3 [7]; FreedAddrinfo].
Proof.
  split; [| vm_compute; reflexivity]. apply setupServer_ok; [| done | done].
  destruct (sample_core []). by constructor.
Qed.

Lemma negative_limit_disables_witness :
  limitReached (mkResponder [] [] (-1) [3; 5; 6] [] [] [] 0 : Responder Z) = false.
Proof.
  apply (negative_limit_disables (mkResponder [] [] (-1) [3; 5; 6] [] [] [] 0 : Responder Z)).
  - cbn. lia.
  - vm_compute. reflexivity.
Defined.
