(* ===== verification/Nhac.v ===== *)
(** * src/tools/src/nhac.cpp: messages of the client

    Classes TLV and Message with their serialisation into and out of the
    client's buffer.  A thrown exception, which [main] turns into exit status
    1, is [Ret 1].  The MD5 implementation (picohash) is a parameter. *)

From S2P Require Import Prelude Memory Protocol.

Local Open Scope Z_scope.

(** [throw std::runtime_error(...)] *)
Definition throw {A} : outcome A := Ret 1.

Definition throw_if (b : bool) : outcome unit := if b then throw else Val tt.

(** ** Integers *)

Definition toLE32 (x : Z) : list Z :=
  [Z.land x 0xFF; Z.land (Z.shiftr x 8) 0xFF; Z.land (Z.shiftr x 16) 0xFF; Z.land (Z.shiftr x 24) 0xFF].

(** The shifts are of [int]; the result is converted to [uint32_t]. *)
Definition fromLE32 (t0 t1 t2 t3 : Z) : Z :=
  u32 (Z.lor (Z.lor (Z.lor t0 (i32 (Z.shiftl t1 8))) (i32 (Z.shiftl t2 16))) (i32 (Z.shiftl t3 24))).

(** ** Class TLV; [Protocol.tlv] holds its two fields *)

Definition getLength (t : tlv) : Z := u8 (zlen (tlv_value t)).

(** [serialize(t + pos, n)]: the bytes written. *)
Definition TLV_serialize (tlv : tlv) (pos n : Z) : M (bufst unit) Z :=
  lift (throw_if (n <? 2 + zlen (tlv_value tlv))) ;;
  wr pos (tlv_tag tlv) ;;
  wr (pos + 1) (u8 (zlen (tlv_value tlv))) ;;
  wr_range (pos + 2) (tlv_value tlv) ;;
  mret (2 + zlen (tlv_value tlv)).

(** [deserialize(t + pos, n)]: the record and the bytes read. *)
Definition TLV_deserialize (buf : list Z) (pos n : Z) : outcome (tlv * Z) :=
  throw_if (n <? 2) ;;
  tag ← rd buf pos;
  length ← rd buf (pos + 1);
  throw_if (n <? 2 + length) ;;
  value ← rd_range buf (pos + 2) length;
  Val (Tlv tag value, 2 + length).

(** ** Class Message *)

Record Message := mkMessage {
  tlvs : list tlv;
  receivedMd5 : option (list Z);
  calculatedMd5 : option (list Z);
  xoredMd5 : option (list Z);
}.

Definition clear (m : Message) : Message := mkMessage [] None None None.

Definition add (t : tlv) (m : Message) : Message :=
  mkMessage (tlvs m ++ [t]) (receivedMd5 m) (calculatedMd5 m) (xoredMd5 m).

Definition getCompleteSizeOfMsgInBytes (m : Message) : Z :=
  u32 (foldl (fun size t => u32 (size + (2 + getLength t))) 4 (tlvs m) + 16).

Section Md5.
(** picohash: the 16 bytes it stores. *)
Context (md5 : list Z -> list Z).

(** The loop of [serialize] over the records; the position behind them. *)
Fixpoint serializeTlvs (ts : list tlv) (pos n : Z) : M (bufst unit) Z :=
  match ts with
  | [] => mret pos
  | t :: ts => k ← TLV_serialize t pos (n - pos); serializeTlvs ts (pos + k) n
  end.

(** [serialize(t, n)]: the size, and the object with its checksum stored. *)
Definition serialize (m : Message) (n : Z) : M (bufst unit) (Z * Message) :=
  let completeSizeOfMsgInBytes := getCompleteSizeOfMsgInBytes m in
  lift (throw_if (completeSizeOfMsgInBytes >? n)) ;;
  wr_range 0 (toLE32 completeSizeOfMsgInBytes) ;;
  pos ← serializeTlvs (tlvs m) 4 n;
  data ← rd_prefix pos;
  wr_range pos (md5 data) ;;
  mret (pos + 16, mkMessage (tlvs m) None (Some (md5 data)) None).

(** The loop of [deserialize]; a record has two bytes at least. *)
Fixpoint deserializeTlvs (fuel : nat) (buf : list Z) (pos endPos : Z) (ts : list tlv) :
    outcome (list tlv * Z) :=
  if pos <? endPos then
    match fuel with
    | O => NoFuel
    | S fuel =>
        '(t, k) ← TLV_deserialize buf pos (endPos - pos);
        deserializeTlvs fuel buf (pos + k) endPos (ts ++ [t])
    end
  else Val (ts, pos).

(** [deserialize(t, n)]: the size and the new object. *)
Definition deserialize (buf : list Z) (n : Z) : outcome (Z * Message) :=
  throw_if (n <? 4 + 16) ;;
  t0 ← rd buf 0;
  t1 ← rd buf 1;
  t2 ← rd buf 2;
  t3 ← rd buf 3;
  let completeSizeOfMsgInBytes := fromLE32 t0 t1 t2 t3 in
  throw_if (completeSizeOfMsgInBytes >? n) ;;
  throw_if (completeSizeOfMsgInBytes <? 4 + 16) ;;
  let endPos := completeSizeOfMsgInBytes - 16 in
  '(newTlvs, pos) ← deserializeTlvs (Z.to_nat endPos) buf 4 endPos [];
  received ← rd_range buf pos 16;
  data ← rd_range buf 0 pos;
  let calculated := md5 data in
  Val (pos + 16,
       mkMessage newTlvs (Some received) (Some calculated) (Some (xor_bytes received calculated))).
End Md5.

(** ** What the client puts on the wire *)

(** The records of the header, as the H macro of a query description adds them. *)
Definition header_tlvs (flags : list Z) : list tlv :=
  [Tlv 0x00 [0x4e; 0x48; 0x41; 0x31]; Tlv 0x01 [0x00; 0x00; 0x00; 0x01]; Tlv 0x02 [0x01];
   Tlv 0x03 flags].

Lemma client_toLE32_bytes x : toLE32 x = le_bytes 4 x.
Proof.
  unfold toLE32. rewrite !land_255, !Z.shiftr_div_pow2 by lia. cbn [le_bytes].
  rewrite !Z.div_div by lia. done.
Qed.

Lemma client_fromLE32_value b0 b1 b2 b3 :
  bytes [b0; b1; b2; b3] -> fromLE32 b0 b1 b2 b3 = le_value [b0; b1; b2; b3].
Proof.
  intros Hb. repeat (apply Forall_cons_1 in Hb as [? Hb]). clear Hb. unfold is_byte in *.
  unfold fromLE32. rewrite !(i32_id (Z.shiftl _ 8)), !(i32_id (Z.shiftl _ 16))
    by (unfold is_i32; rewrite Z.shiftl_mul_pow2 by lia; lia).
  destruct (decide (b3 < 128)) as [Hs | Hs].
  - rewrite i32_id by (unfold is_i32; rewrite Z.shiftl_mul_pow2 by lia; lia).
    rewrite (lor_shiftl_add b0 b1 8), (lor_shiftl_add _ b2 16), (lor_shiftl_add _ b3 24) by lia.
    rewrite u32_id by (unfold is_u32; lia). cbn [le_value]. lia.
  - replace (i32 (Z.shiftl b3 24)) with (Z.shiftl (b3 - 256) 24).
    2: { rewrite !Z.shiftl_mul_pow2 by lia. unfold i32.
      rewrite <- (Z_mod_plus_full _ (-1)), Z.mod_small by lia. lia. }
    rewrite (lor_shiftl_add b0 b1 8), (lor_shiftl_add _ b2 16), (lor_shiftl_add _ (b3 - 256) 24) by lia.
    unfold u32. rewrite <- (Z_mod_plus_full _ 1), Z.mod_small by lia. cbn [le_value]. lia.
Qed.

(** The bytes of a message without its checksum. *)
Definition wire_data (ts : list tlv) : list Z :=
  le_bytes 4 (20 + zlen (encode_tlvs ts)) ++ encode_tlvs ts.

Lemma zlen_wire_data ts : zlen (wire_data ts) = 4 + zlen (encode_tlvs ts).
Proof. unfold wire_data. by rewrite zlen_app, zlen_le_bytes. Qed.

(** The server's view of a query is the client's message with a header. *)
Lemma unsigned_message_wire flags ts :
  unsigned_message flags ts = wire_data (header_tlvs [flags] ++ ts).
Proof.
  unfold unsigned_message, wire_data, header. rewrite encode_tlvs_app, zlen_app, <- app_assoc.
  change (zlen (encode_tlvs (header_tlvs [flags]))) with 18. rewrite Z.add_assoc. done.
Qed.

(** ** Serialisation *)

Lemma getLength_wf t : wf_tlv t -> getLength t = zlen (tlv_value t).
Proof.
  intros (_ & Hl & _). pose proof (zlen_nonneg (tlv_value t)). apply u8_id. unfold is_byte. lia.
Qed.

Lemma complete_size m :
  Forall wf_tlv (tlvs m) -> 20 + zlen (encode_tlvs (tlvs m)) < 2 ^ 32 ->
  getCompleteSizeOfMsgInBytes m = 20 + zlen (encode_tlvs (tlvs m)).
Proof.
  intros Hw Hl. unfold getCompleteSizeOfMsgInBytes.
  assert (forall ts s, Forall wf_tlv ts -> 0 <= s -> s + zlen (encode_tlvs ts) < 2 ^ 32 ->
    foldl (fun size t => u32 (size + (2 + getLength t))) s ts = s + zlen (encode_tlvs ts)) as Hf.
  { clear. intros ts s Hw. revert s. induction Hw as [| t ts Ht Hts IH]; intros s Hs Hl; [cbn; rewrite zlen_nil; lia |].
    rewrite encode_tlvs_cons, zlen_app, zlen_encode_tlv in *. cbn [foldl].
    pose proof (zlen_nonneg (encode_tlvs ts)). pose proof (zlen_nonneg (tlv_value t)).
    rewrite getLength_wf by done. rewrite u32_id by (unfold is_u32; lia). rewrite IH by lia. lia. }
  pose proof (zlen_nonneg (encode_tlvs (tlvs m))).
  rewrite Hf by (done || lia). rewrite u32_id by (unfold is_u32; lia). lia.
Qed.

Lemma TLV_serialize_ok t pos n buf vs :
  wf_tlv t -> pos = zlen vs -> 2 + zlen (tlv_value t) <= n -> zlen vs + n <= zlen buf ->
  TLV_serialize t pos n (BufSt tt (splice buf 0 vs)) =
    (Val (2 + zlen (tlv_value t)), BufSt tt (splice buf 0 (vs ++ encode_tlv t))).
Proof.
  intros (_ & Hl & _) -> Hn Hb. pose proof (zlen_nonneg (tlv_value t)). unfold TLV_serialize.
  destruct (Z.ltb_spec n (2 + zlen (tlv_value t))); [lia |]. rewrite (bind_lift _ _ _ tt) by done.
  erewrite bind_val by (apply wr_append; [done | lia]).
  erewrite bind_val by (apply wr_append; rewrite ?zlen_app, ?zlen_cons, ?zlen_nil; lia).
  erewrite bind_val by (apply wr_range_append; rewrite ?zlen_app, ?zlen_cons, ?zlen_nil; lia).
  rewrite <- !app_assoc. cbn [app]. rewrite u8_id by (unfold is_byte; lia). done.
Qed.

Lemma serializeTlvs_ok ts pos n buf vs :
  Forall wf_tlv ts -> pos = zlen vs -> zlen vs + zlen (encode_tlvs ts) <= n -> n <= zlen buf ->
  serializeTlvs ts pos n (BufSt tt (splice buf 0 vs)) =
    (Val (zlen vs + zlen (encode_tlvs ts)), BufSt tt (splice buf 0 (vs ++ encode_tlvs ts))).
Proof.
  intros Hw. revert pos vs. induction Hw as [| t ts Ht Hts IH]; intros pos vs -> Hn Hb.
  - cbn. by rewrite Z.add_0_r, app_nil_r.
  - rewrite encode_tlvs_cons, zlen_app, zlen_encode_tlv in *. pose proof (zlen_nonneg (encode_tlvs ts)).
    cbn [serializeTlvs].
    rewrite (bind_val _ _ _ _ _ (TLV_serialize_ok t (zlen vs) (n - zlen vs) buf vs Ht eq_refl
      ltac:(lia) ltac:(lia))).
    rewrite (IH _ (vs ++ encode_tlv t)) by (rewrite ?zlen_app, ?zlen_encode_tlv; lia).
    rewrite zlen_app, zlen_encode_tlv, <- app_assoc. f_equal. f_equal. lia.
Qed.

Section Serialize.
Context (md5 : list Z -> list Z) (Hmd5 : forall data, length (md5 data) = 16%nat).

Lemma serialize_ok m n buf :
  Forall wf_tlv (tlvs m) -> 20 + zlen (encode_tlvs (tlvs m)) <= n -> n < 2 ^ 32 -> n <= zlen buf ->
  serialize md5 m n (BufSt tt buf) =
    (Val (20 + zlen (encode_tlvs (tlvs m)),
          mkMessage (tlvs m) None (Some (md5 (wire_data (tlvs m)))) None),
     BufSt tt (splice buf 0 (wire_data (tlvs m) ++ md5 (wire_data (tlvs m))))).
Proof.
  intros Hw Hl Hn Hb. pose proof (zlen_nonneg (encode_tlvs (tlvs m))).
  unfold serialize. rewrite complete_size by (done || lia).
  destruct (Z.gtb_spec (20 + zlen (encode_tlvs (tlvs m))) n); [lia |].
  rewrite (bind_lift _ _ _ tt) by done. rewrite client_toLE32_bytes.
  rewrite (bind_val _ _ _ tt (BufSt tt (splice buf 0 (le_bytes 4 (20 + zlen (encode_tlvs (tlvs m)))))))
    by (rewrite wr_range_ok by (rewrite ?zlen_le_bytes; lia); done).
  rewrite (bind_val _ _ _ _ _ (serializeTlvs_ok (tlvs m) 4 n buf
    (le_bytes 4 (20 + zlen (encode_tlvs (tlvs m)))) Hw eq_refl
    ltac:(rewrite zlen_le_bytes; lia) Hb)).
  rewrite zlen_le_bytes. fold (wire_data (tlvs m)). set (d := wire_data (tlvs m)).
  assert (zlen d = Z.of_nat 4 + zlen (encode_tlvs (tlvs m))) as Hd by apply zlen_wire_data.
  assert (zlen (md5 d) = 16) as Hs by (unfold zlen; by rewrite Hmd5).
  rewrite <- Hd. erewrite bind_val by (apply rd_prefix_ok; [done | lia]).
  erewrite bind_val by (apply wr_range_append; [done | lia]).
  replace (zlen d + 16) with (20 + zlen (encode_tlvs (tlvs m))) by lia. done.
Qed.
End Serialize.

(** ** Deserialisation *)

Lemma TLV_deserialize_cases buf pos n :
  bytes buf -> 0 <= pos -> 0 <= n -> pos + n <= zlen buf ->
  TLV_deserialize buf pos n = throw \/
  exists t, wf_tlv t /\ 2 + zlen (tlv_value t) <= n /\
    TLV_deserialize buf pos n = Val (t, 2 + zlen (tlv_value t)) /\
    take (length (encode_tlv t)) (drop (Z.to_nat pos) buf) = encode_tlv t.
Proof.
  intros Hb Hp Hn Hl. unfold TLV_deserialize. destruct (Z.ltb_spec n 2); [by left |].
  cbn [throw_if mbind outcome_bind].
  destruct (rd_ok buf pos) as (tag & -> & Etag); [lia |].
  destruct (rd_ok buf (pos + 1)) as (len & -> & Elen); [lia |]. cbn [mbind outcome_bind].
  apply (Forall_lookup_1 _ _ _ _ Hb) in Etag as Htag. apply (Forall_lookup_1 _ _ _ _ Hb) in Elen as Hlen.
  unfold is_byte in *. destruct (Z.ltb_spec n (2 + len)); [by left | right]. cbn [throw_if mbind outcome_bind].
  rewrite rd_range_ok by lia. cbn [mbind outcome_bind].
  set (v := take (Z.to_nat len) (drop (Z.to_nat (pos + 2)) buf)).
  assert (zlen v = len) as Hv by (unfold v, zlen in *; rewrite length_take, length_drop; lia).
  exists (Tlv tag v). cbn [tlv_tag tlv_value]. rewrite Hv.
  split; [split; [exact Htag | split; [cbn; lia | by apply Forall_take, Forall_drop]] |].
  split; [lia |]. split; [done |]. unfold encode_tlv. cbn [tlv_tag tlv_value length].
  rewrite (drop_S buf tag) by done. replace (S (Z.to_nat pos)) with (Z.to_nat (pos + 1)) by lia.
  rewrite (drop_S buf len) by done. replace (S (Z.to_nat (pos + 1))) with (Z.to_nat (pos + 2)) by lia.
  cbn [firstn]. rewrite Hv. do 2 f_equal. fold v.
  replace (length v) with (Z.to_nat len) by (unfold zlen in Hv; lia). done.
Qed.

(** The loop either throws or splits the whole segment into records. *)
Lemma deserializeTlvs_cases fuel buf pos endPos acc :
  bytes buf -> 0 <= pos <= endPos -> endPos <= zlen buf -> endPos - pos <= Z.of_nat fuel ->
  deserializeTlvs fuel buf pos endPos acc = throw \/
  exists ts, Forall wf_tlv ts /\ deserializeTlvs fuel buf pos endPos acc = Val (acc ++ ts, endPos) /\
    encode_tlvs ts = take (Z.to_nat (endPos - pos)) (drop (Z.to_nat pos) buf).
Proof.
  intros Hb. revert pos acc. induction fuel as [| fuel IH]; intros pos acc Hp He Hf; cbn [deserializeTlvs];
    (destruct (Z.ltb_spec pos endPos) as [Hlt | Hge];
     [| right; exists []; assert (pos = endPos) as -> by lia; rewrite Z.sub_diag, app_nil_r;
        split; [constructor | done]]); [lia |].
  destruct (TLV_deserialize_cases buf pos (endPos - pos)) as [-> | (t & Ht & Hn & -> & Et)];
    try done; [lia .. | by left |]. cbn [mbind outcome_bind]. pose proof (zlen_nonneg (tlv_value t)).
  destruct (IH (pos + (2 + zlen (tlv_value t))) (acc ++ [t])) as [-> | (ts & Hts & -> & Ets)];
    [lia .. | by left | right].
  exists (t :: ts). split; [by constructor |]. rewrite <- app_assoc. split; [done |].
  rewrite encode_tlvs_cons, Ets, <- Et at 1.
  assert (Z.of_nat (length (encode_tlv t)) = 2 + zlen (tlv_value t)) as Hz by apply zlen_encode_tlv.
  set (k := length (encode_tlv t)) in *.
  replace (Z.to_nat (endPos - pos)) with (k + Z.to_nat (endPos - (pos + (2 + zlen (tlv_value t)))))%nat by lia.
  rewrite <- take_take_drop, drop_drop. do 3 f_equal. lia.
Qed.

Lemma TLV_deserialize_encode t pre post pos n :
  wf_tlv t -> pos = zlen pre -> 2 + zlen (tlv_value t) <= n ->
  TLV_deserialize (pre ++ encode_tlv t ++ post) pos n = Val (t, 2 + zlen (tlv_value t)).
Proof.
  intros _ -> Hn. pose proof (zlen_nonneg (tlv_value t)). unfold TLV_deserialize, encode_tlv.
  destruct (Z.ltb_spec n 2); [lia |]. cbn [throw_if mbind outcome_bind app].
  rewrite (rd_at pre _ _ (zlen pre)) by done. cbn [mbind outcome_bind].
  replace (pre ++ tlv_tag t :: zlen (tlv_value t) :: tlv_value t ++ post)
    with ((pre ++ [tlv_tag t]) ++ zlen (tlv_value t) :: tlv_value t ++ post)
    by (by rewrite <- app_assoc).
  rewrite (rd_at (pre ++ [tlv_tag t])) by (rewrite zlen_app; done). cbn [mbind outcome_bind].
  destruct (Z.ltb_spec n (2 + zlen (tlv_value t))); [lia |]. cbn [throw_if mbind outcome_bind].
  replace ((pre ++ [tlv_tag t]) ++ zlen (tlv_value t) :: tlv_value t ++ post)
    with ((pre ++ [tlv_tag t; zlen (tlv_value t)]) ++ tlv_value t ++ post)
    by (by rewrite <- !app_assoc).
  rewrite (rd_range_at (pre ++ [tlv_tag t; zlen (tlv_value t)])) by (rewrite ?zlen_app; done).
  by destruct t.
Qed.

Lemma deserializeTlvs_encode fuel ts pre post pos endPos acc :
  Forall wf_tlv ts -> pos = zlen pre -> endPos = pos + zlen (encode_tlvs ts) ->
  (length ts <= fuel)%nat ->
  deserializeTlvs fuel (pre ++ encode_tlvs ts ++ post) pos endPos acc = Val (acc ++ ts, endPos).
Proof.
  intros Hw. revert fuel pre pos endPos acc. induction Hw as [| t ts Ht Hts IH];
    intros fuel pre pos endPos acc -> -> Hf.
  - change (zlen (encode_tlvs [])) with 0. rewrite Z.add_0_r, app_nil_r.
    destruct fuel; cbn [deserializeTlvs]; by rewrite Z.ltb_irrefl.
  - destruct fuel as [| fuel]; [cbn in Hf; lia |]. rewrite encode_tlvs_cons, zlen_app, zlen_encode_tlv.
    pose proof (zlen_nonneg (tlv_value t)). pose proof (zlen_nonneg (encode_tlvs ts)).
    cbn [deserializeTlvs].
    destruct (Z.ltb_spec (zlen pre) (zlen pre + (2 + zlen (tlv_value t) + zlen (encode_tlvs ts)))); [| lia].
    rewrite <- app_assoc, TLV_deserialize_encode by (done || lia). cbn [mbind outcome_bind].
    rewrite (app_assoc pre). rewrite IH; [by rewrite <- app_assoc | | | cbn in Hf; lia];
      rewrite ?zlen_app, ?zlen_encode_tlv; lia.
Qed.

Lemma length_tlvs ts : 2 * Z.of_nat (length ts) <= zlen (encode_tlvs ts).
Proof.
  induction ts as [| t ts IH]; [done |]. rewrite encode_tlvs_cons, zlen_app, zlen_encode_tlv.
  pose proof (zlen_nonneg (tlv_value t)). cbn [length]. lia.
Qed.

Section Deserialize.
Context (md5 : list Z -> list Z).

(** The object a received message gives. *)
Definition received_message (ts : list tlv) (sum : list Z) : Message :=
  let calculated := md5 (wire_data ts) in
  mkMessage ts (Some sum) (Some calculated) (Some (xor_bytes sum calculated)).

(** The four bytes of the size field. *)
Lemma size_field (buf : list Z) :
  4 <= zlen buf -> exists t0 t1 t2 t3 rest, buf = [t0; t1; t2; t3] ++ rest.
Proof.
  intros Hl. destruct buf as [| t0 [| t1 [| t2 [| t3 rest]]]];
    try (unfold zlen in Hl; cbn in Hl; lia). by exists t0, t1, t2, t3, rest.
Qed.

(** After the size field has been read. *)
Lemma deserialize_size (buf : list Z) n :
  bytes buf -> 20 <= n -> 4 <= zlen buf ->
  let size := le_value (take 4 buf) in
  deserialize md5 buf n =
    (throw_if (size >? n) ;;
     throw_if (size <? 20) ;;
     '(ts, pos) ← deserializeTlvs (Z.to_nat (size - 16)) buf 4 (size - 16) [];
     received ← rd_range buf pos 16;
     data ← rd_range buf 0 pos;
     Val (pos + 16, mkMessage ts (Some received) (Some (md5 data))
                      (Some (xor_bytes received (md5 data))))).
Proof.
  intros Hb Hn H4. destruct (size_field buf) as (t0 & t1 & t2 & t3 & rest & ->); [lia |].
  unfold deserialize. destruct (Z.ltb_spec n (4 + 16)); [lia |].
  change (rd ([t0; t1; t2; t3] ++ rest) 0) with (Val t0).
  change (rd ([t0; t1; t2; t3] ++ rest) 1) with (Val t1).
  change (rd ([t0; t1; t2; t3] ++ rest) 2) with (Val t2).
  change (rd ([t0; t1; t2; t3] ++ rest) 3) with (Val t3).
  cbn [throw_if mbind outcome_bind].
  rewrite client_fromLE32_value by (apply Forall_app in Hb; apply Hb). done.
Qed.

Lemma deserialize_wire ts sum post n :
  Forall wf_tlv ts -> length sum = 16%nat -> bytes sum -> bytes post ->
  20 + zlen (encode_tlvs ts) <= n -> n <= zlen (wire_data ts ++ sum ++ post) ->
  20 + zlen (encode_tlvs ts) < 2 ^ 32 ->
  deserialize md5 (wire_data ts ++ sum ++ post) n =
    Val (20 + zlen (encode_tlvs ts), received_message ts sum).
Proof.
  intros Hw Hs Hbs Hbp Hn Hnb Hmax. pose proof (zlen_nonneg (encode_tlvs ts)).
  assert (zlen sum = 16) as Hsz by (unfold zlen; by rewrite Hs).
  rewrite deserialize_size; [| | lia | rewrite zlen_app, zlen_wire_data; pose proof (zlen_nonneg (sum ++ post)); lia].
  2: { repeat (apply Forall_app; split); try done; [apply le_bytes_bytes | by apply bytes_encode_tlvs]. }
  set (size := 20 + zlen (encode_tlvs ts)) in *.
  replace (le_value (take 4 (wire_data ts ++ sum ++ post))) with size.
  2: { unfold wire_data. rewrite <- app_assoc, take_app_length' by done. rewrite le_value_bytes.
    symmetry. apply Z.mod_small. lia. }
  cbn zeta. destruct (Z.gtb_spec size n); [lia |]. destruct (Z.ltb_spec size 20); [lia |].
  cbn [throw_if mbind outcome_bind]. pose proof (length_tlvs ts).
  assert (deserializeTlvs (Z.to_nat (size - 16)) (wire_data ts ++ sum ++ post) 4 (size - 16) [] =
    Val ([] ++ ts, size - 16)) as ->.
  { unfold wire_data. rewrite <- app_assoc. fold size.
    apply deserializeTlvs_encode; rewrite ?zlen_le_bytes; done || (subst size; lia). }
  cbn [mbind outcome_bind app].
  assert (size - 16 = zlen (wire_data ts)) as Hp by (rewrite zlen_wire_data; subst size; lia).
  rewrite (rd_range_at (wire_data ts) sum post (size - 16) 16) by lia. cbn [mbind outcome_bind].
  pose proof (rd_range_at [] (wire_data ts) (sum ++ post) 0 (size - 16) eq_refl Hp) as Hdata.
  cbn [app] in Hdata. rewrite Hdata. cbn [mbind outcome_bind].
  unfold received_message. replace (size - 16 + 16) with size by lia. done.
Qed.

(** C23.  The client's decoder is total and exact: on any bytes and any claimed
    length within the buffer it reads no byte outside it and either throws or
    yields records whose encoding, with size field and checksum, is what the
    buffer starts with, together with both checksums and their xor. *)
Theorem deserialize_correct buf n :
  bytes buf -> 0 <= n <= zlen buf ->
  deserialize md5 buf n = throw \/
  exists ts sum, Forall wf_tlv ts /\ length sum = 16%nat /\ 20 + zlen (encode_tlvs ts) <= n /\
    take (length (wire_data ts) + 16) buf = wire_data ts ++ sum /\
    deserialize md5 buf n = Val (20 + zlen (encode_tlvs ts), received_message ts sum).
Proof.
  intros Hb Hn. destruct (Z.ltb_spec n 20) as [Hs | Hs].
  { left. unfold deserialize. by destruct (Z.ltb_spec n (4 + 16)); [| lia]. }
  rewrite deserialize_size by (done || lia). cbn zeta. set (size := le_value (take 4 buf)).
  destruct (Z.gtb_spec size n); [by left |]. destruct (Z.ltb_spec size 20); [by left |].
  cbn [throw_if mbind outcome_bind].
  destruct (deserializeTlvs_cases (Z.to_nat (size - 16)) buf 4 (size - 16) [])
    as [-> | (ts & Hts & -> & Ets)]; try done; [lia .. | by left | right].
  cbn [mbind outcome_bind app]. rewrite !rd_range_ok by lia. cbn [mbind outcome_bind].
  assert (zlen (encode_tlvs ts) = size - 20) as Hlen.
  { rewrite Ets. unfold zlen in *. rewrite length_take, length_drop. lia. }
  assert (wire_data ts = take (Z.to_nat (size - 16)) buf) as Hwire.
  { unfold wire_data. rewrite Hlen, Ets. replace (20 + (size - 20)) with size by lia.
    replace (le_bytes 4 size) with (take 4 buf).
    - change (Z.to_nat 4) with 4%nat.
      replace (Z.to_nat (size - 16)) with (4 + Z.to_nat (size - 16 - 4))%nat by lia.
      apply take_take_drop.
    - subst size. pose proof (le_bytes_value (take 4 buf) (Forall_take _ _ _ Hb)) as E.
      rewrite length_take, Nat.min_l in E by (unfold zlen in *; lia). by symmetry. }
  exists ts, (take 16 (drop (Z.to_nat (size - 16)) buf)).
  split; [done |]. split; [rewrite length_take, length_drop; unfold zlen in *; lia |].
  split; [lia |]. rewrite Hwire. split.
  - rewrite length_take, Nat.min_l by (unfold zlen in *; lia). symmetry. apply take_take_drop.
  - unfold received_message. rewrite Hwire, drop_0. do 2 f_equal. lia.
Qed.
End Deserialize.

(** C22.  Messages survive the wire: what [serialize] writes for well-formed
    records, [deserialize] reads back as the same records, with equal
    checksums (their xor is zero), and both report the size written. *)
Theorem message_roundtrip md5 m n buf :
  (forall data, length (md5 data) = 16%nat /\ bytes (md5 data)) ->
  Forall wf_tlv (tlvs m) -> 20 + zlen (encode_tlvs (tlvs m)) <= n -> n < 2 ^ 32 ->
  n <= zlen buf -> bytes buf ->
  exists size m' buf',
    serialize md5 m n (BufSt tt buf) = (Val (size, m'), BufSt tt buf') /\
    deserialize md5 buf' size =
      Val (size, mkMessage (tlvs m) (calculatedMd5 m') (calculatedMd5 m') (Some (replicate 16 0))).
Proof.
  intros Hmd Hw Hl Hn Hb Hbb. pose proof (zlen_nonneg (encode_tlvs (tlvs m))).
  pose proof (fun data => proj1 (Hmd data)) as Hlen.
  set (d := wire_data (tlvs m)).
  exists (20 + zlen (encode_tlvs (tlvs m))), (mkMessage (tlvs m) None (Some (md5 d)) None),
    (splice buf 0 (d ++ md5 d)).
  split; [by apply serialize_ok |]. unfold splice. rewrite take_0. cbn [app].
  assert (zlen d = 4 + zlen (encode_tlvs (tlvs m))) as Hd by apply zlen_wire_data.
  assert (zlen (md5 d) = 16) as Hs by (unfold zlen; by rewrite Hlen).
  rewrite <- app_assoc. subst d. rewrite deserialize_wire; try done; try lia.
  - unfold received_message. cbn [calculatedMd5]. by rewrite xor_bytes_self, Hlen.
  - apply Hmd.
  - by apply Forall_drop.
  - rewrite !zlen_app. pose proof (zlen_nonneg (drop (0 + length (wire_data (tlvs m) ++ md5 (wire_data (tlvs m)))) buf)). lia.
Qed.

(** C37.  A record longer than 255 bytes can overrun the client's buffer: its
    length counts modulo 256 in the size check, so that a value which fills the
    buffer passes it and the checksum is written behind the end. *)
Theorem serialize_overrun md5 tag v n buf :
  (forall data, length (md5 data) = 16%nat) -> zlen v = n - 6 -> 300 <= n < 2 ^ 32 -> n = zlen buf ->
  (serialize md5 (mkMessage [Tlv tag v] None None None) n (BufSt tt buf)).1 = Undef.
Proof.
  intros Hmd Hv Hn Hb. unfold serialize.
  assert (0 <= getCompleteSizeOfMsgInBytes (mkMessage [Tlv tag v] None None None) <= 277) as Hsz.
  { unfold getCompleteSizeOfMsgInBytes, getLength. cbn [tlvs foldl tlv_value].
    pose proof (u8_byte (zlen v)) as Hu. unfold is_byte in Hu.
    rewrite (u32_id (4 + _)) by (unfold is_u32; lia). rewrite u32_id by (unfold is_u32; lia). lia. }
  set (size := getCompleteSizeOfMsgInBytes _) in *.
  destruct (Z.gtb_spec size n); [lia |]. rewrite (bind_lift _ _ _ tt) by done. rewrite client_toLE32_bytes.
  rewrite (bind_val _ _ _ tt (BufSt tt (splice buf 0 (le_bytes 4 size))))
    by (rewrite wr_range_ok by (rewrite ?zlen_le_bytes; lia); done).
  cbn [tlvs serializeTlvs].
  assert (exists b, TLV_serialize (Tlv tag v) 4 (n - 4) (BufSt tt (splice buf 0 (le_bytes 4 size))) =
    (Val (n - 4), BufSt tt (splice buf 0 b)) /\ zlen b = n) as (b & Eb & Hbl).
  { unfold TLV_serialize. cbn [tlv_tag tlv_value]. destruct (Z.ltb_spec (n - 4) (2 + zlen v)); [lia |].
    rewrite (bind_lift _ _ _ tt) by done.
    erewrite bind_val by (apply wr_append; [done | rewrite zlen_le_bytes; lia]).
    erewrite bind_val by (apply wr_append; rewrite ?zlen_app, ?zlen_le_bytes;
      [done | rewrite ?zlen_cons, ?zlen_nil; lia]).
    erewrite bind_val by (apply wr_range_append; rewrite ?zlen_app, ?zlen_le_bytes; [done |];
      rewrite ?zlen_cons, ?zlen_nil; lia).
    eexists. split; [by replace (2 + zlen v) with (n - 4) by lia |].
    rewrite !zlen_app, zlen_le_bytes, !zlen_cons, zlen_nil. lia. }
  rewrite (bind_val _ _ _ n (BufSt tt (splice buf 0 b)))
    by (rewrite (bind_val _ _ _ _ _ Eb); unfold mret, M_ret; do 2 f_equal; lia).
  erewrite bind_val by (apply rd_prefix_ok; lia).
  specialize (Hmd b). destruct (md5 b) as [| x l]; [done |].
  cbn [wr_range]. unfold mbind, M_bind, wr. cbn [st_buf].
  destruct (Z.leb_spec (zlen (splice buf 0 b)) n) as [Hle | Hgt].
  - by rewrite orb_true_r.
  - unfold zlen in *. rewrite length_splice in Hgt by lia. lia.
Qed.
