(* ===== verification/NhacNet.v ===== *)
(** * src/tools/src/nhac.cpp: the client's connection

    Connecting, sending a query and receiving its response.  The answers of the
    socket calls are arguments, as in [Responder.v]; a thrown exception is
    [Ret 1]. *)

From S2P Require Import Prelude Memory Protocol Responder ResponderSpec Nhac.
From stdpp Require Import gmap.

Local Open Scope Z_scope.

(** ** connectToNha *)

(** What getaddrinfo() returns for a node and a service, with the list it
    allocates on success: its first node and the others, each the address of
    its sockaddr and the content; the memory of the process besides; the
    descriptor of socket(); and whether connect() succeeds on a sockaddr. *)
Record connect_answers := {
  addrinfoResult : list Z -> list Z -> Z;
  addrinfoFirst : list Z -> list Z -> Z * list Z;
  addrinfoNext : list Z -> list Z -> list (Z * list Z);
  other_memory : gmap Z (list Z);
  sockfd : Z;
  connect_ok : list Z -> bool;
}.

(** connect() reads the sockaddr it is given a pointer to. *)
Definition connect (a : connect_answers) (memory : gmap Z (list Z)) (addr : Z) : outcome bool :=
  match memory !! addr with
  | Some sockaddr => Val (connect_ok a sockaddr)
  | None => Undef
  end.

(** freeaddrinfo() releases the nodes of the list, and nothing else. *)
Definition freeaddrinfo (nodes : list (Z * list Z)) (memory : gmap Z (list Z)) : gmap Z (list Z) :=
  foldr (fun node memory => delete node.1 memory) memory nodes.

Definition connectToNha (a : connect_answers) (ip port : list Z) : outcome Z :=
  throw_if (negb (addrinfoResult a ip port =? 0)) ;;
  let addrinfoList := addrinfoFirst a ip port :: addrinfoNext a ip port in
  let memory := list_to_map addrinfoList ∪ other_memory a in
  let serverAddr_ai_addr := (addrinfoFirst a ip port).1 in
  let memory := freeaddrinfo addrinfoList memory in
  throw_if (sockfd a =? -1) ;;
  connected ← connect a memory serverAddr_ai_addr;
  throw_if (negb connected) ;;
  Val (sockfd a).

(** ** sendQuery *)

(** The loop of lines 621-626: [res] is the result of the last send() of the [n]
    bytes [data]; the pieces the kernel took. *)
Fixpoint sendLoop (fuel : nat) (send : nat -> list Z -> Z) (k : nat) (data : list Z) (res : Z) :
    outcome (list (list Z)) :=
  if negb (res =? -1) && negb (res =? zlen data) then
    match fuel with
    | O => NoFuel
    | S fuel =>
        let rest := drop (Z.to_nat res) data in
        pieces ← sendLoop fuel send (S k) rest (send (S k) rest);
        Val (take (Z.to_nat res) data :: pieces)
    end
  else if res =? -1 then throw
  else Val [data].

Definition sendQuery (send : nat -> list Z -> Z) (data : list Z) : outcome (list (list Z)) :=
  sendLoop (length data) send 0 data (send 0%nat data).

(** ** receiveResponse *)

(** The loop of lines 639-644: [a] is the answer of the last recv() of [n] bytes
    at [pos]. *)
Fixpoint responseLoop (fuel : nat) (c : connection) (k : nat) (a : recv_answer) (pos n : Z)
    (buf : list Z) : outcome (recv_answer * list Z) :=
  let res := recvResult a in
  if negb (res =? -1) && negb (res =? 0) && negb (res =? n) then
    match fuel with
    | O => NoFuel
    | S fuel =>
        let pos := pos + res in
        let n := u64 (n - res) in
        let a := recv c (S k) n in
        buf ← store a pos buf;
        responseLoop fuel c (S k) a pos n buf
    end
  else Val (a, buf).

(** The size of the response and the buffer; [n] is the buffer's size. *)
Definition receiveResponse (fuel : nat) (c : connection) (buf : list Z) (n : Z) :
    outcome (Z * list Z) :=
  let a := recv c 0 4 in
  buf ← store a 0 buf;
  throw_if (recvResult a =? -1) ;;
  throw_if (negb (recvResult a =? 4)) ;;
  t0 ← rd buf 0;
  t1 ← rd buf 1;
  t2 ← rd buf 2;
  t3 ← rd buf 3;
  let completeSizeOfMsgInBytes := fromLE32 t0 t1 t2 t3 in
  let n := u64 (Z.min n completeSizeOfMsgInBytes - 4) in
  let a := recv c 1 n in
  buf ← store a 4 buf;
  '(a, buf) ← responseLoop fuel c 1 a 4 n buf;
  throw_if (recvResult a =? -1) ;;
  throw_if (recvResult a =? 0) ;;
  Val (completeSizeOfMsgInBytes, buf).

(** ** Theorems *)

(** C40.  Connecting uses freed memory: whenever the name resolves and a socket
    is available, connect() is given the address inside the list that
    freeaddrinfo() has already released. *)
Theorem connect_after_free a ip port :
  addrinfoResult a ip port = 0 -> sockfd a <> -1 -> connectToNha a ip port = Undef.
Proof.
  intros Hr Hs. unfold connectToNha, connect, freeaddrinfo. rewrite Hr.
  destruct (Z.eqb_spec (sockfd a) (-1)); [done |].
  cbn [foldr throw_if negb Z.eqb mbind outcome_bind]. by rewrite lookup_delete_eq.
Qed.

(** The size field of a response has to come in one piece: a recv() that yields
    only a part of it is an error, although the rest is on its way. *)
Lemma split_size_throws fuel c buf n sz :
  recv c 0 4 = Received sz -> length sz <> 4%nat -> zlen sz <= zlen buf ->
  receiveResponse fuel c buf n = throw.
Proof.
  intros Hr Hl Hb. unfold receiveResponse. rewrite Hr. pose proof (zlen_nonneg sz).
  rewrite store_ok by (cbn [recvResult]; lia). cbn [mbind outcome_bind recvResult].
  destruct (Z.eqb_spec (zlen sz) (-1)); [lia |]. destruct (Z.eqb_spec (zlen sz) 4); [| done].
  unfold zlen in *. lia.
Qed.

(** send() takes at least one byte and no more than there are, or fails. *)
Definition send_ok (send : nat -> list Z -> Z) : Prop :=
  forall k data, data <> [] -> send k data = -1 \/ 1 <= send k data <= zlen data.

(** send() fails at some call with a part of [data]. *)
Definition send_fails (send : nat -> list Z -> Z) (data : list Z) : Prop :=
  exists k i, send k (drop i data) = -1.

Lemma sendLoop_complete send fuel k data :
  send_ok send -> (length data <= fuel)%nat -> data <> [] ->
  (send_fails send data /\ sendLoop fuel send k data (send k data) = throw) \/
  exists pieces, sendLoop fuel send k data (send k data) = Val pieces /\ concat pieces = data.
Proof.
  intros Hs. revert k data. induction fuel as [| fuel IH]; intros k data Hf Hd;
    [destruct data; [done | cbn in Hf; lia] |].
  cbn [sendLoop]. destruct (Hs k data Hd) as [E | Hr].
  { left. rewrite E. split; [by exists k, 0%nat | done]. }
  destruct (Z.eqb_spec (send k data) (-1)); [lia |].
  destruct (Z.eqb_spec (send k data) (zlen data)) as [E | Hne]; cbn [negb andb].
  { right. exists [data]. cbn. by rewrite app_nil_r. }
  unfold zlen in *.
  destruct (IH (S k) (drop (Z.to_nat (send k data)) data)) as [[(j & i & Hj) ->] | (ps & -> & Ec)].
  - rewrite length_drop. lia.
  - intros E. apply (f_equal length) in E. rewrite length_drop in E. cbn in E. lia.
  - left. split; [| done]. exists j. eexists. by rewrite <- drop_drop.
  - right. eexists. split; [done |]. cbn [concat]. by rewrite Ec, take_drop.
Qed.

(** C28.  A query is sent completely, however few bytes the kernel takes at a
    time: the loop ends, and unless a send() fails, the pieces the kernel took
    are the query, in order. *)
Theorem sendQuery_complete send data :
  send_ok send -> data <> [] -> ~ send_fails send data ->
  exists pieces, sendQuery send data = Val pieces /\ concat pieces = data.
Proof.
  intros Hs Hd Hn. by destruct (sendLoop_complete send (length data) 0 data Hs (le_n _) Hd) as [[? _] | ?].
Qed.

(** The four size bytes have been stored: what is asked for next. *)
Lemma receive_size fuel c buf n sz :
  recv c 0 4 = Received sz -> length sz = 4%nat -> bytes sz -> 4 <= zlen buf ->
  let size := le_value sz in
  let m := u64 (Z.min n size - 4) in
  receiveResponse fuel c buf n =
    (buf ← store (recv c 1 m) 4 (splice buf 0 sz);
     '(a, buf) ← responseLoop fuel c 1 (recv c 1 m) 4 m buf;
     throw_if (recvResult a =? -1) ;;
     throw_if (recvResult a =? 0) ;;
     Val (size, buf)).
Proof.
  intros Hr Hl Hb Hbuf. unfold receiveResponse. rewrite Hr.
  assert (recvResult (Received sz) = 4) as H4 by (cbn; unfold zlen; by rewrite Hl).
  rewrite store_ok by (rewrite ?H4; lia). rewrite H4. cbn [mbind outcome_bind Z.eqb negb throw_if Z.to_nat].
  destruct sz as [| t0 [| t1 [| t2 [| t3 [| ]]]]]; try done. rewrite <- client_fromLE32_value by done. reflexivity.
Qed.

(** C38.  A response announcing fewer than 4 bytes can overrun the client's
    buffer: the number of bytes still to be received wraps around, and a server
    that keeps sending has them stored behind its end. *)
Theorem response_underflow fuel buf n size :
  n = zlen buf -> 4 <= n < 2 ^ 32 -> 0 <= size < 4 ->
  exists c, recv_ok c /\ recv c 0 4 = Received (le_bytes 4 size) /\
    receiveResponse fuel c buf n = Undef.
Proof.
  intros Hn Hr Hs.
  set (c := Connection (fun k m => Received (take (Z.to_nat m)
    (if Nat.eqb k 0 then le_bytes 4 size else replicate (Z.to_nat n) 0))) (fun _ => 0)).
  exists c. split.
  { intros k m Hm. cbn [recv c]. split; [unfold zlen; rewrite length_take; lia |].
    apply Forall_take. case_test; [apply le_bytes_bytes | apply Forall_replicate; unfold is_byte; lia]. }
  split; [done |].
  rewrite (receive_size fuel c buf n (le_bytes 4 size)) by (try apply le_bytes_bytes; done || lia).
  rewrite le_value_bytes, Z.mod_small by lia. cbn [recv c Nat.eqb].
  rewrite take_ge.
  2: { rewrite length_replicate. unfold u64. rewrite <- (Z_mod_plus_full _ 1), Z.mod_small by lia. lia. }
  unfold store. assert (zlen (splice buf 0 (le_bytes 4 size)) = n) as ->.
  { unfold zlen in *. rewrite length_splice; [done |]. rewrite length_le_bytes. lia. }
  unfold zlen. rewrite length_replicate. by destruct (Z.ltb_spec n (4 + Z.of_nat (Z.to_nat n))); [| lia].
Qed.

(** Pieces of a response that arrive one after the other. *)
Lemma responseLoop_ok fuel c k d chunks pos n buf :
  (forall i m, recv c (S (k + i)) m =
     match chunks !! i with Some x => Received (take (Z.to_nat m) x) | None => WouldBlock end) ->
  Forall (fun x => x <> []) (d :: chunks) -> (length chunks <= fuel)%nat ->
  n = zlen (d ++ concat chunks) -> 0 <= pos -> pos + n <= zlen buf -> zlen buf < 2 ^ 32 ->
  exists a, responseLoop fuel c k (Received d) pos n (splice buf (Z.to_nat pos) d) =
      Val (a, splice buf (Z.to_nat pos) (d ++ concat chunks)) /\ 0 < recvResult a.
Proof.
  revert fuel k d pos n buf. induction chunks as [| d' chunks IH]; intros fuel k d pos n buf Hc Hne Hf -> Hp Hl Hb;
    apply Forall_cons in Hne as [Hd Hne];
    (assert (0 < zlen d) as Hd0 by (destruct d; [done | unfold zlen; cbn; lia])).
  - cbn [concat]. rewrite app_nil_r. exists (Received d). split; [| done].
    destruct fuel; cbn [responseLoop recvResult]; by rewrite Z.eqb_refl, andb_false_r.
  - destruct fuel as [| fuel]; [cbn in Hf; lia |]. cbn [concat] in *. rewrite !zlen_app in *.
    pose proof Hne as [Hd' _]%Forall_cons.
    assert (0 < zlen d') as Hd0' by (destruct d'; [done | unfold zlen; cbn; lia]).
    pose proof (zlen_nonneg (concat chunks)). cbn [responseLoop recvResult].
    destruct (Z.eqb_spec (zlen d) (-1)); [lia |]. destruct (Z.eqb_spec (zlen d) 0); [lia |].
    destruct (Z.eqb_spec (zlen d) (zlen d + (zlen d' + zlen (concat chunks)))); [lia |]. cbn [negb andb].
    replace (zlen d + (zlen d' + zlen (concat chunks)) - zlen d) with (zlen (d' ++ concat chunks))
      by (rewrite zlen_app; lia).
    rewrite u64_id by (unfold is_u64; rewrite zlen_app; lia).
    pose proof (Hc 0%nat (zlen (d' ++ concat chunks))) as H0. rewrite Nat.add_0_r in H0. cbn in H0.
    rewrite H0. rewrite take_ge by (unfold zlen; rewrite length_app; lia).
    assert (zlen (splice buf (Z.to_nat pos) d) = zlen buf) as Hsl
      by (unfold zlen in *; rewrite length_splice; lia).
    rewrite store_ok by (cbn [recvResult]; lia). cbn [mbind outcome_bind].
    destruct (IH fuel (S k) d' (pos + zlen d) (zlen (d' ++ concat chunks)) (splice buf (Z.to_nat pos) d)) as (a & E & Ha);
      try done; try (rewrite ?zlen_app, ?Hsl; lia).
    { intros i m. replace (S k + i)%nat with (k + S i)%nat by lia. apply Hc. }
    { cbn in Hf. lia. }
    exists a. rewrite E. split; [| done]. f_equal. f_equal.
    replace (Z.to_nat (pos + zlen d)) with (Z.to_nat pos + length d)%nat by (unfold zlen; lia).
    apply splice_app. unfold zlen in *. lia.
Qed.

(** A response is received completely however TCP cuts it: when its size field
    arrives first and the rest in any number of pieces, the buffer holds the
    response and its size is returned. *)
Lemma receiveResponse_ok fuel c sz chunks buf n :
  delivers (sz :: chunks) c -> length sz = 4%nat -> bytes sz ->
  chunks <> [] -> Forall (fun x => x <> []) chunks -> (length chunks <= fuel)%nat ->
  let m := concat (sz :: chunks) in
  le_value sz = zlen m -> zlen m <= n -> n <= zlen buf -> zlen buf < 2 ^ 32 ->
  receiveResponse fuel c buf n = Val (zlen m, splice buf 0 m).
Proof.
  intros Hc Hl Hb Hch Hne Hfuel m Hsz Hm Hn Hbuf. subst m. cbn [concat] in *.
  assert (zlen sz = 4) as H4 by (unfold zlen; by rewrite Hl). rewrite zlen_app, H4 in *.
  pose proof (zlen_nonneg (concat chunks)).
  pose proof (Hc 0%nat 4) as Hc0. cbn in Hc0. rewrite take_ge in Hc0 by (rewrite Hl; done).
  rewrite (receive_size _ c buf n sz Hc0 Hl Hb) by lia. rewrite Hsz, Z.min_r by lia.
  replace (4 + zlen (concat chunks) - 4) with (zlen (concat chunks)) by lia.
  rewrite u64_id by (unfold is_u64; lia).
  destruct chunks as [| d chunks]; [done |]. cbn [concat] in *. rewrite zlen_app in *.
  pose proof (zlen_nonneg (concat chunks)). pose proof (zlen_nonneg d).
  pose proof (Hc 1%nat (zlen d + zlen (concat chunks))) as Hc1. cbn in Hc1.
  rewrite take_ge in Hc1 by (unfold zlen; lia). rewrite Hc1.
  assert (zlen (splice buf 0 sz) = zlen buf) as Hsl by (unfold zlen in *; rewrite length_splice; lia).
  rewrite store_ok by (cbn [recvResult]; lia). cbn [mbind outcome_bind].
  destruct (responseLoop_ok fuel c 1 d chunks 4 (zlen d + zlen (concat chunks))
    (splice buf 0 sz)) as (a & -> & Ha);
    first [done | lia | intros i k; apply (Hc (S (S i))) | cbn in Hfuel; lia | by rewrite zlen_app | idtac].
  cbn [mbind outcome_bind]. destruct (Z.eqb_spec (recvResult a) (-1)); [lia |].
  destruct (Z.eqb_spec (recvResult a) 0); [lia |]. cbn [throw_if mbind outcome_bind].
  f_equal. f_equal. replace (Z.to_nat 4) with (0 + length sz)%nat by lia.
  apply splice_app. unfold zlen in *. lia.
Qed.
