(* ===== verification/EndToEnd.v ===== *)
(** * Client and server together

    A query described to the client, sent to the server, answered by the
    message builder over the real timer and TPM cache, and decoded by the
    client; and instances of the theorems on the client. *)

From S2P Require Import Prelude Memory Protocol Hardware MessageBuilder MessageBuilderSpec.
From S2P Require Import Queries Concrete MessageBuilderTheorems MonotonicTimer TPMWatcher.
From S2P Require Import System Responder ResponderSpec Nhac NhacNet.
From stdpp Require Import gmap.

Local Open Scope Z_scope.

Section EndToEnd.
Context {W : Type} `{HwLaws W}.
Context (EVP_Q_digest : list Z -> option (list Z)) (md5 : list Z -> list Z).

(** Both libraries compute the same digest. *)
Definition same_md5 : Prop :=
  forall data, EVP_Q_digest data = Some (md5 data) /\ length (md5 data) = 16%nat /\ bytes (md5 data).

Lemma same_md5_total : same_md5 -> digest_total EVP_Q_digest.
Proof. intros Hs data. exists (md5 data). apply Hs. Qed.

Lemma same_md5_compute data : same_md5 -> computeMD5 EVP_Q_digest data = Some (md5 data).
Proof.
  intros Hs. destruct (Hs data) as (E & Hl & _). unfold computeMD5. rewrite E. unfold zlen, CHECKSUM_SIZE.
  by rewrite Hl.
Qed.

Lemma wf_header_tlvs flags : is_byte flags -> Forall wf_tlv (header_tlvs [flags]).
Proof.
  intros Hf. unfold header_tlvs, wf_tlv, is_byte in *.
  repeat (apply Forall_cons; split; [cbn; repeat split; try lia; repeat (constructor; [unfold is_byte; lia |]);
    constructor |]). constructor.
Qed.

Lemma reply_flags_byte flags : is_byte (reply_flags flags).
Proof. unfold reply_flags, is_byte. case_test; lia. Qed.

(** The query of the server's theorems is what the client serialises. *)
Lemma query_of_wire flags ts :
  same_md5 ->
  query_of EVP_Q_digest flags ts =
    Some (wire_data (header_tlvs [flags] ++ ts) ++ md5 (wire_data (header_tlvs [flags] ++ ts))).
Proof.
  intros Hs. unfold query_of, sign. rewrite unsigned_message_wire, same_md5_compute by done. done.
Qed.

Lemma zlen_header_tlvs flags ts :
  zlen (encode_tlvs (header_tlvs [flags] ++ ts)) = 18 + zlen (encode_tlvs ts).
Proof. by rewrite encode_tlvs_app, zlen_app. Qed.

(** The bytes of a query and of its reply, and their sizes. *)
Lemma zlen_signed flags ts :
  same_md5 ->
  let q := wire_data (header_tlvs [flags] ++ ts) in
  zlen (q ++ md5 q) = 38 + zlen (encode_tlvs ts).
Proof.
  intros Hs. destruct (Hs (wire_data (header_tlvs [flags] ++ ts))) as (_ & Hl & _). cbn zeta.
  rewrite zlen_app, zlen_wire_data, zlen_header_tlvs. unfold zlen at 2. rewrite Hl. lia.
Qed.

(** The client serialises the query the server expects. *)
Lemma serialize_query flags ts cbuf :
  same_md5 -> query_ok flags ts -> 38 + zlen (encode_tlvs ts) <= zlen cbuf < 2 ^ 32 ->
  let q := wire_data (header_tlvs [flags] ++ ts) in
  let m := header_tlvs [flags] ++ ts in
  let size := 38 + zlen (encode_tlvs ts) in
  serialize md5 (mkMessage m None None None) (zlen cbuf) (BufSt tt cbuf) =
    (Val (size, mkMessage m None (Some (md5 q)) None), BufSt tt (splice cbuf 0 (q ++ md5 q))) /\
  take (Z.to_nat size) (splice cbuf 0 (q ++ md5 q)) = q ++ md5 q.
Proof.
  intros Hs [Hf Hwf _] Hc. cbn zeta. pose proof (zlen_signed flags ts Hs) as Hz. cbn zeta in Hz.
  assert (is_byte flags) by (unfold is_byte; destruct Hf; lia). split.
  - rewrite serialize_ok; cbn [tlvs]; rewrite ?zlen_header_tlvs; try done; try lia.
    + by replace (20 + (18 + zlen (encode_tlvs ts))) with (38 + zlen (encode_tlvs ts)) by lia.
    + intros data. apply Hs.
    + apply Forall_app. split; [by apply wf_header_tlvs | done].
  - apply take_splice; unfold zlen in *; lia.
Qed.

(** The client decodes a reply of the server, followed by whatever the buffer
    held. *)
Lemma deserialize_reply flags ts dev rx tx lu post :
  same_md5 -> Forall wf_tlv ts -> length dev = 16%nat -> bytes dev -> bytes post ->
  let rts := header_tlvs [reply_flags flags] ++ reply_tlvs ts dev rx tx lu in
  let calculated := md5 (wire_data rts) in
  let sum := if flags =? 2 then xor_bytes calculated dev else calculated in
  deserialize md5 ((wire_data rts ++ sum) ++ post) (38 + reply_size ts) =
    Val (38 + reply_size ts, mkMessage rts (Some sum) (Some calculated)
      (Some (if flags =? 2 then dev else replicate 16 0))) /\
  zlen (wire_data rts ++ sum) = 38 + reply_size ts.
Proof.
  intros Hs Hw Hd Hdb Hp rts calculated sum. pose proof (reply_size_bounds ts Hw).
  destruct (Hs (wire_data rts)) as (_ & Hl & Hbm). fold calculated in Hl, Hbm.
  assert (length sum = 16%nat /\ bytes sum) as [Hsl Hsb].
  { subst sum. case_test; [| done]. split; [rewrite length_xor_bytes; congruence | by apply bytes_xor_bytes]. }
  assert (zlen (encode_tlvs rts) = 18 + reply_size ts) as Hrz
    by (unfold rts; by rewrite zlen_header_tlvs, zlen_encode_reply).
  assert (zlen (wire_data rts ++ sum) = 38 + reply_size ts) as Hwz
    by (rewrite zlen_app, zlen_wire_data, Hrz; unfold zlen; rewrite Hsl; lia).
  split; [| done]. rewrite <- app_assoc.
  rewrite deserialize_wire; try done; try (rewrite ?Hrz; lia).
  - rewrite Hrz. replace (20 + (18 + reply_size ts)) with (38 + reply_size ts) by lia.
    unfold received_message. fold calculated. do 4 f_equal. subst sum.
    case_test; [apply xor_bytes_cancel; congruence | by rewrite xor_bytes_self, Hl].
  - apply Forall_app. split; [apply wf_header_tlvs, reply_flags_byte | by apply wf_reply_tlvs].
  - rewrite app_assoc, zlen_app, Hwz. pose proof (zlen_nonneg post). lia.
Qed.

Lemma reply_flags_xor flags : (reply_flags flags =? 1) = (flags =? 2).
Proof. unfold reply_flags. by case_test. Qed.

(** C3.  A question and its answer, when both libraries compute the same MD5: for
    every well-formed query the client can describe, without a supported record
    twice or of a wrong length and with a reply that fits, what the client
    serialises is accepted by the server, and what the server writes into its
    buffer is decoded by the client as the header and exactly the records asked
    for; the xor of the two checksums is the device ID if that was requested,
    and zero otherwise. *)
Theorem query_response flags ts cbuf buf limit w rx w1 dev w2 tx lu w' :
  same_md5 -> query_ok flags ts -> acceptable limit ts ->
  38 + zlen (encode_tlvs ts) <= zlen cbuf < 2 ^ 32 ->
  bytes buf -> is_u32 limit -> limit <= zlen buf -> hw_ok w ->
  timer_get w = (rx, w1) -> tpm_get w1 = (dev, w2) -> body_readings ts w2 = (tx, lu, w') ->
  exists size qmsg cbuf' n sbuf received calculated,
    serialize md5 (mkMessage (header_tlvs [flags] ++ ts) None None None) (zlen cbuf) (BufSt tt cbuf) =
      (Val (size, qmsg), BufSt tt cbuf') /\
    createResponse EVP_Q_digest (Some (take (Z.to_nat size) cbuf')) size (Some buf) limit w =
      (Val n, BufSt w' sbuf) /\
    deserialize md5 sbuf n =
      Val (n, mkMessage (header_tlvs [reply_flags flags] ++ reply_tlvs ts dev rx tx lu)
                (Some received) (Some calculated)
                (Some (if flags =? 2 then dev else replicate 16 0))).
Proof.
  intros Hs Hq Ha Hcl Hb Hlim Hbuf Hw E1 E2 E3. pose proof Hq as [Hf Hwf Hsz].
  destruct (first_readings _ _ _ _ _ Hw E1 E2) as (_ & Hd & Hdb & _).
  destruct (serialize_query flags ts cbuf Hs Hq Hcl) as [Eq Et].
  pose proof (query_of_wire flags ts Hs) as Hm. pose proof (zlen_signed flags ts Hs) as Hz. cbn zeta in *.
  destruct (deserialize_reply flags ts dev rx tx lu
    (drop (Z.to_nat (38 + reply_size ts)) buf) Hs Hwf Hd Hdb (Forall_drop _ _ _ Hb)) as [Ed Hwz].
  pose proof (run_query EVP_Q_digest flags ts _ buf limit w (same_md5_total Hs) Hq Hm Hlim Hbuf Hw) as Hr.
  rewrite Hz, (spec_reply_query EVP_Q_digest flags ts _ limit w _ _ _ _ Hq Hm E1 E2) in Hr.
  rewrite decide_True, E3 in Hr by done. unfold sign in Hr.
  rewrite same_md5_compute, unsigned_message_wire in Hr by done. cbn [mbind option_bind] in Hr.
  rewrite reply_flags_xor in Hr. do 2 eexists. exists (splice cbuf 0 (wire_data (header_tlvs [flags] ++ ts) ++ md5 (wire_data (header_tlvs [flags] ++ ts)))).
  rewrite Eq, Et. eexists _, _, _, _. split; [done |]. split; [exact Hr |].
  unfold reply_result, reply_buffer. rewrite Hwz, splice_0. rewrite <- Ed. f_equal. f_equal. f_equal.
  unfold zlen in *. lia.
Qed.
End EndToEnd.

(** Where the cache stands at the readings of one query: the watcher publishes
    [id] between the read of the device ID and that of its time. *)
Lemma torn_readings ts w s1 s2 s3 rest tss id :
  world_ok w -> wants LastUpdated ts = true ->
  w_schedule w = s1 :: s2 :: s3 :: rest -> watcher_run s1 = None -> watcher_run s2 = None ->
  watcher_run s3 = Some tss -> obtained_id tss = Some id ->
  match rest with s4 :: _ => watcher_run s4 = None | [] => True end ->
  exists rx w1 w2 tx w',
    timer_get w = (rx, w1) /\ tpm_get w1 = (deviceID (w_cache w), w2) /\
    body_readings ts w2 = (tx, lastUpdated (w_cache w'), w') /\
    w_cache w' = mkTPMWatcher id (now (advance w2)) /\ now w <= now (advance w2).
Proof.
  intros Hw Hlu Es H1 H2 H3 Hid Hrest.
  destruct (advance_quiet w) as [C1 S1]; [by rewrite Es |]. rewrite Es in S1. cbn [tail] in S1.
  destruct (advance_ok w Hw) as [W1 N1].
  destruct (advance_quiet (advance w)) as [C2 S2]; [by rewrite S1 |]. rewrite S1 in S2. cbn [tail] in S2.
  destruct (advance_ok _ W1) as [W2 N2].
  destruct (advance_update _ s3 rest tss id W2 S2 H3 Hid) as [C3 S3].
  destruct (advance_ok _ W2) as [W3 N3].
  destruct (advance_quiet (advance (advance (advance w)))) as [C4 _].
  { by rewrite S3. }
  exists (now (advance w)), (advance w), (advance (advance w)).
  unfold body_readings. rewrite Hlu. cbn [timer_get tpm_get tpm_getLastUpdated world_hw].
  unfold TPMWatcher.get, getLastUpdated. rewrite C2, C1.
  destruct (wants TimerTx ts); eexists _, _; (split; [done |]; split; [done |]; split; [done |]);
    (split; [| lia]); [by rewrite C4 | done].
Qed.

(** C35.  The device ID and its time can disagree: when the watcher publishes a new
    ID between the two reads of one query, the reply pairs (where the query asks
    for the ID, besides the time) the ID the cache held before with the time at
    which the new one was obtained; if the IDs differ, that is a pair the cache
    holds neither before nor after. *)
Theorem device_id_and_time_torn EVP_Q_digest flags ts m buf limit w s1 s2 s3 rest tss id :
  digest_total EVP_Q_digest -> query_ok flags ts -> query_of EVP_Q_digest flags ts = Some m ->
  acceptable limit ts -> is_u32 limit -> limit <= zlen buf -> world_ok w ->
  wants LastUpdated ts = true ->
  w_schedule w = s1 :: s2 :: s3 :: rest -> watcher_run s1 = None -> watcher_run s2 = None ->
  watcher_run s3 = Some tss -> obtained_id tss = Some id ->
  match rest with s4 :: _ => watcher_run s4 = None | [] => True end ->
  exists reply w' sbuf rx tx,
    createResponse EVP_Q_digest (Some m) (zlen m) (Some buf) limit w =
      (Val (zlen reply), BufSt w' sbuf) /\
    take (length reply) sbuf = reply /\
    parse_tlvs (message_body reply) =
      Some (reply_tlvs ts (deviceID (w_cache w)) rx tx (lastUpdated (w_cache w'))) /\
    deviceID (w_cache w') = id /\ now w <= lastUpdated (w_cache w').
Proof.
  intros Ht Hq Hm Ha Hlim Hbuf Hw Hlu Es H1 H2 H3 Hid Hrest.
  destruct (torn_readings ts w s1 s2 s3 rest tss id) as (rx & w1 & w2 & tx & w' & E1 & E2 & E3 & Ec & Hn);
    try done.
  change (hw_ok w) in Hw. destruct (first_readings _ _ _ _ _ Hw E1 E2) as (_ & Hd & Hdb & _).
  pose proof (run_query EVP_Q_digest flags ts m buf limit w Ht Hq Hm Hlim Hbuf Hw) as Hr.
  rewrite (spec_reply_query EVP_Q_digest flags ts m limit w _ _ _ _ Hq Hm E1 E2) in Hr.
  rewrite decide_True, E3 in Hr by done.
  destruct (sign_total EVP_Q_digest (reply_flags flags) (deviceID (w_cache w))
    (unsigned_message (reply_flags flags)
       (reply_tlvs ts (deviceID (w_cache w)) rx tx (lastUpdated (w_cache w')))) Ht) as [reply Hsg].
  rewrite Hsg in Hr. exists reply, w', (splice buf 0 reply), rx, tx.
  apply signed_message in Hsg as (d & _ & Hz & _ & _ & Hbd & _); [| by left].
  destruct Hq as [_ Hwf _]. rewrite zlen_encode_reply in Hz by done. destruct Ha as (_ & _ & Hfit).
  split; [exact Hr |]. split; [apply take_splice; [| done]; unfold zlen in *; lia |].
  rewrite Hbd, parse_encode by (by apply wf_reply_tlvs). rewrite Ec. done.
Qed.

(** A cache that holds the ID of an earlier update, and a TPM that has been
    given another endorsement key since. *)
Definition other_tss : Tss := {|
  Tss2_TctiLdr_Initialize _ := 0;
  Esys_Initialize := 0;
  Esys_CreatePrimary _ := (0, (true, true, true, true));
  Esys_ReadPublic := (0, (Some ([0x00; 0x0B] ++ replicate 16 5 ++ replicate 16 9), true));
|}.

Lemma other_tss_sane : tss_sane other_tss.
Proof.
  intros _. eexists. split; [done |]. split; [vm_compute; discriminate |].
  apply (bool_decide_unpack _). vm_compute. exact I.
Qed.

Definition updated_world : World :=
  mkWorld sample_timer (mkTPMWatcher (default [] (obtained_id sample_tss)) 1000) 5000
    [EnvStep 2400 None None; EnvStep 2400 None None; EnvStep 2400 (Some other_tss) None;
     EnvStep 2400 None None] false.

Lemma updated_world_ok : world_ok updated_world.
Proof.
  constructor.
  - exact sample_timer_wf.
  - reflexivity.
  - apply (bool_decide_unpack _). vm_compute. exact I.
  - vm_compute. discriminate.
  - split; [vm_compute; by split |]. vm_compute. reflexivity.
  - repeat constructor; try (vm_compute; discriminate). exact other_tss_sane.
  - vm_compute. split; discriminate.
  - reflexivity.
Qed.

Lemma device_id_and_time_torn_witness :
  exists reply w' sbuf rx tx,
    createResponse sum_digest (Some (sample_query 0 [Tlv 0x91 []; Tlv 0x94 []]))
      (zlen (sample_query 0 [Tlv 0x91 []; Tlv 0x94 []])) (Some sample_buffer) 400 updated_world =
      (Val (zlen reply), BufSt w' sbuf) /\
    take (length reply) sbuf = reply /\
    parse_tlvs (message_body reply) =
      Some (reply_tlvs [Tlv 0x91 []; Tlv 0x94 []] (replicate 15 16 ++ [48]) rx tx
              (lastUpdated (w_cache w'))) /\
    deviceID (w_cache w') = replicate 16 12 /\ now updated_world <= lastUpdated (w_cache w').
Proof.
  apply (device_id_and_time_torn sum_digest 0 [Tlv 0x91 []; Tlv 0x94 []]
    (sample_query 0 [Tlv 0x91 []; Tlv 0x94 []]) sample_buffer 400 updated_world
    (EnvStep 2400 None None) (EnvStep 2400 None None) (EnvStep 2400 (Some other_tss) None)
    [EnvStep 2400 None None] other_tss (replicate 16 12)); try concrete.
  - exact updated_world_ok.
Defined.

(** ** Instances of the theorems on the client *)

Lemma sum_same_md5 : same_md5 sum_digest sum_md5.
Proof. intros data. split; [done |]. apply sum_md5_ok. Qed.

Lemma bytes_zeros n : bytes (replicate n 0).
Proof. apply Forall_replicate. unfold is_byte. lia. Qed.

(** A message of the client with its checksum. *)
Definition sample_wire : list Z :=
  wire_data (header_tlvs [2] ++ sample_records) ++ sum_md5 (wire_data (header_tlvs [2] ++ sample_records)).

Lemma query_response_witness :
  exists size qmsg cbuf' n sbuf received calculated,
    serialize sum_md5 (mkMessage (header_tlvs [2] ++ sample_records) None None None)
      (zlen sample_buffer) (BufSt tt sample_buffer) = (Val (size, qmsg), BufSt tt cbuf') /\
    createResponse sum_digest (Some (take (Z.to_nat size) cbuf')) size (Some sample_buffer) 400 5 =
      (Val n, BufSt 7 sbuf) /\
    deserialize sum_md5 sbuf n =
      Val (n, mkMessage (header_tlvs [reply_flags 2] ++ reply_tlvs sample_records clock_device_id 5 6 0)
                (Some received) (Some calculated) (Some clock_device_id)).
Proof.
  apply (query_response sum_digest sum_md5 2 sample_records sample_buffer sample_buffer 400 5
    5 6 clock_device_id 6 6 0 7); try concrete.
  - exact sum_same_md5.
  - split; [vm_compute; discriminate | vm_compute; reflexivity].
  - apply bytes_zeros.
Defined.

Lemma deserialize_correct_witness :
  deserialize sum_md5 sample_wire 50 = throw \/
  exists ts sum, Forall wf_tlv ts /\ length sum = 16%nat /\ 20 + zlen (encode_tlvs ts) <= 50 /\
    take (length (wire_data ts) + 16) sample_wire = wire_data ts ++ sum /\
    deserialize sum_md5 sample_wire 50 =
      Val (20 + zlen (encode_tlvs ts), received_message sum_md5 ts sum).
Proof.
  apply (deserialize_correct sum_md5 sample_wire 50).
  - apply (bool_decide_unpack _). vm_compute. exact I.
  - split; vm_compute; discriminate.
Defined.

Lemma message_roundtrip_witness :
  exists size m' buf',
    serialize sum_md5 (mkMessage sample_records None None None) 400 (BufSt tt sample_buffer) =
      (Val (size, m'), BufSt tt buf') /\
    deserialize sum_md5 buf' size =
      Val (size, mkMessage sample_records (calculatedMd5 m') (calculatedMd5 m') (Some (replicate 16 0))).
Proof.
  apply (message_roundtrip sum_md5 (mkMessage sample_records None None None) 400 sample_buffer).
  - exact sum_md5_ok.
  - apply (qo_wf 0). concrete.
  - concrete.
  - reflexivity.
  - concrete.
  - apply bytes_zeros.
Defined.

Lemma serialize_overrun_witness :
  (serialize sum_md5 (mkMessage [Tlv 4 (replicate 394 1)] None None None) 400
     (BufSt tt sample_buffer)).1 = Undef.
Proof.
  apply (serialize_overrun sum_md5 4 (replicate 394 1) 400 sample_buffer).
  - intros data. apply sum_md5_ok.
  - reflexivity.
  - split; [vm_compute; discriminate | reflexivity].
  - reflexivity.
Defined.

(** An address list with two addresses, and a network that refuses nothing. *)
Definition sample_answers : connect_answers := {|
  addrinfoResult := fun _ _ => 0;
  addrinfoFirst := fun _ _ => (4096, [2; 0; 1; 2]);
  addrinfoNext := fun _ _ => [(8192, [10; 0; 1; 2])];
  other_memory := {[12288 := [1; 2; 3]]};
  sockfd := 3;
  connect_ok := fun _ => true;
|}.

Lemma connect_after_free_witness : connectToNha sample_answers [58; 58; 49] [55] = Undef.
Proof. apply (connect_after_free sample_answers); [reflexivity | discriminate]. Defined.

(** A kernel that takes at most three bytes at a time. *)
Lemma sendQuery_complete_witness :
  exists pieces, sendQuery (fun _ data => Z.min 3 (zlen data)) sample_wire = Val pieces /\
    concat pieces = sample_wire.
Proof.
  apply (sendQuery_complete (fun _ data => Z.min 3 (zlen data)) sample_wire).
  - intros k data Hd. right. destruct data; [done |]. unfold zlen. cbn [length]. lia.
  - discriminate.
  - intros (k & i & E). pose proof (zlen_nonneg (drop i sample_wire)). lia.
Defined.

Lemma response_underflow_witness :
  exists c, recv_ok c /\ recv c 0 4 = Received (le_bytes 4 3) /\
    receiveResponse 10 c sample_buffer 400 = Undef.
Proof.
  apply (response_underflow 10 sample_buffer 400 3).
  - reflexivity.
  - split; [discriminate | reflexivity].
  - split; [discriminate | reflexivity].
Defined.
