(* ===== verification/NhacParser.v ===== *)
(** * src/tools/src/nhac.cpp: the query description language

    The tokenizer and the parser of the client, on a stream of character codes.
    A thrown exception is [Ret 1]; the loops have the length of the input as
    fuel, which the theorems show to be enough. *)

From S2P Require Import Prelude Memory Protocol Nhac.
From stdpp Require Import strings.

Local Open Scope string_scope.
Local Open Scope list_scope.
Local Open Scope Z_scope.

(** ** Characters (the C locale) *)

Definition codes (s : string) : list Z :=
  map (fun a => Z.of_N (Ascii.N_of_ascii a)) (String.list_ascii_of_string s).

Definition isspace (c : Z) : bool := (c =? 32) || ((9 <=? c) && (c <=? 13)).
Definition isdigit (c : Z) : bool := (48 <=? c) && (c <=? 57).
Definition isupper (c : Z) : bool := (65 <=? c) && (c <=? 90).
Definition islower (c : Z) : bool := (97 <=? c) && (c <=? 122).
Definition isalnum (c : Z) : bool := isdigit c || isupper c || islower c.
Definition isxdigit (c : Z) : bool :=
  isdigit c || ((65 <=? c) && (c <=? 70)) || ((97 <=? c) && (c <=? 102)).
Definition toupper (c : Z) : Z := if islower c then c - 32 else c.

Definition NL : Z := 10.
Definition QUOTE : Z := 34.
Definition HASH : Z := 35.
Definition LPAR : Z := 40.
Definition RPAR : Z := 41.
Definition COMMA : Z := 44.
Definition LBRACE : Z := 123.
Definition RBRACE : Z := 125.

(** ** toHex *)

Definition xDigits : list Z := codes "0123456789abcdef".

Definition toHex (x : Z) (withPrefix : bool) : list Z :=
  (if withPrefix then codes "0x" else []) ++
  [nth (Z.to_nat (Z.land (Z.shiftr x 4) 0xf)) xDigits 0; nth (Z.to_nat (Z.land x 0xf)) xDigits 0].

(** ** nextToken *)

(** Lines 401-417; [comment]: inside a comment. *)
Fixpoint skipBlanks (comment : bool) (inp : list Z) : list Z :=
  match inp with
  | [] => []
  | c :: rest =>
      if comment then skipBlanks (negb (c =? NL)) rest
      else if isspace c || (c =? COMMA) then skipBlanks false rest
      else if c =? HASH then skipBlanks true rest
      else inp
  end.

(** The longest prefix whose characters satisfy [p], and what follows it. *)
Fixpoint span (p : Z -> bool) (inp : list Z) : list Z * list Z :=
  match inp with
  | [] => ([], [])
  | c :: rest => if p c then let '(t, rest) := span p rest in (c :: t, rest) else ([], inp)
  end.

(** The next token (empty at the end of the input) and the rest of the input. *)
Definition nextToken (inp : list Z) : list Z * list Z :=
  match skipBlanks false inp with
  | [] => ([], [])
  | c :: rest =>
      if c =? QUOTE then
        let '(body, rest) := span (fun x => negb (x =? QUOTE) && negb (x =? NL)) rest in
        match rest with
        | x :: rest' => if x =? QUOTE then (c :: body ++ [x], rest') else (c :: body, rest)
        | [] => (c :: body, [])
        end
      else if isalnum c then let '(word, rest) := span isalnum rest in (c :: word, rest)
      else ([c], rest)
  end.

(** ** parse *)

Definition tagAliases : list (list Z * Z) :=
  [(codes "m", 0x00); (codes "magic", 0x00);
   (codes "v", 0x01); (codes "version", 0x01);
   (codes "t", 0x02); (codes "message_type", 0x02);
   (codes "f", 0x03); (codes "message_flags", 0x03);
   (codes "u", 0x04); (codes "user_data", 0x04);
   (codes "c", 0x90); (codes "capabilities", 0x90);
   (codes "d", 0x91); (codes "device_id", 0x91);
   (codes "rx", 0x92); (codes "monotonic_timer_rx", 0x92);
   (codes "tx", 0x93); (codes "monotonic_timer_tx", 0x93);
   (codes "l", 0x94); (codes "deviceid_last_updated", 0x94);
   (codes "e", 0xa0); (codes "temperatures", 0xa0)].

Fixpoint find_alias (id : list Z) (l : list (list Z * Z)) : option Z :=
  match l with
  | [] => None
  | (name, tag) :: l => if decide (id = name) then Some tag else find_alias id l
  end.

(** The value of a hexadecimal digit. *)
Definition xdigit_value (c : Z) : Z :=
  if isdigit c then c - 48 else if islower c then c - 87 else c - 55.

(** 0xHH, as a tag or as a byte of a value: [std::stoi(token, nullptr, 16)]. *)
Definition hexByte (token : list Z) : option Z :=
  match token with
  | [c0; c1; c2; c3] =>
      if (c0 =? 48) && (toupper c1 =? 88) && isxdigit c2 && isxdigit c3
      then Some (u8 (16 * xdigit_value c2 + xdigit_value c3)) else None
  | _ => None
  end.

Definition decimal (digits : list Z) : Z := foldl (fun n c => 10 * n + (c - 48)) 0 digits.

(** [std::stoull(token)] for digits with an optional suffix; it throws without
    a digit and beyond 64 bits. *)
Definition stoull (digits : list Z) : outcome Z :=
  throw_if (bool_decide (digits = [])) ;;
  throw_if (decimal digits >=? 2 ^ 64) ;;
  Val (decimal digits).

(** Lines 506-536: the bytes one value token stands for. *)
Definition parseValue (token : list Z) : outcome (list Z) :=
  match hexByte token with
  | Some b => Val [b]
  | None =>
      let back := List.last token 0 in
      if List.hd 0 token =? QUOTE then
        throw_if ((zlen token <? 2) || negb (back =? QUOTE)) ;;
        Val (map u8 (removelast (List.tl token)))
      else if (isdigit back || (toupper back =? 76)) && forallb isdigit (removelast token) then
        num ← stoull (if isdigit back then token else removelast token);
        Val (map (fun i => u8 (Z.land (Z.shiftr num (8 * i)) 0xFF)) (seqZ 0 (if isdigit back then 4 else 8)))
      else throw
  end.

(** Lines 504-538: the values up to the closing parenthesis; the token that
    ended the loop. *)
Fixpoint parseArgs (fuel : nat) (token inp args : list Z) : outcome (list Z * list Z * list Z) :=
  if bool_decide (token = []) || bool_decide (token = [RPAR]) then Val (args, token, inp)
  else
    match fuel with
    | O => NoFuel
    | S fuel =>
        bs ← parseValue token;
        let '(token, inp) := nextToken inp in
        parseArgs fuel token inp (args ++ bs)
    end.

(** Lines 548-577: what a tag identifier adds to the message. *)
Definition addTag (tagId args : list Z) (msg : Message) : outcome Message :=
  if decide (tagId = codes "H" \/ tagId = codes "Header") then
    let args := if decide (args = []) then [0x00] else args in
    Val (foldl (fun m t => add t m) msg (header_tlvs args))
  else
    match hexByte tagId with
    | Some tag => Val (add (Tlv tag args) msg)
    | None =>
        match find_alias tagId tagAliases with
        | Some tag => Val (add (Tlv tag args) msg)
        | None => throw
        end
    end.

(** The loop over the tags (lines 484-579). *)
Fixpoint parseTags (fuel : nat) (token inp : list Z) (msg : Message) : outcome (Message * list Z) :=
  if bool_decide (token = [RBRACE]) then Val (msg, inp)
  else
    match fuel with
    | O => NoFuel
    | S fuel =>
        throw_if (bool_decide (token = [])) ;;
        throw_if (bool_decide (token = [LBRACE]) || bool_decide (token = [LPAR])
                  || bool_decide (token = [RPAR])) ;;
        let tagId := token in
        let '(token, inp) := nextToken inp in
        '(args, token, inp) ←
          (if bool_decide (token = [LPAR]) then
             let '(token, inp) := nextToken inp in
             '(args, token, inp) ← parseArgs fuel token inp [];
             throw_if (bool_decide (token = [])) ;;
             let '(token, inp) := nextToken inp in
             Val (args, token, inp)
           else Val ([], token, inp));
        msg ← addTag tagId args msg;
        parseTags fuel token inp msg
    end.

(** [parse(msg, is)]: [None] when the input has ended, else the message and the
    rest of the input. *)
Definition parse (msg : Message) (inp : list Z) : outcome (option Message * list Z) :=
  let fuel := S (length inp) in
  let msg := clear msg in
  let '(token, inp) := nextToken inp in
  if bool_decide (token = []) then Val (None, inp)
  else
    throw_if (negb (bool_decide (token = [LBRACE]))) ;;
    let '(token, inp) := nextToken inp in
    '(msg, inp) ← parseTags fuel token inp msg;
    Val (Some msg, inp).

(** ** Termination *)

Lemma skipBlanks_length b inp : (length (skipBlanks b inp) <= length inp)%nat.
Proof.
  revert b. induction inp as [| c inp IH]; intros b; [done |]. cbn [skipBlanks].
  repeat case_test; cbn [length]; try (etransitivity; [apply IH | lia]); lia.
Qed.

Lemma span_app p inp : (span p inp).1 ++ (span p inp).2 = inp.
Proof.
  induction inp as [| c inp IH]; [done |]. cbn [span]. destruct (p c); [| done].
  destruct (span p inp) as [t rest]. cbn in *. by rewrite IH.
Qed.

Lemma span_length p inp t rest :
  span p inp = (t, rest) -> (length t + length rest = length inp)%nat.
Proof.
  intros E. pose proof (f_equal length (span_app p inp)) as Hl. rewrite E, length_app in Hl. done.
Qed.

(** A token consumes at least its own length; the empty one ends the input. *)
Lemma nextToken_length inp t rest :
  nextToken inp = (t, rest) -> (length t + length rest <= length inp)%nat /\ (t = [] -> rest = []).
Proof.
  unfold nextToken. pose proof (skipBlanks_length false inp) as Hs.
  destruct (skipBlanks false inp) as [| c inp']; [intros [= <- <-]; split; [cbn; lia | done] |].
  cbn [length] in Hs. case_test.
  - destruct (span _ inp') as [body r] eqn:E. apply span_length in E.
    destruct r as [| x r]; [| case_test]; intros [= <- <-]; cbn [length] in *;
      rewrite ?length_app; cbn [length]; (split; [lia | done]).
  - case_test; [| intros [= <- <-]; cbn [length]; split; [lia | done]].
    destruct (span _ inp') as [word r] eqn:E. apply span_length in E.
    intros [= <- <-]. cbn [length]. split; [lia | done].
Qed.

(** A computation that ends with a value or an exception. *)
Definition ends {A} (P : A -> Prop) (o : outcome A) : Prop :=
  match o with
  | Val a => P a
  | Ret v => v = 1
  | _ => False
  end.

Lemma ends_bind {A B} (P : A -> Prop) (Q : B -> Prop) (o : outcome A) (f : A -> outcome B) :
  ends P o -> (forall a, P a -> ends Q (f a)) -> ends Q (o ≫= f).
Proof. destruct o; cbn; auto; done. Qed.

Lemma throw_if_ends b : ends (fun _ => b = false) (throw_if b).
Proof. by destruct b. Qed.

Lemma parseValue_ends token : ends (fun _ => True) (parseValue token).
Proof.
  unfold parseValue, stoull. destruct (hexByte token); [done |].
  repeat case_test; try done; unfold throw_if; repeat case_test; done.
Qed.

Lemma parseArgs_ends fuel token inp args :
  token = [] \/ (length inp < fuel)%nat ->
  ends (fun r => (length r.2 <= length inp)%nat) (parseArgs fuel token inp args).
Proof.
  revert token inp args. induction fuel as [| fuel IH]; intros token inp args Hf; cbn [parseArgs];
    (case_bool_decide; [cbn; lia |]); cbn [orb]; (case_bool_decide; [cbn; lia |]).
  { destruct Hf; [done | lia]. }
  destruct Hf as [| Hf]; [done |].
  eapply ends_bind; [apply parseValue_ends |]. intros bs _.
  destruct (nextToken inp) as [t rest] eqn:E. apply nextToken_length in E as [Hl Hn].
  assert (t = [] \/ (length rest < fuel)%nat) as Hf'.
  { destruct t; [by left | right]. cbn [length] in Hl. lia. }
  specialize (IH t rest (args ++ bs) Hf'). destruct (parseArgs fuel t rest (args ++ bs)); cbn in *; lia || done.
Qed.

Lemma addTag_ends tagId args msg : ends (fun _ => True) (addTag tagId args msg).
Proof.
  unfold addTag. case_decide; [done |]. destruct (hexByte tagId); [done |].
  by destruct (find_alias tagId tagAliases).
Qed.

Lemma parseTags_ends fuel token inp msg :
  (token = [] -> (1 <= fuel)%nat) -> (token <> [] -> (length inp + 2 <= fuel)%nat) ->
  ends (fun r => (length r.2 <= length inp)%nat) (parseTags fuel token inp msg).
Proof.
  revert token inp msg. induction fuel as [| fuel IH]; intros token inp msg H0 H1; cbn [parseTags];
    (case_bool_decide; [cbn; lia |]).
  { destruct token; [specialize (H0 eq_refl); lia | specialize (H1 ltac:(done)); lia]. }
  eapply ends_bind; [apply throw_if_ends |]. intros _ Ht%bool_decide_eq_false.
  specialize (H1 Ht). eapply ends_bind; [apply throw_if_ends |]. intros _ _.
  destruct (nextToken inp) as [t rest] eqn:E. apply nextToken_length in E as [Hl Hn].
  eapply (ends_bind (fun r => (r.1.2 = [] \/ length r.2 + 1 <= length inp)%nat /\ (length r.2 <= length inp)%nat)).
  { case_bool_decide as Hp.
    - subst t. cbn [length] in Hl. destruct (nextToken rest) as [t2 rest2] eqn:E2.
      apply nextToken_length in E2 as [Hl2 _].
      eapply ends_bind; [apply parseArgs_ends; right; lia |]. intros [[args t3] rest3] Hr. cbn [snd] in Hr.
      eapply ends_bind; [apply throw_if_ends |]. intros _ _.
      destruct (nextToken rest3) as [t4 rest4] eqn:E4. apply nextToken_length in E4 as [Hl4 _].
      cbn [ends fst snd]. destruct t4; cbn [length] in *; (split; [| lia]); [by left | right; lia].
    - cbn [ends fst snd]. destruct t; cbn [length] in *; (split; [| lia]); [by left | right; lia]. }
  intros [[args t'] rest'] [Hr Hr']. cbn [fst snd] in *.
  eapply ends_bind; [apply addTag_ends |]. intros msg' _.
  specialize (IH t' rest' msg'). destruct (parseTags fuel t' rest' msg') as [r | | |] eqn:Ep; cbn in *; try done;
    try (enough (length r.2 <= length rest')%nat by lia); apply IH; intros Ht'; try lia;
    destruct Hr; congruence || lia.
Qed.

(** C25.  Parsing a query description always ends: whatever the input, the parser
    yields a message with a strictly shorter rest of the input, reports that
    the input is used up, or throws; so the loop over the queries ends too. *)
Theorem parse_total msg inp :
  (exists m rest, parse msg inp = Val (Some m, rest) /\ (length rest < length inp)%nat) \/
  parse msg inp = Val (None, []) \/
  parse msg inp = throw.
Proof.
  assert (ends (fun r => match r.1 with
    | Some _ => (length r.2 < length inp)%nat | None => r.2 = [] end) (parse msg inp)) as Hp.
  { unfold parse. destruct (nextToken inp) as [t rest] eqn:E. apply nextToken_length in E as [Hl Hn].
    case_bool_decide; [by apply Hn |]. eapply ends_bind; [apply throw_if_ends |]. intros _ _.
    destruct (nextToken rest) as [t2 rest2] eqn:E2. apply nextToken_length in E2 as [Hl2 Hn2].
    destruct t as [| c t]; [done |]. cbn [length] in Hl.
    eapply ends_bind; [apply (parseTags_ends (S (length inp))) |].
    - lia.
    - intros Ht2. destruct t2; [done |]. cbn [length] in *. lia.
    - intros [m r] Hr. cbn in *. lia. }
  destruct (parse msg inp) as [[[m |] rest] | v | |] eqn:E; cbn in Hp; try done.
  - left. by eexists _, _.
  - right; left. by subst rest.
  - right; right. by subst v.
Qed.

(** ** Descriptions of messages *)

(** A description with every tag and every byte of a value as 0xHH. *)
Definition describe_value (v : list Z) : list Z := concat (map (fun b => toHex b true ++ [32]) v).
Definition describe_tlv (t : tlv) : list Z :=
  toHex (tlv_tag t) true ++ LPAR :: describe_value (tlv_value t) ++ [RPAR].
Definition describe (ts : list tlv) : list Z := LBRACE :: concat (map describe_tlv ts) ++ [RBRACE].

(** What is needed of a byte in hexadecimal, checked for all 256. *)
Definition hex_ok (b : Z) : bool :=
  match toHex b true with
  | c :: w => isalnum c && negb (isspace c) && negb (c =? COMMA) && negb (c =? HASH) &&
              negb (c =? QUOTE) && forallb isalnum w && (zlen (c :: w) =? 4) &&
              bool_decide (hexByte (c :: w) = Some b)
  | [] => false
  end.

Lemma hex_ok_all b : is_byte b -> hex_ok b = true.
Proof.
  intros Hb. assert (forallb hex_ok (seqZ 0 256) = true) as Hall by (vm_compute; reflexivity).
  rewrite forallb_forall in Hall. apply Hall. apply list_elem_of_In, elem_of_seqZ. unfold is_byte in Hb. lia.
Qed.

Lemma span_stop p w sep rest :
  forallb p w = true -> p sep = false -> span p (w ++ sep :: rest) = (w, sep :: rest).
Proof.
  induction w as [| c w IH]; intros Hw Hs; cbn [span app]; [by rewrite Hs |].
  cbn [forallb] in Hw. apply andb_true_iff in Hw as [-> Hw]. by rewrite IH.
Qed.

(** A byte in hexadecimal is one token, if a character that cannot continue it
    follows. *)
Lemma nextToken_hex b sep rest :
  is_byte b -> isalnum sep = false ->
  nextToken (toHex b true ++ sep :: rest) = (toHex b true, sep :: rest) /\
  hexByte (toHex b true) = Some b /\ zlen (toHex b true) = 4.
Proof.
  intros Hb%hex_ok_all Hs. unfold hex_ok in Hb. destruct (toHex b true) as [| c w]; [done |].
  rewrite !andb_true_iff, !negb_true_iff, bool_decide_eq_true, Z.eqb_eq in Hb.
  destruct Hb as [[[[[[[H1 H2] H3] H4] H5] H6] H7] H8]. split; [| done].
  unfold nextToken. cbn [app skipBlanks]. rewrite H2, H3, H4. cbn [orb]. rewrite H5, H1.
  by rewrite span_stop.
Qed.

Lemma nextToken_blank inp : nextToken (32 :: inp) = nextToken inp.
Proof. done. Qed.

Lemma four_not_single (w : list Z) c : zlen w = 4 -> w <> [c] /\ w <> [].
Proof. intros Hw. split; intros ->; done. Qed.

Lemma parseArgs_describe fuel v args rest :
  bytes v -> (length v <= fuel)%nat ->
  (let '(token, inp) := nextToken (describe_value v ++ RPAR :: rest) in parseArgs fuel token inp args) =
    Val (args ++ v, [RPAR], rest).
Proof.
  intros Hv. revert fuel args. induction Hv as [| b v Hb Hv IH]; intros fuel args Hf.
  - rewrite app_nil_r. change (nextToken (describe_value [] ++ RPAR :: rest)) with ([RPAR], rest).
    destruct fuel; done.
  - unfold describe_value. cbn [map concat]. fold (describe_value v). rewrite <- !app_assoc. cbn [app].
    destruct (nextToken_hex b 32 (describe_value v ++ RPAR :: rest) Hb eq_refl) as (-> & Hh & Hl).
    destruct fuel as [| fuel]; [cbn in Hf; lia |]. cbn [parseArgs].
    destruct (four_not_single _ RPAR Hl) as [H1 H2]. rewrite !bool_decide_eq_false_2 by done. cbn [orb].
    unfold parseValue. rewrite Hh. cbn [mbind outcome_bind]. rewrite nextToken_blank.
    rewrite IH by (cbn in Hf; lia). by rewrite <- app_assoc.
Qed.

Lemma addTag_hex t args msg :
  is_byte t -> addTag (toHex t true) args msg = Val (add (Tlv t args) msg).
Proof.
  intros Ht. destruct (nextToken_hex t 32 [] Ht eq_refl) as (_ & Hh & Hl). unfold addTag.
  rewrite decide_False by (intros [E | E]; rewrite E in Hl; done). by rewrite Hh.
Qed.

Lemma length_describe_value v : (length v <= length (describe_value v))%nat.
Proof.
  unfold describe_value. induction v as [| b v IH]; [done |]. cbn [map concat length].
  rewrite length_app, length_app. cbn [length]. lia.
Qed.

Lemma parseTags_describe fuel ts msg rest :
  Forall wf_tlv ts -> (length (concat (map describe_tlv ts)) < fuel)%nat ->
  (let '(token, inp) := nextToken (concat (map describe_tlv ts) ++ RBRACE :: rest) in
   parseTags fuel token inp msg) =
    Val (mkMessage (tlvs msg ++ ts) (receivedMd5 msg) (calculatedMd5 msg) (xoredMd5 msg), rest).
Proof.
  intros Hts. revert fuel msg. induction Hts as [| t ts Ht Hts IH]; intros fuel msg Hf.
  - rewrite app_nil_r. change (nextToken (concat (map describe_tlv []) ++ RBRACE :: rest)) with ([RBRACE], rest).
    destruct fuel; by destruct msg.
  - destruct Ht as (Ht & _ & Hv). destruct fuel as [| fuel]; [lia |].
    cbn [map concat] in *. rewrite length_app in Hf. unfold describe_tlv in Hf at 1.
    rewrite length_app in Hf. cbn [length] in Hf. rewrite length_app in Hf. cbn [length] in Hf.
    pose proof (length_describe_value (tlv_value t)).
    unfold describe_tlv at 1. rewrite <- !app_assoc. cbn [app].
    set (more := concat (map describe_tlv ts) ++ RBRACE :: rest).
    rewrite <- app_assoc. cbn [app].
    destruct (nextToken_hex (tlv_tag t) LPAR (describe_value (tlv_value t) ++ RPAR :: more) Ht eq_refl)
      as (-> & _ & Hl).
    cbn [parseTags]. rewrite !bool_decide_eq_false_2 by apply (four_not_single _ _ Hl).
    cbn [orb throw_if mbind outcome_bind].
    change (nextToken (LPAR :: describe_value (tlv_value t) ++ RPAR :: more))
      with ([LPAR], describe_value (tlv_value t) ++ RPAR :: more). cbv iota beta.
    rewrite bool_decide_eq_true_2 by done.
    pose proof (parseArgs_describe fuel (tlv_value t) [] more Hv ltac:(lia)) as Ha.
    destruct (nextToken (describe_value (tlv_value t) ++ RPAR :: more)) as [tok inp]. rewrite Ha.
    cbn [app mbind outcome_bind]. rewrite bool_decide_eq_false_2 by done. cbn [throw_if mbind outcome_bind].
    specialize (IH fuel (add t msg) ltac:(lia)). fold more in IH.
    destruct (nextToken more) as [tok' inp']. cbn [mbind outcome_bind].
    rewrite addTag_hex by done. cbn [mbind outcome_bind].
    replace (Tlv (tlv_tag t) (tlv_value t)) with t by (by destruct t). rewrite IH.
    cbn [add tlvs]. by rewrite <- app_assoc.
Qed.

Lemma parse_described msg ts rest :
  Forall wf_tlv ts ->
  parse msg (describe ts ++ rest) = Val (Some (mkMessage ts None None None), rest).
Proof.
  intros Hts. unfold parse, describe. cbn [app]. rewrite <- app_assoc. cbn [app].
  set (more := concat (map describe_tlv ts) ++ RBRACE :: rest).
  change (nextToken (LBRACE :: more)) with ([LBRACE], more). cbv iota beta.
  rewrite bool_decide_eq_false_2, bool_decide_eq_true_2 by done. cbn [negb throw_if mbind outcome_bind].
  pose proof (parseTags_describe (S (length (LBRACE :: more))) ts (clear msg) rest Hts) as Hp.
  fold more in Hp. destruct (nextToken more) as [tok inp]. rewrite Hp; [done |].
  unfold more. cbn [length]. rewrite length_app. lia.
Qed.

(** C24.  Every message can be described and is read back: the description that
    spells each tag and each value byte as 0xHH parses to exactly those records,
    and the parser stops behind its closing brace. *)
Theorem parse_describe msg ts rest :
  Forall wf_tlv ts ->
  parse msg (describe ts ++ rest) = Val (Some (mkMessage ts None None None), rest).
Proof. apply parse_described. Qed.

(** A word token has no underscore. *)
Lemma nextToken_shape inp t rest :
  nextToken inp = (t, rest) ->
  t = [] \/ List.hd 0 t = QUOTE \/ forallb isalnum t = true \/ length t = 1%nat.
Proof.
  unfold nextToken. destruct (skipBlanks false inp) as [| c inp']; [intros [= <- <-]; by left |].
  case_test.
  - apply Z.eqb_eq in Heqb. destruct (span _ inp') as [body r].
    destruct r as [| x r]; [| case_test]; intros [= <- <-]; right; by left.
  - case_test; [| intros [= <- <-]; right; right; by right].
    assert (forall l, forallb isalnum (span isalnum l).1 = true) as Hs.
    { induction l as [| d l IH]; [done |]. cbn [span]. destruct (isalnum d) eqn:Ed; [| done].
      destruct (span isalnum l) as [a b]. cbn in *. by rewrite Ed. }
    specialize (Hs inp'). destruct (span isalnum inp') as [word r]. intros [= <- <-].
    right; right; left. cbn in *. by rewrite Heqb0.
Qed.

(** The long aliases of the help text that contain an underscore. *)
Definition long_aliases : list (list Z) :=
  [codes "message_type"; codes "message_flags"; codes "user_data"; codes "device_id";
   codes "monotonic_timer_rx"; codes "monotonic_timer_tx"; codes "deviceid_last_updated"].

(** C30.  The aliases with an underscore cannot be used: they are in the table,
    but the tokenizer ends a word at the underscore, so that no input ever
    yields one of them as a token. *)
Theorem long_aliases_unreachable alias inp :
  alias ∈ long_aliases ->
  is_Some (find_alias alias tagAliases) /\ (nextToken inp).1 <> alias.
Proof.
  intros Ha. assert (is_Some (find_alias alias tagAliases) /\ alias <> [] /\ List.hd 0 alias <> QUOTE /\
    forallb isalnum alias = false /\ length alias <> 1%nat) as (Hs & H1 & H2 & H3 & H4).
  { unfold long_aliases in Ha. rewrite !elem_of_cons, elem_of_nil in Ha.
    destruct_or! Ha; subst; try done; (split; [by eexists; vm_compute |]); vm_compute; repeat split; discriminate. }
  split; [done |]. intros E. destruct (nextToken inp) as [t rest] eqn:En. cbn in E. subst t.
  apply nextToken_shape in En as [? | [? | [? | ?]]]; congruence.
Qed.

(** ** Instances *)

Lemma parse_describe_witness :
  parse (mkMessage [] None None None)
    (describe [Tlv 0x04 [1; 255]; Tlv 0x91 []] ++ codes " {H d}") =
  Val (Some (mkMessage [Tlv 0x04 [1; 255]; Tlv 0x91 []] None None None), codes " {H d}").
Proof.
  apply (parse_describe (mkMessage [] None None None) [Tlv 0x04 [1; 255]; Tlv 0x91 []] (codes " {H d}")).
  repeat constructor; cbn; lia.
Defined.

Lemma long_aliases_unreachable_witness :
  is_Some (find_alias (codes "device_id") tagAliases) /\
  (nextToken (codes "device_id")).1 <> codes "device_id".
Proof.
  apply (long_aliases_unreachable (codes "device_id") (codes "device_id")).
  unfold long_aliases. rewrite !elem_of_cons. tauto.
Defined.

(** The example of the help text, and an alias of the help text that fails. *)
Example parse_help :
  parse (mkMessage [] None None None) (codes "{H(0x02) d rx tx}") =
  Val (Some (mkMessage (header_tlvs [2] ++ [Tlv 0x91 []; Tlv 0x92 []; Tlv 0x93 []]) None None None), []).
Proof. vm_compute. reflexivity. Qed.

Example parse_help_alias : parse (mkMessage [] None None None) (codes "{H device_id}") = throw.
Proof. vm_compute. reflexivity. Qed.
