(* ===== verification/ConfigurationParser.v ===== *)
(** * src/src/configurationparser.cpp: class ConfigurationParser

    The key-value file: splitting it into lines, a line into words, and the map
    they are stored in.  Characters are their codes. *)

From S2P Require Import Prelude Memory Nhac NhacParser.
From stdpp Require Import gmap strings.

Local Open Scope Z_scope.

(** The member [configData]. *)
Definition ConfigurationParser : Type := gmap (list Z) (list Z).

Definition SPACE : Z := 32.
Definition TAB : Z := 9.
Definition CR : Z := 13.

(** ** Library operations the code uses *)

(** [ss >> word]: blanks are skipped, then the characters up to the next one
    are taken; the empty word at the end. *)
Definition dropSpaces (s : list Z) : list Z := (span isspace s).2.
Definition extractWord (s : list Z) : list Z * list Z :=
  span (fun c => negb (isspace c)) (dropSpaces s).

(** [find_first_not_of] and [find_last_not_of] with the [substr] that follows:
    without such a character the string stays as it is. *)
Definition trimFront (set s : list Z) : list Z :=
  match (span (fun c => bool_decide (c ∈ set)) s).2 with
  | [] => s
  | s' => s'
  end.
Definition trimBack (set s : list Z) : list Z := reverse (trimFront set (reverse s)).

(** [std::getline] until it fails: the lines, without their newlines; an empty
    rest after the last newline is no line. *)
Fixpoint getlines (fuel : nat) (s : list Z) : list (list Z) :=
  match fuel, s with
  | S fuel, _ :: _ =>
      match span (fun c => negb (c =? NL)) s with
      | (line, _ :: rest) => line :: getlines fuel rest
      | (line, []) => [line]
      end
  | _, _ => []
  end.

(** ** The operations *)

Definition parseLine (line : list Z) (configData : ConfigurationParser) : ConfigurationParser :=
  if bool_decide (line = []) then configData
  else
    let '(key, ss) := extractWord line in
    if bool_decide (key = []) || (List.hd 0 key =? HASH) then configData
    else
      let '(value, _) := extractWord ss in
      let value := trimFront [SPACE; TAB] value in
      let value := trimBack [SPACE; TAB; CR; NL] value in
      if negb (bool_decide (value = [])) then <[key := value]> configData
      else configData.

(** The content of the file, [None] if it cannot be opened. *)
Definition load (file : option (list Z)) (configData : ConfigurationParser) :
    bool * ConfigurationParser :=
  match file with
  | None => (false, configData)
  | Some content =>
      (true, foldl (fun m line => parseLine line m) configData (getlines (S (length content)) content))
  end.

(** [None]: it throws. *)
Definition get (configData : ConfigurationParser) (key : list Z) : option (list Z) := configData !! key.

Definition hasKey (configData : ConfigurationParser) (key : list Z) : bool :=
  bool_decide (is_Some (configData !! key)).

(** ** Words and lines *)

(** A key or a value: not empty and without blanks. *)
Definition is_word (w : list Z) : Prop := w <> [] /\ forallb (fun c => negb (isspace c)) w = true.

Lemma span_all p w : forallb p w = true -> span p w = (w, []).
Proof.
  induction w as [| c w IH]; [done |]. cbn [forallb span]. rewrite andb_true_iff.
  intros [-> Hw]. by rewrite IH.
Qed.

Lemma dropSpaces_word w rest : is_word w -> dropSpaces (w ++ rest) = w ++ rest.
Proof.
  intros [Hn Hw]. destruct w as [| c w]; [done |]. cbn [forallb] in Hw.
  apply andb_true_iff in Hw as [Hc%negb_true_iff _]. unfold dropSpaces. cbn [app span]. by rewrite Hc.
Qed.

Lemma dropSpaces_blanks b s : forallb isspace b = true -> dropSpaces (b ++ s) = dropSpaces s.
Proof.
  unfold dropSpaces. induction b as [| c b IH]; [done |]. cbn [forallb app span]. rewrite andb_true_iff.
  intros [-> Hb]. specialize (IH Hb). destruct (span isspace (b ++ s)). done.
Qed.

(** A word behind blanks, followed by the end or by a blank. *)
Lemma extractWord_word b w rest :
  forallb isspace b = true -> is_word w ->
  match rest with [] => True | c :: _ => isspace c = true end ->
  extractWord (b ++ w ++ rest) = (w, rest).
Proof.
  intros Hb Hw Hr. unfold extractWord. rewrite dropSpaces_blanks, dropSpaces_word by done.
  destruct Hw as [_ Hw]. destruct rest as [| c rest].
  - rewrite app_nil_r. by apply span_all.
  - apply span_stop; [done |]. by rewrite Hr.
Qed.

(** What [>>] extracts has no blank, so trimming it changes nothing. *)
Lemma extractWord_no_blank s w rest :
  extractWord s = (w, rest) -> forallb (fun c => negb (isspace c)) w = true.
Proof.
  unfold extractWord. generalize (dropSpaces s) as l. intros l E. revert w rest E.
  induction l as [| c l IH]; intros w rest; cbn [span]; [by intros [= <- <-] |].
  destruct (negb (isspace c)) eqn:Ec; [| by intros [= <- <-]].
  destruct (span _ l) as [a b]. intros [= <- <-]. cbn [forallb]. rewrite Ec. by apply (IH a b).
Qed.

Lemma trimFront_none set w :
  forallb (fun c => negb (bool_decide (c ∈ set))) w = true -> trimFront set w = w.
Proof.
  destruct w as [| c w]; [done |]. cbn [forallb]. rewrite andb_true_iff, negb_true_iff. intros [Hc _].
  unfold trimFront. cbn [span]. by rewrite Hc.
Qed.

Lemma forallb_reverse {A} (p : A -> bool) l : forallb p l = true -> forallb p (reverse l) = true.
Proof.
  rewrite !forallb_forall. intros H x Hx. apply H. apply list_elem_of_In.
  apply elem_of_reverse, list_elem_of_In, Hx.
Qed.

Lemma trimBack_none set w :
  forallb (fun c => negb (bool_decide (c ∈ set))) w = true -> trimBack set w = w.
Proof.
  intros Hw. unfold trimBack. rewrite trimFront_none by (by apply forallb_reverse). apply reverse_involutive.
Qed.

Lemma no_blank_not_in set w :
  Forall (fun c => isspace c = true) set -> forallb (fun c => negb (isspace c)) w = true ->
  forallb (fun c => negb (bool_decide (c ∈ set))) w = true.
Proof.
  intros Hs. rewrite !forallb_forall. intros Hw x Hx. specialize (Hw x Hx).
  rewrite negb_true_iff in *. apply bool_decide_eq_false. intros Hin.
  apply (proj1 (Forall_forall _ _) Hs) in Hin. congruence.
Qed.

(** What a line stores: its first two words, unless it is a comment or has fewer. *)
Lemma parseLine_words line m :
  parseLine line m =
    let '(key, ss) := extractWord line in
    let '(value, _) := extractWord ss in
    if bool_decide (key = []) || (List.hd 0 key =? HASH) || bool_decide (value = []) then m
    else <[key := value]> m.
Proof.
  unfold parseLine. case_bool_decide as Hl; [by subst |].
  destruct (extractWord line) as [key ss]. destruct (extractWord ss) as [value r] eqn:Ev.
  apply extractWord_no_blank in Ev. destruct (_ || _); [done |]. cbn [orb].
  rewrite (trimFront_none [SPACE; TAB]) by (apply no_blank_not_in; [by repeat constructor | done]).
  rewrite trimBack_none by (apply no_blank_not_in; [by repeat constructor | done]).
  by case_bool_decide.
Qed.

(** ** Configuration files *)

(** A line of a file: a pair with whatever follows the value, a comment, a key
    without a value, or blanks. *)
Inductive config_line :=
  | PairLine (indent key gap value rest : list Z)
  | CommentLine (indent text : list Z)
  | BareLine (indent key rest : list Z)
  | BlankLine (blanks : list Z).

Definition render_line (l : config_line) : list Z :=
  match l with
  | PairLine indent key gap value rest => indent ++ key ++ gap ++ value ++ rest
  | CommentLine indent text => indent ++ HASH :: text
  | BareLine indent key rest => indent ++ key ++ rest
  | BlankLine blanks => blanks
  end.

(** Lines that end with a newline. *)
Definition render_lines (ls : list config_line) : list Z :=
  concat (map (fun l => render_line l ++ [NL]) ls).

Definition one_line (s : list Z) : Prop := forallb (fun c => negb (c =? NL)) s = true.
Definition blanks (s : list Z) : Prop := forallb isspace s = true /\ one_line s.

(** A key may not look like a comment. *)
Definition is_key (k : list Z) : Prop := is_word k /\ List.hd 0 k <> HASH.

(** Nothing, or something that starts with a blank. *)
Definition separated (s : list Z) : Prop :=
  match s with [] => True | c :: _ => isspace c = true end.

Definition line_ok (l : config_line) : Prop :=
  match l with
  | PairLine indent key gap value rest =>
      blanks indent /\ is_key key /\ blanks gap /\ gap <> [] /\ is_word value /\
      one_line rest /\ separated rest
  | CommentLine indent text => blanks indent /\ one_line text
  | BareLine indent key rest => blanks indent /\ is_key key /\ blanks rest
  | BlankLine b => blanks b
  end.

(** What a line stores. *)
Definition store_line (m : ConfigurationParser) (l : config_line) : ConfigurationParser :=
  match l with
  | PairLine _ key _ value _ => <[key := value]> m
  | _ => m
  end.

Lemma blanks_separated b : forallb isspace b = true -> separated b.
Proof. destruct b as [| c b]; [done |]. cbn. by rewrite andb_true_iff; intros []. Qed.

Lemma extractWord_blanks b : forallb isspace b = true -> extractWord b = ([], []).
Proof. intros Hb. unfold extractWord. by rewrite <- (app_nil_r b), dropSpaces_blanks by done. Qed.

Lemma parseLine_pair b k gap v rest m :
  forallb isspace b = true -> is_key k -> forallb isspace gap = true -> gap <> [] -> is_word v ->
  separated rest -> parseLine (b ++ k ++ gap ++ v ++ rest) m = <[k := v]> m.
Proof.
  intros Hb [Hk Hh] Hg Hgn Hv Hr. rewrite parseLine_words.
  rewrite (extractWord_word b k (gap ++ v ++ rest)); [| done .. |].
  2: { destruct gap as [| c gap]; [done |]. by apply (blanks_separated (c :: gap)). }
  rewrite (extractWord_word gap v rest) by done.
  destruct Hk as [Hk _], Hv as [Hv _]. rewrite !bool_decide_eq_false_2 by done.
  by destruct (Z.eqb_spec (List.hd 0 k) HASH).
Qed.

(** Lines without a pair change nothing: blank lines, comments (also
    indented ones) and lines with a key only. *)
Lemma parseLine_ignored b k rest m :
  forallb isspace b = true -> is_key k ->
  parseLine b m = m /\ parseLine (b ++ HASH :: rest) m = m /\
  (forallb isspace rest = true -> parseLine (b ++ k ++ rest) m = m).
Proof.
  intros Hb [Hk _]. split; [| split]; [| | intros Hrest]; rewrite parseLine_words.
  - by rewrite extractWord_blanks.
  - unfold extractWord at 1. rewrite dropSpaces_blanks by done.
    change (dropSpaces (HASH :: rest)) with (HASH :: rest). cbn [span].
    change (negb (isspace HASH)) with true. cbv iota.
    destruct (span (fun c => negb (isspace c)) rest) as [w s]. by destruct (extractWord s).
  - rewrite extractWord_word by (done || by apply blanks_separated). rewrite extractWord_blanks by done.
    by destruct (bool_decide (k = []) || (List.hd 0 k =? HASH)).
Qed.

Lemma parseLine_line l m : line_ok l -> parseLine (render_line l) m = store_line m l.
Proof.
  destruct l as [indent key gap value rest | indent text | indent key rest | b]; cbn [line_ok render_line store_line].
  - intros ([Hi _] & Hk & [Hg _] & Hgn & Hv & _ & Hr). by apply parseLine_pair.
  - intros [[Hi _] _]. apply (parseLine_ignored indent (codes "k")); [done |].
    split; [| done]. split; vm_compute; congruence.
  - intros ([Hi _] & Hk & [Hr _]). by apply (parseLine_ignored indent key rest).
  - intros [Hb _]. apply (parseLine_ignored b (codes "k") []); [done |].
    split; [| done]. split; vm_compute; congruence.
Qed.

Lemma word_one_line w : is_word w -> one_line w.
Proof.
  intros [_ Hw]. unfold one_line. rewrite forallb_forall in *. intros c Hc. specialize (Hw c Hc).
  rewrite negb_true_iff in *. destruct (Z.eqb_spec c NL) as [-> |]; done.
Qed.

Lemma line_one_line l : line_ok l -> one_line (render_line l).
Proof.
  unfold one_line. destruct l; cbn [line_ok render_line]; unfold blanks, is_key, one_line;
    rewrite ?forallb_app; cbn [forallb]; intros; destruct_and?; repeat (apply andb_true_iff; split);
    done || by apply word_one_line.
Qed.

Lemma getlines_cons fuel line rest :
  one_line line -> getlines (S fuel) (line ++ NL :: rest) = line :: getlines fuel rest.
Proof.
  intros Hl. destruct line as [| c line]; [done |]. cbn [getlines app].
  by rewrite (span_stop _ (c :: line) NL rest Hl eq_refl : span _ (c :: line ++ NL :: rest) = _).
Qed.

(** The last line may lack its newline. *)
Lemma getlines_last fuel line m :
  one_line line ->
  foldl (fun m line => parseLine line m) m (getlines (S fuel) line) = parseLine line m.
Proof.
  intros Hl. destruct line as [| c line]; [done |]. cbn [getlines].
  by rewrite (span_all (fun c => negb (c =? NL)) (c :: line) Hl).
Qed.

(** C32.  What a configuration file means: [load] of a file of lines, the last one
    with or without a newline, succeeds and stores, of every line that is no
    comment, its first two words as key and value (without the blanks around
    them and without what follows the value), a later line of the same key
    replacing an earlier one; comments, lines with one word and blank lines
    store nothing. *)
Theorem load_lines ls l m :
  Forall line_ok ls -> line_ok l ->
  load (Some (render_lines ls ++ render_line l)) m = (true, foldl store_line m (ls ++ [l])).
Proof.
  intros Hls Hl. unfold load. f_equal.
  assert (forall fuel, (length (render_lines ls ++ render_line l) < fuel)%nat ->
    foldl (fun m line => parseLine line m) m (getlines fuel (render_lines ls ++ render_line l)) =
    foldl store_line m (ls ++ [l])) as H; [| apply H; lia].
  revert m. induction Hls as [| x ls Hx Hls IH]; intros m fuel Hf; (destruct fuel as [| fuel]; [lia |]).
  - cbn [render_lines map concat app foldl]. rewrite getlines_last by (by apply line_one_line).
    by apply parseLine_line.
  - unfold render_lines in *. cbn [map concat] in *. rewrite <- !app_assoc in *. cbn [app] in *.
    rewrite getlines_cons by (by apply line_one_line). cbn [foldl]. rewrite parseLine_line by done.
    apply IH. rewrite length_app in Hf. cbn [length] in Hf. lia.
Qed.

(** ** Every file is one of such lines *)

Lemma span_spec p s :
  s = (span p s).1 ++ (span p s).2 /\ forallb p (span p s).1 = true /\
  match (span p s).2 with [] => True | c :: _ => p c = false end.
Proof.
  induction s as [| c s (IH1 & IH2 & IH3)]; [done |]. cbn [span]. destruct (p c) eqn:Hc; [| done].
  destruct (span p s) as [a b]. cbn in *. rewrite Hc, IH2, <- IH1. done.
Qed.

Lemma line_forms s : one_line s -> exists l, line_ok l /\ render_line l = s.
Proof.
  destruct (span_spec isspace s) as (Es & Hb & Hs1). destruct (span isspace s) as [b s1]. cbn [fst snd] in *.
  subst s. unfold one_line. rewrite forallb_app, andb_true_iff. intros [Hbl Hs1l].
  destruct s1 as [| c s1]; [exists (BlankLine b); by rewrite app_nil_r |].
  destruct (decide (c = HASH)) as [-> | Hc].
  { exists (CommentLine b s1). split; [| done]. cbn [forallb] in Hs1l. by apply andb_true_iff in Hs1l as [_ ?]. }
  destruct (span_spec (fun c => negb (isspace c)) (c :: s1)) as (E1 & Hk & Hs2).
  assert ((span (fun c => negb (isspace c)) (c :: s1)).1 <> []) as Hkn.
  { cbn [span]. rewrite Hs1. cbn [negb]. by destruct (span _ s1). }
  assert (List.hd 0 (span (fun c => negb (isspace c)) (c :: s1)).1 = c) as Hkh.
  { cbn [span]. rewrite Hs1. cbn [negb]. by destruct (span _ s1). }
  destruct (span (fun c => negb (isspace c)) (c :: s1)) as [k s2]. cbn [fst snd] in *.
  assert (is_key k) as Hkey by (by split; [split | congruence]).
  rewrite E1, forallb_app, andb_true_iff in Hs1l. destruct Hs1l as [Hkl Hs2l]. rewrite E1.
  destruct (span_spec isspace s2) as (E2 & Hg & Hs3). destruct (span isspace s2) as [g s3]. cbn [fst snd] in *.
  subst s2. rewrite forallb_app, andb_true_iff in Hs2l. destruct Hs2l as [Hgl Hs3l].
  destruct s3 as [| d s3]; [exists (BareLine b k g); by rewrite app_nil_r |].
  destruct (span_spec (fun c => negb (isspace c)) (d :: s3)) as (E3 & Hv & Hr).
  assert ((span (fun c => negb (isspace c)) (d :: s3)).1 <> []) as Hvn.
  { cbn [span]. rewrite Hs3. cbn [negb]. by destruct (span _ s3). }
  destruct (span (fun c => negb (isspace c)) (d :: s3)) as [v r]. cbn [fst snd] in *.
  rewrite E3 in *. rewrite forallb_app, andb_true_iff in Hs3l. destruct Hs3l as [Hvl Hrl].
  exists (PairLine b k g v r). split; [| done]. split_and!; try done.
  - intros ->. cbn [app] in Hs2. rewrite <- E3 in Hs2. by rewrite Hs3 in Hs2.
  - destruct r as [| e r]; [done |]. cbn. by apply negb_false_iff in Hr.
Qed.

(** So [load_lines] speaks about every file. *)
Lemma file_forms content :
  exists ls l, Forall line_ok ls /\ line_ok l /\ content = render_lines ls ++ render_line l.
Proof.
  assert (forall n s, (length s <= n)%nat ->
    exists ls l, Forall line_ok ls /\ line_ok l /\ s = render_lines ls ++ render_line l) as H.
  2: { by apply (H (length content)). }
  induction n as [| n IH]; intros s Hn.
  { destruct s; [| cbn in Hn; lia]. by exists [], (BlankLine []). }
  destruct (span_spec (fun c => negb (c =? NL)) s) as (Es & Hl & Hr).
  destruct (span (fun c => negb (c =? NL)) s) as [line rest]. cbn [fst snd] in *. subst s.
  destruct (line_forms line Hl) as (x & Hx & Ex). destruct rest as [| c rest].
  { exists [], x. by rewrite Ex, app_nil_r. }
  apply negb_false_iff, Z.eqb_eq in Hr. subst c. rewrite length_app in Hn. cbn [length] in Hn.
  destruct (IH rest) as (ls & l & Hls & Hlast & ->); [lia |].
  exists (x :: ls), l. split; [by constructor |]. split; [done |].
  unfold render_lines. cbn [map concat]. by rewrite Ex, <- !app_assoc.
Qed.

(** A file of pairs, one per line. *)
Definition plain (kv : list Z * list Z) : config_line := PairLine [] kv.1 [SPACE] kv.2 [].
Definition render (kvs : list (list Z * list Z)) : list Z := render_lines (map plain kvs).

(** A value ends at its first blank: of a line with more than two words only
    the first two are kept, whatever follows. *)
Lemma value_cut_at_blank k v rest m :
  is_key k -> is_word v -> parseLine (k ++ [SPACE] ++ v ++ SPACE :: rest) m = <[k := v]> m.
Proof. intros Hk Hv. by apply (parseLine_pair [] k [SPACE] v (SPACE :: rest) m). Qed.

(** ** Instances *)

(** A comment, an indented pair with a carriage return, a value with a blank, a
    key without a value, and a last line without newline. *)
Definition sample_lines : list config_line :=
  [CommentLine [] (codes " nha"); BlankLine [];
   PairLine [SPACE; TAB] (codes "port") [TAB] (codes "7872") [CR];
   PairLine [] (codes "name") [SPACE] (codes "two") (codes " words"); BareLine [] (codes "host") [SPACE]].
Definition sample_last : config_line := PairLine [] (codes "port") [SPACE] (codes "7873") [].

Lemma load_lines_witness :
  load (Some (render_lines sample_lines ++ render_line sample_last)) ∅ =
    (true, foldl store_line ∅ (sample_lines ++ [sample_last])).
Proof.
  apply (load_lines sample_lines sample_last ∅).
  - repeat (constructor; [repeat split; vm_compute; congruence |]). constructor.
  - repeat split; vm_compute; congruence.
Defined.

Example load_sample :
  let m := (load (Some (render_lines sample_lines ++ render_line sample_last)) ∅).2 in
  get m (codes "port") = Some (codes "7873") /\ get m (codes "name") = Some (codes "two") /\
  get m (codes "host") = None.
Proof. vm_compute. done. Qed.
