(* ===== verification/Numbers.v ===== *)
(** * std::stoi, std::stol, std::stoll and std::stod

    The conversions [main] uses for the numbers of the configuration, in the C
    locale: [None] is an exception (no conversion possible, or out of range).
    All of them convert the longest prefix that is a number and ignore the
    rest. *)

From S2P Require Import Prelude Memory Double Nhac NhacParser ConfigurationParser.
From stdpp Require Import strings.

Local Open Scope string_scope.
Local Open Scope list_scope.
Local Open Scope Z_scope.

Definition MINUS : Z := 45.
Definition PLUS : Z := 43.
Definition DOT : Z := 46.

(** An optional sign. *)
Definition takeSign (s : list Z) : bool * list Z :=
  match s with
  | c :: s' => if c =? MINUS then (true, s') else if c =? PLUS then (false, s') else (false, s)
  | [] => (false, [])
  end.

(** ** Integers *)

(** The conversion of strtol and strtoll in base 10, without the range check. *)
Definition strtoInteger (s : list Z) : option Z :=
  let '(negative, s) := takeSign (dropSpaces s) in
  let '(digits, _) := span isdigit s in
  if bool_decide (digits = []) then None
  else Some (if negative then - decimal digits else decimal digits).

Definition stoInteger (bits : Z) (s : list Z) : option Z :=
  z ← strtoInteger s;
  if (- 2 ^ (bits - 1) <=? z) && (z <? 2 ^ (bits - 1)) then Some z else None.

Definition stoi : list Z -> option Z := stoInteger 32.
Definition stol : list Z -> option Z := stoInteger 64.
Definition stoll : list Z -> option Z := stoInteger 64.

(** ** Floating point *)

(** Whether [s] starts with the (upper case) [word], in any case. *)
Fixpoint startsWith (word s : list Z) : bool :=
  match word, s with
  | [], _ => true
  | c :: word, c' :: s => (toupper c' =? c) && startsWith word s
  | _ :: _, [] => false
  end.

(** The double nearest to the positive fraction [num / den].  Overflow is an
    error, and so is an inexact result below the normal numbers. *)
Definition nearest (negative : bool) (num den : Z) : option double :=
  let '(m, e, l) := SFdiv_core_binary 53 1024 num 0 den 0 in
  let d := binary_round_aux 53 1024 negative m e l in
  match d with
  | S754_finite _ m e =>
      let exact := Zpos m * 2 ^ Z.max e 0 * den =? num * 2 ^ Z.max (- e) 0 in
      if (Zpos m <? 2 ^ 52) && negb exact then None else Some d
  | _ => None
  end.

(** An exponent: the letter [letter] (upper case), an optional sign, digits;
    otherwise zero. *)
Definition takeExponent (letter : Z) (s : list Z) : Z :=
  match s with
  | c :: s =>
      if toupper c =? letter then
        let '(negative, s) := takeSign s in
        let digits := (span isdigit s).1 in
        if negative then - decimal digits else decimal digits
      else 0
  | [] => 0
  end.

(** The digits before and after an optional point, and what follows. *)
Definition takeDigits (digit : Z -> bool) (s : list Z) : list Z * list Z * list Z :=
  let '(whole, s) := span digit s in
  match s with
  | c :: s' =>
      if c =? DOT then let '(fraction, s) := span digit s' in (whole, fraction, s)
      else (whole, [], s)
  | [] => (whole, [], [])
  end.

(** The value of the digits [ds] in base [base], scaled by [scale] to the power
    [e]. *)
Definition scaled (negative : bool) (base scale : Z) (ds : list Z) (e : Z) : option double :=
  let num := foldl (fun n c => base * n + xdigit_value c) 0 ds in
  if num =? 0 then Some (S754_zero negative)
  else nearest negative (num * scale ^ Z.max e 0) (scale ^ Z.max (- e) 0).

Definition strtodDecimal (negative : bool) (s : list Z) : option double :=
  let '(whole, fraction, s) := takeDigits isdigit s in
  if bool_decide (whole ++ fraction = []) then None
  else scaled negative 10 10 (whole ++ fraction) (takeExponent 69 s - zlen fraction).

(** Behind the prefix 0x; without a digit there, the number is the 0 before it. *)
Definition strtodHexadecimal (negative : bool) (s : list Z) : option double :=
  let '(whole, fraction, s) := takeDigits isxdigit s in
  if bool_decide (whole ++ fraction = []) then Some (S754_zero negative)
  else scaled negative 16 2 (whole ++ fraction) (takeExponent 80 s - 4 * zlen fraction).

Definition stod (s : list Z) : option double :=
  let '(negative, s) := takeSign (dropSpaces s) in
  if startsWith (codes "INF") s then Some (S754_infinity negative)
  else if startsWith (codes "NAN") s then Some S754_nan
  else if startsWith (codes "0X") s then strtodHexadecimal negative (drop 2 s)
  else strtodDecimal negative s.

(** ** Integers written in decimal *)

Fixpoint digits_of (fuel : nat) (n : Z) (acc : list Z) : list Z :=
  match fuel with
  | O => acc
  | S fuel =>
      let acc := (48 + n mod 10) :: acc in
      if n / 10 =? 0 then acc else digits_of fuel (n / 10) acc
  end.

(** A number of at most 20 digits, as [std::to_string] writes it. *)
Definition to_string (z : Z) : list Z :=
  (if z <? 0 then [MINUS] else []) ++ digits_of 20 (Z.abs z) [].

Lemma decimal_app a b : decimal (a ++ b) = foldl (fun n c => 10 * n + (c - 48)) (decimal a) b.
Proof. unfold decimal. by rewrite foldl_app. Qed.

Lemma digits_of_spec fuel n acc :
  0 <= n < 10 ^ Z.of_nat fuel -> (0 < fuel)%nat ->
  exists ds, digits_of fuel n acc = ds ++ acc /\ decimal ds = n /\ ds <> [] /\
    forallb isdigit ds = true.
Proof.
  revert n acc. induction fuel as [| fuel IH]; intros n acc Hn Hf; [lia |]. cbn [digits_of].
  pose proof (Z.div_mod n 10 ltac:(lia)) as Hdm. pose proof (Z.mod_pos_bound n 10 ltac:(lia)).
  assert (isdigit (48 + n mod 10) = true) as Hd
    by (unfold isdigit; rewrite andb_true_iff, !Z.leb_le; lia).
  destruct (Z.eqb_spec (n / 10) 0) as [E | E].
  - exists [48 + n mod 10]. split; [done |]. split; [unfold decimal; cbn; lia |].
    split; [done |]. cbn. by rewrite Hd.
  - assert (0 < n / 10) by (pose proof (Z.div_pos n 10); lia).
    rewrite Nat2Z.inj_succ, Z.pow_succ_r in Hn by lia.
    destruct (IH (n / 10) ((48 + n mod 10) :: acc)) as (ds & -> & Hv & Hne & Hall).
    { split; [lia |]. apply Z.div_lt_upper_bound; lia. }
    { destruct fuel; [cbn in Hn |]; lia. }
    exists (ds ++ [48 + n mod 10]). rewrite <- app_assoc. split; [done |].
    rewrite decimal_app, Hv. split; [cbn [foldl]; lia |]. split; [by destruct ds |].
    rewrite forallb_app, Hall. cbn. by rewrite Hd.
Qed.

Lemma takeSign_digit c s : isdigit c = true -> takeSign (c :: s) = (false, c :: s).
Proof.
  unfold isdigit, takeSign, MINUS, PLUS. rewrite andb_true_iff, !Z.leb_le. intros Hc.
  destruct (Z.eqb_spec c 45); [lia |]. destruct (Z.eqb_spec c 43); [lia |]. done.
Qed.

Lemma isdigit_not_space c : isdigit c = true -> isspace c = false.
Proof.
  unfold isdigit, isspace. rewrite andb_true_iff, !Z.leb_le, orb_false_iff, andb_false_iff, Z.eqb_neq,
    !Z.leb_gt. lia.
Qed.

(** What may follow a number without being part of it. *)
Definition ends_number (rest : list Z) : Prop :=
  match rest with [] => True | c :: _ => isdigit c = false end.

Lemma span_digits ds rest :
  forallb isdigit ds = true -> ends_number rest -> span isdigit (ds ++ rest) = (ds, rest).
Proof.
  intros Hd Hr. destruct rest as [| c rest]; [rewrite app_nil_r; by apply span_all |].
  by apply span_stop.
Qed.

(** The first 19 digits hold every 64-bit integer. *)
Lemma strtoInteger_to_string b z rest :
  forallb isspace b = true -> - 10 ^ 20 < z < 10 ^ 20 -> ends_number rest ->
  strtoInteger (b ++ to_string z ++ rest) = Some z.
Proof.
  intros Hb Hz Hr. destruct (digits_of_spec 20 (Z.abs z) [] ltac:(lia) ltac:(lia)) as (ds & E & Hv & Hne & Hd).
  rewrite app_nil_r in E. unfold strtoInteger, to_string. rewrite E, dropSpaces_blanks by done.
  destruct ds as [| c ds]; [done |]. pose proof Hd as Hd'. cbn [forallb] in Hd'.
  apply andb_true_iff in Hd' as [Hc _]. destruct (Z.ltb_spec z 0) as [Hneg | Hpos].
  - change (dropSpaces (([MINUS] ++ c :: ds) ++ rest)) with (MINUS :: (c :: ds) ++ rest).
    cbn [takeSign]. change (MINUS =? MINUS) with true. cbv iota. rewrite span_digits by done.
    rewrite bool_decide_eq_false_2, Hv by done. f_equal. lia.
  - cbn [app]. unfold dropSpaces. cbn [span]. rewrite isdigit_not_space by done. cbn [snd].
    rewrite takeSign_digit by done.
    change (c :: ds ++ rest) with ((c :: ds) ++ rest). rewrite span_digits by done.
    rewrite bool_decide_eq_false_2, Hv by done. f_equal. lia.
Qed.

(** A decimal integer behind any blanks is accepted exactly if it fits the type,
    with its value, and whatever follows it is ignored. *)
Lemma stoInteger_to_string bits b z rest :
  0 < bits <= 64 -> forallb isspace b = true -> - 10 ^ 20 < z < 10 ^ 20 -> ends_number rest ->
  stoInteger bits (b ++ to_string z ++ rest) =
    if decide (- 2 ^ (bits - 1) <= z < 2 ^ (bits - 1)) then Some z else None.
Proof.
  intros Hbits Hb Hz Hr. unfold stoInteger. rewrite strtoInteger_to_string by done. cbn.
  destruct (Z.leb_spec (- 2 ^ (bits - 1)) z), (Z.ltb_spec z (2 ^ (bits - 1))); case_decide; done || lia.
Qed.

(** 0.1, 1e-3, a hexadecimal number, the largest double, and one too large. *)
Example stod_samples :
  map stod [codes "0.1"; codes " 1e-3x"; codes "-0x1.8p1"; codes "1.7976931348623157e308";
            codes "1e309"; codes "nan"; codes "0xg"; codes "."] =
    [Some (S754_finite false 7205759403792794 (-56)); Some (S754_finite false 4611686018427388 (-62));
     Some (S754_finite true 6755399441055744 (-51)); Some (S754_finite false 9007199254740991 971);
     None; Some S754_nan; Some (S754_zero false); None].
Proof. vm_compute. reflexivity. Qed.
