(* ===== verification/NhacPrint.v ===== *)
(** * src/tools/src/nhac.cpp: printing of messages

    [TLV::decode] and [Message::print] as the text they write. *)

From S2P Require Import Prelude Memory Protocol Nhac NhacParser ConfigurationParser Numbers.
From stdpp Require Import strings.

Local Open Scope string_scope.
Local Open Scope list_scope.
Local Open Scope Z_scope.

(** ** TLV::decode *)

(** [for (const unsigned char c: value) oss << toHex(c, false);] *)
Definition hexText (value : list Z) : list Z := concat (map (fun c => toHex c false) value).

(** Lines 149-150: the 64-bit little-endian value. *)
Definition timeValue (value : list Z) : outcome Z :=
  t4 ← rd value 4; t5 ← rd value 5; t6 ← rd value 6; t7 ← rd value 7;
  t0 ← rd value 0; t1 ← rd value 1; t2 ← rd value 2; t3 ← rd value 3;
  Val (Z.lor (u64 (Z.shiftl (fromLE32 t4 t5 t6 t7) 32)) (fromLE32 t0 t1 t2 t3)).

(** A record that is a query with an empty value or a response whose value
    satisfies [sized]; otherwise nothing is decoded. *)
Definition queryOrResponse (t : tlv) (name : list Z) (sized : bool) (text : outcome (list Z)) :
    outcome (list Z) :=
  if (Z.land (tlv_tag t) 0x80 =? 0x80) && (zlen (tlv_value t) =? 0) then Val (name ++ codes " query")
  else if (Z.land (tlv_tag t) 0x80 =? 0x00) && sized then
    s ← text;
    Val (name ++ s)
  else Val [].

Definition decode (t : tlv) : outcome (list Z) :=
  let tag := tlv_tag t in
  let value := tlv_value t in
  let size := zlen value in
  let kind := Z.land tag 0x7f in
  if (tag =? 0x00) && bool_decide (value = codes "NHA1") then Val (codes "magic")
  else if (tag =? 0x01) && (size =? 4) then
    v3 ← rd value 3; v2 ← rd value 2; v1 ← rd value 1; v0 ← rd value 0;
    Val (codes "version " ++ to_string v3 ++ codes "." ++ to_string v2 ++ codes "." ++
         to_string (Z.lor (Z.shiftl v1 8) v0))
  else if (tag =? 0x02) && (size =? 1) then
    v0 ← rd value 0;
    Val (codes "type " ++ (if v0 =? 0x01 then codes "Standard" else codes "SPECIAL"))
  else if (tag =? 0x03) && (size =? 1) then
    v0 ← rd value 0;
    Val (codes "flags " ++
         (if v0 =? 0x00 then codes "None"
          else if v0 =? 0x01 then codes "HAS_CHECKSUM_XOR_DEVICE_ID"
          else if v0 =? 0x02 then codes "REPLY_CHECKSUM_XOR_DEVICE_ID"
          else codes "??"))
  else if (tag =? 0x04) || (tag =? 0x05) then
    Val (codes "user_data" ++ (if tag =? 0x05 then codes "_mirrored" else []) ++
         (if bool_decide (value = []) then [] else codes " ") ++ hexText value)
  else if (kind =? 0x10) || (kind =? 0x20) then
    queryOrResponse t (if kind =? 0x10 then codes "capabilities" else codes "temperatures") true
      (Val ((if bool_decide (value = []) then [] else codes " ") ++ hexText value))
  else if kind =? 0x11 then
    queryOrResponse t (codes "device_id") (size =? 16) (Val (codes " " ++ hexText value))
  else if (kind =? 0x12) || (kind =? 0x13) then
    queryOrResponse t (codes "monotonic_timer_" ++ (if kind =? 0x12 then codes "rx" else codes "tx"))
      (size =? 8) (v ← timeValue value; Val (codes " " ++ to_string v))
  else if kind =? 0x14 then
    queryOrResponse t (codes "device_id_last_updated") (size =? 8)
      (v ← timeValue value; Val (codes " " ++ to_string v))
  else Val [].

(** ** Message::print *)

(** [std::setw(3) << std::left] *)
Definition padRight (s : list Z) : list Z := s ++ replicate (3 - length s) SPACE.

(** Lines 330-336: the bytes of a value, separated by blanks. *)
Fixpoint hexList (value : list Z) : list Z :=
  match value with
  | [] => []
  | [c] => toHex c true
  | c :: value => toHex c true ++ codes " " ++ hexList value
  end.

(** Lines 325-343. *)
Definition printTlv (t : tlv) : outcome (list Z) :=
  decodedTlv ← decode t;
  Val (codes "  T=" ++ toHex (tlv_tag t) true ++ codes " L=" ++ padRight (to_string (getLength t)) ++
       codes " V=" ++ hexList (tlv_value t) ++ [NL] ++
       (if bool_decide (decodedTlv = []) then [] else codes "    (" ++ decodedTlv ++ codes ")" ++ [NL])).

Fixpoint printTlvs (ts : list tlv) : outcome (list Z) :=
  match ts with
  | [] => Val []
  | t :: ts => s ← printTlv t; rest ← printTlvs ts; Val (s ++ rest)
  end.

Definition printMd5 (label : list Z) (md5 : option (list Z)) : list Z :=
  match md5 with
  | Some sum => label ++ hexText sum ++ [NL]
  | None => []
  end.

(** [print(os, title)]: the text written. *)
Definition print (m : Message) (title : list Z) : outcome (list Z) :=
  records ← printTlvs (tlvs m);
  Val (codes "Message=" ++ title ++ codes " completeSizeOfMsgInBytes=" ++
       to_string (getCompleteSizeOfMsgInBytes m) ++ [NL] ++ records ++
       printMd5 (codes "received   MD5=") (receivedMd5 m) ++
       printMd5 (codes "calculated MD5=") (calculatedMd5 m) ++
       printMd5 (codes "xored      MD5=") (xoredMd5 m) ++ [NL]).

(** The header of a query, and the time stamp of a reply. *)
Example decode_samples :
  map decode [Tlv 0x00 (codes "NHA1"); Tlv 0x01 [5; 1; 2; 1]; Tlv 0x03 [2]; Tlv 0x91 []; Tlv 0x91 [1];
              Tlv 0x12 (le_bytes 8 1234567890123); Tlv 0x05 [0xab; 1]; Tlv 0x42 []] =
    [Val (codes "magic"); Val (codes "version 1.2.261"); Val (codes "flags REPLY_CHECKSUM_XOR_DEVICE_ID");
     Val (codes "device_id query"); Val []; Val (codes "monotonic_timer_rx 1234567890123");
     Val (codes "user_data_mirrored ab01"); Val []].
Proof. vm_compute. reflexivity. Qed.

(** ** Printing is total *)

Lemma rd_val (l : list Z) i : 0 <= i < zlen l -> exists v, rd l i = Val v.
Proof. intros Hi. destruct (rd_ok l i Hi) as (v & E & _). by exists v. Qed.

(** Reads an index known to be within the value. *)
Ltac read l i :=
  let v := fresh "v" in
  destruct (rd_val l i) as [v ->]; [lia |]; cbn [mbind outcome_bind].

Lemma timeValue_total v : zlen v = 8 -> exists z, timeValue v = Val z.
Proof.
  intros Hv. unfold timeValue. read v 4. read v 5. read v 6. read v 7. read v 0. read v 1. read v 2.
  read v 3. by eexists.
Qed.

Lemma queryOrResponse_total t name sized text :
  (sized = true -> exists s, text = Val s) -> exists s, queryOrResponse t name sized text = Val s.
Proof.
  intros Ht. unfold queryOrResponse. case_test; [by eexists |]. case_test; [| by eexists].
  apply andb_true_iff in Heqb0 as [_ Hs]. destruct (Ht Hs) as [s ->]. by eexists.
Qed.

Lemma decode_total t : exists s, decode t = Val s.
Proof.
  unfold decode. case_test; [by eexists |].
  case_test; [apply andb_true_iff in Heqb0 as [_ Hs%Z.eqb_eq] |].
  { read (tlv_value t) 3. read (tlv_value t) 2. read (tlv_value t) 1. read (tlv_value t) 0. by eexists. }
  case_test; [apply andb_true_iff in Heqb1 as [_ Hs%Z.eqb_eq]; read (tlv_value t) 0; by eexists |].
  case_test; [apply andb_true_iff in Heqb2 as [_ Hs%Z.eqb_eq]; read (tlv_value t) 0; by eexists |].
  case_test; [by eexists |].
  case_test; [apply queryOrResponse_total; by eexists |].
  case_test; [apply queryOrResponse_total; by eexists |].
  assert ((zlen (tlv_value t) =? 8) = true ->
    exists s, (v ← timeValue (tlv_value t); Val (codes " " ++ to_string v)) = Val s) as Htime.
  { intros Hs%Z.eqb_eq. destruct (timeValue_total _ Hs) as [z ->]. by eexists. }
  case_test; [by apply queryOrResponse_total |].
  case_test; [by apply queryOrResponse_total | by eexists].
Qed.

(** ** Printing loses nothing *)

(** A line before its newline. *)
Lemma split_line a b ra rb :
  forallb (fun c => negb (c =? NL)) a = true -> forallb (fun c => negb (c =? NL)) b = true ->
  a ++ NL :: ra = b ++ NL :: rb -> a = b /\ ra = rb.
Proof.
  intros Ha Hb E. apply (f_equal (span (fun c => negb (c =? NL)))) in E.
  rewrite !span_stop in E by done. by injection E.
Qed.

Lemma toHex_prefix b : toHex b true = codes "0x" ++ toHex b false.
Proof. done. Qed.

Lemma toHex_byte b : is_byte b -> hexByte (toHex b true) = Some b.
Proof.
  intros Hb. pose proof (hex_ok_all b Hb) as Hok. unfold hex_ok in Hok.
  destruct (toHex b true) as [| c w]; [done |]. rewrite !andb_true_iff, bool_decide_eq_true in Hok. tauto.
Qed.

Lemma toHex_inj p b b' : is_byte b -> is_byte b' -> toHex b p = toHex b' p -> b = b'.
Proof.
  intros Hb Hb' E. assert (toHex b true = toHex b' true) as E'.
  { destruct p; [done |]. by rewrite !toHex_prefix, E. }
  apply (f_equal hexByte) in E'. rewrite !toHex_byte in E' by done. by injection E'.
Qed.

Lemma hexText_inj v v' r r' :
  bytes v -> bytes v' -> length v = length v' -> hexText v ++ r = hexText v' ++ r' -> v = v' /\ r = r'.
Proof.
  intros Hv. revert v'. induction Hv as [| b v Hb Hv IH]; intros [| b' v'] Hv' Hl E; try done.
  apply Forall_cons in Hv' as [Hb' Hv']. unfold hexText in E. cbn [map concat] in E.
  rewrite <- !app_assoc in E. apply app_inj_1 in E as [Eh E]; [| done].
  apply (toHex_inj false) in Eh as ->; [| done ..].
  destruct (IH v' Hv') as [-> ->]; [by injection Hl | exact E | done].
Qed.

(** No newline in a byte in hexadecimal. *)
Lemma toHex_no_newline b : is_byte b -> forallb (fun c => negb (c =? NL)) (toHex b true) = true.
Proof.
  intros Hb. assert (forallb (fun b => forallb (fun c => negb (c =? NL)) (toHex b true)) (seqZ 0 256) = true)
    as Hall by (vm_compute; reflexivity).
  rewrite forallb_forall in Hall. apply Hall, list_elem_of_In, elem_of_seqZ. unfold is_byte in Hb. lia.
Qed.

Lemma hexList_no_newline v : bytes v -> forallb (fun c => negb (c =? NL)) (hexList v) = true.
Proof.
  induction 1 as [| b v Hb Hv IH]; [done |]. cbn [hexList]. destruct v as [| b' v].
  - by apply toHex_no_newline.
  - rewrite !forallb_app, toHex_no_newline, IH by done. done.
Qed.

Lemma hexList_inj v v' : bytes v -> bytes v' -> hexList v = hexList v' -> v = v'.
Proof.
  intros Hv. revert v'. induction Hv as [| b v Hb Hv IH]; intros v' Hv' E.
  - destruct v' as [| b' [| ]]; done.
  - destruct v' as [| b' v']; [by destruct v |]. apply Forall_cons in Hv' as [Hb' Hv'].
    cbn [hexList] in E. destruct v as [| c v], v' as [| c' v'].
    + by apply (toHex_inj true) in E as ->.
    + symmetry in E. apply (f_equal length) in E. cbn in E. done.
    + apply (f_equal length) in E. cbn in E. done.
    + apply app_inj_1 in E as [Eh E]; [| done]. apply (toHex_inj true) in Eh as ->; [| done ..].
      apply app_inv_head in E. by rewrite (IH (c' :: v')).
Qed.

(** The first line of a record, without its newline. *)
Definition recordLine (t : tlv) : list Z :=
  codes "  T=" ++ toHex (tlv_tag t) true ++ codes " L=" ++ padRight (to_string (getLength t)) ++
  codes " V=" ++ hexList (tlv_value t).

(** Three characters for every length, none of them a newline. *)
Lemma padRight_length n :
  is_byte n -> length (padRight (to_string n)) = 3%nat /\
    forallb (fun c => negb (c =? NL)) (padRight (to_string n)) = true.
Proof.
  intros Hn. assert (forallb (fun n => (zlen (padRight (to_string n)) =? 3) &&
    forallb (fun c => negb (c =? NL)) (padRight (to_string n))) (seqZ 0 256) = true) as Hall
    by (vm_compute; reflexivity).
  rewrite forallb_forall in Hall. specialize (Hall n). rewrite andb_true_iff, Z.eqb_eq in Hall.
  destruct Hall as [Hl Hnl]; [apply list_elem_of_In, elem_of_seqZ; unfold is_byte in Hn; lia |].
  split; [unfold zlen in Hl; lia | done].
Qed.

Lemma recordLine_no_newline t : wf_tlv t -> forallb (fun c => negb (c =? NL)) (recordLine t) = true.
Proof.
  intros (Ht & _ & Hv). unfold recordLine. rewrite !forallb_app.
  rewrite toHex_no_newline, hexList_no_newline by done.
  destruct (padRight_length (getLength t) (u8_byte _)) as [_ ->]. done.
Qed.

Lemma recordLine_inj t t' : wf_tlv t -> wf_tlv t' -> recordLine t = recordLine t' -> t = t'.
Proof.
  intros (Ht & _ & Hv) (Ht' & _ & Hv') E. unfold recordLine in E.
  apply app_inv_head in E. apply app_inj_1 in E as [Etag E]; [| done].
  apply app_inv_head in E. apply app_inj_1 in E as [_ E].
  2: { destruct (padRight_length (getLength t) (u8_byte _)) as [-> _].
    by destruct (padRight_length (getLength t') (u8_byte _)) as [-> _]. }
  apply app_inv_head, hexList_inj in E; [| done ..]. apply (toHex_inj true) in Etag; [| done ..].
  destruct t, t'. cbn in *. by subst.
Qed.

(** What is printed of a record: its line, then what [decode] adds. *)
Lemma printTlv_line t : exists tail, printTlv t = Val (recordLine t ++ NL :: tail).
Proof.
  unfold printTlv. destruct (decode_total t) as [s ->]. cbn [mbind outcome_bind]. eexists.
  unfold recordLine. rewrite <- !app_assoc. done.
Qed.

Lemma printTlvs_total ts : exists s, printTlvs ts = Val s.
Proof.
  induction ts as [| t ts [s IH]]; [by exists [] |]. cbn [printTlvs].
  destruct (printTlv_line t) as [tail ->]. rewrite IH. by eexists.
Qed.

Lemma printTlvs_cons t ts s :
  printTlvs (t :: ts) = Val s ->
  exists tail q, printTlv t = Val (recordLine t ++ NL :: tail) /\ printTlvs ts = Val q /\
    s = recordLine t ++ NL :: tail ++ q.
Proof.
  cbn [printTlvs]. destruct (printTlv_line t) as [tail ->]. destruct (printTlvs_total ts) as [q ->].
  cbn [mbind outcome_bind]. intros [= <-]. exists tail, q. by rewrite <- app_assoc.
Qed.

(** What follows the records does not look like one. *)
Definition no_record (r : list Z) : Prop := head r <> Some SPACE.

Lemma printTlvs_inj ts ts' s s' r r' :
  Forall wf_tlv ts -> Forall wf_tlv ts' -> no_record r -> no_record r' ->
  printTlvs ts = Val s -> printTlvs ts' = Val s' -> s ++ r = s' ++ r' -> ts = ts' /\ r = r'.
Proof.
  intros Hts. revert ts' s s'. induction Hts as [| t ts Ht Hts IH]; intros ts' s s' Hts' Hr Hr' Es Es' E.
  - injection Es as <-. destruct ts' as [| t' ts']; [by injection Es' as <- |].
    apply printTlvs_cons in Es' as (tail & q & _ & _ & ->). exfalso. apply Hr.
    change (head ([] ++ r) = Some SPACE). by rewrite E.
  - apply printTlvs_cons in Es as (tail & q & Et & Eq & ->).
    destruct ts' as [| t' ts'].
    { exfalso. injection Es' as <-. apply Hr'. change (head ([] ++ r') = Some SPACE). by rewrite <- E. }
    apply printTlvs_cons in Es' as (tail' & q' & Et' & Eq' & ->).
    apply Forall_cons in Hts' as [Ht' Hts']. rewrite <- !app_assoc, <- !app_comm_cons in E.
    apply split_line in E as [El E]; [| by apply recordLine_no_newline ..].
    apply recordLine_inj in El as ->; [| done ..]. rewrite Et in Et'. injection Et' as Et'.
    apply app_inv_head in Et'. injection Et' as ->. rewrite <- !app_assoc in E. apply app_inv_head in E.
    by destruct (IH ts' q q' Hts' Hr Hr' Eq Eq' E) as [-> ->].
Qed.

Definition md5_ok (sum : option (list Z)) : Prop :=
  match sum with Some l => length l = 16%nat /\ bytes l | None => True end.

(** A checksum line starts with the first letter of its label. *)
Lemma head_printMd5 c label sum r k :
  head label = Some c -> c <> k -> head r <> Some k -> head (printMd5 label sum ++ r) <> Some k.
Proof.
  intros Hl Hk Hr. destruct sum; [| done]. destruct label; [done |]. injection Hl as ->.
  cbn [printMd5 app head]. congruence.
Qed.

Lemma printMd5_inj c label a b r r' :
  head label = Some c -> md5_ok a -> md5_ok b -> head r <> Some c -> head r' <> Some c ->
  printMd5 label a ++ r = printMd5 label b ++ r' -> a = b /\ r = r'.
Proof.
  intros Hl Ha Hb Hr Hr' E.
  assert (forall x l, head (printMd5 label (Some x) ++ l) = Some c) as Hc
    by (intros; destruct label; [done | exact Hl]).
  destruct a as [a |], b as [b |].
  - cbn [printMd5] in E. rewrite <- !app_assoc in E. apply app_inv_head in E.
    destruct Ha as [La Ba], Hb as [Lb Bb]. apply hexText_inj in E as [-> E]; [| done | done | congruence].
    by injection E as ->.
  - exfalso. apply Hr'. change (head (printMd5 label None ++ r') = Some c). by rewrite <- E.
  - exfalso. apply Hr. change (head (printMd5 label None ++ r) = Some c). by rewrite E.
  - done.
Qed.

Lemma to_string_no_newline n :
  0 <= n < 2 ^ 64 -> forallb (fun c => negb (c =? NL)) (to_string n) = true.
Proof.
  intros Hn. unfold to_string. destruct (Z.ltb_spec n 0); [lia |]. cbn [app].
  destruct (digits_of_spec 20 (Z.abs n) [] ltac:(lia) ltac:(lia)) as (ds & -> & _ & _ & Hd).
  rewrite app_nil_r. rewrite forallb_forall in *. intros c Hc. specialize (Hd c Hc).
  unfold isdigit in Hd. rewrite andb_true_iff, !Z.leb_le in Hd.
  destruct (Z.eqb_spec c NL); [unfold NL in *; lia | done].
Qed.

(** A message as [parse], [serialize] and [deserialize] leave it. *)
Record printable (m : Message) : Prop := {
  pr_tlvs : Forall wf_tlv (tlvs m);
  pr_received : md5_ok (receivedMd5 m);
  pr_calculated : md5_ok (calculatedMd5 m);
  pr_xored : md5_ok (xoredMd5 m);
}.

Lemma Val_inj {A} (a b : A) : Val a = Val b -> a = b.
Proof. by injection 1. Qed.

(** C27.  The client's output loses nothing: printing ends for every message, and
    two messages printed as the same text are the same, record by record and
    checksum by checksum. *)
Theorem print_lossless m m' title :
  printable m -> printable m' ->
  exists s, print m title = Val s /\ (print m' title = Val s -> m = m').
Proof.
  intros [Ht Hr Hc Hx] [Ht' Hr' Hc' Hx'].
  destruct (printTlvs_total (tlvs m)) as [s Es], (printTlvs_total (tlvs m')) as [s' Es'].
  unfold print. rewrite Es, Es'. cbn [mbind outcome_bind]. eexists. split; [done |].
  intros E%Val_inj. symmetry in E. do 3 apply app_inv_head in E.
  assert (forall m, 0 <= getCompleteSizeOfMsgInBytes m < 2 ^ 64) as Hsize
    by (intros x; unfold getCompleteSizeOfMsgInBytes; pose proof (u32_range) as Hu; unfold is_u32 in Hu;
        match goal with |- context [u32 ?z] => specialize (Hu z) end; lia).
  apply split_line in E as [_ E]; [| by apply to_string_no_newline ..].
  assert (forall c, c <> NL -> head [NL] <> Some c) as Hnl by (intros c Hne [= <-]; done).
  apply (printTlvs_inj (tlvs m) (tlvs m')) in E as [Etlvs E]; try done.
  2, 3: apply (head_printMd5 114), (head_printMd5 99), (head_printMd5 120), Hnl; done.
  apply (printMd5_inj 114) in E as [E1 E]; [| done | done | done | ..].
  2, 3: apply (head_printMd5 99), (head_printMd5 120), Hnl; done.
  apply (printMd5_inj 99) in E as [E2 E]; [| done | done | done | ..].
  2, 3: apply (head_printMd5 120), Hnl; done.
  apply (printMd5_inj 120) in E as [E3 _]; [| done ..].
  destruct m, m'. cbn in *. by subst.
Qed.

(** ** Instances *)

Definition sample_printed (v : list Z) : Message :=
  mkMessage (header_tlvs [2] ++ [Tlv 0x11 v]) (Some v) (Some v) (Some v).

Lemma sample_printable v : length v = 16%nat -> bytes v -> printable (sample_printed v).
Proof.
  intros Hl Hb. constructor; cbn; try done. repeat apply Forall_cons_2; try apply Forall_nil_2;
    (split; [unfold is_byte; cbn; lia |]); (split; [cbn; try (unfold zlen; rewrite Hl); done |]);
    cbn; first [exact Hb | repeat constructor; unfold is_byte; lia].
Qed.

Lemma print_lossless_witness :
  exists s, print (sample_printed (replicate 16 1)) (codes "response_000") = Val s /\
    (print (sample_printed (replicate 16 2)) (codes "response_000") = Val s ->
     sample_printed (replicate 16 1) = sample_printed (replicate 16 2)).
Proof.
  apply (print_lossless (sample_printed (replicate 16 1)) (sample_printed (replicate 16 2))
    (codes "response_000")).
  - apply sample_printable; [reflexivity | apply Forall_replicate; unfold is_byte; lia].
  - apply sample_printable; [reflexivity | apply Forall_replicate; unfold is_byte; lia].
Defined.
