(* ===== verification/NhacMain.v ===== *)
(** * src/tools/src/nhac.cpp: the client's main()

    The command line and the loop that takes each described query through
    serialisation, printing, sending, receiving and decoding.  Output and what
    the kernel takes are recorded as events; a thrown exception is [Ret 1]. *)

From S2P Require Import Prelude Memory Protocol Concrete Responder ResponderSpec Nhac NhacNet.
From S2P Require Import NhacParser ConfigurationParser Numbers NhacPrint.
From stdpp Require Import gmap strings.

Local Open Scope string_scope.
Local Open Scope list_scope.
Local Open Scope Z_scope.

(** ** The command line *)

Record options := mkOptions {
  ip : option (list Z);
  port : option (list Z);
  quiet : bool;
  jsonOutput : bool;
  queryString : list Z;
}.

Definition no_options : options := mkOptions None None false false [].

(** A return from main(), or the options. *)
Inductive cli :=
  | Quit (code : Z)
  | Run (o : options).

(** Lines 736-760: the letters behind a dash. *)
Fixpoint switches (letters : list Z) (o : options) : cli :=
  match letters with
  | [] => Run o
  | c :: letters =>
      if c =? 104 (* h *) then Quit 0
      else if c =? 72 (* H *) then Quit 0
      else if c =? 113 (* q *) then
        switches letters (mkOptions (ip o) (port o) true (jsonOutput o) (queryString o))
      else if c =? 106 (* j *) then
        switches letters (mkOptions (ip o) (port o) (quiet o) true (queryString o))
      else Quit 1
  end.

(** Lines 732-774: the arguments behind the program name. *)
Fixpoint clientArgs (args : list (list Z)) (o : options) : cli :=
  match args with
  | [] => Run o
  | arg :: args =>
      if bool_decide (head arg = Some MINUS) then
        match switches (List.tl arg) o with
        | Quit code => Quit code
        | Run o => clientArgs args o
        end
      else
        clientArgs args
          (match ip o, port o with
           | None, _ => mkOptions (Some arg) (port o) (quiet o) (jsonOutput o) (queryString o)
           | Some _, None => mkOptions (ip o) (Some arg) (quiet o) (jsonOutput o) (queryString o)
           | Some _, Some _ =>
               mkOptions (ip o) (port o) (quiet o) (jsonOutput o) (queryString o ++ SPACE :: arg)
           end)
  end.

(** ** The loop *)

Definition bufferSize : Z := 65536.

Inductive client_event :=
  | Printed (text : list Z)
  | SentQuery (pieces : list (list Z))
  | Disconnected (fd : Z).

Definition emit (e : client_event) : M (list client_event) unit := fun s => (Val tt, s ++ [e]).

(** The network during one query and its response: what send() returns, and
    what recv() answers. *)
Record exchange := mkExchange {
  send_answers : nat -> list Z -> Z;
  arrival : connection;
}.

(** [std::setw(3) << std::setfill('0') << counter] *)
Definition counterStr (counter : nat) : list Z :=
  let s := to_string (Z.of_nat counter) in replicate (3 - length s) 48 ++ s.

(** What it does, and the new value of the variable. *)
Definition disconnectFromNha (sockfd : Z) : list client_event * Z :=
  (if sockfd >=? 0 then [Disconnected sockfd] else [], -1).

Section Session.
Context (md5 : list Z -> list Z).

(** [msg.serialize(buffer, bufferSize)] *)
Definition serializeInto (msg : Message) (buf : list Z) : outcome (Z * Message * list Z) :=
  match serialize md5 msg bufferSize (BufSt tt buf) with
  | (Val (n, msg), BufSt _ buf) => Val (n, msg, buf)
  | (Ret v, _) => Ret v
  | (Undef, _) => Undef
  | (NoFuel, _) => NoFuel
  end.

(** Lines 796-809: one query; the message object and the buffer afterwards.  Every
    recv() of the response but the last stores a byte at least. *)
Definition oneQuery (quiet : bool) (x : exchange) (counter : nat) (msg : Message) (buf : list Z) :
    M (list client_event) (Message * list Z) :=
  '(sendSize, msg, buf) ← lift (serializeInto msg buf);
  (if quiet then mret tt
   else text ← lift (print msg (codes "query_" ++ counterStr counter)); emit (Printed text)) ;;
  data ← lift (rd_range buf 0 sendSize);
  pieces ← lift (sendQuery (send_answers x) data);
  emit (SentQuery pieces) ;;
  '(recvSize, buf) ← lift (receiveResponse (Z.to_nat bufferSize) (arrival x) buf bufferSize);
  '(_, msg) ← lift (deserialize md5 buf recvSize);
  text ← lift (print msg (codes "response_" ++ counterStr counter));
  emit (Printed text) ;;
  mret (msg, buf).

(** Lines 792-810.  A query takes a character of the input at least. *)
Fixpoint session (fuel : nat) (quiet : bool) (exchanges : nat -> exchange) (counter : nat)
    (msg : Message) (input buf : list Z) : M (list client_event) unit :=
  '(parsed, input) ← lift (parse msg input);
  match parsed with
  | None => mret tt
  | Some msg =>
      match fuel with
      | O => lift NoFuel
      | S fuel =>
          '(msg, buf) ← oneQuery quiet (exchanges counter) counter msg buf;
          session fuel quiet exchanges (S counter) msg input buf
      end
  end.

(** main(): its output and exit status.  [buf] is the uninitialised buffer. *)
Definition clientMain (args : list (list Z)) (stdin : list Z) (a : connect_answers)
    (exchanges : nat -> exchange) (buf : list Z) : list client_event * outcome Z :=
  match clientArgs args no_options with
  | Quit code => ([], Val code)
  | Run o =>
      match ip o, port o with
      | Some ip, Some port =>
          let input := if bool_decide (queryString o = []) then stdin else queryString o in
          match connectToNha a ip port with
          | Val sockfd =>
              match session (S (length input)) (quiet o) exchanges 0 (mkMessage [] None None None)
                      input buf [] with
              | (Val _, out) => (out, Val 0)
              | (Ret _, out) => (out ++ (disconnectFromNha sockfd).1, Val 1)
              | (Undef, out) => (out, Undef)
              | (NoFuel, out) => (out, NoFuel)
              end
          | Ret _ => ((disconnectFromNha (-1)).1, Val 1)
          | Undef => ([], Undef)
          | NoFuel => ([], NoFuel)
          end
      | _, _ => ([], Val 1)
      end
  end.
End Session.

(** ** A dialogue *)

(** A query, the records and the checksum of the response to it, and the pieces
    in which the response arrives behind its size field. *)
Record dialogue := mkDialogue {
  d_query : list tlv;
  d_records : list tlv;
  d_sum : list Z;
  d_pieces : list (list Z);
}.

Definition message_of (ts : list tlv) : Message := mkMessage ts None None None.

(** The exchange [x] carries the dialogue [d]. *)
Record carries (d : dialogue) (x : exchange) : Prop := {
  ca_query : Forall wf_tlv (d_query d);
  ca_query_size : 20 + zlen (encode_tlvs (d_query d)) <= bufferSize;
  ca_records : Forall wf_tlv (d_records d);
  ca_records_size : 20 + zlen (encode_tlvs (d_records d)) <= bufferSize;
  ca_sum : length (d_sum d) = 16%nat;
  ca_sum_bytes : bytes (d_sum d);
  ca_send : send_ok (send_answers x);
  ca_no_fail data : data <> [] -> ~ send_fails (send_answers x) data;
  ca_pieces : Forall (fun p => p <> []) (d_pieces d);
  ca_all : take 4 (wire_data (d_records d) ++ d_sum d) ++ concat (d_pieces d) =
             wire_data (d_records d) ++ d_sum d;
  ca_arrival : delivers (take 4 (wire_data (d_records d) ++ d_sum d) :: d_pieces d) (arrival x);
}.

Section Dialogue.
Context (md5 : list Z -> list Z).
Context (Hmd5 : forall data, length (md5 data) = 16%nat) (Hmd5b : forall data, bytes (md5 data)).

(** What the client prints and sends for one dialogue: the query with its
    checksum, unless it is quiet, its bytes, and the response decoded. *)
Definition transcript (quiet : bool) (k : nat) (d : dialogue) (es : list client_event) : Prop :=
  let data := wire_data (d_query d) in
  exists pieces query response,
    concat pieces = data ++ md5 data /\
    print (mkMessage (d_query d) None (Some (md5 data)) None) (codes "query_" ++ counterStr k) = Val query /\
    print (received_message md5 (d_records d) (d_sum d)) (codes "response_" ++ counterStr k) = Val response /\
    es = (if quiet then [] else [Printed query]) ++ [SentQuery pieces; Printed response].

Fixpoint transcripts (quiet : bool) (k : nat) (ds : list dialogue) (es : list client_event) : Prop :=
  match ds with
  | [] => es = []
  | d :: ds => exists e es', es = e ++ es' /\ transcript quiet k d e /\ transcripts quiet (S k) ds es'
  end.

Lemma print_total m title : exists s, print m title = Val s.
Proof. unfold print. destruct (printTlvs_total (tlvs m)) as [s ->]. by eexists. Qed.

Lemma zlen_md5 data : zlen (md5 data) = 16.
Proof. unfold zlen. by rewrite Hmd5. Qed.

Lemma serializeInto_ok ts buf :
  Forall wf_tlv ts -> 20 + zlen (encode_tlvs ts) <= bufferSize -> zlen buf = bufferSize ->
  serializeInto md5 (message_of ts) buf =
    Val (20 + zlen (encode_tlvs ts), mkMessage ts None (Some (md5 (wire_data ts))) None,
         splice buf 0 (wire_data ts ++ md5 (wire_data ts))).
Proof.
  intros Hw Hs Hb. unfold serializeInto. rewrite serialize_ok; try done; cbn; unfold bufferSize in *; lia.
Qed.

(** The bytes of a signed message at the start of the buffer. *)
Lemma signed_prefix data sum buf n :
  length sum = 16%nat -> n = zlen data + 16 -> n <= zlen buf ->
  rd_range (splice buf 0 (data ++ sum)) 0 n = Val (data ++ sum) /\
  zlen (splice buf 0 (data ++ sum)) = zlen buf.
Proof.
  intros Hs -> Hn. assert (zlen (data ++ sum) = zlen data + 16) as Hz
    by (rewrite zlen_app; unfold zlen; by rewrite Hs). split.
  - apply (rd_range_at [] (data ++ sum) (drop (length (data ++ sum)) buf)); done.
  - unfold zlen in *. rewrite length_splice; lia.
Qed.

Lemma signed_bytes ts sum : Forall wf_tlv ts -> bytes sum -> bytes (wire_data ts ++ sum).
Proof.
  intros Hts Hs. repeat (apply Forall_app; split); [apply le_bytes_bytes | by apply bytes_encode_tlvs | done].
Qed.

Lemma received_ok d x buf :
  carries d x -> zlen buf = bufferSize ->
  let m := wire_data (d_records d) ++ d_sum d in
  receiveResponse (Z.to_nat bufferSize) (arrival x) buf bufferSize = Val (zlen m, splice buf 0 m).
Proof.
  intros [_ _ Hw Hs Hl Hb _ _ Hne Hall Hd] Hbuf. cbn zeta.
  set (m := wire_data (d_records d) ++ d_sum d) in *. pose proof (zlen_nonneg (encode_tlvs (d_records d))).
  assert (zlen m = 20 + zlen (encode_tlvs (d_records d))) as Hz
    by (unfold m; rewrite zlen_app, zlen_wire_data; unfold zlen at 2; rewrite Hl; lia).
  assert (length (take 4 m) = 4%nat) as H4 by (rewrite length_take; unfold zlen in *; lia).
  assert (le_value (take 4 m) = zlen m) as Hv.
  { unfold m at 1, wire_data. rewrite <- app_assoc, take_app_length' by done. rewrite le_value_bytes, Hz.
    apply Z.mod_small. unfold bufferSize in Hs. lia. }
  pose proof (f_equal length Hall) as Hlen. rewrite length_app, H4 in Hlen.
  pose proof (receiveResponse_ok (Z.to_nat bufferSize) (arrival x) (take 4 m) (d_pieces d) buf bufferSize Hd H4) as Hr.
  cbn [concat] in Hr. rewrite Hall in Hr. unfold bufferSize in *. apply Hr; try done; try lia.
  - by apply Forall_take, signed_bytes.
  - intros E. rewrite E in Hlen. change (length (concat [])) with 0%nat in Hlen. clearbody m. unfold zlen in *. lia.
  - assert (forall l : list (list Z), Forall (fun p => p <> []) l -> (length l <= length (concat l))%nat) as Hcl.
    { clear. induction 1 as [| p l Hp _ IH]; [done |]. cbn [concat length]. rewrite length_app.
      destruct p; [done | cbn; lia]. }
    specialize (Hcl _ Hne). unfold zlen in *. lia.
Qed.

(** What has been received is decoded. *)
Lemma decoded_ok d x buf :
  carries d x -> bytes buf -> zlen buf = bufferSize ->
  let m := wire_data (d_records d) ++ d_sum d in
  deserialize md5 (splice buf 0 m) (zlen m) = Val (zlen m, received_message md5 (d_records d) (d_sum d)).
Proof.
  intros [_ _ Hr Hrs Hsl Hsb _ _ _ _ _] Hb Hbuf. cbn zeta.
  assert (zlen (wire_data (d_records d) ++ d_sum d) = 20 + zlen (encode_tlvs (d_records d))) as Hz
    by (rewrite zlen_app, zlen_wire_data; unfold zlen at 2; rewrite Hsl; lia).
  rewrite splice_0, <- app_assoc, deserialize_wire; rewrite ?Hz; try done.
  - by apply Forall_drop.
  - rewrite app_assoc, zlen_app, Hz. pose proof (zlen_nonneg (drop (length (wire_data (d_records d) ++ d_sum d)) buf)). lia.
  - unfold bufferSize in Hrs. lia.
Qed.

Lemma bind_emit {A} e (f : M (list client_event) A) s : (emit e ;; f) s = f (s ++ [e]).
Proof. done. Qed.

(** One round of the loop. *)
Lemma oneQuery_ok quiet k d x buf out :
  carries d x -> zlen buf = bufferSize -> bytes buf ->
  exists msg buf' es, oneQuery md5 quiet x k (message_of (d_query d)) buf out = (Val (msg, buf'), out ++ es) /\
    zlen buf' = bufferSize /\ bytes buf' /\ transcript quiet k d es.
Proof.
  intros Hc Hb Hbb. pose proof Hc as [Hq Hqs Hr Hrs Hsl Hsb Hso Hnf Hne _ _].
  set (data := wire_data (d_query d)).
  assert (zlen data = 4 + zlen (encode_tlvs (d_query d))) as Hdz by apply zlen_wire_data.
  destruct (print_total (mkMessage (d_query d) None (Some (md5 data)) None)
    (codes "query_" ++ counterStr k)) as [query Eq].
  destruct (print_total (received_message md5 (d_records d) (d_sum d))
    (codes "response_" ++ counterStr k)) as [response Er].
  destruct (signed_prefix data (md5 data) buf (20 + zlen (encode_tlvs (d_query d)))) as [Ep Hl];
    [apply Hmd5 | lia | lia |].
  destruct (sendLoop_complete (send_answers x) (length (data ++ md5 data)) 0 (data ++ md5 data) Hso (le_n _))
    as [[Hf _] | (pieces & Es & Epieces)]; [done | by apply Hnf in Hf |].
  set (m := wire_data (d_records d) ++ d_sum d).
  exists (received_message md5 (d_records d) (d_sum d)), (splice (splice buf 0 (data ++ md5 data)) 0 m).
  exists ((if quiet then [] else [Printed query]) ++ [SentQuery pieces; Printed response]).
  assert (zlen m = 20 + zlen (encode_tlvs (d_records d))) as Hmz
    by (unfold m; rewrite zlen_app, zlen_wire_data; unfold zlen at 2; rewrite Hsl; lia).
  split; [| split_and!].
  - unfold oneQuery. rewrite (bind_lift _ _ _ _ (serializeInto_ok _ buf Hq Hqs Hb)). fold data.
    assert (forall s (f : M (list client_event) (Message * list Z)),
      ((if quiet then mret tt else text ← lift (print (mkMessage (d_query d) None (Some (md5 data)) None)
          (codes "query_" ++ counterStr k)); emit (Printed text)) ;; f) s =
      f (s ++ (if quiet then [] else [Printed query]))) as Hprint.
    { intros s f. destruct quiet; [by rewrite app_nil_r |]. rewrite Eq. done. }
    rewrite Hprint, (bind_lift _ _ _ _ Ep), (bind_lift _ _ _ pieces Es).
    rewrite bind_emit.
    rewrite (bind_lift _ _ _ _ (received_ok d x (splice buf 0 (data ++ md5 data)) Hc ltac:(lia))). fold m.
    rewrite (bind_lift _ _ _ (zlen m, received_message md5 (d_records d) (d_sum d))).
    2: { apply (decoded_ok d x); [done | by apply bytes_splice; [| apply signed_bytes] | lia]. }
    rewrite (bind_lift _ _ _ _ Er), bind_emit. unfold mret, M_ret.
    by rewrite <- !app_assoc.
  - unfold zlen in *. rewrite length_splice; unfold bufferSize in *; lia.
  - by repeat apply bytes_splice; [| apply signed_bytes | apply signed_bytes].
  - by exists pieces, query, response.
Qed.

(** C26.  A whole session: for any list of queries described to the client, with
    a network that carries each query and its response (its size field in one
    piece of four bytes, the rest in any number of pieces), the loop sends exactly the serialised queries in order, prints each (unless
    quiet) and each decoded response under its number, and ends without an
    error. *)
Theorem session_complete quiet exchanges ds k msg buf out :
  Forall2 carries ds (map exchanges (seq k (length ds))) ->
  zlen buf = bufferSize -> bytes buf ->
  let input := concat (map (fun d => describe (d_query d)) ds) in
  exists es, session md5 (S (length input)) quiet exchanges k msg input buf out = (Val tt, out ++ es) /\
    transcripts quiet k ds es.
Proof.
  intros Hds Hb Hbb. cbn zeta. set (input := concat (map (fun d => describe (d_query d)) ds)).
  assert (forall fuel, (length input < fuel)%nat -> exists es,
    session md5 fuel quiet exchanges k msg input buf out = (Val tt, out ++ es) /\
    transcripts quiet k ds es) as H; [| apply H; lia].
  subst input. revert k msg buf out Hds Hb Hbb.
  induction ds as [| d ds IH]; intros k msg buf out Hds Hb Hbb fuel Hf.
  - exists []. rewrite app_nil_r. by destruct fuel.
  - cbn [length seq map] in Hds. apply Forall2_cons in Hds as [Hd Hds]. cbn [map concat] in *.
    destruct fuel as [| fuel]; [lia |]. cbn [session].
    rewrite (bind_lift _ _ _ _ (parse_described msg (d_query d) _ (ca_query _ _ Hd))).
    destruct (oneQuery_ok quiet k d (exchanges k) buf out Hd Hb Hbb) as (msg' & buf' & es & E & Hb' & Hbb' & Ht).
    cbv beta iota. rewrite (bind_val _ _ _ _ _ E).
    destruct (IH (S k) msg' buf' (out ++ es) Hds Hb' Hbb' fuel) as (es' & E' & Hts).
    { rewrite length_app in Hf. unfold describe at 1 in Hf. cbn [length] in Hf. lia. }
    exists (es ++ es'). rewrite E', app_assoc. split; [done |]. by exists es, es'.
Qed.
End Dialogue.

(** ** A response larger than the buffer *)

(** Empty records of tag 0 up to the end of the buffer, and a message whose
    checksum is said to end behind it: the loop leaves the buffer, or the
    checksum does. *)
Lemma deserializeTlvs_overread fuel buf start pos endPos acc h :
  (forall i, start <= i < zlen buf -> rd buf i = Val 0) -> 0 <= start <= pos ->
  endPos = pos + 2 * h -> 0 <= h -> endPos - pos <= Z.of_nat fuel -> zlen buf < endPos + 16 ->
  ('(_, pos) ← deserializeTlvs fuel buf pos endPos acc; rd_range buf pos 16) = Undef.
Proof.
  intros Hz. revert pos acc h. induction fuel as [| fuel IH]; intros pos acc h Hp He Hh Hf Hend;
    cbn [deserializeTlvs]; destruct (Z.ltb_spec pos endPos); try lia.
  1, 3: cbn [mbind outcome_bind]; unfold rd_range; cbn [Z.leb Z.compare];
    destruct (Z.ltb_spec (zlen buf) (pos + 16)); [by rewrite orb_true_r | lia].
  unfold TLV_deserialize. destruct (Z.ltb_spec (endPos - pos) 2); [lia |].
  cbn [throw_if mbind outcome_bind].
  assert (forall i, zlen buf <= i -> rd buf i = Undef) as Hu.
  { intros i Hi. unfold rd. rewrite lookup_ge_None_2 by (unfold zlen in Hi; lia). by case_test. }
  destruct (decide (pos + 1 < zlen buf)).
  - rewrite (Hz pos), (Hz (pos + 1)) by lia. cbn [mbind outcome_bind].
    destruct (Z.ltb_spec (endPos - pos) (2 + 0)); [lia |].
    cbn [throw_if mbind outcome_bind]. rewrite rd_range_ok by lia. cbn [mbind outcome_bind].
    apply (IH (pos + (2 + 0)) _ (h - 1)); lia.
  - destruct (decide (pos < zlen buf)); [rewrite (Hz pos), (Hu (pos + 1)) by lia | rewrite (Hu pos) by lia]; done.
Qed.

(** What a server sends to that end behind the size field: a record of one byte
    first if the announced size is odd, then zeros. *)
Definition overread_body (n size : Z) : list Z :=
  let front := if Z.odd size then [0; 1; 0] else [] in
  front ++ replicate (Z.to_nat (n - 4) - length front) 0.

Lemma overread_body_ok n size :
  20 <= n -> zlen (overread_body n size) = n - 4 /\ bytes (overread_body n size).
Proof.
  intros Hn. unfold overread_body, zlen. rewrite length_app, length_replicate. split.
  - destruct (Z.odd size); cbn [length]; lia.
  - apply Forall_app. split; [destruct (Z.odd size); repeat constructor; lia |].
    apply Forall_replicate. unfold is_byte. lia.
Qed.

(** Its bytes behind the first record are zeros. *)
Lemma overread_body_zeros size n i :
  let buf := le_bytes 4 size ++ overread_body n size in
  (if Z.odd size then 7 else 4) <= i < zlen buf -> rd buf i = Val 0.
Proof.
  intros buf Hi. subst buf. unfold overread_body in *. set (front := if Z.odd size then [0; 1; 0] else []) in *.
  assert ((if Z.odd size then 7 else 4) = 4 + zlen front) as Hf by (subst front; by destruct (Z.odd size)).
  rewrite app_assoc in *. set (pre := le_bytes 4 size ++ front) in *.
  assert (zlen pre = 4 + zlen front) as Hpre by (unfold pre; by rewrite zlen_app, zlen_le_bytes).
  pose proof (zlen_nonneg front). rewrite Hf, zlen_app in Hi. unfold rd.
  destruct (Z.ltb_spec i 0); [lia |]. unfold zlen in *. rewrite length_replicate in Hi.
  rewrite lookup_app_r by lia. rewrite lookup_replicate_2; [done |]. lia.
Qed.

(** [deserialize] of such a message leaves the buffer. *)
Lemma deserialize_overread md5 n size :
  20 <= n -> n < size < 2 ^ 32 -> size <> 21 ->
  deserialize md5 (le_bytes 4 size ++ overread_body n size) size = Undef.
Proof.
  intros Hn Hs H21. destruct (overread_body_ok n size Hn) as [Hzl Hzb].
  pose proof (overread_body_zeros size n) as Hz. cbn zeta in Hz.
  set (buf := le_bytes 4 size ++ overread_body n size) in *.
  assert (zlen buf = n) as Hl by (unfold buf; rewrite zlen_app, zlen_le_bytes, Hzl; lia).
  rewrite deserialize_size; [| apply Forall_app; split; [apply le_bytes_bytes | done] | lia | lia].
  assert (le_value (take 4 buf) = size) as ->
    by (unfold buf; rewrite take_app_length', le_value_bytes by done; apply Z.mod_small; lia).
  cbn zeta. destruct (Z.gtb_spec size size); [lia |]. destruct (Z.ltb_spec size 20); [lia |].
  cbn [throw_if mbind outcome_bind].
  assert (forall fuel acc pos h, pos = (if Z.odd size then 7 else 4) -> size - 16 = pos + 2 * h ->
    size - 16 - pos <= Z.of_nat fuel -> 0 <= h ->
    forall f : list tlv -> Z -> list Z -> outcome (Z * Message),
    ('(ts, p) ← deserializeTlvs fuel buf pos (size - 16) acc; r ← rd_range buf p 16; f ts p r) = Undef) as Hgo.
  { intros fuel acc pos h Ep Eh Hf Hh f. rewrite <- Ep in Hz.
    assert (0 <= pos) by (destruct (Z.odd size); lia).
    pose proof (deserializeTlvs_overread fuel buf pos pos (size - 16) acc h Hz ltac:(lia) Eh Hh Hf ltac:(lia)) as Ho.
    destruct (deserializeTlvs fuel buf pos (size - 16) acc) as [[ts p] | | |]; cbn [mbind outcome_bind] in *;
      [by rewrite Ho | done ..]. }
  pose proof (Z.div2_odd size) as Hd2. rewrite Z.div2_div in Hd2.
  destruct (Z.odd size) eqn:Hodd; cbn [Z.b2z] in Hd2.
  - destruct (Z.to_nat (size - 16)) as [| fuel] eqn:Ef; [lia |]. cbn [deserializeTlvs].
    destruct (Z.ltb_spec 4 (size - 16)); [| lia]. unfold TLV_deserialize.
    destruct (Z.ltb_spec (size - 16 - 4) 2); [lia |]. cbn [throw_if mbind outcome_bind].
    assert (rd buf 4 = Val 0 /\ rd buf (4 + 1) = Val 1) as [-> ->]
      by (unfold buf, overread_body; rewrite Hodd; done).
    cbn [mbind outcome_bind]. destruct (Z.ltb_spec (size - 16 - 4) (2 + 1)); [lia |].
    cbn [throw_if mbind outcome_bind]. rewrite rd_range_ok by lia. cbn [mbind outcome_bind].
    apply (Hgo fuel _ _ (size / 2 - 11)); lia.
  - apply (Hgo _ [] 4 (size / 2 - 10)); lia.
Qed.

(** C39.  A response that is said to be larger than the client's buffer makes the
    client read behind its end: for every such size (but 21, which is one only
    for a buffer of 20 bytes) there is a server whose response [receiveResponse]
    stores to the end of the buffer, returning the announced size, and
    [deserialize], which trusts it, leaves the buffer, in the records or in the
    checksum. *)
Theorem oversized_response md5 fuel buf size :
  bytes buf -> 20 <= zlen buf -> zlen buf < size < 2 ^ 32 -> size <> 21 ->
  exists c buf', recv_ok c /\ receiveResponse fuel c buf (zlen buf) = Val (size, buf') /\
    zlen buf' = zlen buf /\ deserialize md5 buf' size = Undef.
Proof.
  intros Hb Hn Hs H21. set (n := zlen buf) in *. set (body := overread_body n size).
  set (c := Connection (fun k m => Received (take (Z.to_nat m)
    (if Nat.eqb k 0 then le_bytes 4 size else body))) (fun _ => 0)).
  destruct (overread_body_ok n size Hn) as [Hzl Hzb]. fold body in Hzl, Hzb.
  exists c, (le_bytes 4 size ++ body).
  split_and!; [| | rewrite zlen_app, zlen_le_bytes, Hzl; lia | by apply deserialize_overread].
  - intros k m Hm. cbn [recv c]. split; [unfold zlen; rewrite length_take; lia |].
    apply Forall_take. case_test; [apply le_bytes_bytes | done].
  - rewrite (receive_size fuel c buf n (le_bytes 4 size)) by (try apply le_bytes_bytes; done || lia).
    rewrite le_value_bytes, Z.mod_small by lia. rewrite Z.min_l by lia.
    rewrite u64_id by (unfold is_u64; lia). cbn [recv c Nat.eqb]. rewrite take_ge by (unfold zlen in Hzl; lia).
    rewrite splice_0, length_le_bytes.
    assert (zlen (le_bytes 4 size ++ drop 4 buf) = n) as Hl2
      by (rewrite zlen_app, zlen_le_bytes; unfold n, zlen in *; rewrite length_drop; lia).
    rewrite store_ok by (cbn [recvResult]; lia). cbn [mbind outcome_bind].
    assert (splice (le_bytes 4 size ++ drop 4 buf) (Z.to_nat 4) body = le_bytes 4 size ++ body) as ->.
    { unfold splice. rewrite take_app_length' by done. rewrite drop_ge, app_nil_r; [done |].
      unfold zlen in *. lia. }
    destruct fuel; cbn [responseLoop recvResult]; rewrite Hzl, Z.eqb_refl, andb_false_r;
      cbn [mbind outcome_bind recvResult]; rewrite Hzl; destruct (Z.eqb_spec (n - 4) (-1)), (Z.eqb_spec (n - 4) 0);
      done || lia.
Qed.

(** ** Instances *)

Definition client_buffer : list Z := replicate (Z.to_nat bufferSize) 0.

Lemma client_buffer_ok : zlen client_buffer = bufferSize /\ bytes client_buffer.
Proof.
  unfold client_buffer, zlen. rewrite length_replicate. split; [done |].
  apply Forall_replicate. unfold is_byte. lia.
Qed.

(** A query for the receive time, and its response in three pieces. *)
Definition sample_response : list Z :=
  Eval vm_compute in
  wire_data (header_tlvs [0] ++ [Tlv 0x12 (le_bytes 8 5)]) ++ replicate 16 7.

Definition sample_dialogue : dialogue :=
  mkDialogue (header_tlvs [0] ++ [Tlv 0x92 []]) (header_tlvs [0] ++ [Tlv 0x12 (le_bytes 8 5)])
    (replicate 16 7) [take 10 (drop 4 sample_response); drop 14 sample_response].

Definition sample_exchange : exchange :=
  mkExchange (fun _ data => Z.min 3 (zlen data))
    (Connection (fun k n => match (take 4 sample_response :: d_pieces sample_dialogue) !! k with
                            | Some p => Received (take (Z.to_nat n) p)
                            | None => WouldBlock
                            end) (fun _ => 0)).

Lemma sample_carries : carries sample_dialogue sample_exchange.
Proof.
  constructor.
  - apply (bool_decide_unpack _). vm_compute. exact I.
  - vm_compute. discriminate.
  - apply (bool_decide_unpack _). vm_compute. exact I.
  - vm_compute. discriminate.
  - reflexivity.
  - apply (bool_decide_unpack _). vm_compute. exact I.
  - intros k data Hd. right. cbn [send_answers sample_exchange]. destruct data; [done |].
    unfold zlen. cbn [length]. lia.
  - intros data _ (k & i & E). cbn in E. pose proof (zlen_nonneg (drop i data)). lia.
  - repeat constructor; discriminate.
  - vm_compute. reflexivity.
  - intros k n. reflexivity.
Qed.

Lemma session_complete_witness :
  exists es,
    session sum_md5 (S (length (concat (map (fun d => describe (d_query d)) [sample_dialogue]))))
      false (fun _ => sample_exchange) 0 (message_of [])
      (concat (map (fun d => describe (d_query d)) [sample_dialogue])) client_buffer [] = (Val tt, [] ++ es) /\
    transcripts sum_md5 false 0 [sample_dialogue] es.
Proof.
  apply (session_complete sum_md5 (fun data => proj1 (sum_md5_ok data)) (fun data => proj2 (sum_md5_ok data))
    false (fun _ => sample_exchange) [sample_dialogue] 0 (message_of []) client_buffer []).
  - apply Forall2_cons. split; [exact sample_carries | apply Forall2_nil; exact I].
  - apply client_buffer_ok.
  - apply client_buffer_ok.
Defined.

(** One byte more than the buffer holds. *)
Lemma oversized_response_witness :
  exists c buf', recv_ok c /\ receiveResponse 10 c client_buffer (zlen client_buffer) = Val (65537, buf') /\
    zlen buf' = zlen client_buffer /\ deserialize sum_md5 buf' 65537 = Undef.
Proof.
  destruct client_buffer_ok as [Hl Hb].
  apply (oversized_response sum_md5 10 client_buffer 65537).
  - exact Hb.
  - rewrite Hl. unfold bufferSize. lia.
  - rewrite Hl. unfold bufferSize. lia.
  - discriminate.
Defined.

(** Options and a query on the command line, and an unknown option. *)
Example clientArgs_sample :
  clientArgs [codes "-q"; codes "::1"; codes "7872"; codes "{H"; codes "d}"] no_options =
    Run (mkOptions (Some (codes "::1")) (Some (codes "7872")) true false (codes " {H d}")) /\
  clientArgs [codes "-x"] no_options = Quit 1.
Proof. vm_compute. split; reflexivity. Qed.
