(* ===== verification/Main.v ===== *)
(** * src/src/main.cpp

    Start-up of the server: pinning the process to a core, the command line,
    the configuration with its numbers, and the construction of the timer, the
    TPM watcher and the responder up to the call of [Responder::start].  What
    the operating system and the hardware answer is the argument [machine]. *)

From S2P Require Import Prelude Memory Protocol Hardware MessageBuilder Concrete Double.
From S2P Require Import MonotonicTimer TPMWatcher System Responder ResponderSpec Server Nhac.
From S2P Require Import NhacParser ConfigurationParser Numbers.
From stdpp Require Import gmap strings relations.

Local Open Scope string_scope.
Local Open Scope list_scope.
Local Open Scope Z_scope.

Record machine := {
  (* sched_getaffinity() and sched_setaffinity(): the allowed cores, [None] on
     error; whether a set is accepted *)
  sched_getaffinity : option (Z -> bool);
  sched_setaffinity : list Z -> bool;
  (* the content of a file, [None] if it cannot be opened *)
  files : list Z -> option (list Z);
  (* what the constructor of the timer finds: the CPU, the perf page, its
     readings of clock and counter *)
  cpu : Cpuid;
  perf : Perf;
  start_time : Z;
  start_tsc : Z;
  (* the TPM, and the counter when its first update finishes *)
  tpm : Tss;
  tpm_tsc : Z;
  (* the socket calls of setupServer() *)
  network : setup_answers;
  (* what the responder's two buffers, which are not initialised, hold *)
  recv_memory : list Z;
  send_memory : list Z;
  (* what the other threads do from then on *)
  later : list env_step;
}.

(** ** pin_to_first_core() *)

Definition CPU_SETSIZE : nat := 1024.

(** The first allowed core of the [n] from [i] on, -1 without one. *)
Fixpoint firstAllowed (set : Z -> bool) (i : Z) (n : nat) : Z :=
  match n with
  | O => -1
  | S n => if set i then i else firstAllowed set (i + 1) n
  end.

(** CPU_ZERO and CPU_SET; the latter ignores a core outside the set's size. *)
Definition cpuSet (core : Z) : list Z :=
  if (0 <=? core) && (core <? Z.of_nat CPU_SETSIZE) then [core] else [].

(** The set the process is restricted to, [None] when it returns false. *)
Definition pin_to_first_core (m : machine) : option (list Z) :=
  set ← sched_getaffinity m;
  let core := firstAllowed set 0 CPU_SETSIZE in
  if sched_setaffinity m (cpuSet core) then Some (cpuSet core) else None.

(** ** main() *)

(** The status a failing start leaves with sd_notify(), if any. *)
Definition status : Type := option string.

Definition orFail {A} (o : option A) (s : string) : status + A :=
  match o with Some a => inr a | None => inl (Some s) end.

#[local] Instance status_bind : MBind (sum status) :=
  fun A B f x => match x with inl s => inl s | inr a => f a end.

(** Lines 74-95: the arguments behind the program name. *)
Fixpoint commandLine (args : list (list Z)) (configFilename : list Z) : status + list Z :=
  match args with
  | [] => inr configFilename
  | arg :: args =>
      if bool_decide (arg = codes "-c") then
        match args with
        | file :: args => commandLine args file
        | [] => inl (Some "STATUS=No configuration file provided!")
        end
      else inl None
  end.

Definition mandatory : list string :=
  ["host"; "port"; "max_connections"; "tpm_interval_in_ms"; "tsc_check_interval_in_ms";
   "tsc_check_deviation_threshold"].

(** Lines 107-116. *)
Fixpoint checkKeys (config : ConfigurationParser) (keys : list string) : status + unit :=
  match keys with
  | [] => inr tt
  | key :: keys =>
      if hasKey config (codes key) then checkKeys config keys
      else inl (Some ("STATUS=Missing mandatory configuration field: " ++ key)%string)
  end.

Record settings := {
  config : ConfigurationParser;
  maxConnections_setting : Z;
  tpmIntervalInMS : Z;
  tscCheckIntervalInMs : Z;
  tscCheckDeviationThreshold : double;
}.

(** Lines 66-169. *)
Definition readConfiguration (m : machine) (args : list (list Z)) : status + settings :=
  match args with
  | [] => inl (Some "STATUS=No configuration file provided!")
  | _ :: _ =>
      configFilename ← commandLine args [];
      let '(loaded, config) := load (files m configFilename) ∅ in
      if negb loaded then inl (Some "STATUS=Could not parse configuration file!")
      else
        _ ← checkKeys config mandatory;
        maxConnections ← orFail (ConfigurationParser.get config (codes "max_connections") ≫= stoi)
          "STATUS=Invalid value specified for max_connections!";
        tpmInterval ← orFail (ConfigurationParser.get config (codes "tpm_interval_in_ms") ≫= stol)
          "STATUS=Invalid value specified for tpm_interval_in_ms!";
        tscInterval ← orFail (ConfigurationParser.get config (codes "tsc_check_interval_in_ms") ≫= stoll)
          "STATUS=Invalid value specified for tsc_check_interval_in_ms!";
        threshold ← orFail (ConfigurationParser.get config (codes "tsc_check_deviation_threshold") ≫= stod)
          "STATUS=Invalid value specified for tscCheckDeviationThreshold!";
        inr {| config := config; maxConnections_setting := maxConnections; tpmIntervalInMS := tpmInterval;
               tscCheckIntervalInMs := tscInterval; tscCheckDeviationThreshold := threshold |}
  end.

(** How [main] gets on: it returns EXIT_FAILURE, or it enters
    [Responder::start], with the watcher's timer set to an interval. *)
Inductive main_end :=
  | Failure (s : status)
  | Ready (r : Responder World) (intervalInMs : Z).

(** Lines 171-213. *)
Definition startComponents (m : machine) (s : settings) : outcome main_end :=
  timer ← MonotonicTimer.construct (cpu m) (perf m) (tscCheckIntervalInMs s)
    (tscCheckDeviationThreshold s) (start_time m) (start_tsc m);
  match timer with
  | None => Val (Failure (Some "STATUS=Could not initialize MonotonicTimer!"))
  | Some monotonicTimer =>
      let intervalInMs := u32 (tpmIntervalInMS s) in   (* long to unsigned *)
      '(started, tpmWatcher) ← TPMWatcher.start (tpm m)
        (MonotonicTimer.get monotonicTimer (tpm_tsc m)) TPMWatcher.construct;
      if negb started then Val (Failure (Some "STATUS=Could not start TPMWatcher!"))
      else
        match ConfigurationParser.get (config s) (codes "host"),
              ConfigurationParser.get (config s) (codes "port") with
        | Some host, Some port =>
            let responder := mkResponder host port (maxConnections_setting s) []
              (recv_memory m) (send_memory m) []
              (mkWorld monotonicTimer tpmWatcher (tpm_tsc m) (later m) false) in
            let '(ok, responder) := setupServer (network m) responder in
            if negb ok then Val (Failure (Some "STATUS=Could not setup server!"))
            else Val (Ready responder intervalInMs)
        | _, _ => Undef   (* an exception nothing catches *)
        end
  end.

Definition main (m : machine) (args : list (list Z)) : outcome main_end :=
  match pin_to_first_core m with
  | None => Val (Failure (Some "STATUS=Failed to pin to a single core!"))
  | Some _ =>
      match readConfiguration m args with
      | inl s => Val (Failure s)
      | inr s => startComponents m s
      end
  end.

(** ** Pinning *)

Lemma firstAllowed_spec set i n :
  (exists j, firstAllowed set i n = j /\ i <= j < i + Z.of_nat n /\ set j = true /\
     forall k, i <= k < j -> set k = false) \/
  firstAllowed set i n = -1 /\ forall k, i <= k < i + Z.of_nat n -> set k = false.
Proof.
  revert i. induction n as [| n IH]; intros i; cbn [firstAllowed]; [right; split; [done |]; lia |].
  destruct (set i) eqn:Hi.
  - left. exists i. repeat split; try done; lia.
  - destruct (IH (i + 1)) as [(j & -> & Hj & Hset & Hk) | [-> Hk]]; [left; exists j | right];
      (split; [done |]); [split; [lia |]; split; [done |] |];
      intros k Hkb; (destruct (decide (k = i)) as [-> |]; [done | apply Hk; lia]).
Qed.

(** Pinning: when some of the first 1024 cores is allowed, a successful
    [pin_to_first_core] restricts the process to exactly the first allowed
    core. *)
Theorem pin_first_allowed m set j cores :
  sched_getaffinity m = Some set -> 0 <= j < 1024 -> set j = true ->
  pin_to_first_core m = Some cores ->
  exists core, cores = [core] /\ 0 <= core <= j /\ set core = true /\
    (forall k, 0 <= k < core -> set k = false) /\ sched_setaffinity m [core] = true.
Proof.
  intros Hg Hj Hset. unfold pin_to_first_core. rewrite Hg. cbn [mbind option_bind].
  destruct (firstAllowed_spec set 0 CPU_SETSIZE) as [(core & -> & Hc & Hs & Hk) | [_ Hn]].
  2: { rewrite Hn in Hset by (unfold CPU_SETSIZE; lia). done. }
  unfold cpuSet. destruct (Z.leb_spec 0 core), (Z.ltb_spec core (Z.of_nat CPU_SETSIZE)); try lia.
  cbn [andb]. destruct (sched_setaffinity m [core]) eqn:Ha; [| done]. intros [= <-].
  exists core. split; [done |]. split; [| by repeat split].
  split; [done |]. destruct (decide (core <= j)); [done |]. rewrite Hk in Hset by lia. done.
Qed.

(** ** The configuration *)

(** The keys are looked for in order: all are there, or the first one missing is
    named. *)
Lemma checkKeys_spec c keys :
  (checkKeys c keys = inr tt /\ Forall (fun key => is_Some (c !! codes key)) keys) \/
  exists front key back, keys = front ++ key :: back /\
    Forall (fun key => is_Some (c !! codes key)) front /\ c !! codes key = None /\
    checkKeys c keys = inl (Some ("STATUS=Missing mandatory configuration field: " ++ key)%string).
Proof.
  induction keys as [| key keys IH]; [by left |]. cbn [checkKeys]. unfold hasKey.
  destruct (c !! codes key) as [v |] eqn:E.
  - rewrite bool_decide_eq_true_2 by by eexists.
    destruct IH as [[-> Hk] | (front & k & back & -> & Hf & Hk & ->)]; [left | right].
    + split; [done |]. constructor; [by rewrite E | done].
    + exists (key :: front), k, back. split; [done |]. split; [constructor; [by rewrite E | done] | done].
  - rewrite bool_decide_eq_false_2 by by intros []. right. exists [], key, keys.
    split_and!; done || constructor.
Qed.

(** The text of a setting: a decimal integer and anything behind it that is no
    digit. *)
Definition integer_text (c : ConfigurationParser) (key : string) (z : Z) : Prop :=
  exists rest, c !! codes key = Some (to_string z ++ rest) /\ ends_number rest /\ - 10 ^ 20 < z < 10 ^ 20.

Lemma integer_setting bits c key z :
  0 < bits <= 64 -> integer_text c key z ->
  (ConfigurationParser.get c (codes key) ≫= stoInteger bits) =
    if decide (- 2 ^ (bits - 1) <= z < 2 ^ (bits - 1)) then Some z else None.
Proof.
  intros Hb (rest & E & Hr & Hz). unfold ConfigurationParser.get. rewrite E. cbn [mbind option_bind].
  exact (stoInteger_to_string bits [] z rest Hb eq_refl Hz Hr).
Qed.

(** C33.  The configuration [main] starts with: from a file of lines whose pairs
    include the six mandatory keys, three of them with decimal integers (and
    anything but a digit behind them), it takes exactly these numbers and the
    threshold as [stod] reads it, when the limit of connections fits an int and
    the intervals a long; otherwise it fails with the status that names the
    first setting, in the order of the code, that does not. *)
Theorem readConfiguration_correct m file ls l host port threshold maxConn tpmMs tscMs :
  let c := foldl store_line ∅ (ls ++ [l]) in
  files m file = Some (render_lines ls ++ render_line l) -> Forall line_ok ls -> line_ok l ->
  c !! codes "host" = Some host -> c !! codes "port" = Some port ->
  integer_text c "max_connections" maxConn -> integer_text c "tpm_interval_in_ms" tpmMs ->
  integer_text c "tsc_check_interval_in_ms" tscMs ->
  c !! codes "tsc_check_deviation_threshold" = Some threshold ->
  readConfiguration m [codes "-c"; file] =
    if decide (- 2 ^ 31 <= maxConn < 2 ^ 31) then
      if decide (- 2 ^ 63 <= tpmMs < 2 ^ 63) then
        if decide (- 2 ^ 63 <= tscMs < 2 ^ 63) then
          match stod threshold with
          | Some d =>
              inr {| config := c; maxConnections_setting := maxConn; tpmIntervalInMS := tpmMs;
                     tscCheckIntervalInMs := tscMs; tscCheckDeviationThreshold := d |}
          | None => inl (Some "STATUS=Invalid value specified for tscCheckDeviationThreshold!")
          end
        else inl (Some "STATUS=Invalid value specified for tsc_check_interval_in_ms!")
      else inl (Some "STATUS=Invalid value specified for tpm_interval_in_ms!")
    else inl (Some "STATUS=Invalid value specified for max_connections!").
Proof.
  intros c Hf Hls Hl Hh Hp Hmax Htpm Htsc Hth. unfold readConfiguration. cbn [commandLine].
  rewrite bool_decide_eq_true_2 by done. cbn [mbind status_bind commandLine].
  rewrite Hf, load_lines by done. fold c. cbn [negb].
  destruct (checkKeys_spec c mandatory) as [[-> _] | (front & key & back & E & _ & Hk & _)].
  2: { exfalso. assert (key ∈ mandatory) as Hin by (rewrite E; set_solver).
    destruct Hmax as (? & Hmax & _), Htpm as (? & Htpm & _), Htsc as (? & Htsc & _).
    unfold mandatory in Hin. repeat (apply elem_of_cons in Hin as [-> | Hin]; [congruence |]).
    by apply elem_of_nil in Hin. }
  cbn [mbind status_bind]. unfold stoi, stol, stoll.
  rewrite (integer_setting 32 c "max_connections" maxConn) by (done || lia).
  rewrite (integer_setting 64 c "tpm_interval_in_ms" tpmMs) by (done || lia).
  rewrite (integer_setting 64 c "tsc_check_interval_in_ms" tscMs) by (done || lia).
  unfold ConfigurationParser.get at 1. rewrite Hth.
  change (2 ^ (32 - 1)) with (2 ^ 31). change (2 ^ (64 - 1)) with (2 ^ 63).
  destruct (decide (- 2 ^ 31 <= maxConn < 2 ^ 31)); cbn [orFail mbind status_bind]; [| reflexivity].
  destruct (decide (- 2 ^ 63 <= tpmMs < 2 ^ 63)); cbn [orFail mbind status_bind]; [| reflexivity].
  destruct (decide (- 2 ^ 63 <= tscMs < 2 ^ 63)); cbn [orFail mbind status_bind option_bind]; [| reflexivity].
  by destruct (stod threshold).
Qed.

(** ** The running server *)

(** What the hardware and the other threads are relied on for: the TPM stack
    answers consistently, counter values are 64-bit, the counter does not run
    backwards and does not reach the horizon of the clock during the
    [later] steps.  The horizon is stated for the timer that is constructed. *)
Record machine_ok (m : machine) : Prop := {
  mo_tpm : tss_sane (tpm m);
  mo_tsc : is_u64 (start_tsc m);
  mo_later : Forall step_ok (later m);
  mo_horizon i threshold t :
    MonotonicTimer.construct (cpu m) (perf m) i threshold (start_time m) (start_tsc m) = Val (Some t) ->
    start_tsc m <= tpm_tsc m /\ in_horizon t (tpm_tsc m + total_ticks (later m));
  mo_recv : buffer_ok (recv_memory m);
  mo_send : zlen (send_memory m) = maxSizeOfMessage;
}.

(** The timer and the cache a successful start leaves form a good world. *)
Lemma started_world m s t id :
  machine_ok m ->
  MonotonicTimer.construct (cpu m) (perf m) (tscCheckIntervalInMs s) (tscCheckDeviationThreshold s)
    (start_time m) (start_tsc m) = Val (Some t) ->
  obtained_id (tpm m) = Some id ->
  world_ok (mkWorld t (mkTPMWatcher id (MonotonicTimer.get t (tpm_tsc m))) (tpm_tsc m) (later m) false) /\
  deviationThreshold t = tscCheckDeviationThreshold s.
Proof.
  intros Hm Ht Hid. destruct (mo_horizon m Hm _ _ _ Ht) as [Hle Hh].
  destruct (obtained_id_wf _ _ (mo_tpm m Hm) Hid) as [Hl Hb].
  assert (wf_timer t /\ startTsc t = start_tsc m /\
    deviationThreshold t = tscCheckDeviationThreshold s) as (Hwf & Hst & Hth).
  { revert Ht. unfold MonotonicTimer.construct. case_test; [done |].
    destruct ((readFrequency (perf m)).2) as [f | | |]; [| done ..]. cbn [mbind outcome_bind].
    case_test; [| done]. destruct (u64_of_double _) as [k | | |] eqn:Hk; [| done ..]. intros [= <-].
    split; [| done]. constructor; [exact (u64_of_double_range _ _ Hk) | exact (mo_tsc m Hm)]. }
  split; [| exact Hth]. constructor; cbn [w_timer w_cache w_tsc w_schedule deviceID lastUpdated].
  - exact Hwf.
  - exact Hl.
  - exact Hb.
  - rewrite Hst. exact Hle.
  - exact Hh.
  - exact (mo_later m Hm).
  - pose proof (get_range t (tpm_tsc m)) as Hr. unfold is_u64 in Hr. unfold now. cbn. lia.
  - reflexivity.
Qed.

(** The server socket is bound to the first address the resolver has for the
    configured host and port, and the resolver's list has been freed. *)
Definition listens_at (m : machine) (s : settings) (r : Responder World) : Prop :=
  exists host port address rest,
    ConfigurationParser.get (config s) (codes "host") = Some host /\
    ConfigurationParser.get (config s) (codes "port") = Some port /\
    getaddrinfo (network m) (c_str host) (c_str port) = Some (address :: rest) /\
    Bound (socket_fd (network m)) address ∈ trace r /\ run_addrinfo 0 (trace r) = Some 0%nat.

(** What it means to have started. *)
Lemma main_ready_inv m args r interval :
  machine_ok m -> main m args = Val (Ready r interval) ->
  exists cores s, pin_to_first_core m = Some cores /\ readConfiguration m args = inr s /\
    maxConnections r = maxConnections_setting s /\ interval = u32 (tpmIntervalInMS s) /\
    deviationThreshold (w_timer (world r)) = tscCheckDeviationThreshold s /\
    obtained_id (tpm m) = Some (deviceID (w_cache (world r))) /\
    inv (socket_fd (network m)) r /\ listens_at m s r.
Proof.
  intros Hm. unfold main. destruct (pin_to_first_core m) as [cores |]; [| done].
  destruct (readConfiguration m args) as [st | s]; [done |]. unfold startComponents.
  destruct (MonotonicTimer.construct _ _ _ _ _ _) as [[t |] | | |] eqn:Ht; try done.
  cbn [mbind outcome_bind]. unfold TPMWatcher.start. rewrite update_result by exact (mo_tpm m Hm).
  destruct (obtained_id (tpm m)) as [id |] eqn:Hid; [| done]. cbn [mbind outcome_bind negb].
  destruct (started_world m s t id Hm Ht Hid) as [Hw Hth].
  destruct (ConfigurationParser.get (config s) (codes "host")) as [host |] eqn:Hhost; [| done].
  destruct (ConfigurationParser.get (config s) (codes "port")) as [port |] eqn:Hport; [| done].
  set (r0 := mkResponder _ _ _ _ _ _ _ _).
  assert (core_ok r0) as Hc by (constructor; [exact (mo_recv m Hm) | exact (mo_send m Hm) | exact Hw]).
  pose proof (setupServer_ok (network m) r0 Hc eq_refl eq_refl) as Hs.
  destruct (setupServer (network m) r0) as [[] r'] eqn:Es; [| done]. cbn [negb]. intros [= <- <-].
  destruct Hs as (Hlist & Hi & Hmax & Hwr & address & rest & Hai & Hb). exists cores, s. rewrite Hmax, Hwr.
  split_and!; [done | done | done | done | exact Hth | done | exact Hi |].
  by exists host, port, address, rest.
Qed.

Section Running.
Context (EVP_Q_digest : list Z -> option (list Z)).

#[local] Instance main_service : ReplyService World := builder_service EVP_Q_digest.
#[local] Instance main_service_laws : ReplyServiceLaws World := builder_service_laws EVP_Q_digest.

(** C6.  A server that [main] has started listens at the configured host and
    port, serves with the configured limit and the TPM's device ID, and its bookkeeping holds for good: whatever the
    sockets answer and however the watcher and the timer thread interleave,
    in every state it reaches the open descriptors are exactly those of its
    list, at most max_connections of them clients, and all are closed once the
    time source is invalid.  The watcher's interval is the configured one modulo
    2^32. *)
Theorem main_serves m args r interval st :
  machine_ok m -> main m args = Val (Ready r interval) -> rtc (step round_ok) (Serving r) st ->
  (exists s, readConfiguration m args = inr s /\ maxConnections r = maxConnections_setting s /\
     interval = tpmIntervalInMS s mod 2 ^ 32 /\ listens_at m s r) /\
  obtained_id (tpm m) = Some (deviceID (w_cache (world r))) /\
  match st with
  | Serving r' =>
      head (sockets r') = Some (socket_fd (network m)) /\ fds_ok (trace r') (sockets r') /\
      (0 <= maxConnections r' < 2 ^ 31 -> zlen (sockets r') <= maxConnections r' + 1)
  | Sleeping r' => sockets r' = [] /\ fds_ok (trace r') []
  | Exited code => code = EXIT_FAILURE
  end.
Proof.
  intros Hm Hr Hst. destruct (main_ready_inv m args r _ Hm Hr) as (cores & s & _ & Hs & Hmax & Hint & _ & Hid & Hi & Hla).
  split; [by exists s |]. split; [exact Hid |].
  pose proof (rtc_ok_server (socket_fd (network m)) (Serving r) st Hst Hi) as Hok.
  destruct st; cbn in Hok; [| done ..]. by destruct Hok.
Qed.
End Running.

(** C34.  A configuration with the threshold "nan" is accepted and switches the
    check of the time source off: in the server it starts, no measured
    frequency ever makes the timer invalid once time has passed. *)
Theorem nan_threshold_accepted m args r interval config rest :
  machine_ok m -> main m args = Val (Ready r interval) ->
  (commandLine args [] ≫= fun f => inr (load (files m f) ∅)) = inr (true, config) ->
  ConfigurationParser.get config (codes "tsc_check_deviation_threshold") = Some (codes "nan" ++ rest) ->
  forall ss, Forall (fun x => x.1 <> startTime (w_timer (world r))) ss ->
    run_callbacks (w_timer (world r)) ss = w_timer (world r).
Proof.
  intros Hm Hr Hc Hget ss Hss.
  destruct (main_ready_inv m args r _ Hm Hr) as (cores & s & _ & Hs & _ & _ & Hth & _).
  apply run_callbacks_nan; [| exact Hss]. rewrite Hth. revert Hs. unfold readConfiguration.
  destruct args as [| a args]; [done |].
  destruct (commandLine (a :: args) []) as [? | f]; [done |]. cbn in Hc. injection Hc as Hc.
  cbn [mbind status_bind]. rewrite Hc. cbn [negb]. destruct (checkKeys config mandatory); [done |].
  cbn [mbind status_bind]. rewrite Hget.
  destruct (_ ≫= stoi); [| done]. destruct (_ ≫= stol); [| done]. destruct (_ ≫= stoll); [| done].
  cbn [orFail mbind status_bind option_bind]. by intros [= <-].
Qed.

(** ** A machine that starts *)

Definition config_of (threshold : string) : list Z :=
  render [(codes "host", codes "0.0.0.0"); (codes "port", codes "7872");
          (codes "max_connections", codes "100"); (codes "tpm_interval_in_ms", codes "60000");
          (codes "tsc_check_interval_in_ms", codes "1000");
          (codes "tsc_check_deviation_threshold", codes threshold)].

Definition sample_machine (threshold : string) : machine := {|
  sched_getaffinity := Some (fun i => (i =? 2) || (i =? 3));
  sched_setaffinity := fun set => negb (bool_decide (set = []));
  files := fun f => if bool_decide (f = codes "nha.conf") then Some (config_of threshold) else None;
  cpu := sample_cpu; perf := sample_perf; start_time := 7; start_tsc := 1000;
  tpm := sample_tss; tpm_tsc := 5000;
  network := {| getaddrinfo := fun host port =>
                  if bool_decide (host = codes "0.0.0.0" /\ port = codes "7872") then Some [[1]] else None;
                socket_fd := 5; fcntl_ok := true; setsockopt_ok := true;
                bind_ok := fun _ => true; listen_ok := true |};
  recv_memory := replicate (Z.to_nat maxSizeOfMessage) 0;
  send_memory := replicate (Z.to_nat maxSizeOfMessage) 0;
  later := [EnvStep 2400 None None];
|}.

Definition sample_args : list (list Z) := [codes "-c"; codes "nha.conf"].

Lemma sample_machine_ok threshold : machine_ok (sample_machine threshold).
Proof.
  constructor; cbn [tpm start_tsc later cpu perf start_time tpm_tsc recv_memory send_memory sample_machine].
  - exact sample_tss_sane.
  - unfold is_u64. lia.
  - constructor; [split; [cbn; lia | done] | constructor].
  - intros i th t E. split; [lia |].
    assert (nsPerTickMultiplier t = nsPerTickMultiplier sample_timer /\ startTsc t = 1000) as [Hn Hs].
    { vm_compute in E. injection E as <-. split; reflexivity. }
    unfold in_horizon. rewrite Hn, Hs. split; cbn; lia.
  - split; [apply Forall_replicate; unfold is_byte; lia | unfold zlen; rewrite length_replicate; done].
  - unfold zlen. rewrite length_replicate. done.
Qed.

(** The responder it starts with. *)
Definition sample_ready (threshold : string) : Responder World :=
  match main (sample_machine threshold) sample_args with
  | Val (Ready r _) => r
  | _ => mkResponder [] [] 0 [] [] [] [] sample_world
  end.

Lemma sample_starts :
  main (sample_machine "0.01") sample_args = Val (Ready (sample_ready "0.01") 60000) /\
  main (sample_machine "nan") sample_args = Val (Ready (sample_ready "nan") 60000).
Proof.
  split; [vm_cast_no_check (eq_refl (Val (Ready (sample_ready "0.01") 60000)))
         | vm_cast_no_check (eq_refl (Val (Ready (sample_ready "nan") 60000)))].
Qed.

(** A round in which nothing arrives. *)
Definition idle_round : round := Round [WouldBlockAccept] (fun _ => Connection (fun _ _ => WouldBlock) (fun _ => 0)) true.

Lemma idle_round_ok : round_ok idle_round.
Proof. constructor; [by left | intros fd k n _; done]. Qed.

(** What it leaves of a responder without clients. *)
Definition after_idle (r : Responder World) : Responder World :=
  set_sockets (sockets r) (set_world (timer_getValid (timer_getValid (world r)).2).2 r).

Lemma idle_step `{ReplyService World} r s :
  sockets r = [s] -> (timer_getValid (world r)).1 = true ->
  step round_ok (Serving r) (Serving (after_idle r)).
Proof.
  intros Hs Hv. destruct (timer_getValid (world r)) as [v w] eqn:E. cbn [fst] in Hv. subst v.
  apply (step_round _ r w idle_round); [exact idle_round_ok | exact E |].
  unfold serveRound, acceptNewClients, handleQueriesAndCleanUpConnections, after_idle, set_sockets, set_world.
  cbn [sockets accepts idle_round]. rewrite Hs. cbn [acceptLoop mbind outcome_bind sockets].
  rewrite E. cbn [handleLoop world net snd]. by destruct (timer_getValid w).
Qed.

(** A file with a comment, a unit behind a number and a limit that does not fit. *)
Definition settings_lines (limit : string) : list config_line :=
  [CommentLine [] (codes " server"); PairLine [] (codes "host") [SPACE] (codes "0.0.0.0") [];
   PairLine [] (codes "port") [TAB] (codes "7872") [CR];
   PairLine [SPACE] (codes "max_connections") [SPACE] (codes limit) (codes " # clients");
   PairLine [] (codes "tpm_interval_in_ms") [SPACE] (codes "60000ms") [];
   PairLine [] (codes "tsc_check_interval_in_ms") [SPACE] (codes "1000") []].
Definition settings_last : config_line :=
  PairLine [] (codes "tsc_check_deviation_threshold") [SPACE] (codes "0.01") [].

Definition settings_machine (limit : string) : machine :=
  let m := sample_machine "0.01" in
  {| sched_getaffinity := sched_getaffinity m; sched_setaffinity := sched_setaffinity m;
     files := fun _ => Some (render_lines (settings_lines limit) ++ render_line settings_last);
     cpu := cpu m; perf := perf m; start_time := start_time m; start_tsc := start_tsc m; tpm := tpm m;
     tpm_tsc := tpm_tsc m; network := network m; recv_memory := recv_memory m;
     send_memory := send_memory m; later := later m |}.

Lemma readConfiguration_correct_witness :
  readConfiguration (settings_machine "2147483648") [codes "-c"; codes "f"] =
    inl (Some "STATUS=Invalid value specified for max_connections!").
Proof.
  apply (readConfiguration_correct (settings_machine "2147483648") (codes "f") (settings_lines "2147483648")
    settings_last (codes "0.0.0.0") (codes "7872") (codes "0.01") 2147483648 60000 1000).
  - reflexivity.
  - repeat (constructor; [repeat split; vm_compute; congruence |]). constructor.
  - repeat split; vm_compute; congruence.
  - vm_compute. reflexivity.
  - vm_compute. reflexivity.
  - exists []. split; [vm_compute; reflexivity | done].
  - exists (codes "ms"). split; [vm_compute; reflexivity | done].
  - exists []. split; [vm_compute; reflexivity | done].
  - vm_compute. reflexivity.
Defined.

(** With a limit that fits, the same file is read. *)
Example readConfiguration_sample :
  match readConfiguration (settings_machine "100") [codes "-c"; codes "f"] with
  | inr s => maxConnections_setting s = 100 /\ tpmIntervalInMS s = 60000 /\ tscCheckIntervalInMs s = 1000
  | inl _ => False
  end.
Proof. vm_compute. done. Qed.

Lemma pin_first_allowed_witness :
  exists core, [2] = [core] /\ 0 <= core <= 3 /\ (core =? 2) || (core =? 3) = true /\
    (forall k, 0 <= k < core -> (k =? 2) || (k =? 3) = false) /\
    sched_setaffinity (sample_machine "0.01") [core] = true.
Proof.
  apply (pin_first_allowed (sample_machine "0.01") (fun i => (i =? 2) || (i =? 3)) 3 [2]).
  - reflexivity.
  - lia.
  - reflexivity.
  - vm_compute. reflexivity.
Defined.

Lemma main_serves_witness :
  (exists s, readConfiguration (sample_machine "0.01") sample_args = inr s /\
     maxConnections (sample_ready "0.01") = maxConnections_setting s /\
     60000 = tpmIntervalInMS s mod 2 ^ 32 /\
     listens_at (sample_machine "0.01") s (sample_ready "0.01")) /\
  obtained_id sample_tss = Some (deviceID (w_cache (world (sample_ready "0.01")))) /\
  let r' := after_idle (sample_ready "0.01") in
  head (sockets r') = Some 5 /\ fds_ok (trace r') (sockets r') /\
  (0 <= maxConnections r' < 2 ^ 31 -> zlen (sockets r') <= maxConnections r' + 1).
Proof.
  apply (main_serves sum_digest (sample_machine "0.01") sample_args (sample_ready "0.01") 60000
    (Serving (after_idle (sample_ready "0.01")))).
  - apply sample_machine_ok.
  - apply sample_starts.
  - apply rtc_once, (idle_step _ 5).
    + vm_cast_no_check (eq_refl [5]).
    + vm_cast_no_check (eq_refl true).
Defined.

Lemma nan_threshold_accepted_witness :
  run_callbacks (w_timer (world (sample_ready "nan"))) [(1000000000, 9999999999999); (2000000000, 3)] =
    w_timer (world (sample_ready "nan")).
Proof.
  apply (nan_threshold_accepted (sample_machine "nan") sample_args (sample_ready "nan") 60000
    (load (Some (config_of "nan")) ∅).2 []).
  - apply sample_machine_ok.
  - apply sample_starts.
  - vm_compute. reflexivity.
  - vm_compute. reflexivity.
  - assert (startTime (w_timer (world (sample_ready "nan"))) = 7) as -> by (vm_cast_no_check (eq_refl 7)).
    repeat constructor; cbn; lia.
Defined.
