(* ===== verification/Timer.v ===== *)
(** * src/src/timer.cpp: class Timer

    The timer's thread and a thread that stops it, as a step relation over the
    shared flag, the mutex and the position of each thread in its code.  A
    wait on the condition variable may end by a notification, spuriously, or
    by its timeout, and each way it re-acquires the mutex first. *)

From S2P Require Import Prelude.
From stdpp Require Import relations.

Local Open Scope Z_scope.

(** Where the thread of [start] is. *)
Inductive worker :=
  | NotStarted
  | WantLock                (* line 20: unique_lock(mutex) *)
  | EvalPredicate           (* wait_for: about to evaluate [stopped], mutex held *)
  | Waiting                 (* wait_for: blocked, mutex released *)
  | Woken                   (* notified or spuriously woken, wants the mutex *)
  | TimedOut                (* the interval has passed, wants the mutex *)
  | EvalAfterTimeout        (* about to evaluate [stopped] for the last time, mutex held *)
  | InCallback              (* lines 36-45, mutex released *)
  | WantRelock              (* line 47 *)
  | Finished.

(** Where the thread of [stop] is. *)
Inductive stopper :=
  | Idle
  | StopWantLock            (* line 55: lock_guard *)
  | StopHoldsLock           (* line 57 *)
  | Notifying               (* line 60 *)
  | Joining                 (* lines 62-65 *)
  | Stopped.

Inductive owner := Nobody | TheWorker | TheStopper.

#[export] Instance worker_eq_dec : EqDecision worker.
Proof. solve_decision. Defined.
#[export] Instance stopper_eq_dec : EqDecision stopper.
Proof. solve_decision. Defined.
#[export] Instance owner_eq_dec : EqDecision owner.
Proof. solve_decision. Defined.

Record Timer := mkTimer {
  running : bool;
  mutex : owner;
  thread : worker;
  stop_call : stopper;
  periods : nat;            (* intervals that have passed *)
  calls : nat;              (* callbacks begun *)
}.

(** The constructor. *)
Definition construct : Timer := mkTimer true Nobody NotStarted Idle 0 0.

(** [start]: the thread begins. *)
Definition start (t : Timer) : Timer :=
  mkTimer (running t) (mutex t) WantLock (stop_call t) (periods t) (calls t).

(** [thread.joinable()] *)
Definition joinable (w : worker) : bool :=
  match w with NotStarted => false | _ => true end.

Inductive step : Timer -> Timer -> Prop :=
  (* the thread *)
  | step_lock r s n c :
      step (mkTimer r Nobody WantLock s n c) (mkTimer r TheWorker EvalPredicate s n c)
  | step_wait s n c :
      step (mkTimer true TheWorker EvalPredicate s n c) (mkTimer true Nobody Waiting s n c)
  | step_exit s n c :
      step (mkTimer false TheWorker EvalPredicate s n c) (mkTimer false Nobody Finished s n c)
  | step_wake r m s n c :
      step (mkTimer r m Waiting s n c) (mkTimer r m Woken s n c)
  | step_timeout r m s n c :
      step (mkTimer r m Waiting s n c) (mkTimer r m TimedOut s (S n) c)
  | step_woken r s n c :
      step (mkTimer r Nobody Woken s n c) (mkTimer r TheWorker EvalPredicate s n c)
  | step_timed_out r s n c :
      step (mkTimer r Nobody TimedOut s n c) (mkTimer r TheWorker EvalAfterTimeout s n c)
  | step_call s n c :
      step (mkTimer true TheWorker EvalAfterTimeout s n c) (mkTimer true Nobody InCallback s n (S c))
  | step_exit_timeout s n c :
      step (mkTimer false TheWorker EvalAfterTimeout s n c) (mkTimer false Nobody Finished s n c)
  | step_called r m s n c :
      (* returned or thrown, the exception is swallowed *)
      step (mkTimer r m InCallback s n c) (mkTimer r m WantRelock s n c)
  | step_relock r s n c :
      step (mkTimer r Nobody WantRelock s n c) (mkTimer r TheWorker EvalPredicate s n c)
  (* stop() *)
  | step_stop r m w n c :
      step (mkTimer r m w Idle n c) (mkTimer r m w StopWantLock n c)
  | step_stop_lock r w n c :
      step (mkTimer r Nobody w StopWantLock n c) (mkTimer r TheStopper w StopHoldsLock n c)
  | step_stop_flag r w n c :
      step (mkTimer r TheStopper w StopHoldsLock n c) (mkTimer false Nobody w Notifying n c)
  | step_stop_notify r m w n c :
      step (mkTimer r m w Notifying n c)
           (mkTimer r m (match w with Waiting => Woken | w => w end) Joining n c)
  | step_stop_join r m w n c :
      joinable w = false \/ w = Finished ->
      step (mkTimer r m w Joining n c) (mkTimer r m w Stopped n c).

(** ** The invariant *)

(** The worker holds the mutex exactly where its code does; so does [stop]. *)
Definition holds_lock (w : worker) : bool :=
  match w with EvalPredicate | EvalAfterTimeout => true | _ => false end.

(** The timeout that a callback needs has passed but not been used yet. *)
Definition timeout_pending (w : worker) : nat :=
  match w with TimedOut | EvalAfterTimeout => 1 | _ => 0 end.

(** [stop] has not cleared the flag yet. *)
Definition before_flag (s : stopper) : bool :=
  match s with Idle | StopWantLock | StopHoldsLock => true | _ => false end.

(** Who holds the mutex, what the flag is, and what a finished thread and a
    finished [stop] imply, decided on the finite part of the state. *)
Definition okb (r : bool) (m : owner) (w : worker) (s : stopper) : bool :=
  eqb (bool_decide (m = TheWorker)) (holds_lock w) &&
  eqb (bool_decide (m = TheStopper)) (bool_decide (s = StopHoldsLock)) &&
  eqb r (before_flag s) &&
  (negb (bool_decide (w = Finished)) || negb r) &&
  (negb (bool_decide (s = Stopped)) || bool_decide (w = Finished) || bool_decide (w = NotStarted)).

Record ok (t : Timer) : Prop := {
  ok_state : okb (running t) (mutex t) (thread t) (stop_call t) = true;
  ok_calls : (calls t + timeout_pending (thread t) <= periods t)%nat;
}.

Lemma start_ok : ok (start construct).
Proof. constructor; [reflexivity | cbn; lia]. Qed.

Lemma step_ok t t' : ok t -> step t t' -> ok t'.
Proof.
  intros [H1 H2] Hs. destruct Hs; constructor; cbn [running mutex thread stop_call calls periods] in *;
    try (cbn in *; lia).
  all: try (destruct w; cbn in *; lia).
  all: revert H1; clear H2; repeat match goal with
    | H : bool |- _ => destruct H
    | H : owner |- _ => destruct H
    | H : worker |- _ => destruct H
    | H : stopper |- _ => destruct H
    end; vm_compute; first [congruence | naive_solver].
Qed.

(** Destructs the finite part of a state. *)
Ltac case_state t :=
  destruct t as [r m w s n c]; destruct r, m, w, s.

Lemma reachable_ok t : rtc step (start construct) t -> ok t /\ thread t <> NotStarted.
Proof.
  assert (forall a b, rtc step a b -> ok a /\ thread a <> NotStarted -> ok b /\ thread b <> NotStarted) as Hp.
  { induction 1 as [| x y z Hxy _ IH]; [done |]. intros [Hx Hn]. apply IH.
    split; [by apply (step_ok x) |]. destruct Hxy; cbn in *; try done. by destruct w. }
  intros Ht. apply (Hp _ _ Ht). split; [apply start_ok | done].
Qed.

(** C29.  Thread safety of the timer: in every interleaving of its thread with a
    call of [stop], the mutex is never held by both, the callback runs with the
    mutex released, no more callbacks have begun than intervals have passed
    (the first one comes after the first interval), and once [stop] has
    returned the thread is gone. *)
Theorem timer_safe t :
  rtc step (start construct) t ->
  ~ (holds_lock (thread t) = true /\ stop_call t = StopHoldsLock) /\
  (thread t = InCallback -> mutex t <> TheWorker) /\
  (calls t <= periods t)%nat /\
  (stop_call t = Stopped -> thread t = Finished).
Proof.
  intros Ht. destruct (reachable_ok t Ht) as [[Hok Hc] Hn].
  split; [| split; [| split; [lia |]]]; revert Hok Hn; clear; case_state t; vm_compute; naive_solver.
Qed.

Lemma step_stopped t t' :
  running t = false -> step t t' -> running t' = false /\ calls t' = calls t.
Proof. intros Hr Hs. destruct Hs; cbn in *; done. Qed.

(** Stopping is final: once the flag is cleared no further callback begins,
    however the threads go on. *)
Theorem stop_final t t' :
  running t = false -> rtc step t t' -> running t' = false /\ calls t' = calls t.
Proof.
  intros Hr Hs. induction Hs as [| x y z Hxy _ IH]; [done |].
  destruct (step_stopped x y Hr Hxy) as [Hy Hc]. rewrite <- Hc. by apply IH.
Qed.

(** Steps the two threads still have to make after the flag is cleared. *)
Definition steps_left (t : Timer) : nat :=
  match thread t with
  | NotStarted | Finished => 0
  | EvalPredicate | EvalAfterTimeout => 1
  | WantLock | Woken | TimedOut | WantRelock => 2
  | Waiting | InCallback => 3
  end +
  match stop_call t with Notifying => 2 | Joining => 1 | _ => 0 end.

Lemma step_decreases t t' :
  ok t -> running t = false -> step t t' -> (steps_left t' < steps_left t)%nat.
Proof.
  intros [Hok _] Hr Hs. destruct Hs; cbn in Hr; try discriminate; try subst r;
    unfold steps_left; cbn [thread stop_call]; try lia.
  all: try (destruct w; cbn; lia).
  all: exfalso; revert Hok; cbn [running mutex thread stop_call]; clear;
    repeat match goal with x : owner |- _ => destruct x | x : worker |- _ => destruct x end;
    vm_compute; discriminate.
Qed.

Lemma progress t : ok t -> stop_call t <> Stopped -> exists t', step t t'.
Proof.
  intros [Hok _] Hn. revert Hok Hn. case_state t; vm_compute; intros Hok Hn; try discriminate; try done;
    eexists; solve [constructor | apply step_stop_join; auto].
Qed.

(** C31.  [stop] returns: after it has cleared the flag the two threads can make
    five steps at most, whatever the scheduler does, and the only state they
    can end in is the one where [stop] has returned and the thread has ended;
    before that there is no deadlock. *)
Theorem stop_terminates t t' n :
  rtc step (start construct) t -> running t = false -> nsteps step n t t' ->
  (n <= 5)%nat /\ ((forall t'', ~ step t' t'') -> stop_call t' = Stopped /\ thread t' = Finished).
Proof.
  intros Ht Hr Hs. pose proof (rtc_trans _ _ _ Ht (rtc_nsteps_2 _ _ _ Hs)) as Ht'.
  split.
  - assert (n + steps_left t' <= steps_left t)%nat as Hm.
    { destruct (reachable_ok t Ht) as [Hok _]. clear Ht Ht'.
      induction Hs as [x | n x y z Hxy _ IH]; [lia |].
      destruct (step_stopped x y Hr Hxy) as [Hy _]. specialize (IH Hy (step_ok x y Hok Hxy)).
      pose proof (step_decreases x y Hok Hr Hxy). lia. }
    enough (steps_left t <= 5)%nat by lia. clear. case_state t; cbn; lia.
  - intros Hnf. destruct (reachable_ok t' Ht') as [Hok Hn].
    destruct (decide (stop_call t' = Stopped)) as [E | E].
    + split; [done |]. destruct Hok as [Hok _]. revert Hok E Hn. clear. case_state t'; vm_compute; naive_solver.
    + exfalso. destruct (progress t' Hok E) as [t'' Hs'']. by apply (Hnf t'').
Qed.

(** ** Instances: one interval passes, the callback runs, then the timer is
    stopped while its thread waits *)

Definition called_once : Timer := mkTimer true Nobody Waiting Idle 1 1.
Definition flag_cleared : Timer := mkTimer false Nobody Waiting Notifying 1 1.
Definition all_done : Timer := mkTimer false Nobody Finished Stopped 1 1.

Lemma reach_called_once : rtc step (start construct) called_once.
Proof.
  eapply rtc_l; [apply step_lock |]. eapply rtc_l; [apply step_wait |].
  eapply rtc_l; [apply step_timeout |]. eapply rtc_l; [apply step_timed_out |].
  eapply rtc_l; [apply step_call |]. eapply rtc_l; [apply step_called |].
  eapply rtc_l; [apply step_relock |]. eapply rtc_l; [apply step_wait |]. apply rtc_refl.
Qed.

Lemma reach_flag_cleared : rtc step (start construct) flag_cleared.
Proof.
  eapply rtc_trans; [apply reach_called_once |]. eapply rtc_l; [apply step_stop |].
  eapply rtc_l; [apply step_stop_lock |]. eapply rtc_l; [apply step_stop_flag |]. apply rtc_refl.
Qed.

Lemma reach_all_done : nsteps step 4 flag_cleared all_done.
Proof.
  eapply nsteps_l; [apply step_stop_notify |]. eapply nsteps_l; [apply step_woken |].
  eapply nsteps_l; [apply step_exit |]. eapply nsteps_l; [apply step_stop_join; by right |].
  apply nsteps_O.
Qed.

Lemma timer_safe_witness :
  ~ (holds_lock (thread called_once) = true /\ stop_call called_once = StopHoldsLock) /\
  (thread called_once = InCallback -> mutex called_once <> TheWorker) /\
  (calls called_once <= periods called_once)%nat /\
  (stop_call called_once = Stopped -> thread called_once = Finished).
Proof. apply (timer_safe called_once). exact reach_called_once. Defined.

Lemma stop_final_witness : running all_done = false /\ calls all_done = calls flag_cleared.
Proof.
  apply (stop_final flag_cleared all_done).
  - reflexivity.
  - exact (rtc_nsteps_2 _ _ _ reach_all_done).
Defined.

Lemma stop_terminates_witness :
  (4 <= 5)%nat /\ ((forall t'', ~ step all_done t'') -> stop_call all_done = Stopped /\ thread all_done = Finished).
Proof.
  apply (stop_terminates flag_cleared all_done 4).
  - exact reach_flag_cleared.
  - reflexivity.
  - exact reach_all_done.
Defined.
